(* ===== verification/_CoqProject ===== *)
-Q . S2P
Prelude.v
Effects.v
HeapList.v
RingBuffer.v
Stat.v
Logging.v
DnsServer.v
DnsServerTcp.v
TcpClients.v
Options.v
IoEvents.v
DnsPoller.v
AddrList.v
HttpsClient.v
HttpsTransfers.v
HttpsProperties.v
HttpsText.v
Main.v
Callbacks.v
System.v
