(* ===== verification/Prelude.v ===== *)
(** * A verification library for https_dns_proxy

    https_dns_proxy answers DNS requests over UDP and TCP by forwarding them to
    a DNS-over-HTTPS resolver.  It is one process with one libev event loop: all
    code runs in callbacks of watchers, one at a time, to completion.

    ** The program and its model

    - src/options.c turns the command line into a settings record: [Options].
    - src/dns_server.c (UDP) and src/dns_server_tcp.c (TCP) receive requests and
      hand them to a callback, and send the responses: [DnsServer],
      [DnsServerTcp], [TcpClients].
    - src/https_client.c posts each request to the resolver with libcurl:
      [HttpsClient] is the code, [HttpsTransfers] its invariant and event loop,
      [HttpsProperties] what is posted, collected and reported, [HttpsText] the
      hex dumps and libcurl's debug text; [IoEvents] the watcher slots.
    - src/dns_poller.c resolves the resolver's own host name with c-ares, again
      and again: [DnsPoller].
    - src/main.c connects these parts: [Main] is the code (the memory of the
      process is [proxy_t], one field per part), [AddrList] its comparison of
      address lists, [Callbacks] the properties of the three callbacks between
      the parts, [System] the running proxy: start-up and the event loop over
      the watchers of all parts.
    - src/logging.c, src/ring_buffer.c and src/stat.c are logging with a flight
      recorder and the statistics: [Logging], [RingBuffer], [Stat].

    ** How the code is represented

    A handler is a computation of the monad [M W A] of [Effects]: it reads and
    writes the part of the memory [W] its component owns (a [Lens]), asks the
    outside world ([perform], answered by an arbitrary environment [Env]), leaves
    a trace of what it does to the outside ([emit]), and returns or stops: by
    [exit], by [abort], or by undefined behaviour ([Fault]), so that "does not
    fault" is a theorem and not a convention.  [wp] is total correctness: a
    postcondition for returning, one for stopping.  Integers are [Z] with the
    wrap-around of their C type written where the code computes at that width;
    buffers are lists of bytes; objects linked by pointers live in a [gmap] heap
    ([HeapList]), so that a use after free is visible; [double] is IEEE binary64.
    C structures are records with the source's field names, functions keep the
    source's names.

    Code that is not part of the repository is a parameter: the kernel and the
    C library's allocator are the environment; c-ares' message functions are the
    class [AresDns] with the laws [AresLaws], its callbacks are answers of the
    environment executed in order ([OrderlyAres]), [ares_inet_ntop] is
    [AresNtop] with [NtopLaws]; a call of libcurl answers with its result and the
    callbacks it makes, which are executed in order ([OrderlyCurl],
    [QuietRemoval]).  [strtoul], [getopt], [strstr] and the like are written out.
    Components meet at classes: [ReqCallback] is what the TCP server needs from
    the request callback, [RespCallback] what the HTTPS client needs from the
    response callback, [PollCallback] what the poller needs from its own; each
    has a predicate on the rest of the program that the callback may rely on and
    must establish again, and is discharged in [Callbacks].  [own] and [Framed]
    of [Effects] say that a step within one part leaves such predicates alone.

    Log lines are events here; what the logging functions do with a line is
    modelled and proved in [Logging], and [System] lets lines be written between
    any two callbacks.

    ** What is proved

    - [Prelude], [Effects], [HeapList], [IoEvents]: machine integers, bytes,
      lists by [Z] index, the monad and its rules, linked lists in memory, and
      the slot array as a finite map.
    - [DnsServerTcp]: the bytes of a client, cut in any way, are reassembled into
      exactly the requests sent; a length of 65534 or 65535 breaks it, by an
      over-read or an endless loop.
    - [TcpClients]: the client list, counters and watchers are consistent in
      every reachable state; no callback uses a removed client; a response is
      written whole or its client is dropped; stopping releases everything.
    - [DnsServer]: a datagram is delivered whole or dropped; a response becomes
      one datagram within the client's limit or marked as truncated, with the
      same id, and the truncation loops end.
    - [DnsPoller]: the timer is always armed again, the watchers follow c-ares,
      the address list is complete up to the buffer's size.
    - [AddrList]: an address list is kept only if all old addresses are in the
      new one, and always if each is there and is no part of a longer one.
    - [HttpsTransfers], [HttpsProperties]: every request is answered exactly once
      or has its transfer on the list, whatever libcurl reports; no freed handle,
      transfer or list is used; the request is posted unchanged, the response is
      collected and handed over exactly when it is genuine; clean-up frees
      everything; the watchers follow libcurl.
    - [HttpsText]: a hex dump can be read back; what becomes of any debug text,
      the lines lost after one that begins with Expire and the read past the end
      of a text included.
    - [Main], [Callbacks]: the host name fits; requests are posted with the data
      that lead back to the client, or refused before bootstrapping; replies
      reach the client that asked; new addresses replace the old ones whole.
    - [System]: the invariants of all parts hold together in every state of the
      running proxy and every callback keeps them; the ways the process can end
      are listed; at shutdown the address list is freed while it is in use.
    - [Options]: what a successful parse guarantees, the identities and the log
      file looked up included, and that a command line is read back as the
      settings it expresses.
    - [RingBuffer], [Logging], [Stat]: the flight recorder holds the newest
      lines, a line is printed and recorded as its level and the memory say and
      fits its buffer, a fatal line ends the process (but for a full recorder
      that had no memory for a line, whose dump is undefined), the statistics
      line totals its interval.

    A datagram or a transfer that the outside may refuse is stated with its
    refusal: [attempted] of [DnsServer] says that a datagram was handed to
    [sendto] and was sent exactly when it was taken, [declined] of
    [HttpsTransfers] that libcurl refused the transfer and the request was closed
    at once.

    ** Fuel

    Loops of the source that are not structural run on fuel and stop with
    [OutOfFuel] when it is used up; the theorems show that this does not happen.
    The fuel is: for a walk over a linked list the number of live objects plus
    one; for splitting requests the bytes in the buffer plus one (each request
    takes at least two, except for the oversized length proved to loop); for
    growing a buffer 32 doublings of which at most ten are used; for emptying a
    message section its record count.  Loops the source bounds itself (50 sends,
    255 truncation rounds) have exactly that bound.

    ** What is not modelled, and the order of further work

    Limits of the representation, which the theorems do not see beyond:

    - the request record and the bytes of a DNS request are values, and their
      [free] is an event: a use of them after it, by the program or by libcurl,
      which does not copy [CURLOPT_POSTFIELDS], would not be a fault here (the
      transfers, handles, lists and TCP clients are heap objects, where it is);
    - [Replied] is an event beside the call of the response callback in
      [https_fetch_ctx_cleanup], with the same reply; the theorems that count
      answers speak of the event;
    - [isprint] is total, while a negative [char] (https_client.c:163) is
      undefined in C;
    - in the callbacks a log line is an event, so what can go wrong in [_log]
      itself is stated in [Logging] and not in [System], where the lines written
      between two callbacks are those that returned, and nothing is claimed of
      how a dump on a signal ends when there is a flight recorder;
    - the latency of a reply is undefined when the clock was set back, which is
      an exception of the theorems on replies.

    Next is the second run of the event loop: what [main_stop] leaves when no
    transfer is open, and that [main_end] releases everything; the states that
    [System] calls reachable are those of the first run.  Not modelled: libev
    itself (the loop runs callbacks of active watchers in any order), the text of
    log messages beyond their format, and the build and test files. *)

From Stdlib Require Import ZArith Lia Ascii String.
From Stdlib Require Import Strings.Byte.
From Stdlib Require SpecFloat.
From stdpp Require Import base tactics list option gmap.

Declare Scope proxy_scope.
Delimit Scope proxy_scope with proxy.
Open Scope Z_scope.

(** The lemmas that close the routine goals of the components. *)
Create HintDb proxy.
Create Rewrite HintDb proxy.
Create Rewrite HintDb zlen.

(** Replace boolean tests in the context by the facts they decide. *)
Ltac bool_facts :=
  repeat match goal with
  | H : (_ && _)%bool = true |- _ => apply andb_true_iff in H as [? ?]
  | H : (_ || _)%bool = false |- _ => apply orb_false_iff in H as [? ?]
  | H : negb _ = true |- _ => apply negb_true_iff in H
  | H : negb _ = false |- _ => apply negb_false_iff in H
  | H : (_ <=? _) = true |- _ => apply Z.leb_le in H
  | H : (_ <=? _) = false |- _ => apply Z.leb_gt in H
  | H : (_ <? _) = true |- _ => apply Z.ltb_lt in H
  | H : (_ <? _) = false |- _ => apply Z.ltb_ge in H
  | H : (_ =? _) = true |- _ => apply Z.eqb_eq in H
  | H : (_ =? _) = false |- _ => apply Z.eqb_neq in H
  end.

(** ** Machine integers

    A C integer of width [w] is a [Z]; the wrap-around of unsigned arithmetic
    is written where the source computes at that width.  [size_t] and
    [unsigned long] are 64 bits wide, [int] is 32 bits wide. *)

Definition wrap (w z : Z) : Z := z mod 2 ^ w.

Abbreviation u8 := (wrap 8).
Abbreviation u16 := (wrap 16).
Abbreviation u32 := (wrap 32).
Abbreviation u64 := (wrap 64).

Definition UINT8_MAX : Z := 255.
Definition UINT16_MAX : Z := 65535.
Definition INT32_MAX : Z := 2147483647.
Definition ULONG_MAX : Z := 18446744073709551615.

Lemma wrap_small w z : 0 <= z < 2 ^ w -> wrap w z = z.
Proof. intros. unfold wrap. by rewrite Z.mod_small. Qed.

Lemma wrap_range w z : 0 <= w -> 0 <= wrap w z < 2 ^ w.
Proof. intros. unfold wrap. apply Z.mod_pos_bound, Z.pow_pos_nonneg; lia. Qed.

Lemma wrap_add_l w a b : wrap w (wrap w a + b) = wrap w (a + b).
Proof. unfold wrap. apply Zplus_mod_idemp_l. Qed.

Lemma wrap_add_r w a b : wrap w (a + wrap w b) = wrap w (a + b).
Proof. unfold wrap. apply Zplus_mod_idemp_r. Qed.

Lemma wrap_wrap w a : wrap w (wrap w a) = wrap w a.
Proof. unfold wrap. apply Z.mod_mod_divide, Z.divide_refl. Qed.

#[export] Hint Rewrite wrap_add_l wrap_add_r wrap_wrap : proxy.

(** ** Bytes

    A C [char] buffer is a [list byte]; [byte_val] reads a byte as an unsigned
    number and [byte_of] stores the low eight bits of a number. *)

Definition byte_val (b : byte) : Z := Z.of_N (Byte.to_N b).

Definition byte_of (z : Z) : byte :=
  match Byte.of_N (Z.to_N (wrap 8 z)) with Some b => b | None => x00 end.

Lemma byte_val_range b : 0 <= byte_val b < 256.
Proof.
  unfold byte_val. pose proof (Byte.to_N_bounded b). lia.
Qed.

Lemma byte_val_of z : byte_val (byte_of z) = z mod 256.
Proof.
  unfold byte_val, byte_of, wrap. change (2 ^ 8) with 256.
  pose proof (Z.mod_pos_bound z 256 ltac:(lia)) as Hb.
  destruct (Byte.of_N (Z.to_N (z mod 256))) as [b|] eqn:E.
  - apply Byte.to_of_N in E. rewrite E. lia.
  - apply Byte.of_N_None_iff in E. lia.
Qed.

Lemma byte_of_val b : byte_of (byte_val b) = b.
Proof.
  unfold byte_of. rewrite wrap_small by apply byte_val_range.
  unfold byte_val. rewrite N2Z.id, Byte.of_to_N. done.
Qed.

#[export] Instance byte_eq_dec : EqDecision byte.
Proof. intros a b. destruct (Byte.byte_eq_dec a b); [by left|by right]. Defined.

(** [ntohs] of the two bytes at the front of a buffer, and [htons] as the two
    bytes that are stored: network byte order is big-endian. *)
Definition ntohs (hi lo : byte) : Z := byte_val hi * 256 + byte_val lo.

Definition htons (n : Z) : list byte := [byte_of (n / 256); byte_of n].

Lemma ntohs_range hi lo : 0 <= ntohs hi lo <= UINT16_MAX.
Proof.
  unfold ntohs, UINT16_MAX.
  pose proof (byte_val_range hi). pose proof (byte_val_range lo). lia.
Qed.

Lemma ntohs_htons n :
  0 <= n <= UINT16_MAX -> ntohs (byte_of (n / 256)) (byte_of n) = n.
Proof.
  intros Hn. unfold ntohs, UINT16_MAX in *. rewrite !byte_val_of.
  rewrite (Z.mod_small (n / 256)).
  - pose proof (Z.div_mod n 256 ltac:(lia)). lia.
  - split; [apply Z.div_pos; lia|apply Z.div_lt_upper_bound; lia].
Qed.

(** ** Floating point

    [double] and libev's [ev_tstamp] are IEEE 754 binary64 numbers. *)

Definition double : Type := SpecFloat.spec_float.
Definition double_of_Z (z : Z) : double := SpecFloat.binary_normalize 53 1024 z 0 false.
Definition dadd : double -> double -> double := SpecFloat.SFadd 53 1024.
Definition dsub : double -> double -> double := SpecFloat.SFsub 53 1024.
Definition dmul : double -> double -> double := SpecFloat.SFmul 53 1024.
Definition ddiv : double -> double -> double := SpecFloat.SFdiv 53 1024.
Definition dltb : double -> double -> bool := SpecFloat.SFltb.

(** [(uint64_t)d]: truncation towards zero, undefined when the truncated value
    does not fit. *)
Definition uint64_of_double (d : double) : option Z :=
  match d with
  | SpecFloat.S754_zero _ => Some 0
  | SpecFloat.S754_finite s m e =>
      let n := if 0 <=? e then Z.pos m * 2 ^ e else Z.pos m / 2 ^ (- e) in
      if s then (if n =? 0 then Some 0 else None)
      else if n <? 2 ^ 64 then Some n else None
  | _ => None
  end.

Lemma uint64_of_double_range d n : uint64_of_double d = Some n -> 0 <= n < 2 ^ 64.
Proof.
  destruct d as [| | |s m e]; cbn; try done; [by intros [= <-]|].
  assert (0 <= (if 0 <=? e then Z.pos m * 2 ^ e else Z.pos m / 2 ^ (- e))) as Hpos.
  { destruct (0 <=? e) eqn:E.
    - apply Z.mul_nonneg_nonneg; [lia|]. apply Z.pow_nonneg. lia.
    - apply Z.div_pos; [lia|]. apply Z.pow_pos_nonneg; lia. }
  set (n0 := if 0 <=? e then _ else _) in *. clearbody n0.
  destruct s; repeat case_match; intros [= <-]; bool_facts; lia.
Qed.

(** ** Lists measured in [Z]

    Buffer sizes and offsets are C integers, so lists are measured, cut and
    updated with [Z] indices. *)

Definition zlen {A} (l : list A) : Z := Z.of_nat (length l).
Definition ztake {A} (n : Z) (l : list A) : list A := take (Z.to_nat n) l.
Definition zdrop {A} (n : Z) (l : list A) : list A := drop (Z.to_nat n) l.
Definition znth {A} (l : list A) (i : Z) : option A :=
  if 0 <=? i then l !! Z.to_nat i else None.
Definition zset {A} (l : list A) (i : Z) (x : A) : list A :=
  if 0 <=? i then <[Z.to_nat i := x]> l else l.

Section ZLists.
Context {A : Type}.
Implicit Types (l k : list A) (n i : Z).

Lemma zlen_nonneg l : 0 <= zlen l.
Proof. unfold zlen. lia. Qed.

Lemma zlen_nil : zlen (@nil A) = 0.
Proof. done. Qed.

Lemma zlen_cons x l : zlen (x :: l) = 1 + zlen l.
Proof. unfold zlen. cbn [length]. lia. Qed.

Lemma zlen_app l k : zlen (l ++ k) = zlen l + zlen k.
Proof. unfold zlen. rewrite length_app. lia. Qed.

Lemma zlen_ztake n l : 0 <= n -> zlen (ztake n l) = Z.min n (zlen l).
Proof. intros. unfold zlen, ztake. rewrite length_take. lia. Qed.

Lemma zlen_zdrop n l : 0 <= n -> zlen (zdrop n l) = Z.max 0 (zlen l - n).
Proof. intros. unfold zlen, zdrop. rewrite length_drop. lia. Qed.

Lemma zlen_zset l i x : zlen (zset l i x) = zlen l.
Proof. unfold zlen, zset. destruct (0 <=? i); by rewrite ?length_insert. Qed.

Lemma ztake_all n l : zlen l <= n -> ztake n l = l.
Proof. intros. unfold ztake, zlen in *. apply take_ge. lia. Qed.

Lemma zdrop_all n l : zlen l <= n -> zdrop n l = [].
Proof. intros. unfold zdrop, zlen in *. apply drop_ge. lia. Qed.

Lemma ztake_zdrop n l : ztake n l ++ zdrop n l = l.
Proof. apply take_drop. Qed.

Lemma ztake_app_exact n l k : n = zlen l -> ztake n (l ++ k) = l.
Proof. intros ->. unfold ztake, zlen. rewrite Nat2Z.id. apply take_app_length. Qed.

Lemma zdrop_app_exact n l k : n = zlen l -> zdrop n (l ++ k) = k.
Proof. intros ->. unfold zdrop, zlen. rewrite Nat2Z.id. apply drop_app_length. Qed.

Lemma ztake_app_le n l k : n <= zlen l -> ztake n (l ++ k) = ztake n l.
Proof. intros. unfold ztake, zlen in *. apply take_app_le. lia. Qed.

Lemma zdrop_app_le n l k : n <= zlen l -> zdrop n (l ++ k) = zdrop n l ++ k.
Proof. intros. unfold zdrop, zlen in *. apply drop_app_le. lia. Qed.

Lemma zdrop_zdrop n m l : 0 <= n -> 0 <= m -> zdrop n (zdrop m l) = zdrop (m + n) l.
Proof. intros. unfold zdrop. rewrite drop_drop. f_equal. lia. Qed.

Lemma ztake_0 l : ztake 0 l = [].
Proof. done. Qed.

Lemma zdrop_0 l : zdrop 0 l = l.
Proof. done. Qed.

Lemma ztake_ztake n m l : 0 <= n <= m -> ztake n (ztake m l) = ztake n l.
Proof. intros. unfold ztake. rewrite take_take. f_equal. lia. Qed.

Lemma ztake_zdrop_comm n m l :
  0 <= n -> 0 <= m -> ztake n (zdrop m l) = zdrop m (ztake (m + n) l).
Proof.
  intros. unfold ztake, zdrop. rewrite take_drop_commute. f_equal. f_equal. lia.
Qed.

Lemma ztake_split n m l : 0 <= n -> 0 <= m -> ztake n l ++ ztake m (zdrop n l) = ztake (n + m) l.
Proof.
  intros. rewrite <-(ztake_zdrop n (ztake (n + m) l)), ztake_ztake by lia.
  by rewrite ztake_zdrop_comm.
Qed.

Lemma znth_lookup l i x : znth l i = Some x -> 0 <= i < zlen l.
Proof.
  unfold znth, zlen. destruct (0 <=? i) eqn:E; [|done].
  intros H%lookup_lt_Some. lia.
Qed.

Lemma znth_is_Some l i : 0 <= i < zlen l -> is_Some (znth l i).
Proof.
  unfold znth, zlen. intros H. replace (0 <=? i) with true by lia.
  apply lookup_lt_is_Some_2. lia.
Qed.

Lemma znth_zset_eq l i x : 0 <= i < zlen l -> znth (zset l i x) i = Some x.
Proof.
  unfold znth, zset, zlen. intros H. replace (0 <=? i) with true by lia.
  apply list_lookup_insert_eq. lia.
Qed.

Lemma znth_zset_ne l i j x : i <> j -> znth (zset l i x) j = znth l j.
Proof.
  unfold znth, zset. intros H.
  destruct (0 <=? i) eqn:Ei, (0 <=? j) eqn:Ej; try done.
  apply list_lookup_insert_ne. lia.
Qed.

End ZLists.

#[export] Hint Rewrite @zlen_nil @zlen_cons @zlen_app @zlen_zset : zlen.
#[export] Hint Resolve zlen_nonneg byte_val_range ntohs_range : proxy.

(** ** Automation *)

(** Expand list lengths and finish with linear arithmetic. *)
Ltac zlen_lia :=
  autorewrite with zlen in *;
  repeat match goal with
  | |- context [zlen ?l] =>
      lazymatch goal with
      | _ : 0 <= zlen l |- _ => fail
      | _ => pose proof (zlen_nonneg l)
      end
  | _ : context [zlen ?l] |- _ =>
      lazymatch goal with
      | _ : 0 <= zlen l |- _ => fail
      | _ => pose proof (zlen_nonneg l)
      end
  end; lia.

(** Case split on the boolean or option scrutinee of the goal. *)
Ltac case_scrut :=
  match goal with
  | |- context [if ?b then _ else _] =>
      let E := fresh "E" in destruct b eqn:E
  | |- context [match ?o with Some _ => _ | None => _ end] =>
      let E := fresh "E" in destruct o eqn:E
  end.

(** Decide a closed proposition by evaluating its decision procedure. *)
Ltac evaluate := apply (bool_decide_unpack _); vm_compute; exact I.
