(* ===== verification/Effects.v ===== *)
(** * The effects of the program

    Every handler of the proxy runs to completion on the single thread of the
    event loop: it reads and writes the program's memory, calls the C library,
    libcurl, c-ares and libev, writes log lines, and returns, unless it leaves
    the process with [exit] or [abort].  This file defines the monad [M] those
    handlers are written in:

    - [call] lists the external functions whose answers the program depends
      on; what they answer is decided by an environment ([Env]), an arbitrary
      state machine the program cannot inspect otherwise;
    - [event] lists what the program does to the outside: the trace of a run;
    - [stop] lists the ways a handler does not return, undefined behaviour of
      the C code ([Fault]) included, so that memory safety is a statement;
    - [M W A] is a computation over the memory [W]; a component that owns a
      part [T] of it accesses that part through a [Lens W T];
    - [wp] states what a run does: total correctness, with one postcondition
      for returning and one for stopping. *)

From Stdlib Require Import ZArith Lia Strings.Byte String.
From stdpp Require Import base tactics list option gmap strings.
From S2P Require Import Prelude.

Open Scope Z_scope.

(** ** Pointers *)

(** The address of an object that is live or was live; [None] is [NULL]. *)
Abbreviation loc := positive.
Abbreviation ptr := (option positive).
Abbreviation NULL := (@None positive).

(** [sockaddr]: the bytes of the structure. *)
Abbreviation sockaddr := (list byte) (only parsing).

(** The values of [errno] the program distinguishes. *)
Inductive errno :=
| EAGAIN
| EWOULDBLOCK
| ECONNRESET
| ENETUNREACH
| Eother (code : Z).

#[export] Instance errno_eq_dec : EqDecision errno.
Proof. solve_decision. Defined.

(** ** Answers of the external functions *)

(** [recv]: the bytes received (none: the peer closed), or an error. *)
Inductive recv_result :=
| Recv_data (bs : list byte)
| Recv_error (e : errno).

(** [recvfrom] with [MSG_TRUNC]: the real length of the datagram, the bytes
    that fitted in the buffer and the sender's address; or an error. *)
Inductive recvfrom_result :=
| Recvfrom_data (len : Z) (bs : list byte) (addr : sockaddr)
| Recvfrom_error (e : errno).

(** [accept]: a socket with the peer's address, or an error together with what
    the caller's uninitialised address buffer happens to hold. *)
Inductive accept_result :=
| Accept_ok (sock : Z) (addr : sockaddr)
| Accept_error (e : errno) (stack : sockaddr).

(** [ai_family] *)
Inductive family := AF_INET | AF_INET6 | AF_other (code : Z).

(** [struct addrinfo]: the fields the program reads. *)
Record addrinfo := Addrinfo {
  ai_family : family;
  ai_addr : sockaddr;
  ai_addrlen : Z
}.

(** [send]: the number of bytes the kernel took, or an error. *)
Inductive send_result :=
| Send_ok (n : Z)
| Send_error (e : errno).

#[export] Instance send_result_eq_dec : EqDecision send_result.
Proof. solve_decision. Defined.

(** ** Callbacks of c-ares *)

(** [struct ares_addrinfo_node]: the fields the program reads. *)
Record ares_node := AresNode {
  node_family : family;
  node_addr : list byte
}.

(** What c-ares calls while it runs: [sock_state_cb] and the callback given to
    [ares_getaddrinfo] with its status and result. *)
Inductive ares_callback :=
| Sock_state (fd : Z) (readable writable : bool)
| Resolved (status : Z) (result : option (list ares_node)).

(** The functions of c-ares that make such calls. *)
Inductive ares_op :=
| Ares_process_fd (read_fd write_fd : option Z)
| Ares_cancel
| Ares_getaddrinfo (name : list byte) (f : family)
| Ares_destroy.

(** ** libcurl *)

(** The options of a transfer the program sets, with their values. *)
Inductive curl_option :=
| CURLOPT_RESOLVE (list : ptr)
| CURLOPT_HTTP_VERSION (version : Z)
| CURLOPT_VERBOSE (on : Z)
| CURLOPT_DEBUGFUNCTION
| CURLOPT_DEBUGDATA (ctx : loc)
| CURLOPT_OPENSOCKETFUNCTION
| CURLOPT_OPENSOCKETDATA
| CURLOPT_CLOSESOCKETFUNCTION
| CURLOPT_CLOSESOCKETDATA
| CURLOPT_URL (url : string)
| CURLOPT_HTTPHEADER (list : ptr)
| CURLOPT_POSTFIELDSIZE (len : Z)
| CURLOPT_POSTFIELDS (data : list byte)
| CURLOPT_WRITEFUNCTION
| CURLOPT_WRITEDATA (ctx : loc)
| CURLOPT_MAXAGE_CONN (seconds : Z)
| CURLOPT_PIPEWAIT (on : Z)
| CURLOPT_USERAGENT (agent : string)
| CURLOPT_FOLLOWLOCATION (on : Z)
| CURLOPT_NOSIGNAL (on : Z)
| CURLOPT_TIMEOUT (seconds : Z)
| CURLOPT_SSLVERSION (version : Z)
| CURLOPT_ERRORBUFFER
| CURLOPT_PROXY (proxy : string)
| CURLOPT_INTERFACE (name : string)
| CURLOPT_CAINFO (path : string).

(** The options of the multi handle. *)
Inductive curl_multi_option :=
| CURLMOPT_PIPELINING (mode : Z)
| CURLMOPT_MAX_TOTAL_CONNECTIONS (n : Z)
| CURLMOPT_MAX_HOST_CONNECTIONS (n : Z)
| CURLMOPT_SOCKETDATA
| CURLMOPT_SOCKETFUNCTION
| CURLMOPT_TIMERDATA
| CURLMOPT_TIMERFUNCTION.

(** What [curl_easy_getinfo] is asked. *)
Inductive curl_info :=
| CURLINFO_RESPONSE_CODE
| CURLINFO_SIZE_UPLOAD_T
| CURLINFO_CONTENT_TYPE
| CURLINFO_REDIRECT_URL
| CURLINFO_SSL_VERIFYRESULT
| CURLINFO_OS_ERRNO
| CURLINFO_NUM_CONNECTS
| CURLINFO_EFFECTIVE_URL
| CURLINFO_HTTP_VERSION
| CURLINFO_SCHEME
| CURLINFO_NAMELOOKUP_TIME
| CURLINFO_CONNECT_TIME
| CURLINFO_APPCONNECT_TIME
| CURLINFO_PRETRANSFER_TIME
| CURLINFO_STARTTRANSFER_TIME
| CURLINFO_TOTAL_TIME.

(** What libcurl calls while it runs; a callback of a transfer names the easy
    handle of the transfer. *)
Inductive curl_callback :=
| Cb_write (curl : loc) (data : list byte) (size nmemb : Z)
| Cb_opensocket (ipcxn : bool) (f : family) (stream : bool)
| Cb_closesocket (sock : Z)
| Cb_socket (curl : ptr) (sock what : Z)
| Cb_timer (timeout_ms : Z)
| Cb_debug (curl : loc) (type : Z) (data : list byte).

(** The functions of libcurl that make such calls. *)
Inductive curl_op :=
| Multi_add_handle (curl : ptr)
| Multi_remove_handle (curl : ptr)
| Multi_socket_action (sock mask : Z)
| Multi_cleanup
| Easy_cleanup (curl : ptr).

(** [CURLMsg]: [CURLMSG_DONE] with its handle and result, or another message. *)
Inductive curl_msg :=
| Msg_done (easy_handle : loc) (result : Z)
| Msg_other (msg : Z).

(** ** External functions *)

Inductive call : Type -> Type :=
(* C library: memory; [Calloc] proposes an address, [Realloc] gives the
   contents of the storage past the old block *)
| Malloc (size : Z) : call bool
| Calloc (size : Z) : call (option loc)
| Realloc (size : Z) : call (option (list byte))
(* sockets *)
| Recv (fd : Z) (len : Z) : call recv_result
| Recvfrom (fd : Z) (len : Z) : call recvfrom_result
| Accept (fd : Z) : call accept_result
| Socket (f : family) (stream : bool) : call Z
| Setsockopt (fd : Z) : call Z
| Bind (fd : Z) (addr : sockaddr) : call Z
| Listen (fd : Z) (backlog : Z) : call Z
| Fcntl_getfl (fd : Z) : call Z
| Fcntl_setfl (fd : Z) (flags : Z) : call Z
| Send (fd : Z) (data : list byte) : call send_result
| Sendto (fd : Z) (data : list byte) (addr : sockaddr) : call send_result
| Close (fd : Z) : call Z
| Usleep (usec : Z) : call unit
(* the log file and the clock: seconds and microseconds *)
| Fdopen (fd : Z) : call bool
| Gettimeofday : call (Z * Z)
(* users, groups and files: the uid or gid found, the descriptor opened *)
| Getpwnam (user : string) : call (option Z)
| Getgrnam (group : string) : call (option Z)
| Getuid : call Z
| Open (path : string) : call Z
(* addresses: whether the text is an address of the family *)
| Inet_pton (v6 : bool) (text : string) : call bool
(* c-ares: status codes; the callbacks a call makes, in order *)
| Ares_library_init : call Z
| Ares_init_options : call Z
| Ares_set_servers (csv : list byte) : call Z
| Ares_set_local_ip (v6 : bool) (text : string) : call unit
| Ares_timeout (max_sec : Z) : call (Z * Z)
| Ares (op : ares_op) : call (list ares_callback)
(* libcurl: proposed addresses of new objects, result codes with values, the
   callbacks a call makes, in order, and the messages that are queued *)
| Curl_easy_init : call (option loc)
| Curl_easy_setopt (curl : ptr) (o : curl_option) : call Z
| Curl_easy_getinfo (curl : ptr) (info : curl_info) : call (Z * Z)
| Curl_easy_getinfo_str (curl : ptr) (info : curl_info) : call (Z * option string)
| Curl_errbuf_set (curl : ptr) : call bool
| Curl_multi_init : call bool
| Curl_multi_setopt (o : curl_multi_option) : call Z
| Curl_multi_info_read : call (list curl_msg)
| Curl_slist_append : call (option loc)
| Curl (op : curl_op) : call (Z * list curl_callback)
(* URLs: [curl_url], [curl_url_set] of the whole URL, [curl_url_get] of its host *)
| Curl_url : call bool
| Curl_url_set (url : option string) : call Z
| Curl_url_get_host : call (Z * option string)
(* libcurl as a whole: the features of [curl_version_info] *)
| Curl_global_init : call Z
| Curl_version_info : call (option Z)
(* the time of the event loop, the service manager, the process *)
| Ev_now : call double
| Sd_notify : call Z
| Getaddrinfo (node : string) : call (option addrinfo)
| Setgroups (gid : Z) : call Z
| Setgid (gid : Z) : call Z
| Setuid (uid : Z) : call Z
| Daemon : call Z.

(** The environment: an arbitrary state and how it answers a call. *)
Class Env := {
  env_state : Type;
  answer : forall {A}, call A -> env_state -> A * env_state
}.

(** ** Events and stops *)

(** Log levels, [enum LogSeverity] of logging.h. *)
Inductive LogSeverity :=
| LOG_DEBUG
| LOG_INFO
| LOG_WARNING
| LOG_ERROR
| LOG_STATS
| LOG_FATAL.

Inductive event :=
(* a call of [_log] with its level and format string *)
| Logged (level : LogSeverity) (fmt : string)
(* bytes the kernel took from [send], a datagram handed to [sendto] *)
| Sent (fd : Z) (bs : list byte)
| SentTo (fd : Z) (bs : list byte) (addr : sockaddr)
| Closed (fd : Z)
| Slept (usec : Z)
(* a DNS request handed to [dns_req_received_cb] *)
| Received (is_tcp : bool) (addr : sockaddr) (req : list byte)
(* [ev_timer_again] on the idle timer of a TCP client *)
| IdleTimerAgain (client_id : Z)
(* a line written to the log file, [fflush] of it *)
| Printed (line : list byte)
(* a message of [printf], by its format *)
| Stdout (fmt : string)
| Flushed
(* a request handed to [https_client_fetch], the call of its response callback
   with the reply, if there is one *)
| Fetch (id : Z)
| Replied (id : Z) (reply : option (list byte))
(* a row of a hex dump, a line of libcurl's debug output *)
| Dumped (level : LogSeverity) (prefix : string) (offset : Z) (hex str : list byte)
| CurlText (prefix : string) (line : list byte)
(* a call of [logging_flight_recorder_dump] *)
| RecorderDump
(* the numbers of a statistics line, in the order of its format *)
| StatLine (values : list Z)
(* [free] of a block with these contents *)
| Freed (bs : list byte).

Inductive fault :=
| NullDereference
| UseAfterFree
| OutOfBounds
| NullString
| BadConversion.

Inductive stop :=
| Exited (code : Z)
| Aborted
| Fault (f : fault)
| OutOfFuel.

(** ** The monad *)

Section Monad.
Context `{Env}.

Record sys (W : Type) := Sys {
  world : W;
  environment : env_state;
  trace : list event
}.
#[global] Arguments Sys {W} _ _ _.
#[global] Arguments world {W} _.
#[global] Arguments environment {W} _.
#[global] Arguments trace {W} _.

Inductive outcome (W A : Type) :=
| Ok (s : sys W) (a : A)
| Stop (s : sys W) (r : stop).
#[global] Arguments Ok {W A} _ _.
#[global] Arguments Stop {W A} _ _.

Definition M (W A : Type) : Type := sys W -> outcome W A.

#[global] Instance M_ret {W} : MRet (M W) := fun A a s => Ok s a.

#[global] Instance M_bind {W} : MBind (M W) := fun A B f m s =>
  match m s with
  | Ok s' a => f a s'
  | Stop s' r => Stop s' r
  end.

Definition halt {W A} (r : stop) : M W A := fun s => Stop s r.

Definition emit {W} (ev : event) : M W unit := fun s =>
  Ok (Sys (world s) (environment s) (trace s ++ [ev])) tt.

Definition perform {W A} (c : call A) : M W A := fun s =>
  let '(a, e) := answer c (environment s) in
  Ok (Sys (world s) e (trace s)) a.

(** The logging macros; [FLOG] ends the process after the line is written. *)
Definition LOG {W} (level : LogSeverity) (fmt : string) : M W unit :=
  emit (Logged level fmt).
Definition DLOG {W} : string -> M W unit := LOG LOG_DEBUG.
Definition ILOG {W} : string -> M W unit := LOG LOG_INFO.
Definition WLOG {W} : string -> M W unit := LOG LOG_WARNING.
Definition ELOG {W} : string -> M W unit := LOG LOG_ERROR.
Definition SLOG {W} : string -> M W unit := LOG LOG_STATS.
Definition FLOG {W A} (fmt : string) : M W A :=
  LOG LOG_FATAL fmt ;; halt (Exited 1).

(** ** Parts of the memory *)

Class Lens (W T : Type) := {
  view : W -> T;
  set_view : T -> W -> W;
  view_set : forall t w, view (set_view t w) = t;
  set_view_view : forall w, set_view (view w) w = w;
  set_set : forall t t' w, set_view t (set_view t' w) = set_view t w
}.

Definition get {W T} `{!Lens W T} : M W T := fun s => Ok s (view (world s)).
Definition put {W T} `{!Lens W T} (t : T) : M W unit := fun s =>
  Ok (Sys (set_view t (world s)) (environment s) (trace s)) tt.
Definition modify {W T} `{!Lens W T} (f : T -> T) : M W unit :=
  t ← get; put (f t).

(** The part of the memory a computation's state shows. *)
Definition part {W} (T : Type) `{!Lens W T} (s : sys W) : T := view (world s).

End Monad.

#[export] Instance lens_refl (T : Type) : Lens T T | 100.
Proof. by exists (fun w => w) (fun t _ => t). Defined.

(** Pairs of parts, for memories assembled from components. *)
Section PairLens.
Context {A B T : Type}.

Definition lens_fst `{!Lens A T} : Lens (A * B) T.
Proof.
  refine {| view w := view (fst w); set_view t w := (set_view t (fst w), snd w) |}.
  - intros t [a b]. apply view_set.
  - intros [a b]. cbn. by rewrite set_view_view.
  - intros t t' [a b]. cbn. by rewrite set_set.
Defined.

Definition lens_snd `{!Lens B T} : Lens (A * B) T.
Proof.
  refine {| view w := view (snd w); set_view t w := (fst w, set_view t (snd w)) |}.
  - intros t [a b]. apply view_set.
  - intros [a b]. cbn. by rewrite set_view_view.
  - intros t t' [a b]. cbn. by rewrite set_set.
Defined.

End PairLens.

(** ** Weakest preconditions *)

Section Wp.
Context `{Env}.
Context {W : Type}.

Definition wp {A} (m : M W A) (s : sys W)
    (Φ : sys W -> A -> Prop) (Ψ : sys W -> stop -> Prop) : Prop :=
  match m s with
  | Ok s' a => Φ s' a
  | Stop s' r => Ψ s' r
  end.

Implicit Types (Ψ : sys W -> stop -> Prop).

Lemma wp_ret {A} (a : A) s Φ Ψ : Φ s a -> wp (mret a) s Φ Ψ.
Proof. done. Qed.

Lemma wp_bind {A B} (f : A -> M W B) (m : M W A) s Φ Ψ :
  wp m s (fun s' a => wp (f a) s' Φ Ψ) Ψ -> wp (m ≫= f) s Φ Ψ.
Proof. unfold wp, mbind, M_bind. by destruct (m s). Qed.

Lemma wp_halt {A} r s (Φ : sys W -> A -> Prop) Ψ : Ψ s r -> wp (halt r) s Φ Ψ.
Proof. done. Qed.

Lemma wp_emit ev s Φ Ψ :
  Φ (Sys (world s) (environment s) (trace s ++ [ev])) tt -> wp (emit ev) s Φ Ψ.
Proof. done. Qed.

Lemma wp_log level fmt s Φ Ψ :
  Φ (Sys (world s) (environment s) (trace s ++ [Logged level fmt])) tt ->
  wp (LOG level fmt) s Φ Ψ.
Proof. done. Qed.

Lemma wp_flog {A} fmt s (Φ : sys W -> A -> Prop) Ψ :
  Ψ (Sys (world s) (environment s) (trace s ++ [Logged LOG_FATAL fmt])) (Exited 1) ->
  wp (FLOG fmt) s Φ Ψ.
Proof. done. Qed.

Lemma wp_perform {A} (c : call A) s Φ Ψ :
  (forall a e, answer c (environment s) = (a, e) -> Φ (Sys (world s) e (trace s)) a) ->
  wp (perform c) s Φ Ψ.
Proof. unfold wp, perform. intros Hc. destruct (answer c _) eqn:E. eauto. Qed.

Lemma wp_get {T} `{!Lens W T} s Φ Ψ : Φ s (part T s) -> wp get s Φ Ψ.
Proof. done. Qed.

Lemma wp_put {T} `{!Lens W T} (t : T) s Φ Ψ :
  Φ (Sys (set_view t (world s)) (environment s) (trace s)) tt -> wp (put t) s Φ Ψ.
Proof. done. Qed.

Lemma wp_modify {T} `{!Lens W T} (f : T -> T) s Φ Ψ :
  Φ (Sys (set_view (f (part T s)) (world s)) (environment s) (trace s)) tt ->
  wp (modify f) s Φ Ψ.
Proof. done. Qed.

Lemma wp_mono {A} (m : M W A) s (Φ Φ' : sys W -> A -> Prop) Ψ Ψ' :
  wp m s Φ Ψ ->
  (forall s' a, Φ s' a -> Φ' s' a) ->
  (forall s' r, Ψ s' r -> Ψ' s' r) ->
  wp m s Φ' Ψ'.
Proof. unfold wp. destruct (m s); eauto. Qed.

Lemma wp_and {A} (m : M W A) s (Φ Φ' : sys W -> A -> Prop) Ψ Ψ' :
  wp m s Φ Ψ -> wp m s Φ' Ψ' ->
  wp m s (fun s' a => Φ s' a /\ Φ' s' a) (fun s' r => Ψ s' r /\ Ψ' s' r).
Proof. unfold wp. by destruct (m s). Qed.

Lemma wp_eq {A} (m : M W A) s s' a Φ Ψ : m s = Ok s' a -> Φ s' a -> wp m s Φ Ψ.
Proof. unfold wp. by intros ->. Qed.

Lemma wp_Ok {A} (m : M W A) s s' a : wp m s (fun s1 a1 => s1 = s' /\ a1 = a) (fun _ _ => False) -> m s = Ok s' a.
Proof. unfold wp. destruct (m s) as [? ?|]; [intros [-> ->]|]; done. Qed.

End Wp.

(** ** Steps seen from one component

    The same rules with the state abstracted to the part [T] of the memory and
    the trace, for components that do not depend on anything else. *)

Section Seen.
Context `{Env} {W T : Type} `{!Lens W T}.
Implicit Types (s : sys W).

Lemma seen_put (t : T) s Φ Ψ :
  (forall s', part T s' = t -> trace s' = trace s -> Φ s' tt) -> wp (put t) s Φ Ψ.
Proof. intros HΦ. apply wp_put, HΦ; [apply view_set|done]. Qed.

Lemma seen_modify (f : T -> T) s Φ Ψ :
  (forall s', part T s' = f (part T s) -> trace s' = trace s -> Φ s' tt) -> wp (modify f) s Φ Ψ.
Proof. intros HΦ. apply wp_modify, HΦ; [apply view_set|done]. Qed.

Lemma seen_modify_if (b : bool) (f : T -> T) s Φ Ψ :
  (forall s', part T s' = (if b then f (part T s) else part T s) -> trace s' = trace s -> Φ s' tt) ->
  wp (if b then modify f else mret tt) s Φ Ψ.
Proof. intros HΦ. destruct b; [by apply seen_modify|by apply wp_ret, HΦ]. Qed.

Lemma seen_emit ev s Φ Ψ :
  (forall s', part T s' = part T s -> trace s' = trace s ++ [ev] -> Φ s' tt) -> wp (emit ev) s Φ Ψ.
Proof. intros HΦ. by apply wp_emit, HΦ. Qed.

Lemma seen_log level fmt s Φ Ψ :
  (forall s', part T s' = part T s -> trace s' = trace s ++ [Logged level fmt] -> Φ s' tt) ->
  wp (LOG level fmt) s Φ Ψ.
Proof. intros HΦ. by apply wp_log, HΦ. Qed.

Lemma seen_perform {A} (c : call A) s Φ Ψ :
  (forall s' a, part T s' = part T s -> trace s' = trace s -> Φ s' a) -> wp (perform c) s Φ Ψ.
Proof. intros HΦ. apply wp_perform. intros. by apply HΦ. Qed.

End Seen.

(** The transfers started and the replies handed over, in order. *)
Definition transfer_event (ev : event) : option (Z * option (option (list byte))) :=
  match ev with
  | Fetch id => Some (id, None)
  | Replied id r => Some (id, Some r)
  | _ => None
  end.
Definition transfer_events (tr : list event) : list (Z * option (option (list byte))) := omap transfer_event tr.

Lemma transfer_events_app tr tr' : transfer_events (tr ++ tr') = transfer_events tr ++ transfer_events tr'.
Proof. apply omap_app. Qed.

(** ** Steps within one part

    [own T s s']: between [s] and [s'] only the part [T] of the memory changed
    and no transfer was started or answered.  [stays m]: [m] takes only such
    steps.  Every handler that calls no other component stays in its part. *)

Section Own.
Context `{Env} {W : Type} (T : Type) `{!Lens W T}.
Implicit Types (s : sys W).

Definition own s s' : Prop :=
  world s' = set_view (part T s') (world s) /\ transfer_events (trace s') = transfer_events (trace s).

#[export] Instance own_preorder : PreOrder own.
Proof.
  split.
  - intros s. split; [|done]. symmetry. apply set_view_view.
  - intros s1 s2 s3 [H1 ?] [H2 ?]. split; [|congruence]. by rewrite H2, H1, set_set at 1.
Qed.

Lemma own_seen s e tr (t : T) :
  transfer_events tr = transfer_events (trace s) -> own s (Sys (set_view t (world s)) e tr).
Proof. intros Ht. split; [|done]. unfold part. cbn [world]. by rewrite view_set. Qed.
Lemma own_world s e tr : transfer_events tr = transfer_events (trace s) -> own s (Sys (world s) e tr).
Proof. intros Ht. split; [|done]. symmetry. apply set_view_view. Qed.
Lemma own_emit s ev : transfer_event ev = None -> own s (Sys (world s) (environment s) (trace s ++ [ev])).
Proof. intros Hev. apply own_world. rewrite transfer_events_app. cbn. by rewrite Hev, app_nil_r. Qed.

(** A property that holds on after steps within [T]. *)
Class Framed (J : sys W -> Prop) : Prop := framed : forall s s', own s s' -> J s -> J s'.

#[export] Instance framed_True : Framed (fun _ => True).
Proof. done. Qed.

Definition stays {A} (m : M W A) : Prop := forall s, wp m s (fun s' _ => own s s') (fun _ _ => True).

Lemma stays_ret {A} (a : A) : stays (mret a).
Proof. intros s. by apply wp_ret. Qed.
Lemma stays_halt {A} r : stays (halt r : M W A).
Proof. done. Qed.
Lemma stays_bind {A B} (m : M W A) (k : A -> M W B) : stays m -> (forall a, stays (k a)) -> stays (m ≫= k).
Proof.
  intros Hm Hk s. apply wp_bind. eapply wp_mono; [apply Hm| |done]. intros s1 a H1.
  eapply wp_mono; [apply Hk| |done]. intros s2 b H2. by trans s1.
Qed.
Lemma stays_get : stays get.
Proof. intros s. by apply wp_get. Qed.
Lemma stays_put (t : T) : stays (put t).
Proof. intros s. apply wp_put. split; [|done]. unfold part. cbn [world]. by rewrite view_set. Qed.
Lemma stays_modify (f : T -> T) : stays (modify f).
Proof. intros s. apply wp_modify. split; [|done]. unfold part. cbn [world]. by rewrite view_set. Qed.
Lemma stays_perform {A} (q : call A) : stays (perform q).
Proof. intros s. apply wp_perform. intros a e _. split; [|done]. symmetry. apply set_view_view. Qed.
Lemma stays_emit ev : transfer_event ev = None -> stays (emit ev).
Proof.
  intros Hev s. apply wp_emit. split; [symmetry; apply set_view_view|].
  cbn [trace]. rewrite transfer_events_app. cbn. by rewrite Hev, app_nil_r.
Qed.
Lemma stays_log level fmt : stays (LOG level fmt).
Proof. by apply stays_emit. Qed.
Lemma stays_flog {A} fmt : stays (FLOG fmt : M W A).
Proof. apply stays_bind; [apply stays_log|intros; apply stays_halt]. Qed.

(** A computation that stays in [T] keeps what is framed, besides what else is
    known of it. *)
Lemma wp_framed J `{!Framed J} {A} (m : M W A) s Φ Ψ Φ' Ψ' :
  stays m -> J s -> wp m s Φ Ψ -> (forall s' a, J s' -> Φ s' a -> Φ' s' a) ->
  (forall s' r, Ψ s' r -> Ψ' s' r) -> wp m s Φ' Ψ'.
Proof.
  intros Hm HJ Hw HΦ HΨ. eapply wp_mono; [apply (wp_and _ _ _ _ _ _ (Hm s) Hw)| |].
  - intros s' a [Ho Ha]. apply HΦ; [by eapply framed|done].
  - intros s' r [_ ?]. by apply HΨ.
Qed.

Lemma emit_framed J `{!Framed J} {B} ev (k : unit -> M W B) s Φ Ψ :
  transfer_event ev = None -> J s ->
  (forall s', J s' -> part T s' = part T s -> wp (k tt) s' Φ Ψ) -> wp (emit ev ≫= k) s Φ Ψ.
Proof.
  intros Hev HJ Hk. apply wp_bind, wp_emit, Hk; [|done]. by eapply framed; [apply own_emit|].
Qed.
Lemma log_framed J `{!Framed J} {B} level fmt (k : unit -> M W B) s Φ Ψ :
  J s -> (forall s', J s' -> part T s' = part T s -> wp (k tt) s' Φ Ψ) -> wp (LOG level fmt ≫= k) s Φ Ψ.
Proof. by apply emit_framed. Qed.
Lemma modify_framed J `{!Framed J} (f : T -> T) s Φ Ψ :
  J s -> (forall s', J s' -> part T s' = f (part T s) -> Φ s' tt) -> wp (modify f) s Φ Ψ.
Proof.
  intros HJ Hk. apply wp_modify, Hk; [by eapply framed; [apply own_seen|]|].
  unfold part. cbn [world]. by rewrite view_set.
Qed.
Lemma perform_framed J `{!Framed J} {A B} (q : call A) (k : A -> M W B) s Φ Ψ :
  J s -> (forall s' a, J s' -> part T s' = part T s -> wp (k a) s' Φ Ψ) -> wp (perform q ≫= k) s Φ Ψ.
Proof.
  intros HJ Hk. apply wp_bind, wp_perform. intros a e _. apply Hk; [|done].
  by eapply framed; [apply own_world|].
Qed.

End Own.

(** Follow the structure of a computation that stays in [T]. *)
Ltac stay_step T :=
  lazymatch goal with
  | |- stays _ (match ?r with _ => _ end) => destruct r
  | |- stays _ (mret _) => apply stays_ret
  | |- stays _ (halt _) => apply stays_halt
  | |- stays _ (_ ≫= _) => apply stays_bind; [|intros ?]
  | |- stays _ get => apply stays_get
  | |- stays _ (put _) => apply stays_put
  | |- stays _ (modify _) => apply stays_modify
  | |- stays _ (perform _) => apply stays_perform
  | |- stays _ (emit _) => apply stays_emit; reflexivity
  | |- stays _ (LOG _ _) => apply stays_log
  | |- stays _ (DLOG _) => apply stays_log
  | |- stays _ (ILOG _) => apply stays_log
  | |- stays _ (WLOG _) => apply stays_log
  | |- stays _ (ELOG _) => apply stays_log
  | |- stays _ (SLOG _) => apply stays_log
  | |- stays _ (FLOG _) => apply stays_flog
  end.
Ltac stay T := repeat stay_step T.

(** [realloc]: the old contents, then storage with unspecified contents. *)
Definition realloc_contents (old fresh : list byte) (size : Z) : list byte :=
  ztake size (old ++ fresh ++ replicate (Z.to_nat size) x00).

Lemma realloc_contents_run old fresh size :
  zlen old <= size ->
  exists z, realloc_contents old fresh size = old ++ z /\ zlen (old ++ z) = size.
Proof.
  intros Hs. pose proof (zlen_nonneg old). unfold realloc_contents.
  exists (ztake (size - zlen old) (fresh ++ replicate (Z.to_nat size) x00)).
  assert (ztake size (old ++ fresh ++ replicate (Z.to_nat size) x00) =
          old ++ ztake (size - zlen old) (fresh ++ replicate (Z.to_nat size) x00)) as Heq.
  { unfold ztake. rewrite take_app_ge by (unfold zlen in *; lia). do 2 f_equal. unfold zlen. lia. }
  split; [done|]. rewrite zlen_app, zlen_ztake by lia.
  rewrite zlen_app. pose proof (zlen_nonneg fresh).
  assert (zlen (replicate (Z.to_nat size) x00) = size) by (unfold zlen; rewrite length_replicate; lia).
  lia.
Qed.

(** An environment in which no allocation fails. *)
Class MemoryAvailable `{Env} : Prop := {
  malloc_ok : forall n e, fst (answer (Malloc n) e) = true;
  calloc_ok : forall n e, is_Some (fst (answer (Calloc n) e));
  realloc_ok : forall n e, is_Some (fst (answer (Realloc n) e))
}.

Lemma malloc_answer `{MemoryAvailable} n e : exists e', answer (Malloc n) e = (true, e').
Proof.
  pose proof (malloc_ok n e) as Hm. destruct (answer (Malloc n) e) as [b e'].
  cbn in Hm. subst b. by exists e'.
Qed.

Lemma calloc_answer `{MemoryAvailable} n e : exists l e', answer (Calloc n) e = (Some l, e').
Proof.
  destruct (calloc_ok n e) as [l Hl]. destruct (answer (Calloc n) e) as [b e'].
  cbn in Hl. subst b. by exists l, e'.
Qed.

Lemma realloc_answer `{MemoryAvailable} n e : exists bs e', answer (Realloc n) e = (Some bs, e').
Proof.
  destruct (realloc_ok n e) as [bs Hl]. destruct (answer (Realloc n) e) as [b e'].
  cbn in Hl. subst b. by exists bs, e'.
Qed.

#[export] Hint Resolve wp_ret wp_halt wp_emit : proxy.

(** ** Sample environments

    [generous] answers every call with success; [scripted] answers from a list
    of replies in call order, and like [generous] when the next reply is for
    another kind of call. *)

Definition generous_answer {A} (c : call A) : A :=
  match c in call A return A with
  | Malloc _ => true
  | Calloc _ => Some 1%positive
  | Realloc n => Some (replicate (Z.to_nat n) x00)
  | Recv _ _ => Recv_data []
  | Recvfrom _ _ => Recvfrom_error EAGAIN
  | Accept _ => Accept_error EAGAIN []
  | Socket _ _ => 3
  | Setsockopt _ => 0
  | Bind _ _ => 0
  | Listen _ _ => 0
  | Fcntl_getfl _ => 0
  | Fcntl_setfl _ _ => 0
  | Send _ data => Send_ok (zlen data)
  | Sendto _ data _ => Send_ok (zlen data)
  | Close _ => 0
  | Usleep _ => tt
  | Fdopen _ => true
  | Gettimeofday => (1700000000, 0)
  | Getpwnam _ => Some 1000
  | Getgrnam _ => Some 1000
  | Getuid => 1000
  | Open _ => 4
  | Inet_pton _ _ => true
  | Ares_library_init => 0
  | Ares_init_options => 0
  | Ares_set_servers _ => 0
  | Ares_set_local_ip _ _ => tt
  | Ares_timeout n => (n, 0)
  | Ares _ => []
  | Curl_easy_init => Some 1%positive
  | Curl_easy_setopt (Some _) _ => 0
  | Curl_easy_setopt None _ => 43
  | Curl_easy_getinfo _ CURLINFO_RESPONSE_CODE => (0, 200)
  | Curl_easy_getinfo _ _ => (0, 0)
  | Curl_easy_getinfo_str _ CURLINFO_CONTENT_TYPE => (0, Some "application/dns-message"%string)
  | Curl_easy_getinfo_str _ _ => (0, None)
  | Curl_errbuf_set _ => false
  | Curl_multi_init => true
  | Curl_multi_setopt _ => 0
  | Curl_multi_info_read => []
  | Curl_slist_append => Some 1%positive
  | Curl _ => (0, [])
  | Curl_url => true
  | Curl_url_set _ => 0
  | Curl_url_get_host => (0, Some "dns.google"%string)
  | Curl_global_init => 0
  | Curl_version_info => Some (2 ^ 7 + 2 ^ 16 + 2 ^ 25)
  | Ev_now => double_of_Z 1
  | Sd_notify => 1
  | Getaddrinfo _ => Some (Addrinfo AF_INET (x02 :: replicate 15 x00) 16)
  | Setgroups _ => 0
  | Setgid _ => 0
  | Setuid _ => 0
  | Daemon => 0
  end.

Definition generous : Env :=
  {| env_state := unit; answer A c e := (generous_answer c, e) |}.

Inductive reply :=
| R_malloc (ok : bool)
| R_calloc (p : option loc)
| R_realloc (p : option (list byte))
| R_recv (r : recv_result)
| R_recvfrom (r : recvfrom_result)
| R_accept (r : accept_result)
| R_send (r : send_result)
| R_fdopen (ok : bool)
| R_time (t : Z * Z).

Definition scripted_answer {A} (c : call A) (script : list reply) : A * list reply :=
  match c in call A return A * list reply with
  | Malloc n => match script with R_malloc b :: k => (b, k) | _ => (true, script) end
  | Calloc n => match script with R_calloc p :: k => (p, k) | _ => (Some 1%positive, script) end
  | Realloc n =>
      match script with R_realloc p :: k => (p, k) | _ => (Some (replicate (Z.to_nat n) x00), script) end
  | Recv fd n => match script with R_recv r :: k => (r, k) | _ => (Recv_data [], script) end
  | Recvfrom fd n =>
      match script with R_recvfrom r :: k => (r, k) | _ => (Recvfrom_error EAGAIN, script) end
  | Accept fd => match script with R_accept r :: k => (r, k) | _ => (Accept_error EAGAIN [], script) end
  | Send fd data => match script with R_send r :: k => (r, k) | _ => (Send_ok (zlen data), script) end
  | Sendto fd data addr =>
      match script with R_send r :: k => (r, k) | _ => (Send_ok (zlen data), script) end
  | Fdopen fd => match script with R_fdopen b :: k => (b, k) | _ => (true, script) end
  | Gettimeofday =>
      match script with R_time t :: k => (t, k) | _ => ((1700000000, 0), script) end
  | c => (generous_answer c, script)
  end.

Definition scripted : Env :=
  {| env_state := list reply; answer A c e := scripted_answer c e |}.

Lemma generous_memory : @MemoryAvailable generous.
Proof. split; intros; cbn; by eauto. Defined.

(** Symbolic execution of one monadic step. *)
Ltac wp_step :=
  lazymatch goal with
  | |- wp (_ ≫= _) _ _ _ => apply wp_bind
  | |- wp (mret _) _ _ _ => apply wp_ret
  | |- wp (halt _) _ _ _ => apply wp_halt
  | |- wp (emit _) _ _ _ => apply wp_emit
  | |- wp (LOG _ _) _ _ _ => apply wp_log
  | |- wp (DLOG _) _ _ _ => apply wp_log
  | |- wp (ILOG _) _ _ _ => apply wp_log
  | |- wp (WLOG _) _ _ _ => apply wp_log
  | |- wp (ELOG _) _ _ _ => apply wp_log
  | |- wp (SLOG _) _ _ _ => apply wp_log
  | |- wp (FLOG _) _ _ _ => apply wp_flog
  | |- wp get _ _ _ => apply wp_get
  | |- wp (put _) _ _ _ => apply wp_put
  | |- wp (modify _) _ _ _ => apply wp_modify
  end; cbn beta.
Ltac wp_steps := repeat wp_step.

Ltac see_intro :=
  let s := fresh "s" in let Hp := fresh "Hp" in let Ht := fresh "Ht" in intros s Hp Ht.

(** One step, seen from the component [T]. *)
Ltac see_step T :=
  lazymatch goal with
  | |- wp (_ ≫= _) _ _ _ => apply wp_bind; see_step T
  | |- wp (mret _) _ _ _ => apply wp_ret
  | |- wp get _ _ _ => apply wp_get
  | |- wp (put _) _ _ _ => apply seen_put; see_intro
  | |- wp (modify _) _ _ _ => apply seen_modify; see_intro
  | |- wp (if _ then modify _ else mret tt) _ _ _ => apply seen_modify_if; see_intro
  | |- wp (emit _) _ _ _ => apply (seen_emit (T := T)); see_intro
  | |- wp (perform _) _ _ _ =>
      apply (seen_perform (T := T)); let s := fresh "s" in let a := fresh "a" in
      let Hp := fresh "Hp" in let Ht := fresh "Ht" in intros s a Hp Ht
  | |- wp (halt _) _ _ _ => apply wp_halt
  | |- wp (FLOG _) _ _ _ => apply wp_flog
  | |- wp (LOG _ _) _ _ _ => apply (seen_log (T := T)); see_intro
  | |- wp (DLOG _) _ _ _ => apply (seen_log (T := T)); see_intro
  | |- wp (ILOG _) _ _ _ => apply (seen_log (T := T)); see_intro
  | |- wp (WLOG _) _ _ _ => apply (seen_log (T := T)); see_intro
  | |- wp (ELOG _) _ _ _ => apply (seen_log (T := T)); see_intro
  end; cbn beta.
