(* ===== verification/HeapList.v ===== *)
(** * Singly linked lists in memory

    The proxy keeps its TCP clients and its HTTPS transfers in singly linked
    lists of heap objects with a [next] pointer.  A heap of such objects is a
    [gmap loc A]; this file gives the traversals the source writes as [for] and
    [while] loops over [next], each of which stops with [UseAfterFree] when it
    follows a pointer to an object that is not live, and the lemmas that relate
    them to operations on the list of locations ([chain]). *)

From Stdlib Require Import Lia.
From stdpp Require Import base tactics list option gmap.
From S2P Require Import Prelude Effects.

(** What a list node provides. *)
Class Linked (A : Type) := {
  next : A -> ptr;
  set_next : ptr -> A -> A;
  next_set_next : forall p a, next (set_next p a) = p
}.

Section Lists.
Context `{Linked A}.
Implicit Types (h : gmap loc A) (p l : loc) (ls : list loc) (cur : ptr).

(** [chain h cur ls]: from [cur] the [next] pointers visit exactly [ls]. *)
Inductive chain h : ptr -> list loc -> Prop :=
| chain_nil : chain h None []
| chain_cons l a ls : h !! l = Some a -> chain h (next a) ls -> chain h (Some l) (l :: ls).

(** [for (cur = head; cur != NULL; cur = cur->next)
       if (cur->next == p) { cur->next = nx; break; }] *)
Fixpoint unlink_after (fuel : nat) h cur p (nx : ptr) : stop + gmap loc A :=
  match fuel with
  | O => inl OutOfFuel
  | S fuel =>
      match cur with
      | None => inr h
      | Some c =>
          match h !! c with
          | None => inl (Fault UseAfterFree)
          | Some a =>
              if decide (next a = Some p) then inr (<[c := set_next nx a]> h)
              else unlink_after fuel h (next a) p nx
          end
      end
  end.

(** [for (cur = head; cur != NULL; cur = cur->next) if (P(cur)) break;] with
    the node visited before, as in [check_multi_info]. *)
Fixpoint find_node (fuel : nat) h (prev cur : ptr) (P : A -> bool) : stop + option (ptr * loc) :=
  match fuel with
  | O => inl OutOfFuel
  | S fuel =>
      match cur with
      | None => inr None
      | Some c =>
          match h !! c with
          | None => inl (Fault UseAfterFree)
          | Some a =>
              if P a then inr (Some (prev, c)) else find_node fuel h (Some c) (next a) P
          end
      end
  end.

(** A new object's address: the proposed one when it is not in use. *)
Definition place h (hint : loc) : loc :=
  match h !! hint with Some _ => fresh (dom h) | None => hint end.

(** The list of locations without one of them. *)
Definition without p ls : list loc := filter (fun x => x <> p) ls.

Lemma place_fresh h hint : h !! place h hint = None.
Proof.
  unfold place. destruct (h !! hint) eqn:E; [|done].
  apply not_elem_of_dom, is_fresh.
Qed.

Lemma chain_det h cur ls ls' : chain h cur ls -> chain h cur ls' -> ls = ls'.
Proof.
  intros Hc. revert ls'. induction Hc; intros ls' Hc'; inversion Hc'; simplify_eq; [done|].
  f_equal. eauto.
Qed.

Lemma chain_suffix h cur ls ls1 l ls2 :
  chain h cur ls -> ls = ls1 ++ l :: ls2 -> chain h (Some l) (l :: ls2).
Proof.
  intros Hc. revert ls1. induction Hc; intros [|x ls1] ?; simplify_eq/=.
  - econstructor; eauto.
  - eauto.
Qed.

Lemma chain_NoDup h cur ls : chain h cur ls -> NoDup ls.
Proof.
  induction 1 as [|l a ls Hl Hc IH]; constructor; [|done].
  intros (ls1 & ls2 & ->)%list_elem_of_split.
  pose proof (chain_suffix _ _ _ _ _ _ Hc eq_refl) as Hs.
  inversion Hs; simplify_eq.
  match goal with H1 : chain h (next a) ls2 |- _ =>
    pose proof (chain_det _ _ _ _ Hc H1) as Heq end.
  apply (f_equal length) in Heq. rewrite length_app in Heq. simpl in Heq. lia.
Qed.

Lemma chain_lookup h cur ls l : chain h cur ls -> l ∈ ls -> is_Some (h !! l).
Proof. induction 1; rewrite ?elem_of_nil, ?elem_of_cons; naive_solver. Qed.

(** A list is untouched by changes to objects that are not on it. *)
Lemma chain_frame h h' cur ls :
  chain h cur ls -> (forall l, l ∈ ls -> h' !! l = h !! l) -> chain h' cur ls.
Proof.
  induction 1 as [|l a ls Hl Hc IH]; intros Hf; econstructor.
  - rewrite Hf by set_solver. done.
  - apply IH. intros. apply Hf. set_solver.
Qed.

Lemma chain_insert_ne h cur ls l a : l ∉ ls -> chain h cur ls -> chain (<[l := a]> h) cur ls.
Proof. intros. eapply chain_frame; [done|]. intros. rewrite lookup_insert_ne; set_solver. Qed.

Lemma chain_delete_ne h cur ls l : l ∉ ls -> chain h cur ls -> chain (delete l h) cur ls.
Proof. intros. eapply chain_frame; [done|]. intros. rewrite lookup_delete_ne; set_solver. Qed.

(** Storing a node with the same [next] keeps the list. *)
Lemma chain_update h cur ls l a a' :
  chain h cur ls -> h !! l = Some a -> next a' = next a -> chain (<[l := a']> h) cur ls.
Proof.
  intros Hc Hl Hn. induction Hc as [|x b ls Hx Hc IH]; [constructor|].
  destruct (decide (l = x)) as [->|].
  - econstructor; [apply lookup_insert_eq|]. simplify_eq. rewrite Hn. done.
  - econstructor; [by rewrite lookup_insert_ne|done].
Qed.

Lemma without_cons_eq p ls : p ∉ ls -> without p (p :: ls) = ls.
Proof.
  intros Hp. unfold without. rewrite filter_cons_False by naive_solver.
  induction ls as [|x ls IH]; [done|].
  rewrite filter_cons_True by set_solver. f_equal. apply IH. set_solver.
Qed.

Lemma without_cons_ne p l ls : l <> p -> without p (l :: ls) = l :: without p ls.
Proof. intros. unfold without. by rewrite filter_cons_True. Qed.

Lemma length_without p ls : NoDup ls -> p ∈ ls -> length (without p ls) = pred (length ls).
Proof.
  induction 1 as [|x ls Hx Hnd IH]; [set_solver|]. intros Hp.
  destruct (decide (x = p)) as [->|].
  - by rewrite without_cons_eq.
  - rewrite without_cons_ne by done. cbn [length].
    assert (p ∈ ls) as Hin by set_solver. specialize (IH Hin).
    destruct ls; [set_solver|]. rewrite IH. done.
Qed.

(** Objects other than in their [next] pointer are the same in [h'] as in [h]. *)
Definition same_but_next h h' : Prop :=
  forall l a', h' !! l = Some a' -> exists a, h !! l = Some a /\ (a' = a \/ exists q, a' = set_next q a).

(** Unlinking from behind the head. *)
Lemma unlink_after_spec h l ls p a fuel :
  chain h (Some l) (l :: ls) -> p ∈ ls -> h !! p = Some a -> (length ls < fuel)%nat ->
  exists h', unlink_after fuel h (Some l) p (next a) = inr h' /\
    chain (delete p h') (Some l) (l :: without p ls) /\
    dom h' = dom h /\ same_but_next h h' /\ h' !! p = Some a /\
    (forall y, y ∉ l :: ls -> h' !! y = h !! y).
Proof.
  revert l fuel. induction ls as [|x ls IH]; [set_solver|].
  intros l fuel Hc Hp Ha Hf.
  destruct fuel as [|fuel]; [cbn in Hf; lia|].
  pose proof (chain_NoDup _ _ _ Hc) as Hnd.
  apply NoDup_cons in Hnd as [Hlx Hnd]. apply NoDup_cons in Hnd as [Hx Hnd].
  inversion Hc as [|? b ? Hl Hcx]; simplify_eq.
  cbn [unlink_after]. rewrite Hl.
  assert (next b = Some x) as Hbx by (by inversion Hcx).
  rewrite Hbx in *. case_decide as Hd.
  - injection Hd as ->.
    inversion Hcx as [|? c ? Hxc Hcc]; simplify_eq.
    assert (l <> p) by set_solver.
    eexists; split; [done|].
    rewrite without_cons_eq by done. repeat split.
    + econstructor; [by rewrite lookup_delete_ne, lookup_insert_eq|].
      rewrite next_set_next. apply chain_delete_ne; [done|].
      apply chain_insert_ne; [set_solver|done].
    + rewrite dom_insert_L. apply elem_of_dom_2 in Hl. set_solver.
    + intros y b' [[<- <-]|[Hne Hy]]%lookup_insert_Some; [|by eauto].
      exists b. split; [done|]. right. by eexists.
    + by rewrite lookup_insert_ne.
    + intros y Hy. rewrite lookup_insert_ne; set_solver.
  - assert (x <> p) by congruence. assert (p ∈ ls) as Hp' by set_solver.
    destruct (IH x fuel Hcx Hp' Ha) as (h' & Hu & Hch & Hdom & Hsame & Hh'p & Hfr);
      [cbn in *; lia|].
    exists h'. rewrite without_cons_ne by done.
    assert (l <> p) by set_solver.
    repeat split; try done.
    + econstructor; [rewrite lookup_delete_ne by done; by rewrite Hfr|by rewrite Hbx].
    + intros y Hy. apply Hfr. set_solver.
Qed.

(** Bypassing a node by storing its [next] in the node before it. *)
Lemma chain_bypass h cur ls1 q p ls2 a b :
  chain h cur (ls1 ++ q :: p :: ls2) -> h !! q = Some a -> h !! p = Some b ->
  chain (delete p (<[q := set_next (next b) a]> h)) cur (ls1 ++ q :: ls2).
Proof.
  intros Hc Hq Hp. pose proof (chain_NoDup _ _ _ Hc) as Hnd.
  revert cur Hc. induction ls1 as [|l ls1 IH]; intros cur Hc.
  - cbn in *. apply NoDup_cons in Hnd as [Hq' Hnd]. apply NoDup_cons in Hnd as [Hp' _].
    inversion Hc as [|? a' ? Hl Hc1]; simplify_eq. inversion Hc1 as [|? b' ? Hl' Hc2]; simplify_eq.
    econstructor; [rewrite lookup_delete_ne, lookup_insert_eq by set_solver; done|].
    rewrite next_set_next. apply chain_delete_ne; [done|]. apply chain_insert_ne; [set_solver|done].
  - cbn in *. apply NoDup_cons in Hnd as [Hl' Hnd]. inversion Hc as [|? a' ? Hl Hc1]; simplify_eq.
    econstructor; [rewrite lookup_delete_ne, lookup_insert_ne by set_solver; done|]. by apply IH.
Qed.

(** Searching from the head. *)
Lemma find_node_spec h prev cur ls P fuel :
  chain h cur ls -> (length ls < fuel)%nat ->
  match find_node fuel h prev cur P with
  | inl _ => False
  | inr None => forall l a, l ∈ ls -> h !! l = Some a -> P a = false
  | inr (Some (prev', l)) =>
      exists ls1 ls2 a, ls = ls1 ++ l :: ls2 /\ h !! l = Some a /\ P a = true /\
        prev' = match last ls1 with Some q => Some q | None => prev end /\
        (forall l' a', l' ∈ ls1 -> h !! l' = Some a' -> P a' = false)
  end.
Proof.
  intros Hc. revert prev fuel.
  induction Hc as [|l a ls Hl Hc IH]; intros prev [|fuel] Hf; try (cbn in Hf; lia).
  { cbn. set_solver. }
  cbn [find_node]. rewrite Hl. destruct (P a) eqn:HP.
  - exists [], ls, a. repeat split; try done. set_solver.
  - specialize (IH (Some l) fuel ltac:(cbn in Hf; lia)).
    destruct (find_node fuel h (Some l) (next a) P) as [|[[prev' l']|]]; [done| |].
    + destruct IH as (ls1 & ls2 & a' & -> & ? & ? & -> & Hno).
      exists (l :: ls1), ls2, a'. repeat split; try done.
      * rewrite last_cons. by destruct (last ls1).
      * intros x b [->|Hx]%elem_of_cons Hb; [by simplify_eq|eauto].
    + intros x b [->|Hx]%elem_of_cons Hb; [by simplify_eq|eauto].
Qed.

End Lists.
