(* ===== verification/RingBuffer.v ===== *)
(** * The ring buffer of the flight recorder (src/ring_buffer.c)

    [ring_buffer] is the C structure; its storage is an array of pointers to
    NUL-terminated strings, an entry the bytes before the terminator.  The
    module [Spec] is the contract: a bounded log that keeps the newest entries;
    [repr] relates the two and every operation is shown to implement it. *)

From Stdlib Require Import ZArith Lia Strings.Byte.
From stdpp Require Import base tactics list option gmap.
From S2P Require Import Prelude Effects.

Open Scope Z_scope.

Definition MAX_LOG_ENTRY_SIZE : Z := 8192.

(** [char ** storage]: [None] for a null pointer; a slot is a string or null. *)
Record ring_buffer := RingBuffer {
  rb_storage : option (list (option (list byte)));
  rb_size : Z;
  rb_next : Z;
  rb_full : bool
}.

(** What [%s] prints of a buffer: the bytes before the first NUL. *)
Fixpoint c_str (bs : list byte) : list byte :=
  match bs with
  | [] => []
  | x00 :: _ => []
  | b :: bs => b :: c_str bs
  end.

Section Operations.
Context `{Env} {W : Type}.

Definition ring_buffer_init (size : Z) : M W (option ring_buffer) :=
  if size <? 1 then mret None
  else
    rb ← perform (Calloc 32);
    match rb with
    | None => mret None
    | Some _ =>
        storage ← perform (Calloc (size * 8));
        match storage with
        | None => mret None
        | Some _ => mret (Some (RingBuffer (Some (replicate (Z.to_nat size) None)) size 0 false))
        end
    end.

Fixpoint free_entries (n : nat) (storage : list (option (list byte))) (i : Z) : M W unit :=
  match n with
  | O => mret tt
  | S n =>
      match znth storage i with
      | None => halt (Fault OutOfBounds)
      | Some None => free_entries n storage (i + 1)
      | Some (Some e) => emit (Freed e) ;; free_entries n storage (i + 1)
      end
  end.

(** [ring_buffer_free(rbp)] on a non-null buffer: the new value of [*rbp]. *)
Definition ring_buffer_free (rb : ring_buffer) : M W (option ring_buffer) :=
  match rb_storage rb with
  | None => mret (Some rb)
  | Some storage =>
      free_entries (Z.to_nat (rb_size rb)) storage 0 ;;
      mret None
  end.

(** The [do ... while] loop of [ring_buffer_dump]. *)
Fixpoint dump_loop (fuel : nat) (rb : ring_buffer) (storage : list (option (list byte)))
    (current : Z) : M W unit :=
  match fuel with
  | O => halt OutOfFuel
  | S fuel =>
      match znth storage current with
      | None => halt (Fault OutOfBounds)
      | Some None => halt (Fault NullString)
      | Some (Some e) =>
          emit (Printed (c_str e)) ;;
          let current := u32 (current + 1) in
          let current := if current =? rb_size rb then 0 else current in
          if current =? rb_next rb then mret tt
          else dump_loop fuel rb storage current
      end
  end.

Definition ring_buffer_dump (rb : option ring_buffer) : M W unit :=
  match rb with
  | None => mret tt
  | Some rb =>
      match rb_storage rb with
      | None => mret tt
      | Some storage =>
          if (rb_next rb =? 0) && negb (rb_full rb) then mret tt
          else
            dump_loop (Z.to_nat (rb_size rb)) rb storage (if rb_full rb then rb_next rb else 0) ;;
            emit Flushed
      end
  end.

Definition ring_buffer_push_back (rb : ring_buffer) (data : list byte) (size : Z) : M W ring_buffer :=
  match rb_storage rb with
  | None => mret rb
  | Some storage =>
      let size := if MAX_LOG_ENTRY_SIZE <? size then MAX_LOG_ENTRY_SIZE else size in
      match znth storage (rb_next rb) with
      | None => halt (Fault OutOfBounds)
      | Some old =>
          match old with Some e => emit (Freed e) | None => mret tt end ;;
          block ← perform (Malloc (u32 (size + 1)));
          if negb block then
            mret (RingBuffer (Some (zset storage (rb_next rb) None)) (rb_size rb) (rb_next rb) (rb_full rb))
          else if zlen data <? size then halt (Fault OutOfBounds)
          else
            let storage := zset storage (rb_next rb) (Some (ztake size data)) in
            let next := u32 (rb_next rb + 1) in
            if next =? rb_size rb then mret (RingBuffer (Some storage) (rb_size rb) 0 true)
            else mret (RingBuffer (Some storage) (rb_size rb) next (rb_full rb))
      end
  end.

End Operations.

(** ** Contract: the newest [capacity] entries, oldest first *)
Module Spec.

Definition push (capacity : nat) (log : list (list byte)) (e : list byte) : list (list byte) :=
  drop (S (length log) - capacity) (log ++ [e]).

(** The last [capacity] entries of a history. *)
Definition newest (capacity : nat) (history : list (list byte)) : list (list byte) :=
  drop (length history - capacity) history.

Lemma push_newest capacity history e :
  push capacity (newest capacity history) e = newest capacity (history ++ [e]).
Proof.
  unfold push, newest. rewrite length_drop, length_app. cbn [length].
  destruct (decide (length history <= capacity)%nat).
  - replace (length history - capacity)%nat with 0%nat by lia.
    rewrite drop_0. f_equal. lia.
  - rewrite <-(drop_app_le history) by lia. rewrite drop_drop. f_equal. lia.
Qed.

Lemma length_push capacity log e :
  (length log <= capacity)%nat ->
  length (push capacity log e) = if decide (length log = capacity) then capacity else S (length log).
Proof. intros. unfold push. rewrite length_drop, length_app. cbn [length]. case_decide; lia. Qed.

End Spec.

(** ** Representation *)

(** The slots from the one to write next, in the order they were written. *)
Definition rotation (n : nat) (storage : list (option (list byte))) : list (option (list byte)) :=
  drop n storage ++ take n storage.

(** [rb] holds [log], oldest entry first: the slots written are the last ones
    in write order, the others are null. *)
Definition repr (rb : ring_buffer) (log : list (list byte)) : Prop :=
  exists storage,
    rb_storage rb = Some storage /\ zlen storage = rb_size rb /\
    0 <= rb_next rb < rb_size rb /\ rb_size rb < 2 ^ 32 /\
    (length log <= length storage)%nat /\
    rotation (Z.to_nat (rb_next rb)) storage =
      replicate (length storage - length log) None ++ (Some <$> log) /\
    rb_full rb = bool_decide (length log = length storage) /\
    (rb_full rb = false -> rb_next rb = zlen log).

Lemma rotation_insert n storage v :
  (n < length storage)%nat ->
  rotation (if decide (S n = length storage) then 0 else S n) (<[n := v]> storage)
  = tail (rotation n storage) ++ [v].
Proof.
  intros Hn. unfold rotation.
  destruct (drop n storage) as [|x rest] eqn:Ed.
  { apply (f_equal length) in Ed. rewrite length_drop in Ed. cbn in Ed. lia. }
  assert (storage = take n storage ++ x :: rest) as Hs by (by rewrite <-Ed, take_drop).
  assert (length (take n storage) = n) as Hlt by (rewrite length_take; lia).
  assert (<[n := v]> storage = take n storage ++ v :: rest) as Hi.
  { rewrite Hs at 1. rewrite insert_app_r_alt by lia.
    rewrite Hlt, Nat.sub_diag. done. }
  rewrite Hi. cbn [tail app]. case_decide as Hlast.
  - rewrite drop_0, take_0, app_nil_r.
    assert (rest = []) as ->; [|done].
    apply (f_equal length) in Hs. rewrite length_app, Hlt in Hs. cbn in Hs.
    destruct rest; [done|cbn in Hs; lia].
  - replace (take n storage ++ v :: rest) with ((take n storage ++ [v]) ++ rest) by (by rewrite <-app_assoc).
    rewrite drop_app_length', take_app_length' by (rewrite length_app; cbn; lia).
    by rewrite app_assoc.
Qed.

Lemma spec_push_slots (k : nat) (log : list (list byte)) e :
  (length log <= k)%nat -> (0 < k)%nat ->
  tail (replicate (k - length log) None ++ (Some <$> log)) ++ [Some e] =
  replicate (k - length (Spec.push k log e)) None ++ (Some <$> Spec.push k log e).
Proof.
  intros Hl Hk. unfold Spec.push. rewrite length_drop, length_app. cbn [length].
  destruct (decide (length log = k)) as [<-|].
  - rewrite Nat.sub_diag. replace (S (length log) - length log)%nat with 1%nat by lia.
    destruct log as [|y log]; [cbn in Hk; lia|]. cbn [length].
    replace (S (length log) - (S (length log) + 1 - 1))%nat with 0%nat by lia.
    change (drop 1 ((y :: log) ++ [e])) with (log ++ [e]). by rewrite fmap_app.
  - replace (S (length log) - k)%nat with 0%nat by lia. rewrite drop_0, fmap_app.
    replace (k - length log)%nat with (S (k - (length log + 1 - 0))) by lia.
    cbn [replicate app tail]. by rewrite <-app_assoc.
Qed.


(** ** Operations implement the contract *)

Section Correctness.
Context `{Env} {W : Type}.
Implicit Types (s : sys W) (rb : ring_buffer) (log : list (list byte)).

Lemma repr_slots rb log :
  repr rb log -> exists storage old,
    rb_storage rb = Some storage /\ znth storage (rb_next rb) = Some old /\
    (Z.to_nat (rb_next rb) < length storage)%nat.
Proof.
  intros (storage & Hst & Hlen & Hn & _).
  destruct (znth_is_Some storage (rb_next rb)) as [old Hold]; [lia|].
  exists storage, old. repeat split; try done. unfold zlen in *. lia.
Qed.

(** The state after a push whose allocation succeeded. *)
Definition pushed rb (storage : list (option (list byte))) (e : list byte) : ring_buffer :=
  let storage := zset storage (rb_next rb) (Some e) in
  if u32 (rb_next rb + 1) =? rb_size rb
  then RingBuffer (Some storage) (rb_size rb) 0 true
  else RingBuffer (Some storage) (rb_size rb) (u32 (rb_next rb + 1)) (rb_full rb).

Lemma pushed_repr rb log storage e :
  repr rb log -> rb_storage rb = Some storage ->
  repr (pushed rb storage e) (Spec.push (Z.to_nat (rb_size rb)) log e).
Proof.
  intros (st & Hst & Hlen & Hn & Hsz & Hll & Hrot & Hfull & Hnf) Hst'. simplify_eq.
  rename st into storage.
  assert (Z.to_nat (rb_size rb) = length storage) as Hk by (unfold zlen in *; lia).
  assert (Z.to_nat (rb_next rb) < length storage)%nat as Hn' by lia.
  rewrite Hk. unfold pushed.
  rewrite wrap_small by lia.
  pose proof (rotation_insert _ _ (Some e) Hn') as Hri.
  rewrite Hrot, spec_push_slots in Hri by lia.
  assert (length (Spec.push (length storage) log e) =
          if decide (length log = length storage) then length storage else S (length log)) as Hpl.
  { apply Spec.length_push; lia. }
  assert (zset storage (rb_next rb) (Some e) = <[Z.to_nat (rb_next rb) := Some e]> storage) as Hz.
  { unfold zset. by replace (0 <=? rb_next rb) with true by lia. }
  rewrite Hz.
  assert ((rb_full rb = true /\ length log = length storage) \/
          (rb_full rb = false /\ (length log < length storage)%nat /\ rb_next rb = zlen log)) as Hcase.
  { destruct (rb_full rb) eqn:Ef; [left|right]; symmetry in Hfull.
    - by apply bool_decide_eq_true in Hfull.
    - apply bool_decide_eq_false in Hfull. repeat split; [lia|by apply Hnf]. }
  clear Hfull Hnf. unfold zlen in *.
  destruct (rb_next rb + 1 =? rb_size rb) eqn:Elast; bool_facts;
    exists (<[Z.to_nat (rb_next rb) := Some e]> storage); cbn;
    unfold zlen; rewrite !length_insert; rewrite Hpl in *.
  - rewrite decide_True in Hri by lia. repeat split; try done; try lia.
    + case_decide; lia.
    + symmetry. apply bool_decide_eq_true. case_decide; lia.
  - rewrite decide_False in Hri by lia.
    replace (Z.to_nat (rb_next rb + 1)) with (S (Z.to_nat (rb_next rb))) by lia.
    repeat split; try done; try lia.
    + case_decide; lia.
    + destruct Hcase as [[-> Hl]|(-> & Hl & ?)]; symmetry.
      * apply bool_decide_eq_true. case_decide; lia.
      * apply bool_decide_eq_false. case_decide; lia.
    + intros Hf. destruct Hcase as [[? ?]|(? & ? & ?)]; [congruence|]. case_decide; lia.
Qed.

Lemma push_back_run rb data size storage old s e :
  rb_storage rb = Some storage -> znth storage (rb_next rb) = Some old ->
  0 <= size -> size <= zlen data ->
  answer (Malloc (u32 (Z.min size MAX_LOG_ENTRY_SIZE + 1))) (environment s) = (true, e) ->
  ring_buffer_push_back rb data size s =
    Ok (Sys (world s) e (trace s ++
          (match old with Some x => [Freed x] | None => [] end)))
       (pushed rb storage (ztake (Z.min size MAX_LOG_ENTRY_SIZE) data)).
Proof.
  intros Hst Hold Hs0 Hs Hm. unfold ring_buffer_push_back. rewrite Hst, Hold.
  replace (if MAX_LOG_ENTRY_SIZE <? size then MAX_LOG_ENTRY_SIZE else size)
    with (Z.min size MAX_LOG_ENTRY_SIZE) by (case_match; bool_facts; lia).
  assert ((zlen data <? Z.min size MAX_LOG_ENTRY_SIZE) = false) as Hb by (apply Z.ltb_ge; lia).
  unfold pushed, mbind, M_bind, perform, emit, mret, M_ret.
  destruct old; cbn; rewrite Hm; cbn; rewrite Hb; cbn;
    rewrite ?app_nil_r; by destruct (_ =? rb_size rb).
Qed.

(** The state after a push whose allocation failed: the slot is null. *)
Definition forgotten rb (storage : list (option (list byte))) : ring_buffer :=
  RingBuffer (Some (zset storage (rb_next rb) None)) (rb_size rb) (rb_next rb) (rb_full rb).

Lemma push_back_failed rb data size storage old s e :
  rb_storage rb = Some storage -> znth storage (rb_next rb) = Some old ->
  answer (Malloc (u32 (Z.min size MAX_LOG_ENTRY_SIZE + 1))) (environment s) = (false, e) ->
  ring_buffer_push_back rb data size s =
    Ok (Sys (world s) e (trace s ++ (match old with Some x => [Freed x] | None => [] end))) (forgotten rb storage).
Proof.
  intros Hst Hold Hm. unfold ring_buffer_push_back. rewrite Hst, Hold.
  replace (if MAX_LOG_ENTRY_SIZE <? size then MAX_LOG_ENTRY_SIZE else size)
    with (Z.min size MAX_LOG_ENTRY_SIZE) by (case_match; bool_facts; lia).
  unfold mbind, M_bind, perform, emit, mret, M_ret. destruct old; cbn; rewrite Hm; cbn; by rewrite ?app_nil_r.
Qed.

(** Before the buffer is full that slot was null already; in a full buffer the
    next dump meets it first. *)
Lemma forgotten_spare rb log storage :
  repr rb log -> rb_storage rb = Some storage -> rb_full rb = false -> forgotten rb storage = rb.
Proof.
  intros (st & Hst & Hlen & Hn & _ & Hll & Hrot & Hfull & _) Hst' Hf. simplify_eq.
  rewrite Hf in Hfull. symmetry in Hfull. apply bool_decide_eq_false in Hfull. unfold forgotten, zlen in *.
  replace (zset st (rb_next rb) None) with st; [destruct rb; cbn in *; by subst|].
  unfold zset. replace (0 <=? rb_next rb) with true by lia. symmetry. apply list_insert_id.
  rewrite <-(Nat.add_0_r (Z.to_nat (rb_next rb))), <-lookup_drop.
  assert (rotation (Z.to_nat (rb_next rb)) st !! 0%nat = Some None) as Hr.
  { rewrite Hrot. rewrite lookup_app_l by (rewrite length_replicate; lia). apply lookup_replicate_2. lia. }
  unfold rotation in Hr. rewrite lookup_app_l in Hr by (rewrite length_drop; lia). exact Hr.
Qed.

Lemma forgotten_dump rb log storage s :
  repr rb log -> rb_storage rb = Some storage -> rb_full rb = true ->
  ring_buffer_dump (Some (forgotten rb storage)) s = Stop s (Fault NullString).
Proof.
  intros Hr Hst Hf. destruct (repr_slots _ _ Hr) as (st & old & Hst' & Hold & _). simplify_eq.
  pose proof (znth_lookup _ _ _ Hold) as Hb. destruct Hr as (? & ? & ? & ? & _).
  unfold ring_buffer_dump. cbn. rewrite Hf, andb_false_r.
  destruct (Z.to_nat (rb_size rb)) eqn:En; [lia|].
  unfold mbind, M_bind. cbn. by rewrite znth_zset_eq by done.
Qed.

(** Entries of [pushes] as the ring buffer stores them. *)
Definition stored (p : list byte * Z) : list byte := ztake (Z.min p.2 MAX_LOG_ENTRY_SIZE) p.1.

(** [ring_buffer_push_back] called in order on a sequence of entries. *)
Fixpoint push_all rb (pushes : list (list byte * Z)) : M W ring_buffer :=
  match pushes with
  | [] => mret rb
  | p :: pushes => rb' ← ring_buffer_push_back rb p.1 p.2; push_all rb' pushes
  end.

Lemma rb_size_pushed rb storage e : rb_size (pushed rb storage e) = rb_size rb.
Proof. unfold pushed. by case_match. Qed.

Lemma push_all_repr `{!MemoryAvailable} pushes : forall rb log s,
  Forall (fun p => 0 <= p.2 <= zlen p.1) pushes ->
  repr rb log ->
  wp (push_all rb pushes) s
    (fun s' rb' => repr rb' (fold_left (Spec.push (Z.to_nat (rb_size rb))) (stored <$> pushes) log) /\
                   rb_size rb' = rb_size rb /\ world s' = world s)
    (fun _ _ => False).
Proof.
  induction pushes as [|p pushes IH]; intros rb log s Hall Hr; [done|].
  apply Forall_cons in Hall as [Hp Hall]. cbn [push_all]. apply wp_bind.
  destruct (repr_slots _ _ Hr) as (storage & old & Hst & Hold & _).
  destruct (malloc_answer (u32 (Z.min p.2 MAX_LOG_ENTRY_SIZE + 1)) (environment s)) as [e Ha].
  eapply wp_eq; [by eapply push_back_run; eauto; lia|].
  pose proof (pushed_repr _ _ _ (stored p) Hr Hst) as Hr'.
  eapply wp_mono; [apply (IH _ _ _ Hall Hr')| |done].
  intros s' rb' (Hrep & Hsz & Hw). rewrite rb_size_pushed in *. done.
Qed.

Lemma fold_push_newest k (xs history : list (list byte)) :
  fold_left (Spec.push k) xs (Spec.newest k history) = Spec.newest k (history ++ xs).
Proof.
  revert history. induction xs as [|x xs IH]; intros history; [by rewrite app_nil_r|].
  cbn [fold_left]. rewrite Spec.push_newest, IH, <-app_assoc. done.
Qed.

Lemma repr_empty size :
  1 <= size < 2 ^ 32 ->
  repr (RingBuffer (Some (replicate (Z.to_nat size) None)) size 0 false) [].
Proof.
  intros Hs. exists (replicate (Z.to_nat size) None). cbn.
  unfold zlen. rewrite length_replicate. repeat split; try done; try lia.
  - unfold rotation. rewrite take_0, app_nil_r, drop_0. cbn. by rewrite Nat.sub_0_r, app_nil_r.
  - symmetry. apply bool_decide_eq_false. cbn. lia.
Qed.

(** The slots from [c] on, going round, hold [todo] and end at [rb_next]. *)
Definition slots_from rb (storage : list (option (list byte))) (c : Z) (todo : list (list byte)) : Prop :=
  (forall i e, todo !! i = Some e ->
     znth storage ((c + Z.of_nat i) mod rb_size rb) = Some (Some e)) /\
  (c + zlen todo) mod rb_size rb = rb_next rb.

Lemma slots_from_tail rb storage c e todo :
  slots_from rb storage c (e :: todo) -> slots_from rb storage ((c + 1) mod rb_size rb) todo.
Proof.
  intros [Hs Hn]. split.
  - intros i x Hi. specialize (Hs (S i) x Hi).
    rewrite Zplus_mod_idemp_l.
    replace (c + 1 + Z.of_nat i) with (c + Z.of_nat (S i)) by lia. done.
  - rewrite Zplus_mod_idemp_l. autorewrite with zlen in Hn.
    by replace (c + 1 + zlen todo) with (c + (1 + zlen todo)) by lia.
Qed.

Lemma next_slot c size : 0 <= c < size -> size < 2 ^ 32 ->
  (if u32 (c + 1) =? size then 0 else u32 (c + 1)) = (c + 1) mod size.
Proof.
  intros. rewrite wrap_small by lia. case_match; bool_facts.
  - replace (c + 1) with size by lia. by rewrite Z_mod_same_full.
  - by rewrite Z.mod_small by lia.
Qed.

Lemma dump_loop_spec rb storage todo : forall fuel c s,
  rb_size rb < 2 ^ 32 -> 0 <= c < rb_size rb -> 0 < zlen todo <= rb_size rb ->
  (length todo <= fuel)%nat -> slots_from rb storage c todo ->
  dump_loop fuel rb storage c s =
    Ok (Sys (world s) (environment s) (trace s ++ ((Printed ∘ c_str) <$> todo))) tt.
Proof.
  induction todo as [|e todo IH]; intros fuel c s Hsz Hc Hlen Hf Hs; [zlen_lia|].
  destruct fuel as [|fuel]; [cbn in Hf; lia|].
  pose proof (slots_from_tail _ _ _ _ _ Hs) as Htl.
  destruct Hs as [Hs Hnx]. specialize (Hs 0%nat e eq_refl) as H0.
  rewrite Z.add_0_r, Z.mod_small in H0 by lia.
  cbn [dump_loop]. rewrite H0. unfold mbind, M_bind, emit, mret, M_ret.
  rewrite next_slot by lia. rewrite fmap_cons. destruct todo as [|e' todo].
  - replace (c + zlen [e]) with (c + 1) in Hnx by zlen_lia. by rewrite Hnx, Z.eqb_refl.
  - destruct (_ =? rb_next rb) eqn:E; bool_facts.
    + exfalso. rewrite <-Hnx in E. autorewrite with zlen in *.
      pose proof (zlen_nonneg todo).
      assert ((1 + zlen todo) mod rb_size rb = 0) as Hz.
      { replace (1 + zlen todo) with (c + (1 + (1 + zlen todo)) - (c + 1)) by lia.
        rewrite Zminus_mod, E, Z.sub_diag. done. }
      rewrite Z.mod_small in Hz by lia. lia.
    + rewrite IH; [|done| | |cbn in *; lia|done].
      * cbn [trace world environment]. by rewrite <-app_assoc.
      * apply Z.mod_pos_bound. lia.
      * zlen_lia.
Qed.

Lemma rotation_slots n (storage : list (option (list byte))) i v :
  (n < length storage)%nat -> rotation n storage !! i = Some v ->
  znth storage ((Z.of_nat n + Z.of_nat i) mod zlen storage) = Some v.
Proof.
  intros Hn Hi. unfold znth, zlen, rotation in *.
  pose proof (lookup_lt_Some _ _ _ Hi) as Hlt.
  rewrite length_app, length_drop, length_take in Hlt.
  pose proof (Z.mod_pos_bound (Z.of_nat n + Z.of_nat i) (Z.of_nat (length storage)) ltac:(lia)).
  replace (0 <=? _) with true by (symmetry; apply Z.leb_le; lia).
  destruct (decide (i < length (drop n storage))%nat) as [Hd|Hd].
  - rewrite lookup_app_l, lookup_drop in Hi by done. rewrite length_drop in Hd.
    rewrite Z.mod_small by lia. by replace (Z.to_nat (Z.of_nat n + Z.of_nat i)) with (n + i)%nat by lia.
  - rewrite lookup_app_r in Hi by lia. rewrite length_drop in *.
    replace (Z.of_nat n + Z.of_nat i) with (Z.of_nat (n + i - length storage) + 1 * Z.of_nat (length storage)) by lia.
    rewrite Z_mod_plus_full, Z.mod_small by lia. rewrite Nat2Z.id.
    apply lookup_take_Some in Hi as [Hi _].
    by replace (n + i - length storage)%nat with (i - (length storage - n))%nat by lia.
Qed.

Lemma repr_slots_from rb log storage :
  repr rb log -> rb_storage rb = Some storage ->
  slots_from rb storage (if rb_full rb then rb_next rb else 0) log.
Proof.
  intros (st & Hst & Hlen & Hn & Hsz & Hll & Hrot & Hfull & Hnf) Hst'. simplify_eq.
  rename st into storage.
  assert (Z.to_nat (rb_next rb) < length storage)%nat as Hn' by (unfold zlen in *; lia).
  destruct (rb_full rb) eqn:Ef; symmetry in Hfull; unfold zlen in *.
  - apply bool_decide_eq_true in Hfull.
    rewrite Hfull, Nat.sub_diag in Hrot. cbn [replicate app] in Hrot.
    split.
    + intros i e Hi. rewrite <-Hlen.
      replace (rb_next rb) with (Z.of_nat (Z.to_nat (rb_next rb))) by lia.
      apply rotation_slots; [done|]. by rewrite Hrot, list_lookup_fmap, Hi.
    + unfold zlen. rewrite Hfull, Hlen.
      replace (rb_next rb + rb_size rb) with (rb_next rb + 1 * rb_size rb) by lia.
      by rewrite Z_mod_plus_full, Z.mod_small by lia.
  - specialize (Hnf eq_refl). unfold rotation in Hrot.
    apply app_inj_2 in Hrot as [_ Htk].
    2: { rewrite length_take, length_fmap. lia. }
    split.
    + intros i e Hi. pose proof (lookup_lt_Some _ _ _ Hi).
      rewrite Z.add_0_l, Z.mod_small by lia. unfold znth.
      replace (0 <=? Z.of_nat i) with true by lia. rewrite Nat2Z.id.
      assert (take (Z.to_nat (rb_next rb)) storage !! i = Some (Some e)) as Hi'.
      { by rewrite Htk, list_lookup_fmap, Hi. }
      by apply lookup_take_Some in Hi' as [? _].
    + unfold zlen. rewrite Z.add_0_l, <-Hnf. apply Z.mod_small. lia.
Qed.

Lemma dump_run rb log s :
  repr rb log ->
  ring_buffer_dump (Some rb) s =
    Ok (Sys (world s) (environment s)
         (trace s ++ match log with [] => [] | _ => ((Printed ∘ c_str) <$> log) ++ [Flushed] end)) tt.
Proof.
  intros Hr. pose proof Hr as (storage & Hst & Hlen & Hn & Hsz & Hll & Hrot & Hfull & Hnf).
  pose proof (repr_slots_from _ _ _ Hr Hst) as Hsl.
  cbn [ring_buffer_dump]. rewrite Hst.
  destruct log as [|e log].
  - assert (rb_full rb = false) as Ef.
    { rewrite Hfull. apply bool_decide_eq_false. cbn [length]. unfold zlen in *. lia. }
    rewrite Ef, (Hnf Ef). cbn. rewrite app_nil_r. by destruct s.
  - assert ((rb_next rb =? 0) && negb (rb_full rb) = false) as ->.
    { destruct (rb_full rb) eqn:Ef; [apply andb_false_r|].
      rewrite (Hnf eq_refl), andb_true_r. apply Z.eqb_neq. zlen_lia. }
    unfold mbind, M_bind.
    rewrite (dump_loop_spec _ _ (e :: log)); try done.
    + unfold emit. cbn [world environment trace]. by rewrite <-app_assoc.
    + destruct (rb_full rb); lia.
    + unfold zlen in *. cbn [length] in *. lia.
    + unfold zlen in *. lia.
Qed.

(** A recording session: the buffer is created, entries are pushed, the buffer
    is dumped. *)
Definition session (size : Z) (pushes : list (list byte * Z)) : M W unit :=
  rb ← ring_buffer_init size;
  match rb with
  | None => ring_buffer_dump None
  | Some rb => rb' ← push_all rb pushes; ring_buffer_dump (Some rb')
  end.

(** The lines a trace prints. *)
Definition printed (tr : list event) : list (list byte) :=
  omap (fun ev => match ev with Printed l => Some l | _ => None end) tr.

Lemma printed_app tr tr' : printed (tr ++ tr') = printed tr ++ printed tr'.
Proof. unfold printed. apply omap_app. Qed.

Lemma printed_lines (log : list (list byte)) : printed ((Printed ∘ c_str) <$> log) = c_str <$> log.
Proof. induction log as [|e log IH]; [done|]. cbn. f_equal. exact IH. Qed.

End Correctness.

Lemma push_back_prints_nothing `{Env} {W} rb data size (s : sys W) :
  wp (ring_buffer_push_back rb data size) s
    (fun s' _ => printed (trace s') = printed (trace s)) (fun _ _ => True).
Proof.
  unfold ring_buffer_push_back. destruct (rb_storage rb) as [st|]; [|done].
  destruct (znth st (rb_next rb)) as [old|]; [|done].
  destruct old as [o|]; unfold wp, mbind, M_bind, emit, perform, mret, M_ret; cbn;
    destruct (answer _ _) as [b e]; destruct b; cbn; try destruct (_ <? _); cbn;
    try destruct (_ =? rb_size rb); cbn; rewrite ?printed_app; cbn; by rewrite ?app_nil_r.
Qed.

Lemma push_all_prints_nothing `{Env} {W} pushes : forall rb (s : sys W),
  wp (push_all rb pushes) s (fun s' _ => printed (trace s') = printed (trace s))
     (fun _ _ => True).
Proof.
  induction pushes as [|p pushes IH]; intros rb s; [done|]. cbn [push_all].
  apply wp_bind. eapply wp_mono; [apply push_back_prints_nothing| |done].
  intros s1 rb1 H1. rewrite <-H1. apply IH.
Qed.

(** ** Properties *)

(** C32: a session prints the newest [size] of the pushed entries, oldest first,
    each cut at [MAX_LOG_ENTRY_SIZE], and nothing else: creating, filling and
    dumping the ring buffer implements the bounded log, whatever the number of
    entries; the dump loop terminates and no read is out of bounds (allocations
    succeed: [MemoryAvailable]). *)
Theorem flight_recorder_keeps_newest `{MemoryAvailable} {W} size pushes (s : sys W) :
  1 <= size < 2 ^ 32 ->
  Forall (fun p => 0 <= p.2 <= zlen p.1) pushes ->
  wp (session size pushes) s
    (fun s' _ => printed (trace s') =
       printed (trace s) ++ (c_str <$> Spec.newest (Z.to_nat size) (stored <$> pushes)))
    (fun _ _ => False).
Proof.
  intros Hsz Hall. unfold session, ring_buffer_init.
  replace (size <? 1) with false by lia.
  destruct (calloc_answer 32 (environment s)) as (l1 & e1 & Ha1).
  destruct (calloc_answer (size * 8) e1) as (l2 & e2 & Ha2).
  set (rb0 := RingBuffer (Some (replicate (Z.to_nat size) None)) size 0 false).
  apply wp_bind. eapply (wp_eq _ _ (Sys (world s) e2 (trace s)) (Some rb0)).
  { unfold mbind, M_bind, perform. rewrite Ha1. cbn. by rewrite Ha2. }
  apply wp_bind.
  pose proof (push_all_repr pushes rb0 [] (Sys (world s) e2 (trace s)) Hall (repr_empty size Hsz)) as Hp.
  pose proof (push_all_prints_nothing pushes rb0 (Sys (world s) e2 (trace s))) as Hq.
  unfold wp in *. destruct (push_all rb0 pushes _) as [s1 rb1|]; [|done].
  destruct Hp as (Hrep & _ & _).
  rewrite (dump_run _ _ _ Hrep). cbn [trace].
  change [] with (Spec.newest (Z.to_nat size) []) in Hrep.
  rewrite printed_app, Hq. f_equal. cbn [rb_size rb0].
  change (@nil (list byte)) with (Spec.newest (Z.to_nat size) []).
  rewrite fold_push_newest. cbn [app].
  set (log := Spec.newest _ _). clearbody log.
  destruct log as [|e log]; [done|].
  rewrite printed_app, printed_lines. by rewrite app_nil_r.
Qed.

Lemma flight_recorder_keeps_newest_witness :
  let pushes := [([x41; x42], 2); ([x43], 1); ([x44; x45], 1)] in
  (1 <= 2 < 2 ^ 32 /\ Forall (fun p : list byte * Z => 0 <= p.2 <= zlen p.1) pushes) /\
  @wp generous unit unit (@session generous unit 2 pushes) (@Sys generous _ tt tt [])
    (fun s' _ => printed (trace s') =
       printed [] ++ (c_str <$> Spec.newest 2 (stored <$> pushes)))
    (fun _ _ => False) /\
  Spec.newest 2 (stored <$> pushes) = [[x43]; [x44]].
Proof.
  intros pushes.
  assert (Forall (fun p : list byte * Z => 0 <= p.2 <= zlen p.1) pushes) as Hall.
  { evaluate. }
  split; [by split; [lia|]|]. split; [|reflexivity].
  exact (@flight_recorder_keeps_newest generous generous_memory unit 2 pushes (@Sys generous _ tt tt [])
           ltac:(lia) Hall).
Defined.

(** C40: when the ring buffer is full and the allocation for a new entry fails,
    the slot of the oldest entry is left null while the buffer stays full, so
    the next dump passes a null pointer to [%s]. *)
Theorem push_failure_breaks_dump `{Env} {W} rb log data size (s : sys W) e :
  repr rb log -> rb_full rb = true -> 0 <= size ->
  answer (Malloc (u32 (Z.min size MAX_LOG_ENTRY_SIZE + 1))) (environment s) = (false, e) ->
  exists s1 rb1 s2,
    ring_buffer_push_back rb data size s = Ok s1 rb1 /\
    ring_buffer_dump (Some rb1) s1 = Stop s2 (Fault NullString).
Proof.
  intros Hr Hf Hs0 Hm.
  destruct (repr_slots _ _ Hr) as (storage & old & Hst & Hold & _).
  do 3 eexists. split; [by eapply push_back_failed|]. by eapply forgotten_dump.
Qed.

Lemma push_failure_breaks_dump_witness :
  let rb := RingBuffer (Some [Some [x41]]) 1 0 true in
  repr rb [[x41]] /\
  exists s1 rb1 s2,
    @ring_buffer_push_back scripted unit rb [x42] 1 (@Sys scripted _ tt [R_malloc false] []) = Ok s1 rb1 /\
    @ring_buffer_dump scripted unit (Some rb1) s1 = Stop s2 (Fault NullString).
Proof.
  intros rb.
  assert (repr rb [[x41]]) as Hr.
  { exists [Some [x41]]. repeat split; try done; cbn; lia. }
  split; [exact Hr|].
  exact (@push_failure_breaks_dump scripted unit rb [[x41]] [x42] 1 (@Sys scripted _ tt [R_malloc false] [])
           [] Hr eq_refl ltac:(lia) eq_refl).
Defined.
