(* ===== verification/Stat.v ===== *)
(** * Statistics (src/stat.c, src/stat.h)

    Counters over the requests and connections of an interval, printed and
    reset by a timer.  The counters are 64 bits wide and wrap around. *)

From Stdlib Require Import ZArith Lia String.
From stdpp Require Import base tactics list option gmap.
From S2P Require Import Prelude Effects.

Open Scope Z_scope.

Abbreviation ev_tstamp := double.

Record stat_t := Stat {
  stats_interval : Z;
  stats_timer_active : bool;
  requests_size : Z;
  responses_size : Z;
  requests : Z;
  responses : Z;
  query_times_sum : Z;
  connections_opened : Z;
  connections_closed : Z;
  connections_reused : Z;
  tcp_requests_size : Z;
  tcp_responses_size : Z;
  tcp_requests : Z;
  tcp_responses : Z;
  tcp_query_times_sum : Z
}.

Definition reset_counters (s : stat_t) : stat_t :=
  Stat (stats_interval s) (stats_timer_active s) 0 0 0 0 0 0 0 0 0 0 0 0 0.

(** The arguments of the format of [stat_print], in its order. *)
Definition stat_values (s : stat_t) : list Z :=
  [requests s; responses s; query_times_sum s;
   requests_size s; responses_size s;
   connections_opened s; connections_closed s; connections_reused s;
   tcp_requests s; tcp_responses s; tcp_query_times_sum s;
   tcp_requests_size s; tcp_responses_size s].

(** [(uint64_t)(latency * 1000)] *)
Definition latency_ms (latency : ev_tstamp) : option Z :=
  uint64_of_double (dmul latency (double_of_Z 1000)).

Section Operations.
Context `{Env} {W : Type} `{!Lens W stat_t}.

Definition stat_print : M W unit :=
  s ← get;
  emit (StatLine (stat_values s)) ;;
  put (reset_counters s).

Definition stat_timer_cb : M W unit := stat_print.

Definition stat_init (interval : Z) : M W unit :=
  let s := Stat interval (0 <? interval) 0 0 0 0 0 0 0 0 0 0 0 0 0 in
  put s ;;
  if 0 <? interval then
    SLOG "RequestsCount ResponsesCount LatencyMilisecondsSummary RequestsSize ResponsesSize ConnectionsOpened ConnectionsClosed ConnectionsReused TcpRequestsCount TcpResponsesCount TcpLatencyMilisecondsSummary TcpRequestsSize TcpResponsesSize"
  else mret tt.

Definition stat_request_begin (req_len : Z) (is_tcp : bool) : M W unit :=
  modify (fun s =>
    if is_tcp then
      Stat (stats_interval s) (stats_timer_active s)
        (requests_size s) (responses_size s) (requests s) (responses s) (query_times_sum s)
        (connections_opened s) (connections_closed s) (connections_reused s)
        (u64 (tcp_requests_size s + req_len)) (tcp_responses_size s)
        (u64 (tcp_requests s + 1)) (tcp_responses s) (tcp_query_times_sum s)
    else
      Stat (stats_interval s) (stats_timer_active s)
        (u64 (requests_size s + req_len)) (responses_size s)
        (u64 (requests s + 1)) (responses s) (query_times_sum s)
        (connections_opened s) (connections_closed s) (connections_reused s)
        (tcp_requests_size s) (tcp_responses_size s)
        (tcp_requests s) (tcp_responses s) (tcp_query_times_sum s)).

Definition stat_request_end (resp_len : Z) (latency : ev_tstamp) (is_tcp : bool) : M W unit :=
  if resp_len =? 0 then mret tt
  else
    match latency_ms latency with
    | None => halt (Fault BadConversion)
    | Some ms =>
        modify (fun s =>
          if is_tcp then
            Stat (stats_interval s) (stats_timer_active s)
              (requests_size s) (responses_size s) (requests s) (responses s) (query_times_sum s)
              (connections_opened s) (connections_closed s) (connections_reused s)
              (tcp_requests_size s) (u64 (tcp_responses_size s + resp_len))
              (tcp_requests s) (u64 (tcp_responses s + 1)) (u64 (tcp_query_times_sum s + ms))
          else
            Stat (stats_interval s) (stats_timer_active s)
              (requests_size s) (u64 (responses_size s + resp_len))
              (requests s) (u64 (responses s + 1)) (u64 (query_times_sum s + ms))
              (connections_opened s) (connections_closed s) (connections_reused s)
              (tcp_requests_size s) (tcp_responses_size s)
              (tcp_requests s) (tcp_responses s) (tcp_query_times_sum s))
    end.

(** Update of the three connection counters. *)
Definition with_connections (opened closed reused : Z) (s : stat_t) : stat_t :=
  Stat (stats_interval s) (stats_timer_active s)
    (requests_size s) (responses_size s) (requests s) (responses s) (query_times_sum s)
    opened closed reused
    (tcp_requests_size s) (tcp_responses_size s)
    (tcp_requests s) (tcp_responses s) (tcp_query_times_sum s).

Definition stat_connection_opened : M W unit :=
  modify (fun s => with_connections (u64 (connections_opened s + 1)) (connections_closed s)
                     (connections_reused s) s).

Definition stat_connection_closed : M W unit :=
  modify (fun s => with_connections (connections_opened s) (u64 (connections_closed s + 1))
                     (connections_reused s) s).

Definition stat_connection_reused : M W unit :=
  modify (fun s => with_connections (connections_opened s) (connections_closed s)
                     (u64 (connections_reused s + 1)) s).

Definition stat_stop : M W unit :=
  modify (fun s => Stat (stats_interval s) false
    (requests_size s) (responses_size s) (requests s) (responses s) (query_times_sum s)
    (connections_opened s) (connections_closed s) (connections_reused s)
    (tcp_requests_size s) (tcp_responses_size s)
    (tcp_requests s) (tcp_responses s) (tcp_query_times_sum s)).

Definition stat_cleanup : M W unit :=
  s ← get;
  if 0 <? stats_interval s then stat_print else mret tt.

End Operations.

(** ** What happens in an interval *)

Inductive stat_op :=
| RequestBegin (req_len : Z) (is_tcp : bool)
| RequestEnd (resp_len : Z) (latency : ev_tstamp) (is_tcp : bool)
| ConnectionOpened
| ConnectionClosed
| ConnectionReused.

(** What an operation adds to the values of the line. *)
Definition contribution (o : stat_op) : list Z :=
  match o with
  | RequestBegin n false => [1; 0; 0; n; 0; 0; 0; 0; 0; 0; 0; 0; 0]
  | RequestBegin n true => [0; 0; 0; 0; 0; 0; 0; 0; 1; 0; 0; n; 0]
  | RequestEnd n lat tcp =>
      if n =? 0 then replicate 13 0
      else
        let ms := default 0 (latency_ms lat) in
        if tcp then [0; 0; 0; 0; 0; 0; 0; 0; 0; 1; ms; 0; n]
        else [0; 1; ms; 0; n; 0; 0; 0; 0; 0; 0; 0; 0]
  | ConnectionOpened => [0; 0; 0; 0; 0; 1; 0; 0; 0; 0; 0; 0; 0]
  | ConnectionClosed => [0; 0; 0; 0; 0; 0; 1; 0; 0; 0; 0; 0; 0]
  | ConnectionReused => [0; 0; 0; 0; 0; 0; 0; 1; 0; 0; 0; 0; 0]
  end.

Definition totals (ops : list stat_op) : list Z :=
  foldr (fun o acc => zip_with Z.add (contribution o) acc) (replicate 13 0) ops.

(** The latency of every counted response converts to an integer. *)
Definition op_valid (o : stat_op) : bool :=
  match o with
  | RequestEnd n lat _ => (n =? 0) || bool_decide (is_Some (latency_ms lat))
  | _ => true
  end.

Section Behaviour.
Context `{Env} {W : Type} `{!Lens W stat_t}.
Implicit Types (s : sys W).

Definition run_op (o : stat_op) : M W unit :=
  match o with
  | RequestBegin n tcp => stat_request_begin n tcp
  | RequestEnd n lat tcp => stat_request_end n lat tcp
  | ConnectionOpened => stat_connection_opened
  | ConnectionClosed => stat_connection_closed
  | ConnectionReused => stat_connection_reused
  end.

(** Operations of consecutive intervals, each ended by the timer. *)
Fixpoint run_ops (ops : list stat_op) : M W unit :=
  match ops with
  | [] => mret tt
  | o :: ops => run_op o ;; run_ops ops
  end.

Fixpoint run_intervals (intervals : list (list stat_op)) : M W unit :=
  match intervals with
  | [] => mret tt
  | ops :: rest => run_ops ops ;; stat_timer_cb ;; run_intervals rest
  end.

Lemma length_contribution o : length (contribution o) = 13%nat.
Proof. destruct o as [? []|n ? []| | |]; cbn; try done; by case_match. Qed.

Lemma length_totals ops : length (totals ops) = 13%nat.
Proof.
  induction ops as [|o ops IH]; [done|]. cbn [totals foldr].
  rewrite length_zip_with. fold (totals ops). by rewrite IH, length_contribution.
Qed.

(** One operation adds its contribution, modulo 2^64, and nothing else. *)
Lemma run_op_values o s xs :
  op_valid o = true -> stat_values (part stat_t s) = u64 <$> xs ->
  wp (run_op o) s
    (fun s' _ =>
       stat_values (part stat_t s') = u64 <$> zip_with Z.add xs (contribution o) /\
       trace s' = trace s)
    (fun _ _ => False).
Proof.
  intros Hv Hx.
  do 14 (destruct xs as [|? xs]; try done). injection Hx as ?????????????.
  destruct o as [n []|n lat []| | |]; cbn [run_op];
    unfold stat_request_begin, stat_request_end, stat_connection_opened,
      stat_connection_closed, stat_connection_reused; cbn [contribution op_valid] in *.
  3,4: destruct (n =? 0) eqn:En;
    [|cbn in Hv; apply bool_decide_eq_true in Hv as [ms Hms]; rewrite Hms].
  all: repeat wp_step; unfold part in *; cbn [world environment trace];
    rewrite ?view_set; (split; [|done]);
    unfold with_connections, stat_values; cbn;
    repeat match goal with E : _ (view (world _)) = _ |- _ => rewrite E; clear E end;
    by rewrite ?Z.add_0_r, ?wrap_add_l.
Qed.

Lemma zip_with_add_assoc (a b c : list Z) :
  zip_with Z.add (zip_with Z.add a b) c = zip_with Z.add a (zip_with Z.add b c).
Proof.
  revert b c. induction a as [|x a IH]; intros [|y b] [|z c]; cbn; try done.
  by rewrite IH, Z.add_assoc.
Qed.

Lemma run_ops_values ops : forall s xs,
  length xs = 13%nat -> forallb op_valid ops = true ->
  stat_values (part stat_t s) = u64 <$> xs ->
  wp (run_ops ops) s
    (fun s' _ =>
       stat_values (part stat_t s') = u64 <$> zip_with Z.add xs (totals ops) /\
       trace s' = trace s)
    (fun _ _ => False).
Proof.
  induction ops as [|o ops IH]; intros s xs Hl Hv Hx; cbn [run_ops].
  - apply wp_ret. split; [|done]. rewrite Hx. f_equal.
    do 14 (destruct xs as [|? xs]; try done). cbn. by rewrite !Z.add_0_r.
  - cbn in Hv. bool_facts. apply wp_bind.
    eapply wp_mono; [apply (run_op_values _ _ _ ltac:(eassumption) Hx)| |done].
    intros s1 _ [Hx1 Ht1].
    assert (length (zip_with Z.add xs (contribution o)) = 13%nat) as Hl1.
    { by rewrite length_zip_with, Hl, length_contribution. }
    eapply wp_mono; [apply (IH _ _ Hl1 ltac:(eassumption) Hx1)| |done].
    intros s2 _ [Hx2 Ht2]. by rewrite Hx2, Ht2, Ht1, zip_with_add_assoc.
Qed.

(** The statistics lines of a trace. *)
Definition stat_lines (tr : list event) : list (list Z) :=
  omap (fun ev => match ev with StatLine v => Some v | _ => None end) tr.

Lemma zip_with_zeros (l : list Z) : length l = 13%nat -> zip_with Z.add (replicate 13 0) l = l.
Proof. intros Hl. do 14 (destruct l as [|? l]; try done). Qed.

Lemma interval_run ops s :
  forallb op_valid ops = true -> stat_values (part stat_t s) = replicate 13 0 ->
  wp (run_ops ops ;; stat_timer_cb) s
    (fun s' _ =>
       stat_values (part stat_t s') = replicate 13 0 /\
       trace s' = trace s ++ [StatLine (u64 <$> totals ops)])
    (fun _ _ => False).
Proof.
  intros Hv Hz. apply wp_bind.
  eapply wp_mono; [apply (run_ops_values ops s (replicate 13 0)); done| |done].
  intros s1 _ [Hx1 Ht1]. unfold stat_timer_cb, stat_print. wp_steps. cbn [trace].
  rewrite zip_with_zeros in Hx1 by apply length_totals.
  unfold part in *. cbn [world]. rewrite view_set, Ht1, Hx1. done.
Qed.

End Behaviour.

(** ** Properties *)

(** C33: with the counters at zero, whatever requests, responses and connections
    happen in however many timer intervals, each interval prints one line whose
    thirteen numbers are the totals of that interval modulo 2^64 (a response of
    length zero is not counted), and the next interval starts again from zero. *)
Theorem stat_lines_are_interval_totals `{Env} {W} `{!Lens W stat_t}
    (intervals : list (list stat_op)) (s : sys W) :
  Forall (fun ops => forallb op_valid ops = true) intervals ->
  stat_values (part stat_t s) = replicate 13 0 ->
  wp (run_intervals intervals) s
    (fun s' _ =>
       stat_lines (trace s') = stat_lines (trace s) ++ ((fun ops => u64 <$> totals ops) <$> intervals) /\
       stat_values (part stat_t s') = replicate 13 0)
    (fun _ _ => False).
Proof.
  revert s. induction intervals as [|ops rest IH]; intros s Hv Hz; cbn [run_intervals].
  - apply wp_ret. by rewrite app_nil_r.
  - apply Forall_cons in Hv as [Hv Hrest].
    pose proof (interval_run ops s Hv Hz) as Hi.
    unfold wp, mbind, M_bind in Hi |- *.
    destruct (run_ops ops s) as [s1 []|]; [|done].
    destruct (stat_timer_cb s1) as [s2 []|]; [|done].
    destruct Hi as [Hz2 Ht2].
    specialize (IH s2 Hrest Hz2). unfold wp in IH.
    destruct (run_intervals rest s2) as [s3 []|]; [|done].
    destruct IH as [Hl Hz3]. split; [|done].
    rewrite Hl, Ht2. unfold stat_lines. rewrite omap_app, <-app_assoc. done.
Qed.

Lemma stat_lines_are_interval_totals_witness :
  let ops1 := [RequestBegin 40 false; ConnectionOpened; RequestEnd 90 (double_of_Z 2) false] in
  let ops2 := [RequestBegin 30 true; RequestEnd 0 (double_of_Z 1) true] in
  let st := Stat 10 true 0 0 0 0 0 0 0 0 0 0 0 0 0 in
  Forall (fun ops => forallb op_valid ops = true) [ops1; ops2] /\
  @wp generous stat_t unit (@run_intervals generous _ _ [ops1; ops2]) (@Sys generous _ st tt [])
    (fun s' _ =>
       stat_lines (trace s') = [[1; 1; 2000; 40; 90; 1; 0; 0; 0; 0; 0; 0; 0];
                                [0; 0; 0; 0; 0; 0; 0; 0; 1; 0; 0; 30; 0]] /\
       stat_values (part stat_t s') = replicate 13 0)
    (fun _ _ => False).
Proof.
  intros ops1 ops2 st.
  assert (Forall (fun ops => forallb op_valid ops = true) [ops1; ops2]) as Hv by evaluate.
  split; [exact Hv|].
  exact (@stat_lines_are_interval_totals generous stat_t _ [ops1; ops2]
           (@Sys generous _ st tt []) Hv eq_refl).
Defined.
