(* ===== verification/Logging.v ===== *)
(** * Logging (src/logging.c, src/logging.h)

    The state of the file-scope variables of logging.c, the construction of a
    log line in its fixed buffer, the filter by severity, the flight recorder
    and the handling of fatal messages.  The text of a message is the rendered
    text of its format, of any length. *)

From Stdlib Require Import ZArith Lia String Strings.Byte DecimalString.
From stdpp Require Import base tactics list option gmap.
From S2P Require Import Prelude Effects RingBuffer.

Open Scope Z_scope.

(** [enum LogSeverity] as the integers the functions take. *)
Definition severity_code (l : LogSeverity) : Z :=
  match l with
  | LOG_DEBUG => 0
  | LOG_INFO => 1
  | LOG_WARNING => 2
  | LOG_ERROR => 3
  | LOG_STATS => 4
  | LOG_FATAL => 5
  end.
Definition LOG_MAX : Z := 6.
Definition LOG_FLUSH_LEVEL : Z := severity_code LOG_WARNING.
Definition LOG_LINE_SIZE : Z := 2048.
Definition STDOUT_FILENO : Z := 1.

Definition SeverityStr : list string := ["[D]"; "[I]"; "[W]"; "[E]"; "[S]"; "[F]"]%string.

(** The file-scope variables. *)
Record logging_t := Logging {
  logfile : option Z;
  loglevel : Z;
  logging_timer_active : bool;
  sigusr2_active : bool;
  flight_recorder_async_active : bool;
  flight_recorder_async_pending : bool;
  flight_recorder : option ring_buffer
}.

Definition initial_logging : logging_t :=
  Logging None (severity_code LOG_ERROR) false false false false None.

(** ** Rendering of the prefix *)

Definition bytes_of (s : string) : list byte := list_byte_of_string s.

Definition decimal (n : Z) : list byte :=
  bytes_of (NilZero.string_of_int (Z.to_int n)).

(** Padding on the left up to a width, as in [%8lu] and [%06lu]. *)
Definition padded (pad : byte) (width : nat) (bs : list byte) : list byte :=
  replicate (width - length bs) pad ++ bs.

(** [snprintf("%s %8lu.%06lu %s:%d ", ...)] *)
Definition log_prefix (severity : string) (tv : Z * Z) (file : string) (line : Z) : list byte :=
  bytes_of severity ++ bytes_of " " ++ padded x20 8 (decimal tv.1) ++ bytes_of "." ++
  padded x30 6 (decimal tv.2) ++ bytes_of " " ++ bytes_of file ++ bytes_of ":" ++
  decimal line ++ bytes_of " ".

(** What [snprintf(dst, size, ...)] leaves in [dst], without the terminator. *)
Definition snprintf_text (size : Z) (text : list byte) : list byte := ztake (size - 1) text.

Section Operations.
Context `{Env} {W : Type} `{!Lens W logging_t}.
(** Whether the program is compiled with [DEBUG]. *)
Variable DEBUG : bool.

Definition set_logfile (f : option Z) (g : logging_t) : logging_t :=
  Logging f (loglevel g) (logging_timer_active g) (sigusr2_active g)
    (flight_recorder_async_active g) (flight_recorder_async_pending g) (flight_recorder g).
Definition set_flight_recorder (r : option ring_buffer) (g : logging_t) : logging_t :=
  Logging (logfile g) (loglevel g) (logging_timer_active g) (sigusr2_active g)
    (flight_recorder_async_active g) (flight_recorder_async_pending g) r.
Definition set_watchers (timer usr2 async pending : bool) (g : logging_t) : logging_t :=
  Logging (logfile g) (loglevel g) timer usr2 async pending (flight_recorder g).

Definition logging_timer_cb : M W unit :=
  g ← get;
  match logfile g with Some _ => emit Flushed | None => mret tt end.

(** The line of [_log]: the buffer after both prints, with the truncation mark,
    and [buff_pos].  [None] stands for the two calls of [abort]. *)
Definition log_line (prefix msg : list byte) : option (list byte * Z) :=
  let buff := snprintf_text LOG_LINE_SIZE prefix in
  let chars := zlen prefix in
  if LOG_LINE_SIZE / 2 <=? chars then None
  else
    let buff_pos := u32 chars in
    let buff := buff ++ snprintf_text (LOG_LINE_SIZE - buff_pos) msg in
    let buff_pos := u32 (buff_pos + zlen msg) in
    if LOG_LINE_SIZE <=? buff_pos then
      let buff_pos := LOG_LINE_SIZE - 1 in
      Some (zset buff (buff_pos - 1) x24, buff_pos)
    else Some (buff, buff_pos).

(** The part of [_log] after the line is in the buffer. *)
Definition log_deliver (severity : Z) (buff : list byte) (buff_pos : Z) : M W unit :=
  g ← get;
  match flight_recorder g with
  | Some rb =>
      rb' ← ring_buffer_push_back rb buff buff_pos;
      modify (set_flight_recorder (Some rb'))
  | None => mret tt
  end ;;
  if severity <? loglevel g then mret tt
  else
    emit (Printed (c_str buff)) ;;
    (if LOG_FLUSH_LEVEL <=? severity then emit Flushed else mret tt) ;;
    if severity =? severity_code LOG_FATAL then
      g' ← get;
      match flight_recorder g' with
      | Some rb => ring_buffer_dump (Some rb)
      | None => mret tt
      end ;;
      if DEBUG then halt Aborted else halt (Exited 1)
    else mret tt.

(** [_log]; it calls itself through [FLOG] on a severity out of range, so a
    depth of two is enough. *)
Fixpoint log_at (depth : nat) (file : string) (line severity : Z) (msg : list byte) : M W unit :=
  match depth with
  | O => halt OutOfFuel
  | S depth =>
      g ← get;
      if (severity <? loglevel g) && bool_decide (flight_recorder g = None) then mret tt
      else
        (if (severity <? 0) || (LOG_MAX <=? severity) then
           log_at depth "logging.c" 125 (severity_code LOG_FATAL)
             (bytes_of "Unknown log severity: " ++ decimal severity) ;;
           halt (Exited 1)
         else mret tt) ;;
        match logfile g with
        | Some _ => mret tt
        | None =>
            ok ← perform (Fdopen STDOUT_FILENO);
            if (ok : bool) then modify (set_logfile (Some STDOUT_FILENO)) else halt Aborted
        end ;;
        tv ← perform Gettimeofday;
        match SeverityStr !! Z.to_nat severity with
        | None => halt (Fault OutOfBounds)
        | Some str =>
            match log_line (log_prefix str tv file line) msg with
            | None => halt Aborted
            | Some (buff, buff_pos) => log_deliver severity buff buff_pos
            end
        end
  end.

Definition _log : string -> Z -> Z -> list byte -> M W unit := log_at 2.

Definition logging_flight_recorder_dump : M W unit :=
  g ← get;
  match flight_recorder g with
  | Some _ =>
      _log "logging.c" 44 (severity_code LOG_INFO) (bytes_of "Flight recorder dump") ;;
      g' ← get;
      match logfile g' with
      | Some _ => ring_buffer_dump (flight_recorder g')
      | None => halt (Fault NullDereference)
      end
  | None => _log "logging.c" 47 (severity_code LOG_INFO) (bytes_of "Flight recorder is disabled")
  end.

Definition logging_flight_recorder_dump_async_cb : M W unit := logging_flight_recorder_dump.

(** The signal handler only marks the asynchronous watcher ([ev_async_send]). *)
Definition logging_flight_recorder_dump_cb : M W unit :=
  modify (fun g => set_watchers (logging_timer_active g) (sigusr2_active g)
                     (flight_recorder_async_active g) true g).

Definition logging_events_init : M W unit :=
  g ← get;
  (if loglevel g <? LOG_FLUSH_LEVEL then
     _log "logging.c" 70 (severity_code LOG_DEBUG) (bytes_of "starting periodic log flush timer") ;;
     modify (fun g => set_watchers true (sigusr2_active g) (flight_recorder_async_active g)
                        (flight_recorder_async_pending g) g)
   else mret tt) ;;
  _log "logging.c" 75 (severity_code LOG_DEBUG) (bytes_of "starting SIGUSR2 handler") ;;
  modify (fun g => set_watchers (logging_timer_active g) true true
                     (flight_recorder_async_pending g) g).

Definition logging_events_cleanup : M W unit :=
  modify (set_watchers false false false false).

Definition logging_init (fd level flight_recorder_size : Z) : M W unit :=
  g ← get;
  match logfile g with
  | Some old => emit (Closed old) ;; modify (set_logfile None)
  | None => mret tt
  end ;;
  ok ← perform (Fdopen fd);
  if negb ok then mret tt
  else
    modify (set_logfile (Some fd)) ;;
    modify (fun g => Logging (logfile g) level (logging_timer_active g) (sigusr2_active g)
                       (flight_recorder_async_active g) (flight_recorder_async_pending g)
                       (flight_recorder g)) ;;
    rb ← ring_buffer_init flight_recorder_size;
    modify (set_flight_recorder rb).

Definition logging_cleanup : M W unit :=
  g ← get;
  match flight_recorder g with
  | Some rb => _ ← ring_buffer_free rb; modify (set_flight_recorder None)
  | None => mret tt
  end ;;
  match logfile g with
  | Some fd => emit (Closed fd)
  | None => mret tt
  end ;;
  modify (set_logfile None).

Definition logging_debug_enabled (g : logging_t) : bool :=
  (loglevel g <=? severity_code LOG_DEBUG) || bool_decide (flight_recorder g <> None).

End Operations.

(** ** The line *)

Lemma log_line_value prefix msg :
  zlen prefix < 1024 -> zlen msg < 2 ^ 31 ->
  log_line prefix msg = Some
    (if zlen (prefix ++ msg) <? LOG_LINE_SIZE then (prefix ++ msg, zlen (prefix ++ msg))
     else (ztake 2046 (prefix ++ msg) ++ [x24], 2047)).
Proof.
  intros Hp Hm. pose proof (zlen_nonneg prefix). pose proof (zlen_nonneg msg).
  unfold log_line, snprintf_text, LOG_LINE_SIZE.
  change (2048 / 2) with 1024. replace (1024 <=? zlen prefix) with false by lia.
  rewrite !wrap_small by (rewrite ?wrap_small; lia).
  rewrite (ztake_all (2048 - 1)) by lia. rewrite zlen_app.
  destruct (2048 <=? zlen prefix + zlen msg) eqn:E; bool_facts.
  - replace (zlen prefix + zlen msg <? 2048) with false by lia.
    do 2 f_equal.
    set (t := ztake (2048 - zlen prefix - 1) msg).
    assert (zlen t = 2047 - zlen prefix) as Ht by (unfold t; rewrite zlen_ztake; lia).
    assert (ztake 2047 (prefix ++ msg) = prefix ++ t) as Heq.
    { unfold ztake at 1. rewrite take_app_ge by (unfold zlen in *; lia). f_equal.
      unfold t, ztake. f_equal. unfold zlen. lia. }
    rewrite <-Heq. rewrite <-(ztake_ztake 2046 2047) by lia.
    set (l := ztake 2047 (prefix ++ msg)).
    assert (length l = 2047%nat) as Hl.
    { unfold l, ztake. rewrite length_take, length_app. unfold zlen in *. lia. }
    unfold zset, ztake. cbn [Z.leb Z.sub]. change (Z.to_nat (2048 - 1 - 1)) with 2046%nat.
    change (Z.to_nat 2046) with 2046%nat.
    rewrite insert_take_drop by lia. rewrite (drop_ge l) by lia. done.
  - replace (zlen prefix + zlen msg <? 2048) with true by lia.
    rewrite ztake_all by lia. done.
Qed.

Lemma log_line_length prefix msg :
  zlen prefix < 1024 -> zlen msg < 2 ^ 31 ->
  exists buff, log_line prefix msg = Some (buff, zlen buff) /\ zlen buff < LOG_LINE_SIZE.
Proof.
  intros Hp Hm. rewrite log_line_value by done. unfold LOG_LINE_SIZE.
  destruct (_ <? 2048) eqn:E; bool_facts; [by eauto|].
  exists (ztake 2046 (prefix ++ msg) ++ [x24]).
  rewrite (zlen_app (ztake _ _)), zlen_ztake by lia.
  by replace (Z.min 2046 (zlen (prefix ++ msg))) with 2046 by lia.
Qed.

(** C36: the log line never exceeds the 2048-byte buffer: when prefix and message
    fit they are kept whole, otherwise the line is the first 2046 bytes and a
    dollar sign as the truncation mark; [buff_pos] is the length of the text. *)
Theorem log_line_fits prefix msg :
  zlen prefix < 1024 -> zlen msg < 2 ^ 31 ->
  exists buff buff_pos, log_line prefix msg = Some (buff, buff_pos) /\
    buff_pos = zlen buff /\ zlen buff < LOG_LINE_SIZE /\
    (buff = prefix ++ msg \/
     (LOG_LINE_SIZE <= zlen (prefix ++ msg) /\ zlen buff = 2047 /\
      last buff = Some x24 /\ ztake 2046 buff = ztake 2046 (prefix ++ msg))).
Proof.
  intros Hp Hm. rewrite log_line_value by done. unfold LOG_LINE_SIZE.
  destruct (zlen (prefix ++ msg) <? 2048) eqn:E; bool_facts.
  - do 2 eexists. split; [done|]. repeat split; [done|]. by left.
  - do 2 eexists. split; [done|].
    assert (zlen (ztake 2046 (prefix ++ msg)) = 2046) as Hl by (rewrite zlen_ztake; lia).
    rewrite zlen_app, Hl. repeat split; try done. right. repeat split; try done.
    + by rewrite last_snoc.
    + by apply ztake_app_exact.
Qed.

Lemma log_line_fits_witness :
  (zlen (bytes_of "[I] ") < 1024 /\ zlen (bytes_of "hello") < 2 ^ 31) /\
  exists buff buff_pos, log_line (bytes_of "[I] ") (bytes_of "hello") = Some (buff, buff_pos) /\
    buff_pos = zlen buff /\ zlen buff < LOG_LINE_SIZE /\
    (buff = bytes_of "[I] " ++ bytes_of "hello" \/
     (LOG_LINE_SIZE <= zlen (bytes_of "[I] " ++ bytes_of "hello") /\ zlen buff = 2047 /\
      last buff = Some x24 /\
      ztake 2046 buff = ztake 2046 (bytes_of "[I] " ++ bytes_of "hello"))).
Proof.
  assert (zlen (bytes_of "[I] ") < 1024 /\ zlen (bytes_of "hello") < 2 ^ 31) as [H1 H2].
  { split; reflexivity. }
  split; [by split|]. exact (log_line_fits _ _ H1 H2).
Defined.

(** ** Delivery *)

(** The lines printed since the last flush. *)
Definition unflushed (tr : list event) : list (list byte) :=
  foldl (fun acc ev => match ev with Printed l => acc ++ [l] | Flushed => [] | _ => acc end) [] tr.

Lemma unflushed_snoc tr ev :
  unflushed (tr ++ [ev]) =
  match ev with Printed l => unflushed tr ++ [l] | Flushed => [] | _ => unflushed tr end.
Proof. unfold unflushed. by rewrite foldl_app. Qed.

(** The recorder, when there is one, is a well-formed ring buffer. *)
Definition recorder_ok (g : logging_t) : Prop :=
  forall rb, flight_recorder g = Some rb -> exists log, repr rb log.

Section Delivery.
Context `{Env} {W : Type} `{!Lens W logging_t}.
Variable DEBUG : bool.
Implicit Types (s : sys W).

Lemma push_back_unflushed rb data size s :
  wp (ring_buffer_push_back rb data size) s
    (fun s' _ => unflushed (trace s') = unflushed (trace s) /\ world s' = world s) (fun _ _ => True).
Proof.
  unfold ring_buffer_push_back. destruct (rb_storage rb) as [st|]; [|done].
  destruct (znth st (rb_next rb)) as [old|]; [|done].
  destruct old as [o|]; unfold wp, mbind, M_bind, emit, perform, mret, M_ret; cbn;
    destruct (answer _ _) as [b e]; destruct b; cbn; try destruct (_ <? _); cbn;
    try destruct (_ =? rb_size rb); cbn; by rewrite ?unflushed_snoc.
Qed.

(** Delivery changes only the recorder. *)
Lemma log_deliver_keeps {X} (f : logging_t -> X) severity buff buff_pos s :
  (forall o g, f (set_flight_recorder o g) = f g) ->
  wp (log_deliver DEBUG severity buff buff_pos) s
    (fun s' _ => f (part logging_t s') = f (part logging_t s)) (fun _ _ => True).
Proof.
  intros Hf. unfold log_deliver. apply wp_bind, wp_get, wp_bind.
  eapply (wp_mono _ _ (fun s1 _ => f (part logging_t s1) = f (part logging_t s)) _ (fun _ _ => True));
    [| |done].
  - destruct (flight_recorder (part logging_t s)) as [rb|]; [|by apply wp_ret].
    apply wp_bind. eapply wp_mono; [apply push_back_unflushed| |done].
    intros s1 rb1 [_ Hw1]. apply wp_modify. unfold part in *. cbn. by rewrite view_set, Hf, Hw1.
  - intros s1 [] Hs1. destruct (severity <? _); [by apply wp_ret|].
    destruct (LOG_FLUSH_LEVEL <=? severity); wp_steps;
      (destruct (severity =? severity_code LOG_FATAL); [|by wp_steps]);
      wp_steps; unfold wp;
      (destruct (flight_recorder _); [destruct (ring_buffer_dump _ _) as [s2 []|]; [|done]|]);
      by destruct DEBUG.
Qed.

(** A line that is printed at the flush level or above is flushed at once. *)
Lemma log_deliver_unflushed severity buff buff_pos s :
  LOG_FLUSH_LEVEL <= loglevel (part logging_t s) -> unflushed (trace s) = [] ->
  wp (log_deliver DEBUG severity buff buff_pos) s
    (fun s' _ => unflushed (trace s') = []) (fun _ _ => True).
Proof.
  intros Hl Hu. unfold log_deliver. apply wp_bind, wp_get, wp_bind.
  eapply (wp_mono _ _ (fun s1 _ => unflushed (trace s1) = []) _ (fun _ _ => True)); [| |done].
  - destruct (flight_recorder (part logging_t s)) as [rb|]; [|by apply wp_ret].
    apply wp_bind. eapply wp_mono; [apply push_back_unflushed| |done].
    intros s1 rb1 [Hu1 _]. apply wp_modify. cbn [trace]. by rewrite Hu1.
  - intros s1 [] Hu1. destruct (severity <? loglevel (part logging_t s)) eqn:Es; [by apply wp_ret|].
    bool_facts. replace (LOG_FLUSH_LEVEL <=? severity) with true by lia.
    wp_steps. destruct (severity =? severity_code LOG_FATAL).
    + wp_steps. destruct (flight_recorder _); [|wp_steps; by destruct DEBUG].
      unfold wp. destruct (ring_buffer_dump _ _) as [s2 []|]; [|done]. by destruct DEBUG.
    + wp_steps. cbn [trace]. by rewrite unflushed_snoc.
Qed.

(** Messages change the log file and the recorder only. *)
Lemma log_at_keeps {X} (f : logging_t -> X) depth file line severity msg s :
  (forall o g, f (set_logfile o g) = f g) ->
  (forall o g, f (set_flight_recorder o g) = f g) ->
  wp (log_at DEBUG depth file line severity msg) s
    (fun s' _ => f (part logging_t s') = f (part logging_t s)) (fun _ _ => True).
Proof.
  intros Hf1 Hf2. destruct depth as [|depth]; [done|]. cbn [log_at].
  apply wp_bind, wp_get. destruct (_ && _); [by apply wp_ret|].
  apply wp_bind. destruct (_ || _).
  { apply wp_bind. unfold wp. destruct (log_at _ _ _ _ _ _ _); done. }
  apply wp_ret, wp_bind.
  eapply (wp_mono _ _ (fun s1 _ => f (part logging_t s1) = f (part logging_t s)) _ (fun _ _ => True));
    [| |done].
  - destruct (logfile _); [by apply wp_ret|].
    apply wp_bind, wp_perform. intros ok e _. destruct ok; [|done]. apply wp_modify.
    unfold part. cbn. by rewrite view_set.
  - intros s1 [] Hs1. apply wp_bind, wp_perform. intros tv e _. rewrite <-Hs1.
    destruct (SeverityStr !! _); [|done]. destruct (log_line _ _) as [[b p]|]; [|done].
    eapply wp_mono; [by apply (log_deliver_keeps f)|intros s2 [] Hs2; exact Hs2|done].
Qed.

Lemma log_at_unflushed depth file line severity msg s :
  LOG_FLUSH_LEVEL <= loglevel (part logging_t s) -> unflushed (trace s) = [] ->
  wp (log_at DEBUG depth file line severity msg) s
    (fun s' _ => unflushed (trace s') = [] /\
       loglevel (part logging_t s') = loglevel (part logging_t s)) (fun _ _ => True).
Proof.
  intros Hl Hu.
  cut (wp (log_at DEBUG depth file line severity msg) s
         (fun s' _ => unflushed (trace s') = []) (fun _ _ => True)).
  { pose proof (log_at_keeps loglevel depth file line severity msg s ltac:(done) ltac:(done)) as Hk.
    unfold wp in *. by destruct (log_at _ _ _ _ _ _ _). }
  destruct depth as [|depth]; [done|]. cbn [log_at].
  apply wp_bind, wp_get. destruct (_ && _); [by apply wp_ret|].
  apply wp_bind. destruct (_ || _).
  { apply wp_bind. unfold wp. destruct (log_at _ _ _ _ _ _ _); done. }
  apply wp_ret, wp_bind.
  eapply (wp_mono _ _ (fun s1 _ => unflushed (trace s1) = [] /\
    loglevel (part logging_t s1) = loglevel (part logging_t s)) _ (fun _ _ => True)); [| |done].
  - destruct (logfile _); [by apply wp_ret|].
    apply wp_bind, wp_perform. intros ok e _. destruct ok; [|done]. apply wp_modify.
    unfold part. cbn. by rewrite view_set.
  - intros s1 [] [Hu1 Hl1]. apply wp_bind, wp_perform. intros tv e _.
    destruct (SeverityStr !! _); [|done]. destruct (log_line _ _) as [[b p]|]; [|done].
    apply log_deliver_unflushed; [|done]. unfold part in *. cbn. by rewrite Hl1.
Qed.

End Delivery.

Section Messages.
Context `{Env} {W : Type} `{!Lens W logging_t}.
Variable DEBUG : bool.
Implicit Types (s : sys W) (g : logging_t).

(** Whether [malloc] gives the block for [text] in the environment [e]. *)
Definition room_for (text : list byte) (e : env_state) : bool := fst (answer (Malloc (zlen text + 1)) e).

(** What offering [text] to the recorder makes of it: it is the newest entry;
    without memory for it a recorder that is not full stays as it is, and a full
    one has lost its oldest entry. *)
Definition offered (rb : ring_buffer) (text : list byte) (e : env_state) (rb' : ring_buffer) : Prop :=
  forall log storage, repr rb log -> rb_storage rb = Some storage ->
    if room_for text e then repr rb' (Spec.push (Z.to_nat (rb_size rb)) log text)
    else if rb_full rb then rb' = forgotten rb storage else rb' = rb.

(** [text] was offered to the recorder, if there is one, in the environment [e],
    and nothing else of the logging state changed. *)
Definition recorded g (text : list byte) (e : env_state) g' : Prop :=
  loglevel g' = loglevel g /\ logfile g' = logfile g /\
  logging_timer_active g' = logging_timer_active g /\ sigusr2_active g' = sigusr2_active g /\
  flight_recorder_async_active g' = flight_recorder_async_active g /\
  flight_recorder_async_pending g' = flight_recorder_async_pending g /\
  match flight_recorder g, flight_recorder g' with
  | None, None => True
  | Some rb, Some rb' => offered rb text e rb'
  | _, _ => False
  end.

(** The entry was lost although the recorder was full: it has a null slot. *)
Definition recorder_broken g (text : list byte) (e : env_state) : Prop :=
  exists rb, flight_recorder g = Some rb /\ rb_full rb = true /\ room_for text e = false.

(** The dump of the recorder after a message. *)
Lemma recorded_dump g text e g' rb' s :
  recorded g text e g' -> recorder_ok g -> flight_recorder g' = Some rb' ->
  wp (ring_buffer_dump (Some rb')) s (fun _ _ => True) (fun _ r => r = Fault NullString /\ recorder_broken g text e).
Proof.
  intros (_ & _ & _ & _ & _ & _ & Hr) Hok Hrb'. rewrite Hrb' in Hr.
  destruct (flight_recorder g) as [rb|] eqn:E; [|done].
  destruct (Hok rb E) as [log Hlog]. destruct (repr_slots _ _ Hlog) as (st & old & Hst & Hold & _).
  specialize (Hr log st Hlog Hst). destruct (room_for text e) eqn:Em; [by eapply wp_eq; [apply (dump_run _ _ _ Hr)|]|].
  destruct (rb_full rb) eqn:Ef; subst rb'; [|by eapply wp_eq; [apply (dump_run _ _ _ Hlog)|]].
  unfold wp. rewrite (forgotten_dump _ _ _ _ Hlog Hst Ef). split; [done|]. by exists rb.
Qed.

Lemma record_run text s :
  recorder_ok (part logging_t s) -> zlen text < LOG_LINE_SIZE ->
  wp (match flight_recorder (part logging_t s) with
      | Some rb =>
          rb' ← ring_buffer_push_back rb text (zlen text);
          modify (set_flight_recorder (Some rb'))
      | None => mret tt
      end) s
    (fun s' _ => recorded (part logging_t s) text (environment s) (part logging_t s') /\
                 printed (trace s') = printed (trace s)) (fun _ _ => False).
Proof.
  intros Hok Ht. unfold LOG_LINE_SIZE in *. pose proof (zlen_nonneg text) as Ht0.
  destruct (flight_recorder (part logging_t s)) as [rb|] eqn:E.
  2: { apply wp_ret. split; [|done]. repeat split. by rewrite E. }
  destruct (Hok rb E) as [log Hlog]. destruct (repr_slots _ _ Hlog) as (st & old & Hst & Hold & _).
  assert (u32 (Z.min (zlen text) MAX_LOG_ENTRY_SIZE + 1) = zlen text + 1) as Hsize.
  { unfold MAX_LOG_ENTRY_SIZE. rewrite wrap_small by lia. lia. }
  destruct (answer (Malloc (zlen text + 1)) (environment s)) as [ok e] eqn:Ha. apply wp_bind.
  assert (exists rb', ring_buffer_push_back rb text (zlen text) s =
            Ok (Sys (world s) e (trace s ++ (match old with Some x => [Freed x] | None => [] end))) rb' /\
            offered rb text (environment s) rb') as (rb' & Hrun & Hoff).
  { unfold offered, room_for. rewrite Ha. cbn [fst]. destruct ok; eexists.
    - split; [eapply push_back_run; rewrite ?Hsize; eauto; lia|]. intros log' st' Hlog' Hst'. simplify_eq.
      rewrite Z.min_l, ztake_all by (unfold MAX_LOG_ENTRY_SIZE; lia). by apply pushed_repr.
    - split; [eapply push_back_failed; rewrite ?Hsize; eauto|]. intros log' st' Hlog' Hst'. simplify_eq.
      destruct (rb_full rb) eqn:Ef; [done|]. by eapply forgotten_spare. }
  eapply wp_eq; [exact Hrun|]. apply wp_modify. unfold part in *. cbn [world trace]. rewrite view_set. split.
  - repeat split. rewrite E. exact Hoff.
  - rewrite printed_app. by destruct old; cbn; rewrite app_nil_r.
Qed.

Lemma log_deliver_run severity text s :
  recorder_ok (part logging_t s) -> zlen text < LOG_LINE_SIZE ->
  wp (log_deliver DEBUG severity text (zlen text)) s
    (fun s' _ =>
       (severity = severity_code LOG_FATAL -> severity < loglevel (part logging_t s)) /\
       recorded (part logging_t s) text (environment s) (part logging_t s') /\
       printed (trace s') = printed (trace s) ++
         (if severity <? loglevel (part logging_t s) then [] else [c_str text]))
    (fun s' r => severity = severity_code LOG_FATAL /\
       (r = (if DEBUG then Aborted else Exited 1) \/
        r = Fault NullString /\ recorder_broken (part logging_t s) text (environment s))).
Proof.
  intros Hok Ht. unfold log_deliver. apply wp_bind, wp_get, wp_bind.
  eapply wp_mono; [by apply record_run| |done].
  intros s1 [] [Hrec Hp]. destruct (severity <? loglevel (part logging_t s)) eqn:Es; bool_facts.
  { apply wp_ret. rewrite app_nil_r. split; [lia|]. by split; [exact Hrec|]. }
  wp_steps.
  destruct (LOG_FLUSH_LEVEL <=? severity); wp_steps;
    (destruct (severity =? severity_code LOG_FATAL) eqn:Ef; bool_facts;
     [|wp_steps; cbn [trace]; unfold part in *; cbn [world]; rewrite ?printed_app, Hp; cbn;
       rewrite ?app_nil_r; by split; [intros; contradiction|split; [apply Hrec|]]]);
    wp_steps; unfold part; cbn [world];
    (destruct (flight_recorder (view (world s1))) as [rb|] eqn:Er;
     [eapply wp_mono; [apply (recorded_dump _ _ _ _ _ _ Hrec Hok Er)|intros s2 u _|intros s2 r Hr; by split; [|right]]|]);
    wp_steps; destruct DEBUG; (split; [done|by left]).
Qed.

End Messages.

(** ** Properties of messages *)

(** C34: [_log] with a valid severity below fatal and an open log file: the line
    is printed exactly when its severity is at or above the log level; whatever
    its severity it is offered to the flight recorder, if there is one, which has
    it as its newest entry when [malloc] gives the memory for it and otherwise
    stays as it was, or loses its oldest entry when it was full; and the call
    returns with the rest of the logging state as it was.  The prefix is shorter
    than half the line buffer, which [_log] itself insists on, and the recorder
    is one in which no earlier entry was lost. *)
Theorem log_delivers `{Env} {W} `{!Lens W logging_t} DEBUG file line severity str msg
    (s : sys W) fd tv e :
  0 <= severity < severity_code LOG_FATAL ->
  SeverityStr !! Z.to_nat severity = Some str ->
  recorder_ok (part logging_t s) -> logfile (part logging_t s) = Some fd ->
  answer Gettimeofday (environment s) = (tv, e) ->
  zlen (log_prefix str tv file line) < 1024 -> zlen msg < 2 ^ 31 ->
  let text := match log_line (log_prefix str tv file line) msg with Some (b, _) => b | None => [] end in
  wp (_log DEBUG file line severity msg) s
    (fun s' _ =>
       (flight_recorder (part logging_t s) = None /\ severity < loglevel (part logging_t s) /\ s' = s) \/
       (recorded (part logging_t s) text e (part logging_t s') /\
        printed (trace s') = printed (trace s) ++
          (if severity <? loglevel (part logging_t s) then [] else [c_str text])))
    (fun _ _ => False).
Proof.
  intros Hsev Hstr Hok Hfd Ha Hpre Hmsg text. cbn in Hsev.
  unfold _log. cbn [log_at]. apply wp_bind, wp_get.
  destruct (_ && _) eqn:Eq.
  { apply wp_ret. left. apply andb_prop in Eq as [Hs Hr]. bool_facts. apply bool_decide_eq_true in Hr. done. }
  replace ((severity <? 0) || (LOG_MAX <=? severity)) with false by (unfold LOG_MAX; lia).
  wp_steps. rewrite Hfd. wp_steps. apply wp_perform. intros tv' e' Ha'.
  rewrite Ha in Ha'. injection Ha' as <- <-. rewrite Hstr. subst text.
  destruct (log_line_length _ _ Hpre Hmsg) as (buff & -> & Hlt).
  eapply wp_mono; [apply log_deliver_run|..].
  - unfold part. done.
  - done.
  - intros s' [] (_ & Hrec & Hp). right. unfold part in *. done.
  - intros s' r [Hs _]. cbn in Hs. lia.
Qed.

(** A state for the examples: log level [level], a recorder with two slots. *)
Definition example_logging (level : Z) : logging_t :=
  Logging (Some 1) level false false false false
    (Some (RingBuffer (Some [None; None]) 2 0 false)).

Lemma example_recorder_ok level : recorder_ok (example_logging level).
Proof.
  intros rb [= <-]. exists []. apply (repr_empty 2). lia.
Qed.

Lemma log_delivers_witness :
  let s := @Sys generous _ (example_logging 3) tt [] in
  let text := log_prefix "[I]" (1700000000, 0) "main.c" 323 ++ bytes_of "Version" in
  0 <= 1 < severity_code LOG_FATAL /\
  @wp generous _ _ (@_log generous logging_t _ false "main.c" 323 1 (bytes_of "Version")) s
    (fun s' _ =>
       (flight_recorder (part logging_t s) = None /\ 1 < loglevel (part logging_t s) /\ s' = s) \/
       (@recorded generous (part logging_t s) text tt (part logging_t s') /\
        printed (trace s') = printed (trace s) ++ [])) (fun _ _ => False).
Proof.
  intros s text. split; [cbn; lia|].
  exact (@log_delivers generous logging_t _ false "main.c" 323 1 "[I]"
           (bytes_of "Version") s 1 (1700000000, 0) tt ltac:(cbn; lia) eq_refl
           (example_recorder_ok 3) eq_refl eq_refl ltac:(reflexivity) ltac:(reflexivity)).
Defined.

(** C35: a fatal message never returns to its caller: with the log level at most
    fatal, and whatever the clock, the log file and [malloc] answer, [_log] ends
    the process, by [exit(1)], or by [abort] in a debug build, when not even
    standard output can be opened or when the prefix is too long.  The one
    exception is the dump of a full flight recorder that had no memory for this
    message: it passes a null pointer to [%s].  The recorder is one in which no
    earlier entry was lost in this way. *)
Theorem fatal_log_ends_process `{Env} {W} `{!Lens W logging_t} DEBUG file line msg (s : sys W) :
  loglevel (part logging_t s) <= severity_code LOG_FATAL ->
  recorder_ok (part logging_t s) -> zlen msg < 2 ^ 31 ->
  wp (_log DEBUG file line (severity_code LOG_FATAL) msg) s
    (fun _ _ => False)
    (fun _ r => r = Exited 1 \/ r = Aborted \/
       (r = Fault NullString /\ exists text e, recorder_broken (part logging_t s) text e)).
Proof.
  intros Hlev Hok Hmsg. cbn [severity_code] in *.
  unfold _log. cbn [log_at]. apply wp_bind, wp_get.
  replace (5 <? loglevel (part logging_t s)) with false by lia. cbn [andb].
  wp_steps. change ((5 <? 0) || (LOG_MAX <=? 5)) with false. cbn iota. wp_steps.
  eapply (wp_mono _ _ (fun s1 _ => loglevel (part logging_t s1) = loglevel (part logging_t s) /\
     flight_recorder (part logging_t s1) = flight_recorder (part logging_t s)) _ (fun _ r => r = Aborted));
    [| |auto].
  - destruct (logfile _); [by apply wp_ret|].
    apply wp_bind, wp_perform. intros ok e _. destruct ok; [|done].
    apply wp_modify. unfold part. cbn. rewrite view_set. by split.
  - intros s1 [] [Hl1 Hfr]. wp_steps. apply wp_perform. intros tv e _. cbn [lookup].
    change (SeverityStr !! Z.to_nat 5) with (Some "[F]"%string). cbn iota.
    destruct (decide (zlen (log_prefix "[F]" tv file line) < 1024)) as [Hp|Hp].
    + destruct (log_line_length _ _ Hp Hmsg) as (buff & -> & Hlt).
      eapply wp_mono; [apply log_deliver_run; [|done]|..].
      * unfold part, recorder_ok in *. cbn [world]. by rewrite Hfr.
      * intros s2 [] [Hf _]. specialize (Hf eq_refl). unfold part in *. cbn in *. lia.
      * intros s2 r [_ [->|[-> (rb & Hrb & Hb)]]]; [destruct DEBUG; auto|]. right; right. split; [done|].
        unfold part in *. cbn [world] in Hrb. rewrite Hfr in Hrb. exists buff. eexists. exists rb. by split.
    + unfold log_line. replace (LOG_LINE_SIZE / 2 <=? _) with true; [by right; left|].
      symmetry. apply Z.leb_le. change (LOG_LINE_SIZE / 2) with 1024. lia.
Qed.

Lemma fatal_log_ends_process_witness :
  let s := @Sys generous _ (example_logging 3) tt [] in
  loglevel (part logging_t s) <= severity_code LOG_FATAL /\
  @wp generous _ _ (@_log generous logging_t _ false "main.c" 143 (severity_code LOG_FATAL) (bytes_of "Out of mem")) s
    (fun _ _ => False) (fun _ r => r = Exited 1 \/ r = Aborted).
Proof.
  intros s.
  assert (loglevel (part logging_t s) <= severity_code LOG_FATAL) as Hl by (cbn; lia).
  split; [exact Hl|].
  eapply wp_mono; [exact (@fatal_log_ends_process generous logging_t _ false "main.c" 143
           (bytes_of "Out of mem") s Hl (example_recorder_ok 3) ltac:(reflexivity))|done|].
  intros s' r [->|[->|[_ (text & e & rb & _ & _ & Hr)]]]; [by left|by right|discriminate].
Defined.

(** When [logging_events_init] leaves the periodic flush timer off, no line
    ever waits for it: after any later message, of whatever severity, nothing
    that was printed is left unflushed. *)
Theorem no_flush_timer_needed `{Env} {W} `{!Lens W logging_t} DEBUG (s : sys W) :
  logging_timer_active (part logging_t s) = false -> unflushed (trace s) = [] ->
  wp (logging_events_init DEBUG) s
    (fun s1 _ => logging_timer_active (part logging_t s1) = false ->
       forall file line severity msg,
         wp (_log DEBUG file line severity msg) s1
           (fun s2 _ => unflushed (trace s2) = []) (fun _ _ => True))
    (fun _ _ => True).
Proof.
  intros Ht Hu. unfold logging_events_init. apply wp_bind, wp_get.
  destruct (loglevel (part logging_t s) <? LOG_FLUSH_LEVEL) eqn:El; bool_facts; apply wp_bind.
  - apply wp_bind. eapply wp_mono; [by apply (log_at_keeps _ logging_timer_active)|intros s1 [] _|done].
    apply wp_modify, wp_bind.
    eapply wp_mono; [by apply (log_at_keeps _ logging_timer_active)|intros s2 [] H2|done].
    apply wp_modify. unfold part in *. cbn in *. rewrite view_set in *. cbn in *. congruence.
  - apply wp_ret, wp_bind.
    eapply wp_mono; [by apply log_at_unflushed|intros s1 [] [Hu1 Hl1]|done].
    apply wp_modify. intros _ file line severity msg.
    eapply wp_mono; [apply log_at_unflushed| |done].
    + unfold part in *. cbn [world]. rewrite view_set. cbn [loglevel set_watchers]. lia.
    + done.
    + by intros s2 [] [? _].
Qed.

Lemma no_flush_timer_needed_witness :
  let s := @Sys generous _ initial_logging tt [] in
  unflushed (trace s) = [] /\
  @wp generous _ _ (@logging_events_init generous logging_t _ false) s
    (fun s1 _ => logging_timer_active (part logging_t s1) = false ->
       forall file line severity msg,
         wp (_log false file line severity msg) s1
           (fun s2 _ => unflushed (trace s2) = []) (fun _ _ => True))
    (fun _ _ => True).
Proof.
  intros s. split; [reflexivity|].
  exact (@no_flush_timer_needed generous logging_t _ false s eq_refl eq_refl).
Defined.

