(* ===== verification/DnsServer.v ===== *)
(** * The UDP DNS server (src/dns_server.c)

    [watcher_cb] receives requests and hands them to the proxy;
    [dns_server_respond] sends a response in one datagram, which must not be
    larger than the client can take: what does not fit is shortened with the
    help of c-ares and marked as truncated. *)

From Stdlib Require Import ZArith Lia String Strings.Byte.
From stdpp Require Import base tactics list option.
From S2P Require Import Prelude Effects.

Open Scope Z_scope.

(** enum of dns_server.h *)
Definition DNS_HEADER_LENGTH : Z := 12.
Definition DNS_SIZE_LIMIT : Z := 512.
Definition DNS_REQUEST_BUFFER_SIZE : Z := 4096.

(** [dns_server_t]: the socket and whether its watcher is active. *)
Record dns_server_s := DnsServer {
  sock : Z;
  addrlen : Z;
  watcher_active : bool
}.

(** ** c-ares: DNS messages *)

(** The sections of a message the server looks at. *)
Inductive ares_section := ARES_SECTION_ANSWER | ARES_SECTION_AUTHORITY | ARES_SECTION_ADDITIONAL.

#[export] Instance ares_section_eq_dec : EqDecision ares_section.
Proof. solve_decision. Defined.

(** The functions of c-ares that work on a DNS record; [None] is a status other
    than [ARES_SUCCESS]. *)
Class AresDns := {
  ares_dns_record : Type;
  ares_dns_rr : Type;
  ares_dns_parse : list byte -> option ares_dns_record;
  ares_dns_record_rr_cnt : ares_dns_record -> ares_section -> nat;
  ares_dns_record_rr_get : ares_dns_record -> ares_section -> nat -> ares_dns_rr;
  is_opt_record : ares_dns_rr -> bool;
  opt_udp_size : ares_dns_rr -> Z;
  ares_dns_record_rr_del : ares_dns_record -> ares_section -> nat -> option ares_dns_record;
  ares_dns_write : ares_dns_record -> option (list byte)
}.

Section Operations.
Context `{Env} {W : Type} `{!Lens W dns_server_s} `{!AresDns}.

(** [d->cb(d, is_tcp, d->cb_data, addr, dns_req, dns_req_len)] *)
Variable cb : bool -> sockaddr -> list byte -> M W unit.

Definition get_listen_sock (a : addrinfo) : M W Z :=
  sock ← perform (Socket (ai_family a) false);
  if sock <? 0 then FLOG "Error creating socket: %s (%d)"
  else
    match ai_family a with
    | AF_other _ => FLOG "Unknown address family: %d"
    | _ =>
        res ← perform (Bind sock (ai_addr a));
        if res <? 0 then
          perform (Close sock) ;; emit (Closed sock) ;; FLOG "Error binding on %s:%d UDP: %s (%d)"
        else ILOG "Listening on %s:%d UDP" ;; mret sock
    end.

Definition watcher_cb : M W unit :=
  d ← get;
  r ← perform (Recvfrom (sock d) DNS_REQUEST_BUFFER_SIZE);
  match r with
  | Recvfrom_error _ => ELOG "recvfrom failed: %s"
  | Recvfrom_data len tmp_buf tmp_raddr =>
      if DNS_REQUEST_BUFFER_SIZE <? len then
        WLOG "Unsupported request received, too large: %d. Limit is: %d"
      else if len <? DNS_HEADER_LENGTH then WLOG "Malformed request received, too short: %d"
      else
        block ← perform (Malloc len);
        if negb block then FLOG "Out of mem"
        else if zlen tmp_buf <? len then halt (Fault OutOfBounds)
        else
          let dns_req := ztake len tmp_buf in
          emit (Received false tmp_raddr dns_req) ;;
          cb false tmp_raddr dns_req
  end.

Definition dns_server_init (a : addrinfo) : M W unit :=
  s ← get_listen_sock a;
  put (DnsServer s (ai_addrlen a) true).

(** The loop over the additional records: the size of the first OPT record. *)
Fixpoint find_opt (dnsrec : ares_dns_record) (i n : nat) : Z :=
  match n with
  | O => 0
  | S n =>
      let rr := ares_dns_record_rr_get dnsrec ARES_SECTION_ADDITIONAL i in
      if is_opt_record rr then opt_udp_size rr else find_opt dnsrec (S i) n
  end.

Definition get_edns_udp_size (dns_req : list byte) : M W Z :=
  match ares_dns_parse dns_req with
  | None => WLOG "Failed to parse DNS request: %s" ;; mret DNS_SIZE_LIMIT
  | Some dnsrec =>
      let udp_size := find_opt dnsrec 0 (ares_dns_record_rr_cnt dnsrec ARES_SECTION_ADDITIONAL) in
      (if 0 <? udp_size then DLOG "%04hX: Found EDNS0 UDP buffer size: %u" else mret tt) ;;
      if udp_size <? DNS_SIZE_LIMIT then
        DLOG "%04hX: EDNS0 UDP buffer size %u overruled to %d" ;; mret DNS_SIZE_LIMIT
      else mret udp_size
  end.

(** [buf[2] |= 0x02] *)
Definition set_truncation_flag (buf : list byte) : M W (list byte) :=
  match znth buf 2 with
  | Some b => mret (zset buf 2 (byte_of (Z.lor (byte_val b) 2)))
  | None => halt (Fault OutOfBounds)
  end.

(** [while (ares_dns_record_rr_cnt(dnsrec, section) > 0) ...] *)
Fixpoint remove_section (fuel : nat) (dnsrec : ares_dns_record) (sec : ares_section) (msg : string) :
    M W ares_dns_record :=
  match ares_dns_record_rr_cnt dnsrec sec with
  | O => mret dnsrec
  | S _ =>
      match fuel with
      | O => halt OutOfFuel
      | S fuel =>
          match ares_dns_record_rr_del dnsrec sec 0 with
          | Some dnsrec => remove_section fuel dnsrec sec msg
          | None => WLOG msg ;; remove_section fuel dnsrec sec msg
          end
      end
  end.

(** [while (answers > answers_to_keep)] *)
Fixpoint drop_answers (answers : nat) (answers_to_keep : Z) (dnsrec : ares_dns_record) :
    M W ares_dns_record :=
  match answers with
  | O => mret dnsrec
  | S answers' =>
      if answers_to_keep <? Z.of_nat answers then
        match ares_dns_record_rr_del dnsrec ARES_SECTION_ANSWER answers' with
        | None => WLOG "%04hX: Could not remove answer record: %s" ;; mret dnsrec
        | Some dnsrec => drop_answers answers' answers_to_keep dnsrec
        end
      else mret dnsrec
  end.

(** The [for] loop: the new response, if any. *)
Fixpoint shrink (guard : nat) (dnsrec : ares_dns_record) (answers : nat) (answers_to_keep : Z)
    (old_size size_limit : Z) : M W (option (list byte)) :=
  match guard with
  | O => mret None
  | S guard =>
      match ares_dns_write dnsrec with
      | None => WLOG "%04hX: Failed to create truncated DNS response: %s" ;; mret None
      | Some new_resp =>
          if (zlen new_resp <? size_limit) || (Nat.eqb answers 0) then mret (Some new_resp)
          else
            (if old_size <=? zlen new_resp then
               WLOG "%04hX: Truncated DNS response size larger or equal to original: %u >= %u"
             else mret tt) ;;
            DLOG "%04hX: DNS response size truncated from %u to %u but to keep %u limit reducing answers from %u to %u" ;;
            dnsrec ← drop_answers answers answers_to_keep dnsrec;
            shrink guard dnsrec (ares_dns_record_rr_cnt dnsrec ARES_SECTION_ANSWER) (answers_to_keep / 2)
              old_size size_limit
      end
  end.

(** The buffer and its new length. *)
Definition truncate_dns_response (buf : list byte) (buflen size_limit : Z) : M W (list byte * Z) :=
  let old_size := buflen in
  buf ← set_truncation_flag buf;
  match ares_dns_parse (ztake buflen buf) with
  | None => WLOG "Failed to parse DNS response: %s" ;; mret (buf, buflen)
  | Some dnsrec =>
      dnsrec ← remove_section (ares_dns_record_rr_cnt dnsrec ARES_SECTION_ADDITIONAL) dnsrec
                 ARES_SECTION_ADDITIONAL "%04hX: Could not remove additional record: %s";
      dnsrec ← remove_section (ares_dns_record_rr_cnt dnsrec ARES_SECTION_AUTHORITY) dnsrec
                 ARES_SECTION_AUTHORITY "%04hX: Could not remove authority record: %s";
      let answers := ares_dns_record_rr_cnt dnsrec ARES_SECTION_ANSWER in
      let estimate := u64 ((size_limit - DNS_HEADER_LENGTH) * Z.of_nat answers) / old_size in
      let answers_to_keep := if 0 <? estimate then estimate else 1 in
      new_resp ← shrink (Z.to_nat UINT8_MAX) dnsrec answers answers_to_keep old_size size_limit;
      match new_resp with
      | None => mret (buf, buflen)
      | Some new_resp =>
          if zlen new_resp <? old_size then
            buf ← set_truncation_flag (new_resp ++ zdrop (zlen new_resp) buf);
            ILOG "%04hX: DNS response size truncated from %u to %u to keep %u limit" ;;
            mret (buf, zlen new_resp)
          else mret (buf, buflen)
      end
  end.

Definition dns_server_respond (raddr : sockaddr) (dns_req dns_resp : list byte) : M W unit :=
  d ← get;
  let dns_resp_len := zlen dns_resp in
  if dns_resp_len <? DNS_HEADER_LENGTH then WLOG "Malformed response received, invalid length: %u"
  else
    r ← (if DNS_SIZE_LIMIT <? dns_resp_len then
           udp_size ← get_edns_udp_size dns_req;
           if udp_size <? dns_resp_len then truncate_dns_response dns_resp dns_resp_len udp_size
           else
             DLOG "%04hX: DNS response size %u larger than %d but EDNS0 UDP buffer size %u allows it" ;;
             mret (dns_resp, dns_resp_len)
         else mret (dns_resp, dns_resp_len));
    let '(buf, len) := (r : list byte * Z) in
    res ← perform (Sendto (sock d) (ztake len buf) (ztake (addrlen d) raddr));
    match res with
    | Send_ok _ => emit (SentTo (sock d) (ztake len buf) (ztake (addrlen d) raddr))
    | Send_error _ => DLOG "sendto failed: %s"
    end.

Definition dns_server_stop : M W unit :=
  modify (fun d => DnsServer (sock d) (addrlen d) false).

Definition dns_server_cleanup : M W unit :=
  d ← get;
  perform (Close (sock d)) ;;
  emit (Closed (sock d)).

End Operations.

(** ** Every operation stays in the server *)

Section Stays.
Context `{Env} {W : Type} `{!Lens W dns_server_s} `{!AresDns}.
Abbreviation stays m := (stays (W:=W) dns_server_s m).

Lemma edns_stays req : stays (get_edns_udp_size req).
Proof. unfold get_edns_udp_size. stay dns_server_s. Qed.
Lemma flag_stays b : stays (set_truncation_flag b).
Proof. unfold set_truncation_flag. stay dns_server_s. Qed.
Lemma remove_section_stays fuel : forall r sec msg, stays (remove_section fuel r sec msg).
Proof. induction fuel; intros r sec msg; cbn [remove_section]; stay dns_server_s; auto. Qed.
Lemma drop_answers_stays n : forall k r, stays (drop_answers n k r).
Proof. induction n; intros k r; cbn [drop_answers]; stay dns_server_s; auto. Qed.
Lemma shrink_stays guard : forall r n k old limit, stays (shrink guard r n k old limit).
Proof. induction guard; intros; cbn [shrink]; stay dns_server_s; auto using drop_answers_stays. Qed.
Lemma truncate_stays b n limit : stays (truncate_dns_response b n limit).
Proof.
  unfold truncate_dns_response. stay dns_server_s; auto using flag_stays, remove_section_stays, shrink_stays.
Qed.
Lemma udp_respond_stays raddr req resp : stays (dns_server_respond raddr req resp).
Proof. unfold dns_server_respond. stay dns_server_s; auto using edns_stays, truncate_stays. Qed.
Lemma udp_init_stays a : stays (dns_server_init a).
Proof. unfold dns_server_init, get_listen_sock. stay dns_server_s. Qed.

End Stays.

(** ** What the server relies on in c-ares *)

Section Laws.
Context `{AresDns}.

(** [r'] is [r] after some deletions. *)
Inductive trimmed (r : ares_dns_record) : ares_dns_record -> Prop :=
| trimmed_refl : trimmed r r
| trimmed_del r1 sec i r2 :
    trimmed r r1 -> ares_dns_record_rr_del r1 sec i = Some r2 -> trimmed r r2.

(** Deleting an existing record succeeds and removes one from its section; the
    section counts of a message are 16-bit fields, as is the size in an OPT
    record; a message that is written starts with a header whose id is that of
    the message parsed. *)
Class AresLaws : Prop := {
  rr_del_ok : forall r sec i, (i < ares_dns_record_rr_cnt r sec)%nat ->
    exists r', ares_dns_record_rr_del r sec i = Some r' /\
      ares_dns_record_rr_cnt r' sec = pred (ares_dns_record_rr_cnt r sec) /\
      forall sec', sec' <> sec -> ares_dns_record_rr_cnt r' sec' = ares_dns_record_rr_cnt r sec';
  rr_cnt_u16 : forall bs r sec, ares_dns_parse bs = Some r ->
    Z.of_nat (ares_dns_record_rr_cnt r sec) <= UINT16_MAX;
  opt_size_u16 : forall rr, 0 <= opt_udp_size rr <= UINT16_MAX;
  write_header : forall bs r r' out, ares_dns_parse bs = Some r -> trimmed r r' ->
    ares_dns_write r' = Some out -> DNS_HEADER_LENGTH <= zlen out /\ ztake 2 out = ztake 2 bs
}.

(** The size of the largest response the client takes. *)
Definition response_limit (dns_req : list byte) : Z :=
  match ares_dns_parse dns_req with
  | None => DNS_SIZE_LIMIT
  | Some r => Z.max DNS_SIZE_LIMIT (find_opt r 0 (ares_dns_record_rr_cnt r ARES_SECTION_ADDITIONAL))
  end.

(** The truncation flag of a message. *)
Definition truncated (buf : list byte) : Prop :=
  exists b, znth buf 2 = Some b /\ Z.testbit (byte_val b) 1 = true.

Definition with_truncation (buf : list byte) : list byte :=
  match znth buf 2 with
  | Some b => zset buf 2 (byte_of (Z.lor (byte_val b) 2))
  | None => buf
  end.

Lemma flag_bit b : Z.testbit (byte_val (byte_of (Z.lor (byte_val b) 2))) 1 = true.
Proof. by destruct b; vm_compute. Qed.

Lemma zlen_with_truncation buf : zlen (with_truncation buf) = zlen buf.
Proof. unfold with_truncation. destruct (znth buf 2); [apply zlen_zset|done]. Qed.

Lemma znth_ztake {A} n i (l : list A) : i < n -> znth (ztake n l) i = znth l i.
Proof. intros. unfold znth, ztake. destruct (0 <=? i) eqn:E; [|done]. apply lookup_take_lt. lia. Qed.

Lemma with_truncation_set n buf :
  2 < n -> 2 < zlen buf -> truncated (ztake n (with_truncation buf)).
Proof.
  intros Hn Hl. unfold truncated. rewrite znth_ztake by lia. unfold with_truncation.
  destruct (znth_is_Some buf 2) as [b Hb]; [lia|]. rewrite Hb, znth_zset_eq by lia.
  eexists. split; [done|]. apply flag_bit.
Qed.

Lemma ztake_zset_lt {A} n i (x : A) l : 0 <= n <= i -> ztake n (zset l i x) = ztake n l.
Proof.
  intros Hn. unfold ztake, zset. destruct (0 <=? i) eqn:E; [|done].
  by rewrite take_insert_ge by lia.
Qed.

Lemma with_truncation_front n buf : 0 <= n <= 2 -> ztake n (with_truncation buf) = ztake n buf.
Proof. intros. unfold with_truncation. destruct (znth buf 2); [|done]. by apply ztake_zset_lt. Qed.

End Laws.

(** The datagrams sent. *)
Definition datagrams (tr : list event) : list (Z * list byte * sockaddr) :=
  omap (fun ev => match ev with SentTo fd bs a => Some (fd, bs, a) | _ => None end) tr.

Lemma datagrams_app tr tr' : datagrams (tr ++ tr') = datagrams tr ++ datagrams tr'.
Proof. apply omap_app. Qed.

Section Quiet.
Context `{Env} {W : Type}.
Implicit Types (s : sys W).

(** Nothing but log lines since [s]. *)
Definition quiet s s' : Prop := world s' = world s /\ datagrams (trace s') = datagrams (trace s).

Lemma quiet_refl s : quiet s s.
Proof. done. Qed.

Lemma quiet_trans s1 s2 s3 : quiet s1 s2 -> quiet s2 s3 -> quiet s1 s3.
Proof. intros [? ?] [? ?]. split; congruence. Qed.

Lemma quiet_log level fmt s : quiet s (Sys (world s) (environment s) (trace s ++ [Logged level fmt])).
Proof. split; [done|]. cbn. rewrite datagrams_app. apply app_nil_r. Qed.

End Quiet.

#[export] Hint Resolve quiet_refl quiet_log : proxy.

Section Truncation.
Context `{Env} {W : Type} `{!AresDns} `{!AresLaws}.
Implicit Types (s : sys W) (r : ares_dns_record).

Lemma get_edns_udp_size_run dns_req s :
  wp (get_edns_udp_size dns_req) s (fun s' n => quiet s s' /\ n = response_limit dns_req) (fun _ _ => False).
Proof.
  unfold get_edns_udp_size, response_limit. destruct (ares_dns_parse dns_req) as [r|]; [|wp_steps; auto with proxy].
  set (n := find_opt _ _ _). apply wp_bind.
  eapply (wp_mono _ _ (fun s' _ => quiet s s') _ (fun _ _ => False)); [| |done].
  { case_match; wp_steps; auto with proxy. }
  intros s1 [] Hq. unfold DNS_SIZE_LIMIT.
  destruct (n <? 512) eqn:E; bool_facts; wp_steps; (split; [|lia]); [|done].
  eapply quiet_trans; [exact Hq|apply quiet_log].
Qed.

Lemma set_truncation_flag_run buf s :
  2 < zlen buf ->
  wp (set_truncation_flag buf) s (fun s' buf' => s' = s /\ buf' = with_truncation buf) (fun _ _ => False).
Proof.
  intros Hl. unfold set_truncation_flag, with_truncation.
  destruct (znth_is_Some buf 2) as [b ->]; [lia|]. by wp_steps.
Qed.

(** Emptying a section terminates. *)
Lemma remove_section_run sec msg fuel : forall r s,
  (ares_dns_record_rr_cnt r sec <= fuel)%nat ->
  wp (remove_section fuel r sec msg) s
    (fun s' r' => s' = s /\ trimmed r r' /\ ares_dns_record_rr_cnt r' sec = 0%nat /\
       forall sec', sec' <> sec -> ares_dns_record_rr_cnt r' sec' = ares_dns_record_rr_cnt r sec')
    (fun _ _ => False).
Proof.
  induction fuel as [|fuel IH]; intros r s Hf; cbn [remove_section];
    destruct (ares_dns_record_rr_cnt r sec) as [|n] eqn:En; try lia;
    try (wp_steps; repeat split; try done; constructor).
  destruct (rr_del_ok r sec 0) as (r1 & Hd & Hc & Ho); [lia|]. rewrite Hd.
  eapply wp_mono; [apply (IH r1); lia| |done]. intros s' r' (-> & Ht & Hz & Ho'). repeat split; try done.
  - clear -Ht Hd. induction Ht as [|r2 sec' i r3 _ IH Hd']; [by eapply trimmed_del; [constructor|]|].
    by eapply trimmed_del.
  - intros sec' Hne. by rewrite Ho', Ho.
Qed.

Lemma trimmed_trans r1 r2 r3 : trimmed r1 r2 -> trimmed r2 r3 -> trimmed r1 r3.
Proof. intros Ht. induction 1; [done|]. by eapply trimmed_del. Qed.

(** Dropping answers from the end. *)
Lemma drop_answers_run keep answers : forall r s,
  answers = ares_dns_record_rr_cnt r ARES_SECTION_ANSWER -> 0 <= keep ->
  wp (drop_answers answers keep r) s
    (fun s' r' => s' = s /\ trimmed r r' /\
       Z.of_nat (ares_dns_record_rr_cnt r' ARES_SECTION_ANSWER) <= keep /\
       forall sec, sec <> ARES_SECTION_ANSWER -> ares_dns_record_rr_cnt r' sec = ares_dns_record_rr_cnt r sec)
    (fun _ _ => False).
Proof.
  induction answers as [|n IH]; intros r s Hn Hk; cbn [drop_answers].
  { wp_steps. rewrite <-Hn. repeat split; try done. constructor. }
  destruct (keep <? Z.of_nat (S n)) eqn:E; bool_facts;
    [|wp_steps; rewrite <-Hn; repeat split; try done; constructor].
  destruct (rr_del_ok r ARES_SECTION_ANSWER n) as (r1 & Hd & Hc & Ho); [lia|]. rewrite Hd.
  eapply wp_mono; [apply (IH r1); lia| |done]. intros s' r' (-> & Ht & Hz & Ho'). repeat split; try done.
  - eapply trimmed_trans; [|exact Ht]. eapply trimmed_del; [constructor|done].
  - intros sec Hne. by rewrite Ho', Ho.
Qed.

(** Whatever c-ares answers, the loop ends; a response it returns is one that
    was written from the shortened record. *)
Lemma shrink_any r0 old limit guard : forall r keep s,
  trimmed r0 r -> 0 <= keep ->
  wp (shrink guard r (ares_dns_record_rr_cnt r ARES_SECTION_ANSWER) keep old limit) s
    (fun s' o => quiet s s' /\ forall out, o = Some out -> exists r', trimmed r0 r' /\ ares_dns_write r' = Some out)
    (fun _ _ => False).
Proof.
  induction guard as [|guard IH]; intros r keep s Ht Hk; cbn [shrink]; [by wp_steps|].
  destruct (ares_dns_write r) as [out|] eqn:Ew; [|wp_steps; split; [apply quiet_log|done]].
  destruct (_ || _); [wp_steps; split; [done|]; intros ? [= <-]; by exists r|].
  apply wp_bind. eapply (wp_mono _ _ (fun s' _ => quiet s s') _ (fun _ _ => False)); [| |done].
  { case_match; wp_steps; auto with proxy. }
  intros s1 [] Hq1. wp_steps. eapply wp_mono; [by apply drop_answers_run| |done].
  intros s2 r2 (-> & Ht2 & _).
  eapply wp_mono; [apply (IH r2); [by eapply trimmed_trans|apply Z.div_pos; lia]| |done].
  intros s3 o [Hq3 Ho]. split; [|done].
  eapply quiet_trans; [exact Hq1|]. eapply quiet_trans; [apply quiet_log|exact Hq3].
Qed.

(** The record without its authority and additional records. *)
Definition answers_only r : Prop :=
  ares_dns_record_rr_cnt r ARES_SECTION_AUTHORITY = 0%nat /\
  ares_dns_record_rr_cnt r ARES_SECTION_ADDITIONAL = 0%nat.

(** When everything can be written and what remains without records fits, a
    response below the limit is found: the number of answers to keep at least
    halves in each round, so the guard of 255 rounds is never reached. *)
Lemma shrink_fits r0 old limit k : forall guard r keep s,
  (forall r', trimmed r0 r' -> exists out, ares_dns_write r' = Some out /\
     (answers_only r' -> ares_dns_record_rr_cnt r' ARES_SECTION_ANSWER = 0%nat -> zlen out < limit)) ->
  trimmed r0 r -> answers_only r -> 0 <= keep < 2 ^ Z.of_nat k ->
  (k + 2 <= guard)%nat ->
  wp (shrink guard r (ares_dns_record_rr_cnt r ARES_SECTION_ANSWER) keep old limit) s
    (fun _ o => exists out, o = Some out /\ zlen out < limit) (fun _ _ => False).
Proof.
  induction k as [|k IH]; intros guard r keep s Hw Ht Ha Hk Hg; (destruct guard as [|guard]; [lia|]); cbn [shrink];
    destruct (Hw r Ht) as (out & Ho & Hbare); rewrite Ho;
    (destruct (_ || _) eqn:E;
      [wp_steps; exists out; split; [done|]; apply orb_true_iff in E as [E|E];
       [by bool_facts|apply Nat.eqb_eq in E; by apply Hbare]|]);
    apply wp_bind; (eapply (wp_mono _ _ (fun s' _ => True) _ (fun _ _ => False)); [case_match; by wp_steps| |done]);
    intros s1 [] _; wp_steps; (eapply wp_mono; [by apply drop_answers_run; [|lia]| |done]);
    intros s2 r2 (-> & Ht2 & Hc2 & Ho2);
    (assert (answers_only r2) as Ha2 by (destruct Ha; split; by rewrite Ho2)).
  - destruct guard as [|guard]; [lia|]. cbn [shrink].
    destruct (Hw r2) as (out2 & Hout2 & Hbare2); [by eapply trimmed_trans|]. rewrite Hout2.
    assert (ares_dns_record_rr_cnt r2 ARES_SECTION_ANSWER = 0%nat) as Hz by (cbn in Hk; lia).
    rewrite Hz. cbn [Nat.eqb]. rewrite orb_true_r. wp_steps. exists out2. split; [done|]. by apply Hbare2.
  - apply IH; try done; [by eapply trimmed_trans| |lia].
    rewrite Nat2Z.inj_succ, Z.pow_succ_r in Hk by lia.
    split; [apply Z.div_pos; lia|apply Z.div_lt_upper_bound; lia].
Qed.

(** [truncate_dns_response] marks the message, never lengthens it and keeps its
    id; when it can be parsed and written the result is below the limit. *)
Lemma truncate_run buf limit s :
  DNS_SIZE_LIMIT <= limit <= UINT16_MAX -> limit < zlen buf < 2 ^ 32 ->
  wp (truncate_dns_response buf (zlen buf) limit) s
    (fun s' res => quiet s s' /\
       let dgram := ztake (snd res) (fst res) in
       truncated dgram /\ ztake 2 dgram = ztake 2 buf /\ DNS_HEADER_LENGTH <= zlen dgram <= zlen buf)
    (fun _ _ => False).
Proof.
  unfold DNS_SIZE_LIMIT, UINT16_MAX, DNS_HEADER_LENGTH. intros Hl Hb. unfold truncate_dns_response. apply wp_bind.
  eapply wp_mono; [apply set_truncation_flag_run; lia| |done]. intros s1 buf1 [-> ->].
  set (buf1 := with_truncation buf). pose proof (zlen_with_truncation buf) as Hz. fold buf1 in Hz.
  assert (ztake (zlen buf) buf1 = buf1) as Hall by (apply ztake_all; lia). rewrite Hall.
  set (Q := fun (s' : sys W) (res : list byte * Z) => quiet s s' /\
       let dgram := ztake (snd res) (fst res) in
       truncated dgram /\ ztake 2 dgram = ztake 2 buf /\ 12 <= zlen dgram <= zlen buf).
  assert (forall s', quiet s s' -> Q s' (buf1, zlen buf)) as Hsame.
  { intros s' Hq. split; [done|]. cbn. rewrite Hall. split; [|split; [|lia]].
    - rewrite <-Hall. by apply with_truncation_set; lia.
    - by apply with_truncation_front. }
  destruct (ares_dns_parse buf1) as [r0|] eqn:Ep; [|wp_steps; apply Hsame, quiet_log].
  apply wp_bind. eapply wp_mono; [by apply remove_section_run| |done]. intros s1 r1 (-> & Ht1 & Hz1 & Ho1).
  apply wp_bind. eapply wp_mono; [by apply remove_section_run| |done]. intros s1 r2 (-> & Ht2 & Hz2 & Ho2).
  cbn zeta. set (keep := if 0 <? _ then _ else 1). apply wp_bind.
  assert (0 <= keep) as Hk.
  { unfold keep. destruct (0 <? _) eqn:E; bool_facts; lia. }
  eapply wp_mono; [apply (shrink_any r0); [by eapply trimmed_trans|done]| |done].
  intros s2 [out|] [Hq Hout]; [|wp_steps; by apply Hsame].
  destruct (zlen out <? zlen buf) eqn:Eo; bool_facts; [|wp_steps; by apply Hsame].
  destruct (Hout out eq_refl) as (r' & Ht' & Hw). destruct (write_header _ _ _ _ Ep Ht' Hw) as [Hlen Hid].
  unfold DNS_HEADER_LENGTH in Hlen.
  assert (zlen (out ++ zdrop (zlen out) buf1) = zlen buf) as Hzo.
  { rewrite zlen_app, zlen_zdrop by lia. lia. }
  apply wp_bind. eapply wp_mono; [apply set_truncation_flag_run; lia| |done]. intros s3 buf3 [-> ->]. wp_steps.
  split; [by eapply quiet_trans; [exact Hq|apply quiet_log]|]. cbn [fst snd].
  split; [by apply with_truncation_set; lia|]. split.
  - rewrite ztake_ztake by lia. rewrite with_truncation_front, ztake_app_le by lia.
    rewrite Hid. by apply with_truncation_front.
  - rewrite zlen_ztake by lia. rewrite zlen_with_truncation. lia.
Qed.

Lemma truncate_fits buf limit r0 s :
  DNS_SIZE_LIMIT <= limit <= UINT16_MAX -> limit < zlen buf < 2 ^ 32 ->
  ares_dns_parse (with_truncation buf) = Some r0 ->
  (forall r', trimmed r0 r' -> exists out, ares_dns_write r' = Some out /\
     (answers_only r' -> ares_dns_record_rr_cnt r' ARES_SECTION_ANSWER = 0%nat -> zlen out < limit)) ->
  wp (truncate_dns_response buf (zlen buf) limit) s
    (fun _ res => zlen (ztake (snd res) (fst res)) < limit) (fun _ _ => False).
Proof.
  unfold DNS_SIZE_LIMIT, UINT16_MAX. intros Hl Hb Hp Hw. unfold truncate_dns_response. apply wp_bind.
  eapply wp_mono; [apply set_truncation_flag_run; lia| |done]. intros s1 buf1 [-> ->].
  set (buf1 := with_truncation buf) in *. pose proof (zlen_with_truncation buf) as Hz. fold buf1 in Hz.
  rewrite (ztake_all (zlen buf) buf1) by lia. rewrite Hp.
  apply wp_bind. eapply wp_mono; [by apply remove_section_run| |done]. intros s1 r1 (-> & Ht1 & Hz1 & Ho1).
  apply wp_bind. eapply wp_mono; [by apply remove_section_run| |done]. intros s1 r2 (-> & Ht2 & Hz2 & Ho2).
  cbn zeta. set (keep := if 0 <? _ then _ else 1). apply wp_bind.
  assert (0 <= keep < 2 ^ Z.of_nat 64) as Hk.
  { unfold keep. destruct (0 <? _) eqn:E; bool_facts; [|done]. split; [lia|].
    apply Z.div_lt_upper_bound; [lia|]. pose proof (wrap_range 64 ((limit - DNS_HEADER_LENGTH) *
      Z.of_nat (ares_dns_record_rr_cnt r2 ARES_SECTION_ANSWER)) ltac:(lia)). nia. }
  eapply wp_mono; [apply (shrink_fits r0 (zlen buf) limit 64); try done| |done].
  { by eapply trimmed_trans. }
  { split; [done|]. by rewrite Ho2. }
  { unfold UINT8_MAX. lia. }
  intros s2 o (out & -> & Ho). pose proof (zlen_nonneg out).
  replace (zlen out <? zlen buf) with true by lia.
  assert (zlen (out ++ zdrop (zlen out) buf1) = zlen buf) as Hzo.
  { rewrite zlen_app, zlen_zdrop by lia. lia. }
  apply wp_bind. eapply wp_mono; [apply set_truncation_flag_run; lia| |done]. intros s3 buf3 [-> ->]. wp_steps.
  cbn [fst snd]. rewrite zlen_ztake by lia. rewrite zlen_with_truncation. lia.
Qed.

End Truncation.

(** ** Responses *)

Section Responding.
Context `{Env} {W : Type} `{!Lens W dns_server_s} `{!AresDns} `{!AresLaws}.
Implicit Types (s : sys W).

Lemma response_limit_range dns_req : DNS_SIZE_LIMIT <= response_limit dns_req <= UINT16_MAX.
Proof.
  unfold response_limit, DNS_SIZE_LIMIT, UINT16_MAX. destruct (ares_dns_parse dns_req) as [r|]; [|lia].
  assert (forall n i, 0 <= find_opt r i n <= 65535) as Hf.
  { induction n as [|n IH]; intros i; cbn [find_opt]; [lia|]. case_match; [|done]. apply opt_size_u16. }
  specialize (Hf (ares_dns_record_rr_cnt r ARES_SECTION_ADDITIONAL) 0%nat). lia.
Qed.

(** One datagram was handed to [sendto] between the two traces: it was sent when
    the kernel took it, and nothing was sent when the kernel refused it. *)
Definition attempted (fd : Z) dgram (to : sockaddr) tr tr' : Prop :=
  exists e, datagrams tr' = datagrams tr ++
    match fst (answer (Sendto fd dgram to) e) with
    | Send_ok _ => [(fd, dgram, to)]
    | Send_error _ => []
    end.

(** [dgram] was handed to the kernel for [raddr], once, and nothing else changed. *)
Definition sends raddr dgram s s' : Prop :=
  world s' = world s /\
  attempted (sock (part dns_server_s s)) dgram (ztake (addrlen (part dns_server_s s)) raddr) (trace s) (trace s').

Lemma sendto_run raddr dgram s s1 :
  quiet s s1 ->
  wp (res ← perform (Sendto (sock (part dns_server_s s)) dgram (ztake (addrlen (part dns_server_s s)) raddr));
      match res with
      | Send_ok _ => emit (SentTo (sock (part dns_server_s s)) dgram (ztake (addrlen (part dns_server_s s)) raddr))
      | Send_error _ => DLOG "sendto failed: %s"
      end) s1 (fun s' _ => sends raddr dgram s s') (fun _ _ => False).
Proof.
  intros [Hw Hd]. apply wp_bind, wp_perform. intros r e Hr. unfold sends, attempted.
  destruct r as [n|err]; wp_steps; (split; [done|]); exists (environment s1); rewrite Hr; cbn [trace fst];
    by rewrite datagrams_app, Hd.
Qed.

(** The properties of the datagram a response becomes. *)
Definition fair_datagram dns_req dns_resp dgram : Prop :=
  (zlen dns_resp <= response_limit dns_req -> dgram = dns_resp) /\
  (response_limit dns_req < zlen dns_resp ->
     truncated dgram /\ ztake 2 dgram = ztake 2 dns_resp /\ DNS_HEADER_LENGTH <= zlen dgram <= zlen dns_resp).

Lemma respond_body raddr dns_req dns_resp s (P : list byte -> Prop) :
  DNS_HEADER_LENGTH <= zlen dns_resp ->
  (zlen dns_resp <= response_limit dns_req -> P dns_resp) ->
  (forall s1, response_limit dns_req < zlen dns_resp -> quiet s s1 ->
     wp (truncate_dns_response dns_resp (zlen dns_resp) (response_limit dns_req)) s1
       (fun s' res => quiet s1 s' /\ P (ztake (snd res) (fst res))) (fun _ _ => False)) ->
  wp (dns_server_respond raddr dns_req dns_resp) s
    (fun s' _ => exists dgram, P dgram /\ sends raddr dgram s s') (fun _ _ => False).
Proof.
  intros Hlen Hsmall Hbig. unfold dns_server_respond. apply wp_bind, wp_get. cbn zeta.
  replace (zlen dns_resp <? DNS_HEADER_LENGTH) with false by lia.
  pose proof (response_limit_range dns_req) as Hr. apply wp_bind.
  eapply (wp_mono _ _ (fun s' res => quiet s s' /\ P (ztake (snd res) (fst res))) _ (fun _ _ => False)); [| |done].
  - assert (ztake (zlen dns_resp) dns_resp = dns_resp) as Hall by (by apply ztake_all).
    destruct (DNS_SIZE_LIMIT <? zlen dns_resp) eqn:E; bool_facts.
    + apply wp_bind. eapply wp_mono; [apply get_edns_udp_size_run| |done]. intros s1 n [Hq ->].
      destruct (response_limit dns_req <? zlen dns_resp) eqn:E2; bool_facts.
      * eapply wp_mono; [by apply Hbig| |done]. intros s2 res [Hq2 HP]. split; [by eapply quiet_trans|done].
      * wp_steps. split; [by eapply quiet_trans; [exact Hq|apply quiet_log]|]. cbn. rewrite Hall. by apply Hsmall.
    + wp_steps. split; [done|]. cbn. rewrite Hall. apply Hsmall. lia.
  - intros s1 [buf len] [Hq HP]. cbn [fst snd] in HP.
    eapply wp_mono; [by apply sendto_run| |done]. intros s2 [] Hs. by exists (ztake len buf).
Qed.

End Responding.

(** ** A small c-ares

    Messages whose header is followed by records of a hundred bytes each, all of
    them OPT records that announce 1232 bytes. *)

Record toy_record := ToyRecord { toy_header : list byte; toy_count : ares_section -> nat }.

Definition toy_parse (bs : list byte) : option toy_record :=
  if zlen bs <? 12 then None
  else Some (ToyRecord (ztake 12 bs) (fun sec =>
    let i := match sec with
             | ARES_SECTION_ANSWER => 7
             | ARES_SECTION_AUTHORITY => 9
             | ARES_SECTION_ADDITIONAL => 11
             end in
    match znth bs i with Some b => Z.to_nat (byte_val b) | None => 0%nat end)).

Definition toy_del (r : toy_record) (sec : ares_section) (i : nat) : option toy_record :=
  if Nat.ltb i (toy_count r sec) then
    Some (ToyRecord (toy_header r)
            (fun sec' => if decide (sec' = sec) then pred (toy_count r sec) else toy_count r sec'))
  else None.

Definition toy_write (r : toy_record) : option (list byte) :=
  Some (toy_header r ++ replicate (100 * (toy_count r ARES_SECTION_ANSWER +
    toy_count r ARES_SECTION_AUTHORITY + toy_count r ARES_SECTION_ADDITIONAL)) x00).

Definition toy_ares : AresDns := {|
  ares_dns_record := toy_record;
  ares_dns_rr := unit;
  ares_dns_parse := toy_parse;
  ares_dns_record_rr_cnt := toy_count;
  ares_dns_record_rr_get _ _ _ := tt;
  is_opt_record _ := true;
  opt_udp_size _ := 1232;
  ares_dns_record_rr_del := toy_del;
  ares_dns_write := toy_write
|}.

Lemma toy_trimmed_header (r r' : toy_record) : @trimmed toy_ares r r' -> toy_header r' = toy_header r.
Proof.
  induction 1 as [|r1 sec i r2 _ IH Hd]; [done|]. rewrite <-IH.
  cbn in Hd. unfold toy_del in Hd. case_match; [|done]. by injection Hd as <-.
Defined.

Lemma toy_laws : @AresLaws toy_ares.
Proof.
  split.
  - intros r sec i Hi. cbn in *. unfold toy_del. rewrite (proj2 (Nat.ltb_lt _ _) Hi).
    eexists. split; [done|]. cbn. split; [by rewrite decide_True|]. intros sec' Hne. by rewrite decide_False.
  - intros bs r sec Hp. cbn in *. unfold toy_parse in Hp. case_match; [done|]. injection Hp as <-. cbn.
    destruct (znth bs _) as [b|]; [|done]. pose proof (byte_val_range b). unfold UINT16_MAX. lia.
  - done.
  - intros bs r r' out Hp Ht Hw. apply toy_trimmed_header in Ht. cbn in Hp, Hw.
    unfold toy_parse in Hp. case_match; [done|]. injection Hp as <-. cbn in Ht. bool_facts.
    assert (exists tl, out = ztake 12 bs ++ tl) as [tl ->].
    { unfold toy_write in Hw. injection Hw as <-. rewrite Ht. by eexists. }
    assert (zlen (ztake 12 bs) = 12) as H12 by (rewrite zlen_ztake by lia; lia).
    pose proof (zlen_nonneg tl). unfold DNS_HEADER_LENGTH. split; [rewrite zlen_app; lia|].
    rewrite ztake_app_le by lia. by rewrite ztake_ztake by lia.
Defined.

(** ** Theorems *)

Lemma respond_fair `{Env} {W} `{!Lens W dns_server_s} `{!AresDns} `{!AresLaws}
    raddr dns_req dns_resp (s : sys W) :
  DNS_HEADER_LENGTH <= zlen dns_resp < 2 ^ 32 ->
  wp (dns_server_respond raddr dns_req dns_resp) s
    (fun s' _ => exists dgram, fair_datagram dns_req dns_resp dgram /\ sends raddr dgram s s')
    (fun _ _ => False).
Proof.
  intros Hlen. apply respond_body; [lia|intros ?; by split; [|lia]|].
  intros s1 Hbig _. eapply wp_mono; [apply truncate_run; [apply response_limit_range|lia]| |done].
  intros s2 res (Hq & Hd). split; [done|]. by split; [lia|].
Qed.

(** C13: every response of at least a header's length is handed to [sendto] as one
    datagram for the client that asked, and is sent exactly when the kernel takes
    it: a response within the client's limit, 512 bytes or the larger EDNS size
    of its request, as it is; a larger one with the truncation flag set, with the
    same id and never longer, also when c-ares cannot parse or write it.  The
    removal loops terminate, provided that c-ares deletes a record it counts
    ([rr_del_ok]). *)
Theorem udp_response_fair `{Env} {W} `{!Lens W dns_server_s} `{!AresDns} `{!AresLaws}
    raddr dns_req dns_resp (s : sys W) :
  DNS_HEADER_LENGTH <= zlen dns_resp < 2 ^ 32 ->
  wp (dns_server_respond raddr dns_req dns_resp) s
    (fun s' _ => exists dgram, fair_datagram dns_req dns_resp dgram /\ sends raddr dgram s s')
    (fun _ _ => False).
Proof. apply respond_fair. Qed.

Definition example_resp : list byte :=
  [x12; x34; x81; x80; x00; x01; x00; x14; x00; x00; x00; x00] ++ replicate 2000 x00.
Definition example_req : list byte :=
  [x12; x34; x01; x00; x00; x01; x00; x00; x00; x00; x00; x01] ++ replicate 100 x00.
Definition example_udp : dns_server_s := DnsServer 3 16 true.

Lemma udp_response_fair_witness :
  let s := @Sys generous _ example_udp tt [] in
  (DNS_HEADER_LENGTH <= zlen example_resp < 2 ^ 32) /\
  @wp generous _ _ (@dns_server_respond generous _ _ toy_ares [x7f] example_req example_resp) s
    (fun s' _ => exists dgram, @fair_datagram toy_ares example_req example_resp dgram /\
       @sends generous _ _ [x7f] dgram s s')
    (fun _ _ => False).
Proof.
  intros s.
  assert (DNS_HEADER_LENGTH <= zlen example_resp < 2 ^ 32) as Hl by (vm_compute; split; [discriminate|reflexivity]).
  split; [exact Hl|].
  exact (@udp_response_fair generous dns_server_s _ toy_ares toy_laws [x7f] example_req example_resp s Hl).
Defined.

(** C14: when c-ares can parse the response and write what is left of it, and the
    message without any record fits, the datagram for an oversized response is
    shorter than the limit, which is the EDNS size the client announced but at
    least 512 bytes: the loop that drops answers ends with a message that fits
    and never runs into its guard. *)
Theorem udp_truncation_fits `{Env} {W} `{!Lens W dns_server_s} `{!AresDns} `{!AresLaws}
    raddr dns_req dns_resp r0 (s : sys W) :
  response_limit dns_req < zlen dns_resp < 2 ^ 32 ->
  ares_dns_parse (with_truncation dns_resp) = Some r0 ->
  (forall r', trimmed r0 r' -> exists out, ares_dns_write r' = Some out /\
     (answers_only r' -> ares_dns_record_rr_cnt r' ARES_SECTION_ANSWER = 0%nat ->
      zlen out < response_limit dns_req)) ->
  wp (dns_server_respond raddr dns_req dns_resp) s
    (fun s' _ => exists dgram, zlen dgram < response_limit dns_req /\ truncated dgram /\
       ztake 2 dgram = ztake 2 dns_resp /\ sends raddr dgram s s')
    (fun _ _ => False).
Proof.
  intros Hlen Hp Hw. pose proof (response_limit_range dns_req) as Hr.
  eapply wp_mono; [apply (respond_body raddr dns_req dns_resp s (fun dgram =>
    zlen dgram < response_limit dns_req /\ truncated dgram /\ ztake 2 dgram = ztake 2 dns_resp))| |done].
  - unfold DNS_SIZE_LIMIT, DNS_HEADER_LENGTH in *. lia.
  - lia.
  - intros s1 _ _. eapply wp_mono; [apply wp_and; [by apply truncate_run|by eapply truncate_fits]| |].
    + intros s2 res [(Hq & Ht & Hid & _) Hfit]. done.
    + by intros ? ? [].
  - intros s' [] (dgram & (? & ? & ?) & ?). by exists dgram.
Qed.

Lemma udp_truncation_fits_witness :
  let s := @Sys generous _ example_udp tt [] in
  (@response_limit toy_ares example_req = 1232 /\ zlen example_resp = 2012) /\
  @wp generous _ _ (@dns_server_respond generous _ _ toy_ares [x7f] example_req example_resp) s
    (fun s' _ => exists dgram, zlen dgram < 1232 /\ truncated dgram /\
       ztake 2 dgram = ztake 2 example_resp /\ @sends generous _ _ [x7f] dgram s s')
    (fun _ _ => False).
Proof.
  intros s.
  assert (@response_limit toy_ares example_req = 1232) as Hlim by (vm_compute; reflexivity).
  assert (zlen example_resp = 2012) as Hlen by (vm_compute; reflexivity).
  split; [by split|]. rewrite <-Hlim.
  refine (@udp_truncation_fits generous dns_server_s _ toy_ares toy_laws [x7f] example_req example_resp _ s
           _ eq_refl _).
  - rewrite Hlim, Hlen. split; reflexivity.
  - intros r' Ht. eexists. split; [reflexivity|]. intros [Ha Hb] Hc. cbn in Ha, Hb, Hc.
    rewrite Hlim. apply toy_trimmed_header in Ht. rewrite Ht, Ha, Hb, Hc. vm_compute. reflexivity.
Defined.

(** [recvfrom] with [MSG_TRUNC] reports the length of the datagram and stores
    what fits. *)
Class SaneRecvfrom `{Env} : Prop :=
  recvfrom_within : forall fd n e len bs a, 0 <= n ->
    fst (answer (Recvfrom fd n) e) = Recvfrom_data len bs a -> zlen bs = Z.min len n.

(** C15: a datagram of 12 to 4096 bytes is handed to the proxy with its sender's
    address, byte for byte and whole; a shorter or longer one is dropped with a
    warning, nothing of it is processed (there is memory for the copy:
    [MemoryAvailable]). *)
Theorem udp_request_delivered `{MemoryAvailable} {W} `{!Lens W dns_server_s} `{!SaneRecvfrom}
    cb len bs addr e (s : sys W) :
  answer (Recvfrom (sock (part dns_server_s s)) DNS_REQUEST_BUFFER_SIZE) (environment s) =
    (Recvfrom_data len bs addr, e) ->
  if (DNS_HEADER_LENGTH <=? len) && (len <=? DNS_REQUEST_BUFFER_SIZE) then
    zlen bs = len /\ exists e', watcher_cb cb s =
      (emit (Received false addr bs) ;; cb false addr bs) (Sys (world s) e' (trace s))
  else exists fmt, watcher_cb cb s = Ok (Sys (world s) e (trace s ++ [Logged LOG_WARNING fmt])) tt.
Proof.
  intros Ha. pose proof (recvfrom_within (sock (part dns_server_s s)) DNS_REQUEST_BUFFER_SIZE (environment s) len bs addr) as Hb.
  rewrite Ha in Hb. specialize (Hb ltac:(done) eq_refl). unfold DNS_REQUEST_BUFFER_SIZE, DNS_HEADER_LENGTH in *.
  unfold watcher_cb, mbind, M_bind, get, perform. fold (part dns_server_s s). unfold DNS_REQUEST_BUFFER_SIZE.
  rewrite Ha. unfold DNS_HEADER_LENGTH.
  destruct (4096 <? len) eqn:E1; bool_facts.
  { replace ((12 <=? len) && (len <=? 4096)) with false by lia. by eexists. }
  destruct (len <? 12) eqn:E2; bool_facts.
  { replace ((12 <=? len) && (len <=? 4096)) with false by lia. by eexists. }
  replace ((12 <=? len) && (len <=? 4096)) with true by lia.
  assert (zlen bs = len) as Hl by lia. split; [done|].
  destruct (malloc_answer len e) as [e' Hm]. exists e'. cbn [environment world trace]. rewrite Hm. cbn [negb].
  replace (zlen bs <? len) with false by lia. by rewrite (ztake_all len bs) by lia.
Qed.

(** A kernel that delivers a datagram of twenty bytes. *)
Definition one_datagram : Env :=
  {| env_state := unit;
     answer A c e :=
       match c in call A return A * unit with
       | Recvfrom fd n => (Recvfrom_data 20 (ztake n (replicate 20 x41)) [x7f], e)
       | c => (generous_answer c, e)
       end |}.

Lemma one_datagram_memory : @MemoryAvailable one_datagram.
Proof. split; intros; cbn; by eauto. Defined.

Lemma one_datagram_sane : @SaneRecvfrom one_datagram.
Proof.
  intros fd n e len bs a Hn [= <- <- <-].
  unfold zlen, ztake. rewrite length_take. cbn [length replicate]. lia.
Defined.

Lemma udp_request_delivered_witness :
  let s := @Sys one_datagram _ example_udp tt [] in
  let bs := replicate 20 x41 in
  zlen bs = 20 /\ exists e', @watcher_cb one_datagram dns_server_s _ (fun _ _ _ => mret tt) s =
    (@emit one_datagram _ (Received false [x7f] bs) ;; mret tt) (@Sys one_datagram _ example_udp e' []).
Proof.
  intros s bs.
  exact (@udp_request_delivered one_datagram one_datagram_memory dns_server_s _ one_datagram_sane
           (fun _ _ _ => mret tt) 20 bs [x7f] tt s eq_refl).
Defined.
