(* ===== verification/DnsServerTcp.v ===== *)
(** * The TCP DNS server (src/dns_server_tcp.c)

    Clients are heap objects in a linked list; the event loop calls [accept_cb],
    [read_cb] and [timer_cb], the proxy calls [dns_server_tcp_respond] and, at
    shutdown, [dns_server_tcp_stop].  A client's input buffer holds the bytes of
    requests that are not complete yet, each request preceded by its length in
    two bytes. *)

From Stdlib Require Import ZArith Lia String Strings.Byte.
From stdpp Require Import base tactics list option gmap.
From S2P Require Import Prelude Effects HeapList DnsServer.

Open Scope Z_scope.

(** enum of dns_server_tcp.c *)
Definition LISTEN_BACKLOG : Z := 5.
Definition IDLE_TIMEOUT_S : Z := 120.
Definition RESEND_DELAY_US : Z := 500.
Definition TCP_DNS_MAX_PAYLOAD : Z := UINT16_MAX - 2.

Definition O_NONBLOCK : Z := 2048.

(** [struct sockaddr_storage]: an address in its 128 bytes, the rest zero. *)
Definition sockaddr_storage (addr : sockaddr) : sockaddr :=
  ztake 128 (addr ++ replicate 128 x00).

Record tcp_client_s := TcpClient {
  client_id : Z;
  client_sock : Z;
  raddr : sockaddr;
  addr_len : Z;
  input_buffer : option (list byte);
  input_buffer_size : Z;
  input_buffer_used : Z;
  read_watcher_active : bool;
  timer_watcher_active : bool;
  client_next : ptr
}.

#[export] Instance tcp_client_linked : Linked tcp_client_s.
Proof.
  refine {| next := client_next;
            set_next p c := TcpClient (client_id c) (client_sock c) (raddr c) (addr_len c)
              (input_buffer c) (input_buffer_size c) (input_buffer_used c)
              (read_watcher_active c) (timer_watcher_active c) p |}.
  done.
Defined.

Record dns_server_tcp_s := TcpServer {
  d_sock : Z;
  d_addrlen : Z;
  accept_watcher_active : bool;
  d_client_id : Z;
  client_count : Z;
  client_limit : Z;
  clients : ptr;
  (* the client objects that are live *)
  client_heap : gmap loc tcp_client_s
}.

(** The client with another input buffer. *)
Definition with_input (buf : option (list byte)) (size used : Z) (c : tcp_client_s) : tcp_client_s :=
  TcpClient (client_id c) (client_sock c) (raddr c) (addr_len c) buf size used
    (read_watcher_active c) (timer_watcher_active c) (client_next c).

Definition with_accept (active : bool) (d : dns_server_tcp_s) : dns_server_tcp_s :=
  TcpServer (d_sock d) (d_addrlen d) active (d_client_id d) (client_count d) (client_limit d)
    (clients d) (client_heap d).
Definition with_count (id n : Z) (d : dns_server_tcp_s) : dns_server_tcp_s :=
  TcpServer (d_sock d) (d_addrlen d) (accept_watcher_active d) id n (client_limit d)
    (clients d) (client_heap d).
Definition with_clients (head : ptr) (h : gmap loc tcp_client_s) (d : dns_server_tcp_s) : dns_server_tcp_s :=
  TcpServer (d_sock d) (d_addrlen d) (accept_watcher_active d) (d_client_id d) (client_count d)
    (client_limit d) head h.

Section Operations.
Context `{Env} {W : Type} `{!Lens W dns_server_tcp_s}.

(** [d->cb(d, is_tcp, d->cb_data, addr, dns_req, dns_req_len)] *)
Variable cb : bool -> sockaddr -> list byte -> M W unit.

Definition load (p : loc) : M W tcp_client_s :=
  d ← get;
  match client_heap d !! p with
  | Some c => mret c
  | None => halt (Fault UseAfterFree)
  end.

Definition store (p : loc) (c : tcp_client_s) : M W unit :=
  d ← get;
  match client_heap d !! p with
  | Some _ => put (with_clients (clients d) (<[p := c]> (client_heap d)) d)
  | None => halt (Fault UseAfterFree)
  end.

(** The [else] branch of the unlinking in [remove_client]. *)
Definition unlink_client (p : loc) (nx : ptr) : M W unit :=
  d ← get;
  match unlink_after (S (size (client_heap d))) (client_heap d) (clients d) p nx with
  | inl r => halt r
  | inr h => put (with_clients (clients d) h d)
  end.

Definition remove_client (p : loc) : M W unit :=
  client ← load p;
  d ← get;
  DLOG "C-%u: Removing client, socket %d" ;;
  (if client_count d =? client_limit d then modify (with_accept true) else mret tt) ;;
  modify (fun d => with_count (d_client_id d) (u16 (client_count d - 1)) d) ;;
  (* ev_io_stop, ev_timer_stop, free(client->input_buffer) *)
  store p (TcpClient (client_id client) (client_sock client) (raddr client) (addr_len client)
             None (input_buffer_size client) (input_buffer_used client) false false
             (client_next client)) ;;
  perform (Close (client_sock client)) ;;
  emit (Closed (client_sock client)) ;;
  d ← get;
  (if bool_decide (clients d = Some p)
   then put (with_clients (client_next client) (client_heap d) d)
   else unlink_client p (client_next client)) ;;
  modify (fun d => with_clients (clients d) (delete p (client_heap d)) d).

(** The request at the front of the input buffer, [None] when it is not
    complete. *)
Definition get_dns_request (p : loc) : M W (option (list byte * Z)) :=
  client ← load p;
  match input_buffer client with
  | None => halt (Fault NullDereference)
  | Some buf =>
      match znth buf 0, znth buf 1 with
      | Some hi, Some lo =>
          let req_size := ntohs hi lo in
          let data_size := u16 (2 + req_size) in
          if input_buffer_used client <? data_size then mret None
          else
            block ← perform (Malloc req_size);
            if negb block then FLOG "C-%u: Out of mem"
            else if zlen buf <? 2 + req_size then halt (Fault OutOfBounds)
            else
              let dns_req := ztake req_size (zdrop 2 buf) in
              let used := u32 (input_buffer_used client - data_size) in
              if zlen buf <? data_size + used then halt (Fault OutOfBounds)
              else
                store p (with_input (Some (ztake used (zdrop data_size buf) ++ zdrop used buf))
                           (input_buffer_size client) used client) ;;
                mret (Some (dns_req, req_size))
      | _, _ => halt (Fault OutOfBounds)
      end
  end.

(** The [for] loop that chooses the new buffer size. *)
Fixpoint grow (fuel : nat) (size needed_space : Z) : M W Z :=
  match fuel with
  | O => halt OutOfFuel
  | S fuel =>
      if size <? needed_space then
        if TCP_DNS_MAX_PAYLOAD <? size then FLOG "C-%u: Unrealistic input buffer size: %u"
        else grow fuel (u32 (size * 2)) needed_space
      else mret size
  end.

(** The [while] loop of [read_cb]: whether a request was received, [None] when
    the client was removed. *)
Fixpoint split_requests (fuel : nat) (p : loc) (request_received : bool) : M W (option bool) :=
  match fuel with
  | O => halt OutOfFuel
  | S fuel =>
      r ← get_dns_request p;
      match r with
      | None => mret (Some request_received)
      | Some (dns_req, req_size) =>
          if req_size <? DNS_HEADER_LENGTH then
            WLOG "C-%u: Malformed request received, too short: %u" ;;
            emit (Freed dns_req) ;;
            remove_client p ;;
            mret None
          else
            client ← load p;
            emit (Received true (raddr client) dns_req) ;;
            cb true (raddr client) dns_req ;;
            split_requests fuel p true
      end
  end.

(** [ev_timer_again] on the idle timer of a client. *)
Definition idle_timer_again (p : loc) : M W unit :=
  client ← load p;
  store p (TcpClient (client_id client) (client_sock client) (raddr client) (addr_len client)
             (input_buffer client) (input_buffer_size client) (input_buffer_used client)
             (read_watcher_active client) true (client_next client)) ;;
  emit (IdleTimerAgain (client_id client)).

(** Append the bytes received to the input buffer, growing it when needed. *)
Definition append_input (p : loc) (buf : list byte) : M W unit :=
  client ← load p;
  let len := zlen buf in
  let free_space := u32 (input_buffer_size client - input_buffer_used client) in
  let needed_space := u32 (input_buffer_used client + len) in
  (if free_space <? len then
     size ← grow 32 64 needed_space;
     DLOG "C-%u: Resize input buffer to %u" ;;
     block ← perform (Realloc size);
     match block with
     | None => FLOG "C-%u: Out of mem"
     | Some fresh =>
         store p (with_input
                    (Some (realloc_contents (default [] (input_buffer client)) fresh size))
                    size (input_buffer_used client) client)
     end
   else mret tt) ;;
  client ← load p;
  match input_buffer client with
  | None => halt (Fault NullDereference)
  | Some b =>
      let used := input_buffer_used client in
      if zlen b <? used + len then halt (Fault OutOfBounds)
      else
        store p (with_input (Some (ztake used b ++ buf ++ zdrop (used + len) b))
                   (input_buffer_size client) needed_space client)
  end.

Definition read_cb (p : loc) : M W unit :=
  client ← load p;
  r ← perform (Recv (client_sock client) DNS_REQUEST_BUFFER_SIZE);
  match r with
  | Recv_data [] =>
      DLOG "C-%u: Connection closed" ;; remove_client p
  | Recv_error ECONNRESET =>
      DLOG "C-%u: Connection closed" ;; remove_client p
  | Recv_error EAGAIN | Recv_error EWOULDBLOCK => mret tt
  | Recv_error _ =>
      WLOG "C-%u: Read error: %s" ;; remove_client p
  | Recv_data buf =>
      let len := zlen buf in
      if (UINT16_MAX <? len) || (u32 (UINT16_MAX - len) <? input_buffer_used client) then
        WLOG "C-%u: Request too large, dropping client" ;; remove_client p
      else
        let needed_space := u32 (input_buffer_used client + len) in
        if TCP_DNS_MAX_PAYLOAD <? needed_space then
          WLOG "C-%u: Request too large, dropping client" ;; remove_client p
        else
          DLOG "C-%u: Received %d byte, free: %u" ;;
          append_input p buf ;;
          client ← load p;
          received ← split_requests (S (Z.to_nat (input_buffer_used client))) p false;
          match received with
          | None => mret tt
          | Some true => idle_timer_again p
          | Some false => mret tt
          end
  end.

Definition timer_cb (p : loc) : M W unit :=
  DLOG "C-%u: TCP client timeouted" ;;
  remove_client p.

(** The part of [accept_cb] after the checks: a client for [client_sock]. *)
Definition add_client (sock : Z) (addr : sockaddr) : M W unit :=
  modify (fun d => with_count (u64 (d_client_id d + 1)) (u16 (client_count d + 1)) d) ;;
  d ← get;
  (if client_count d =? client_limit d then modify (with_accept false) else mret tt) ;;
  block ← perform (Calloc 256);
  match block with
  | None => FLOG "Out of mem"
  | Some hint =>
      d ← get;
      let p := place (client_heap d) hint in
      let client := TcpClient (d_client_id d) sock (sockaddr_storage addr) (zlen addr)
                      None 0 0 true true (clients d) in
      put (with_clients (Some p) (<[p := client]> (client_heap d)) d) ;;
      emit (IdleTimerAgain (client_id client)) ;;
      DLOG "C-%u: Accepted client %u of %u, socket %d"
  end.

Definition accept_cb : M W unit :=
  d ← get;
  r ← perform (Accept (d_sock d));
  match r with
  | Accept_ok sock addr =>
      flags ← perform (Fcntl_getfl sock);
      (if flags =? -1 then mret 0 else perform (Fcntl_setfl sock (Z.lor flags O_NONBLOCK))) ;;
      add_client sock addr
  | Accept_error EAGAIN stack | Accept_error EWOULDBLOCK stack => add_client (-1) stack
  | Accept_error _ _ => ELOG "Failed to accept TCP client: %s"
  end.

Definition get_tcp_listen_sock (a : addrinfo) : M W Z :=
  sock ← perform (Socket (ai_family a) true);
  if sock <? 0 then FLOG "Error creating TCP socket: %s (%d)"
  else
    r ← perform (Setsockopt sock);
    (if r =? -1 then ELOG "Reuse address failed: %s (%d)" else mret tt) ;;
    match ai_family a with
    | AF_other _ => FLOG "Unknown address family: %d"
    | _ =>
        res ← perform (Bind sock (ai_addr a));
        if res <? 0 then FLOG "Error binding on %s:%d TCP: %s (%d)"
        else
          l ← perform (Listen sock LISTEN_BACKLOG);
          if l =? -1 then FLOG "Error listening on %s:%d TCP: %s (%d)"
          else
            flags ← perform (Fcntl_getfl sock);
            if flags =? -1 then FLOG "Error getting TCP socket flags on %s:%d: %s (%d)"
            else
              f ← perform (Fcntl_setfl sock (Z.lor flags O_NONBLOCK));
              if f =? -1 then FLOG "Error setting TCP socket to non-blocking on %s:%d: %s (%d)"
              else ILOG "Listening on %s:%d TCP" ;; mret sock
    end.

Definition dns_server_tcp_create (a : addrinfo) (tcp_client_limit : Z) : M W unit :=
  block ← perform (Malloc 128);
  if negb block then FLOG "Out of mem"
  else
    sock ← get_tcp_listen_sock a;
    put (TcpServer sock (ai_addrlen a) true 0 0 (u16 tcp_client_limit) NULL ∅).

(** The [for] loop that sends the response: [None] when the client was removed,
    otherwise the number of bytes sent when the loop ended. *)
Fixpoint send_loop (attempts_left : nat) (p : loc) (sock : Z) (resp : list byte) (sent : Z) : M W (option Z) :=
  match attempts_left with
  | O => mret (Some sent)
  | S attempts_left =>
      r ← perform (Send sock (zdrop sent resp));
      match r with
      | Send_error EAGAIN | Send_error EWOULDBLOCK => send_loop attempts_left p sock resp sent
      | Send_error _ => WLOG "C-%u: Send error: %s" ;; remove_client p ;; mret None
      | Send_ok len =>
          emit (Sent sock (ztake len (zdrop sent resp))) ;;
          let sent := sent + len in
          if sent =? zlen resp then mret (Some sent)
          else
            perform (Usleep RESEND_DELAY_US) ;;
            emit (Slept RESEND_DELAY_US) ;;
            send_loop attempts_left p sock resp sent
      end
  end.

(** [memcmp(raddr, &(cur->raddr), cur->addr_len) == 0] *)
Definition same_addr (addr : sockaddr) (cur : tcp_client_s) : bool :=
  bool_decide (ztake (addr_len cur) addr = ztake (addr_len cur) (raddr cur)).

Definition dns_server_tcp_respond (addr : sockaddr) (resp : list byte) : M W unit :=
  if (zlen resp <? DNS_HEADER_LENGTH) || (TCP_DNS_MAX_PAYLOAD <? zlen resp) then
    WLOG "Malformed response received, invalid length: %u"
  else
    d ← get;
    match find_node (S (size (client_heap d))) (client_heap d) NULL (clients d) (same_addr addr) with
    | inl r => halt r
    | inr None => WLOG "Could not find client, can not send DNS response: %04hX"
    | inr (Some (_, p)) =>
        client ← load p;
        DLOG "C-%u: Sending %u bytes" ;;
        let header := htons (u16 (zlen resp)) in
        r ← perform (Send (client_sock client) header);
        (match r with
         | Send_ok len => emit (Sent (client_sock client) (ztake len header))
         | Send_error _ => mret tt
         end) ;;
        if bool_decide (r = Send_ok 2) then
          sent ← send_loop 50 p (client_sock client) resp 0;
          match sent with
          | None => mret tt
          | Some sent =>
              if sent =? zlen resp then idle_timer_again p
              else
                WLOG "C-%u: Send timeout after %d attempts, sent %zd/%zu bytes" ;;
                remove_client p
          end
        else
          WLOG "C-%u: Send error: %s, len: %d" ;;
          remove_client p
    end.

(** The [while (d->clients)] loop of [dns_server_tcp_stop]. *)
Fixpoint remove_all_clients (fuel : nat) : M W unit :=
  match fuel with
  | O => halt OutOfFuel
  | S fuel =>
      d ← get;
      match clients d with
      | None => mret tt
      | Some p => remove_client p ;; remove_all_clients fuel
      end
  end.

Definition dns_server_tcp_stop : M W unit :=
  d ← get;
  remove_all_clients (S (size (client_heap d))) ;;
  modify (with_accept false).

Definition dns_server_tcp_cleanup : M W unit :=
  d ← get;
  perform (Close (d_sock d)) ;;
  emit (Closed (d_sock d)).

End Operations.

(** ** Every operation stays in the server *)

Section Stays.
Context `{Env} {W : Type} `{!Lens W dns_server_tcp_s}.
Abbreviation stays m := (stays (W:=W) dns_server_tcp_s m).

Lemma load_stays p : stays (load p).
Proof. unfold load. stay dns_server_tcp_s. Qed.
Lemma store_stays p c : stays (store p c).
Proof. unfold store. stay dns_server_tcp_s. Qed.
Lemma unlink_client_stays p nx : stays (unlink_client p nx).
Proof. unfold unlink_client. stay dns_server_tcp_s. Qed.
Lemma remove_client_stays p : stays (remove_client p).
Proof. unfold remove_client. stay dns_server_tcp_s; auto using load_stays, store_stays, unlink_client_stays. Qed.
Lemma get_dns_request_stays p : stays (get_dns_request p).
Proof. unfold get_dns_request. stay dns_server_tcp_s; auto using load_stays, store_stays. Qed.
Lemma grow_stays fuel : forall size needed, stays (grow fuel size needed).
Proof. induction fuel; intros size needed; cbn [grow]; stay dns_server_tcp_s; auto. Qed.
Lemma append_input_stays p ch : stays (append_input p ch).
Proof. unfold append_input. stay dns_server_tcp_s; auto using load_stays, store_stays, grow_stays. Qed.
Lemma idle_timer_again_stays p : stays (idle_timer_again p).
Proof. unfold idle_timer_again. stay dns_server_tcp_s; auto using load_stays, store_stays. Qed.
Lemma add_client_stays sock addr : stays (add_client sock addr).
Proof. unfold add_client. stay dns_server_tcp_s. Qed.
Lemma accept_cb_stays : stays accept_cb.
Proof. unfold accept_cb. stay dns_server_tcp_s; auto using add_client_stays. Qed.
Lemma timer_cb_stays p : stays (timer_cb p).
Proof. unfold timer_cb. stay dns_server_tcp_s; auto using remove_client_stays. Qed.
Lemma send_loop_stays p sock resp n : forall sent, stays (send_loop n p sock resp sent).
Proof. induction n; intros sent; cbn [send_loop]; stay dns_server_tcp_s; auto using remove_client_stays. Qed.
Lemma respond_stays addr resp : stays (dns_server_tcp_respond addr resp).
Proof.
  unfold dns_server_tcp_respond. stay dns_server_tcp_s;
    auto using load_stays, send_loop_stays, idle_timer_again_stays, remove_client_stays.
Qed.
Lemma create_stays a limit : stays (dns_server_tcp_create a limit).
Proof. unfold dns_server_tcp_create, get_tcp_listen_sock. stay dns_server_tcp_s. Qed.
Lemma remove_all_stays fuel : stays (remove_all_clients fuel).
Proof. induction fuel; cbn [remove_all_clients]; stay dns_server_tcp_s; auto using remove_client_stays. Qed.
Lemma stop_stays : stays dns_server_tcp_stop.
Proof. unfold dns_server_tcp_stop. stay dns_server_tcp_s; auto using remove_all_stays. Qed.

End Stays.

(** ** Steps on client objects *)

Section Clients.
Context `{Env} {W : Type} `{!Lens W dns_server_tcp_s}.
Implicit Types (s : sys W) (d : dns_server_tcp_s) (c : tcp_client_s).

(** The state with another server. *)
Definition with_server d s : sys W := Sys (set_view d (world s)) (environment s) (trace s).

Lemma part_with_server d s : part dns_server_tcp_s (with_server d s) = d.
Proof. unfold part, with_server. cbn. apply view_set. Qed.

Lemma part_sys w e tr : part dns_server_tcp_s (@Sys _ W w e tr) = view w.
Proof. done. Qed.

Definition set_client (p : loc) c d : dns_server_tcp_s :=
  with_clients (clients d) (<[p := c]> (client_heap d)) d.

Lemma wp_load p c s Φ Ψ :
  client_heap (part _ s) !! p = Some c -> Φ s c -> wp (load p) s Φ Ψ.
Proof. intros Hc HΦ. unfold load. apply wp_bind, wp_get. rewrite Hc. by apply wp_ret. Qed.

Lemma wp_store p c c' s Φ Ψ :
  client_heap (part _ s) !! p = Some c ->
  Φ (with_server (set_client p c' (part _ s)) s) tt -> wp (store p c') s Φ Ψ.
Proof.
  intros Hc HΦ. unfold store. apply wp_bind, wp_get. rewrite Hc. by apply wp_put.
Qed.

Lemma set_client_heap p c d : client_heap (set_client p c d) !! p = Some c.
Proof. apply lookup_insert_eq. Qed.

Lemma set_client_twice p c c' d : set_client p c (set_client p c' d) = set_client p c d.
Proof. unfold set_client, with_clients. cbn. by rewrite insert_insert_eq. Qed.

Lemma set_client_same p c d : client_heap d !! p = Some c -> set_client p c d = d.
Proof. intros. unfold set_client, with_clients. destruct d; cbn in *. by rewrite insert_id. Qed.

End Clients.

#[export] Hint Rewrite @part_with_server : proxy.

(** ** Frames: what a client sends *)

(** A request on the wire. *)
Definition frame (r : list byte) : list byte := htons (zlen r) ++ r.
Definition stream (rs : list (list byte)) : list byte := concat (frame <$> rs).

(** The largest request that is accepted however the stream is cut: the bytes
    of an incomplete frame and one more read never exceed the buffer limit. *)
Definition MAX_SAFE_REQUEST : Z := TCP_DNS_MAX_PAYLOAD - DNS_REQUEST_BUFFER_SIZE - 1.

Definition admissible (r : list byte) : Prop := DNS_HEADER_LENGTH <= zlen r <= MAX_SAFE_REQUEST.

#[export] Instance admissible_dec r : Decision (admissible r).
Proof. unfold admissible. apply _. Defined.

(** The bytes of a frame that has not arrived completely. *)
Definition incomplete (tail : list byte) : Prop :=
  tail = [] \/ exists r suffix, admissible r /\ frame r = tail ++ suffix /\ suffix <> [].

Lemma zlen_htons n : zlen (htons n) = 2.
Proof. done. Qed.

Lemma zlen_frame r : zlen (frame r) = 2 + zlen r.
Proof. unfold frame. by rewrite zlen_app, zlen_htons. Qed.

Lemma stream_cons r rs : stream (r :: rs) = frame r ++ stream rs.
Proof. done. Qed.

Lemma stream_app rs rs' : stream (rs ++ rs') = stream rs ++ stream rs'.
Proof. unfold stream. by rewrite fmap_app, concat_app. Qed.

Lemma admissible_bounds r : admissible r -> 12 <= zlen r <= 61436.
Proof. done. Qed.

Lemma frame_first r : admissible r -> byte_val (byte_of (zlen r / 256)) < 255.
Proof.
  intros Hr%admissible_bounds. rewrite byte_val_of.
  rewrite Z.mod_small; [apply Z.div_lt_upper_bound; lia|].
  split; [apply Z.div_pos; lia|apply Z.div_lt_upper_bound; lia].
Qed.

Lemma incomplete_length tail : incomplete tail -> zlen tail <= MAX_SAFE_REQUEST + 1.
Proof.
  intros [->|(r & suffix & Hr & Heq & Hne)]; [done|].
  pose proof (zlen_frame r) as Hz. rewrite Heq in Hz.
  destruct suffix; [done|]. destruct Hr. zlen_lia.
Qed.

(** Cutting a stream at any place leaves complete frames and an incomplete one. *)
Lemma cut_stream todo : forall front future,
  Forall admissible todo -> front ++ future = stream todo ->
  exists rs rest tail, todo = rs ++ rest /\ front = stream rs ++ tail /\
    tail ++ future = stream rest /\ incomplete tail /\ (rest = [] -> tail = []).
Proof.
  induction todo as [|r todo IH]; intros front future Hall Heq.
  - apply app_eq_nil in Heq as [-> ->]. exists [], [], []. repeat split; try done. by left.
  - apply Forall_cons in Hall as [Hr Hall]. rewrite stream_cons in Heq.
    destruct (decide (zlen (frame r) <= zlen front)) as [Hle|Hgt].
    + assert (front = frame r ++ zdrop (zlen (frame r)) front) as Hf.
      { rewrite <-(ztake_zdrop (zlen (frame r)) front) at 1. f_equal.
        apply (f_equal (ztake (zlen (frame r)))) in Heq.
        rewrite ztake_app_le in Heq by done. by rewrite ztake_app_exact in Heq. }
      rewrite Hf, <-app_assoc in Heq. apply app_inv_head in Heq.
      destruct (IH _ _ Hall Heq) as (rs & rest & tail & -> & Hd & Ht & Hi & Hn).
      exists (r :: rs), rest, tail. repeat split; try done.
      rewrite Hf, Hd, stream_cons, app_assoc. done.
    + exists [], (r :: todo), front. repeat split; try done.
      right. exists r, (zdrop (zlen front) (frame r)). split; [done|].
      assert (ztake (zlen front) (frame r) = front) as Htk.
      { apply (f_equal (ztake (zlen front))) in Heq.
        rewrite ztake_app_exact in Heq by done. rewrite ztake_app_le in Heq by lia. done. }
      split.
      * rewrite <-Htk at 1. by rewrite ztake_zdrop.
      * intros Hz. apply (f_equal zlen) in Hz. rewrite zlen_zdrop in Hz by apply zlen_nonneg.
        unfold zlen at 3 in Hz. cbn [length] in Hz. lia.
Qed.

(** ** The input buffer *)

Definition first_ok (v : list byte) : Prop :=
  match v with [] => True | b :: _ => byte_val b < 255 end.

(** The client's input buffer holds the bytes [v]; what lies behind them is
    unspecified. *)
Definition holds_bytes (c : tcp_client_s) (v : list byte) : Prop :=
  input_buffer_used c = zlen v /\
  ((input_buffer c = None /\ input_buffer_size c = 0 /\ v = []) \/
   exists z, input_buffer c = Some (v ++ z) /\ zlen (v ++ z) = input_buffer_size c /\
     64 <= input_buffer_size c <= 65536).

(** As long as no length prefix of 65280 or more arrives, the byte at the front
    of the buffer, even a stale one, is not 255. *)
Definition holds (c : tcp_client_s) (v : list byte) : Prop :=
  holds_bytes c v /\ first_ok (default [] (input_buffer c)).

Lemma frame_cons r : frame r = byte_of (zlen r / 256) :: byte_of (zlen r) :: r.
Proof. done. Qed.

Lemma first_ok_incomplete tail : incomplete tail -> first_ok tail.
Proof.
  intros [->|(r & suffix & Hr & Heq & _)]; [done|].
  destruct tail as [|b tail]; [done|]. rewrite frame_cons in Heq.
  injection Heq as <- _. by apply frame_first.
Qed.

Lemma first_ok_stream rs tail : Forall admissible rs -> incomplete tail -> first_ok (stream rs ++ tail).
Proof.
  intros Hall Hi. destruct rs as [|r rs]; [by apply first_ok_incomplete|].
  apply Forall_cons in Hall as [Hr _]. by apply frame_first.
Qed.

Section Requests.
Context `{MemoryAvailable} {W : Type} `{!Lens W dns_server_tcp_s}.
(** What is still to be received; only [recv] changes it. *)
Context (incoming : env_state -> list (list byte)).
Context (incoming_malloc : forall n e, incoming (snd (answer (Malloc n) e)) = incoming e).
Implicit Types (s : sys W) (d : dns_server_tcp_s) (c : tcp_client_s).

(** A complete frame at the front is taken off the buffer. *)
Lemma get_dns_request_complete p c r v s :
  client_heap (part _ s) !! p = Some c -> admissible r -> holds c (frame r ++ v) -> first_ok v ->
  wp (get_dns_request p) s
    (fun s' res => res = Some (r, zlen r) /\ trace s' = trace s /\
       incoming (environment s') = incoming (environment s) /\
       exists buf, part dns_server_tcp_s s' =
           set_client p (with_input (Some buf) (input_buffer_size c) (zlen v) c) (part _ s) /\
         holds (with_input (Some buf) (input_buffer_size c) (zlen v) c) v)
    (fun _ _ => False).
Proof.
  intros Hc Hr [[Hused Hbuf] Hf] Hfv.
  destruct Hbuf as [(_ & _ & Hnil)|(z & Hb & Hlen & Hsz)].
  { by rewrite frame_cons in Hnil. }
  rewrite Hb in Hf. cbn [default] in Hf.
  pose proof (admissible_bounds _ Hr) as Hrb.
  unfold get_dns_request. apply wp_bind. eapply wp_load; [done|]. rewrite Hb.
  set (hi := byte_of (zlen r / 256)). set (lo := byte_of (zlen r)).
  assert (((frame r ++ v) ++ z) = hi :: lo :: r ++ v ++ z) as Heq.
  { rewrite frame_cons. cbn. by rewrite <-app_assoc. }
  rewrite Heq in Hlen |- *.
  change (znth (hi :: lo :: r ++ v ++ z) 0) with (Some hi).
  change (znth (hi :: lo :: r ++ v ++ z) 1) with (Some lo). cbn iota.
  assert (ntohs hi lo = zlen r) as -> by (apply ntohs_htons; unfold UINT16_MAX; lia).
  rewrite (wrap_small 16) by lia.
  rewrite zlen_app, zlen_frame in Hused.
  pose proof (zlen_nonneg v). pose proof (zlen_nonneg z).
  replace (input_buffer_used c <? 2 + zlen r) with false by lia.
  destruct (malloc_answer (zlen r) (environment s)) as [e Ha].
  apply wp_bind, wp_perform. intros b e' Ha'. rewrite Ha in Ha'. injection Ha' as <- <-.
  pose proof (incoming_malloc (zlen r) (environment s)) as Hin. rewrite Ha in Hin. cbn in Hin.
  cbn [negb]. cbn iota.
  assert (zlen (hi :: lo :: r ++ v ++ z) = 2 + (zlen r + (zlen v + zlen z))) as Hz by zlen_lia.
  rewrite Hz in *.
  replace (2 + (zlen r + (zlen v + zlen z)) <? 2 + zlen r) with false by lia.
  replace (input_buffer_used c - (2 + zlen r)) with (zlen v) by lia.
  rewrite (wrap_small 32) by lia.
  replace (2 + (zlen r + (zlen v + zlen z)) <? 2 + zlen r + zlen v) with false by lia.
  assert (zdrop (2 + zlen r) (hi :: lo :: r ++ v ++ z) = v ++ z) as ->.
  { change (hi :: lo :: r ++ v ++ z) with ([hi; lo] ++ r ++ v ++ z).
    rewrite app_assoc. apply zdrop_app_exact. zlen_lia. }
  rewrite (ztake_app_exact (zlen v) v z) by done.
  apply wp_bind. eapply wp_store; [done|]. apply wp_ret.
  split; [|split; [done|split; [done|]]].
  { do 2 f_equal. change (zdrop 2 (hi :: lo :: r ++ v ++ z)) with (r ++ v ++ z).
    by apply ztake_app_exact. }
  set (old := hi :: lo :: r ++ v ++ z) in *.
  exists (v ++ zdrop (zlen v) old). split; [by rewrite part_with_server|].
  split.
  - split; [done|]. right. exists (zdrop (zlen v) old). cbn [input_buffer input_buffer_size with_input].
    split; [done|]. split; [|lia].
    rewrite zlen_app, zlen_zdrop by lia. rewrite Hz. lia.
  - cbn. destruct v as [|b v]; [|done]. exact Hf.
Qed.

Lemma front_header hi lo v z :
  first_ok ((v : list byte) ++ z) -> v ++ z = hi :: lo :: zdrop 2 (v ++ z) -> incomplete v ->
  zlen v < u16 (2 + ntohs hi lo).
Proof.
  intros Hf Heq Hi. assert (byte_val hi < 255) as Hhi by (rewrite Heq in Hf; exact Hf).
  pose proof (byte_val_range lo). pose proof (byte_val_range hi).
  rewrite wrap_small by (unfold ntohs; lia).
  destruct v as [|b v]; [unfold ntohs; zlen_lia|].
  destruct v as [|b' v]; [unfold ntohs; zlen_lia|].
  injection Heq as -> ->.
  destruct Hi as [?|(r & suffix & Hr & Hfr & Hne)]; [done|].
  pose proof (admissible_bounds _ Hr). pose proof (zlen_frame r) as Hz.
  rewrite Hfr in Hz. destruct suffix; [done|].
  rewrite frame_cons in Hfr. injection Hfr as <- <- _.
  rewrite ntohs_htons by (unfold UINT16_MAX; lia). zlen_lia.
Qed.

(** An incomplete frame stays in the buffer. *)
Lemma get_dns_request_incomplete p c v s :
  client_heap (part _ s) !! p = Some c -> holds c v -> input_buffer c <> None -> incomplete v ->
  wp (get_dns_request p) s (fun s' res => res = None /\ s' = s) (fun _ _ => False).
Proof.
  intros Hc [[Hused Hbuf] Hf] Hnn Hi.
  destruct Hbuf as [(Hn & _)|(z & Hb & Hlen & Hsz)]; [done|].
  rewrite Hb in Hf. cbn [default] in Hf.
  unfold get_dns_request. apply wp_bind. eapply wp_load; [done|]. rewrite Hb.
  destruct (v ++ z) as [|hi [|lo rest]] eqn:E; [zlen_lia|zlen_lia|].
  change (znth (hi :: lo :: rest) 0) with (Some hi).
  change (znth (hi :: lo :: rest) 1) with (Some lo). cbn iota.
  pose proof (front_header hi lo v z) as Hh. rewrite E in Hh.
  specialize (Hh Hf eq_refl Hi).
  replace (input_buffer_used c <? u16 (2 + ntohs hi lo)) with true by lia.
  by apply wp_ret.
Qed.

End Requests.

(** ** The callback's promise to the server *)

(** The TCP requests handed to the callback. *)
Definition received (tr : list event) : list (sockaddr * list byte) :=
  omap (fun ev => match ev with Received true a r => Some (a, r) | _ => None end) tr.

Lemma received_app tr tr' : received (tr ++ tr') = received tr ++ received tr'.
Proof. apply omap_app. Qed.

(** A callback that returns, or stops the process in one of the ways [stops],
    leaves the server that called it as it was: a client is never removed while
    its requests are being split.  [J] is what the callback needs of the rest of
    the program and establishes again; it gets requests with a whole header. *)
Class ReqCallback `{Env} {W} `{!Lens W dns_server_tcp_s} (stops : stop -> Prop) (J : sys W -> Prop)
    (cb : bool -> sockaddr -> list byte -> M W unit) : Prop :=
  cb_keeps_server : forall is_tcp addr req (s : sys W), J s -> DNS_HEADER_LENGTH <= zlen req ->
    wp (cb is_tcp addr req) s
      (fun s' _ => part dns_server_tcp_s s' = part dns_server_tcp_s s /\ J s')
      (fun _ r => stops r).

(** The callback does not read the server's sockets. *)
Class Aloof `{Env} {W} (incoming : env_state -> list (list byte))
    (cb : bool -> sockaddr -> list byte -> M W unit) : Prop :=
  cb_aloof : forall is_tcp addr req (s : sys W),
    wp (cb is_tcp addr req) s
      (fun s' _ => received (trace s') = received (trace s) /\
                   incoming (environment s') = incoming (environment s))
      (fun _ _ => True).

(** The environment as seen by one client: [recv] delivers the next chunk of
    [incoming], no other call touches it. *)
Class Incoming `{Env} (incoming : env_state -> list (list byte)) : Prop := {
  recv_next : forall fd n e ch rest, incoming e = ch :: rest ->
    fst (answer (Recv fd n) e) = Recv_data ch /\ incoming (snd (answer (Recv fd n) e)) = rest;
  malloc_keeps : forall n e, incoming (snd (answer (Malloc n) e)) = incoming e;
  realloc_keeps : forall n e, incoming (snd (answer (Realloc n) e)) = incoming e
}.

(** [c'] is [c] with another input buffer. *)
Definition same_client (c c' : tcp_client_s) : Prop :=
  c' = with_input (input_buffer c') (input_buffer_size c') (input_buffer_used c') c.

Lemma same_client_refl c : same_client c c.
Proof. by destruct c. Qed.

Lemma same_client_trans c1 c2 c3 : same_client c1 c2 -> same_client c2 c3 -> same_client c1 c3.
Proof. unfold same_client, with_input. intros -> ->. done. Qed.

Lemma same_client_input b n u c : same_client c (with_input b n u c).
Proof. done. Qed.

#[export] Hint Resolve same_client_refl same_client_input : proxy.

Lemma incomplete_stream todo : Forall admissible todo -> incomplete (stream todo) -> todo = [].
Proof.
  intros Hall Hi. destruct todo as [|r todo]; [done|]. exfalso.
  apply Forall_cons in Hall as [Hr%admissible_bounds _].
  destruct Hi as [?|(r' & suffix & Hr'%admissible_bounds & Hfr & Hne)]; [done|].
  rewrite stream_cons in Hfr. pose proof (f_equal zlen Hfr) as Hz.
  rewrite !frame_cons in Hfr. injection Hfr as Hhi Hlo _.
  assert (zlen r' = zlen r) as Hl.
  { rewrite <-(ntohs_htons (zlen r')), <-(ntohs_htons (zlen r)), Hhi, Hlo by (unfold UINT16_MAX; lia). done. }
  rewrite !zlen_app, !zlen_frame in Hz. destruct suffix; [done|]. zlen_lia.
Qed.

Section Reading.
Context `{MemoryAvailable} {W : Type} `{!Lens W dns_server_tcp_s}.
Context incoming `{!Incoming incoming}.
Context (stops : stop -> Prop) (J : sys W -> Prop) `{!Framed dns_server_tcp_s J}.
Context cb `{!ReqCallback (W:=W) stops J cb} `{!Aloof incoming cb}.
Implicit Types (s : sys W) (c : tcp_client_s).

(** The complete requests of the buffer are handed over in order; the rest of
    the bytes stays. *)
Lemma split_requests_run tail rs : forall p c fuel flag s,
  J s -> Forall admissible rs -> incomplete tail -> (length rs < fuel)%nat ->
  client_heap (part _ s) !! p = Some c -> holds c (stream rs ++ tail) -> input_buffer c <> None ->
  wp (split_requests cb fuel p flag) s
    (fun s' res =>
       res = Some (flag || bool_decide (rs <> [])) /\
       received (trace s') = received (trace s) ++ (pair (raddr c) <$> rs) /\
       incoming (environment s') = incoming (environment s) /\
       (exists c', part dns_server_tcp_s s' = set_client p c' (part _ s) /\
         holds c' tail /\ same_client c c' /\ input_buffer c' <> None) /\ J s')
    (fun _ r => stops r).
Proof.
  induction rs as [|r rs IH]; intros p c fuel flag s HJ Hall Hi Hf Hc Hh Hn;
    (destruct fuel as [|fuel]; [cbn in Hf; lia|]); cbn [split_requests]; apply wp_bind.
  - eapply wp_mono; [by eapply get_dns_request_incomplete| |done].
    intros s' res [-> ->]. apply wp_ret. rewrite orb_false_r, app_nil_r.
    split; [done|]. split; [done|]. split; [done|]. split; [|done]. exists c. rewrite set_client_same by done.
    split; [done|]. split; [exact Hh|]. by split; [apply same_client_refl|].
  - apply Forall_cons in Hall as [Hr Hall]. rewrite stream_cons, <-app_assoc in Hh.
    eapply (wp_framed dns_server_tcp_s J); [apply get_dns_request_stays|exact HJ
      |eapply (get_dns_request_complete incoming); eauto using malloc_keeps, first_ok_stream| |done].
    intros s1 res HJ1 (-> & Ht1 & Hin1 & buf & Hp1 & Hh1). cbn iota.
    pose proof (admissible_bounds _ Hr).
    replace (zlen r <? DNS_HEADER_LENGTH) with false by (unfold DNS_HEADER_LENGTH; lia).
    set (c1 := with_input _ _ _ _) in *.
    apply wp_bind. eapply wp_load; [by rewrite Hp1, set_client_heap|].
    wp_steps. set (s1' := Sys _ _ _).
    assert (J s1') as HJ1' by (eapply (framed dns_server_tcp_s s1); [by apply own_emit|done]).
    eapply wp_mono; [apply wp_and; [apply (cb_keeps_server true (raddr c1) r s1' HJ1'); unfold DNS_HEADER_LENGTH; lia|apply cb_aloof]
      | |intros ?? [? _]; done].
    intros s2 [] [[Hp2 HJ2] [Hr2 Hin2]]. subst s1'.
    eapply wp_mono; [apply (IH p c1)| |done]; try done.
    + cbn in Hf. lia.
    + rewrite Hp2. unfold part in *. cbn [world]. by rewrite Hp1, set_client_heap.
    + intros s3 res (-> & Hr3 & Hin3 & (c3 & Hp3 & Hh3 & Hs3 & Hn3) & HJ3).
      split; [|split; [|split; [|split; [|done]]]].
      * by rewrite orb_true_r.
      * rewrite Hr3, Hr2. cbn [trace]. rewrite received_app, Ht1, <-app_assoc. done.
      * rewrite Hin3, Hin2. exact Hin1.
      * exists c3. split; [|by split; [|split]].
        rewrite Hp3, Hp2. unfold part in *. cbn [world]. by rewrite Hp1, set_client_twice.
Qed.

(** The size found is a power of two times 64 that is large enough; the loop
    ends before the size leaves 32 bits and never reports an error. *)
Lemma grow_run (k : nat) : forall fuel needed s,
  (k <= 10)%nat -> (k < fuel)%nat -> needed <= TCP_DNS_MAX_PAYLOAD ->
  wp (grow fuel (2 ^ (16 - Z.of_nat k)) needed) s
    (fun s' n => s' = s /\ needed <= n /\ 64 <= n <= 65536 /\
       (n = 2 ^ (16 - Z.of_nat k) \/ n < 2 * needed)) (fun _ _ => False).
Proof.
  induction k as [|k IH]; intros fuel needed s Hk Hf Hn; unfold TCP_DNS_MAX_PAYLOAD, UINT16_MAX in *;
    (destruct fuel as [|fuel]; [lia|]); cbn [grow].
  - change (2 ^ (16 - Z.of_nat 0)) with 65536. replace (65536 <? needed) with false by lia.
    apply wp_ret. split; [done|lia].
  - assert (2 ^ (16 - Z.of_nat k) = 2 * 2 ^ (16 - Z.of_nat (S k))) as Hpow.
    { rewrite <-Z.pow_succ_r by lia. f_equal. lia. }
    assert (64 <= 2 ^ (16 - Z.of_nat (S k))) as Hlo.
    { change 64 with (2 ^ 6). apply Z.pow_le_mono_r; lia. }
    assert (2 ^ (16 - Z.of_nat (S k)) <= 32768) as Hhi.
    { change 32768 with (2 ^ 15). apply Z.pow_le_mono_r; lia. }
    specialize (IH fuel needed s ltac:(lia) ltac:(lia) Hn). rewrite Hpow in IH. clear Hpow.
    set (n := 2 ^ (16 - Z.of_nat (S k))) in *. clearbody n.
    destruct (n <? needed) eqn:E; bool_facts; [|apply wp_ret; split; [done|lia]].
    unfold TCP_DNS_MAX_PAYLOAD, UINT16_MAX.
    replace (65535 - 2 <? n) with false by lia.
    rewrite wrap_small by lia. rewrite Z.mul_comm.
    eapply wp_mono; [exact IH|intros s' n' (-> & ? & ? & ?); split; [done|lia]|done].
Qed.

(** Writing behind the bytes that are held. *)
Lemma append_write p c v ch z s needed :
  client_heap (part _ s) !! p = Some c -> input_buffer c = Some (v ++ z) ->
  input_buffer_used c = zlen v -> zlen (v ++ z) = input_buffer_size c ->
  64 <= input_buffer_size c <= 65536 -> zlen v + zlen ch <= input_buffer_size c ->
  0 < zlen ch -> needed = zlen v + zlen ch ->
  wp (client ← load p;
      match input_buffer client with
      | None => halt (Fault NullDereference)
      | Some b =>
          let used := input_buffer_used client in
          if zlen b <? used + zlen ch then halt (Fault OutOfBounds)
          else
            store p (with_input (Some (ztake used b ++ ch ++ zdrop (used + zlen ch) b))
                       (input_buffer_size client) needed client)
      end) s
    (fun s' _ => trace s' = trace s /\ environment s' = environment s /\
       exists z' n c', part dns_server_tcp_s s' = set_client p c' (part _ s) /\
         c' = with_input (Some ((v ++ ch) ++ z')) n (zlen (v ++ ch)) c /\
         zlen ((v ++ ch) ++ z') = n /\ n = input_buffer_size c)
    (fun _ _ => False).
Proof.
  intros Hc Hb Hu Hl Hsz Hfit Hch ->. apply wp_bind. eapply wp_load; [done|].
  rewrite Hb, Hu. cbn zeta.
  replace (zlen (v ++ z) <? zlen v + zlen ch) with false by lia.
  eapply wp_store; [done|]. split; [done|]. split; [done|].
  pose proof (zlen_nonneg v).
  exists (zdrop (zlen v + zlen ch) (v ++ z)), (input_buffer_size c).
  eexists. split; [by rewrite part_with_server|].
  rewrite ztake_app_exact by done. rewrite <-app_assoc, (zlen_app v ch).
  split; [done|]. split; [|done].
  rewrite !zlen_app, zlen_zdrop, <-Hl by lia. lia.
Qed.

(** The bytes received are appended, whatever the buffer was; only a failing
    [realloc] prevents it, and ends the process. *)
Lemma append_input_any p c v ch s :
  client_heap (part _ s) !! p = Some c -> holds_bytes c v ->
  0 < zlen ch -> zlen v + zlen ch <= TCP_DNS_MAX_PAYLOAD ->
  wp (append_input p ch) s
    (fun s' _ => received (trace s') = received (trace s) /\
       (environment s' = environment s \/
        exists n, environment s' = snd (answer (Realloc n) (environment s))) /\
       exists z n c', part dns_server_tcp_s s' = set_client p c' (part _ s) /\
         c' = with_input (Some ((v ++ ch) ++ z)) n (zlen (v ++ ch)) c /\
         zlen ((v ++ ch) ++ z) = n /\ 64 <= n <= 65536 /\
         (n = input_buffer_size c \/ n = 64 \/ n < 2 * zlen (v ++ ch)))
    (fun _ r => r = Exited 1 /\ exists n, fst (answer (Realloc n) (environment s)) = None).
Proof.
  intros Hc (Hu & Hb) Hch Hmax. unfold TCP_DNS_MAX_PAYLOAD, UINT16_MAX in *.
  pose proof (zlen_nonneg v) as Hv0. rewrite zlen_app.
  assert (exists old z, default [] (input_buffer c) = old /\ old = v ++ z /\
            zlen old = input_buffer_size c /\ 0 <= input_buffer_size c <= 65536 /\
            (input_buffer c = None -> input_buffer_size c = 0)) as (old & z & Ho & Hoz & Hol & Hsz & Hnone).
  { destruct Hb as [(Hn & Hs & ->)|(z & Hb & Hl & Hs)]; rewrite ?Hn, ?Hb.
    - exists [], []. rewrite Hs. cbn. repeat split; lia.
    - exists (v ++ z), z. cbn. repeat split; try lia; done. }
  assert (zlen old = zlen v + zlen z) as Holz by (by rewrite Hoz, zlen_app).
  pose proof (zlen_nonneg z) as Hz0.
  unfold append_input. apply wp_bind. eapply wp_load; [done|]. cbn zeta.
  rewrite Hu. rewrite !wrap_small by lia. apply wp_bind.
  destruct (input_buffer_size c - zlen v <? zlen ch) eqn:Eg; bool_facts.
  - apply wp_bind. change 64 with (2 ^ (16 - Z.of_nat 10)).
    eapply wp_mono; [apply (grow_run 10); unfold TCP_DNS_MAX_PAYLOAD, UINT16_MAX; lia| |intros ? ? []].
    intros s0 n (-> & Hn & Hn64 & Hn2). wp_steps.
    apply wp_perform. intros [fresh|] e Ha; cbn [environment] in Ha;
      [|wp_steps; split; [done|]; exists n; by rewrite Ha].
    eapply wp_store; [done|]. rewrite Ho.
    destruct (realloc_contents_run old fresh n) as (z2 & Hrc & Hrl); [lia|].
    set (c1 := with_input _ _ _ _).
    eapply wp_mono; [apply (append_write p c1 v ch (z ++ z2))| |intros ? ? []]; try done; try lia.
    + rewrite part_with_server. apply set_client_heap.
    + cbn. by rewrite Hrc, Hoz, <-app_assoc.
    + cbn. by rewrite app_assoc, <-Hoz.
    + intros s' [] (Ht & He & z' & n' & c' & Hp & -> & Hl' & ->).
      rewrite Ht, He. cbn [trace environment with_server]. rewrite received_app. cbn [received omap].
      rewrite app_nil_r. split; [done|]. split; [right; exists n; by rewrite Ha|].
      exists z', n. eexists. rewrite Hp, part_with_server, set_client_twice.
      split; [done|]. split; [by rewrite zlen_app|]. split; [done|]. split; [done|]. right. exact Hn2.
  - apply wp_ret.
    destruct (input_buffer c) as [b|] eqn:Eb; [|specialize (Hnone eq_refl); lia].
    cbn in Ho. subst old.
    destruct Hb as [(? & _)|(z' & Hb' & Hl' & Hs')]; [done|].
    eapply wp_mono; [apply (append_write p c v ch z)| |intros ? ? []]; try done; try lia.
    + rewrite Eb. congruence.
    + congruence.
    + intros s' [] (Ht & He & z2 & n & c' & Hp & -> & Hl2 & ->). rewrite Ht, He.
      split; [done|]. split; [by left|]. exists z2, (input_buffer_size c). eexists.
      split; [exact Hp|]. rewrite zlen_app. auto.
Qed.

Lemma append_input_run p c v ch s :
  client_heap (part _ s) !! p = Some c -> holds_bytes c v ->
  0 < zlen ch -> zlen v + zlen ch <= TCP_DNS_MAX_PAYLOAD ->
  wp (append_input p ch) s
    (fun s' _ => received (trace s') = received (trace s) /\
       incoming (environment s') = incoming (environment s) /\
       exists z n c', part dns_server_tcp_s s' = set_client p c' (part _ s) /\
         c' = with_input (Some ((v ++ ch) ++ z)) n (zlen (v ++ ch)) c /\
         zlen ((v ++ ch) ++ z) = n /\ 64 <= n <= 65536 /\
         (n = input_buffer_size c \/ n = 64 \/ n < 2 * zlen (v ++ ch)))
    (fun _ _ => False).
Proof.
  intros Hc Hb Hch Hmax. eapply wp_mono; [by apply append_input_any| |].
  - intros s' [] (Hr & He & Hx). split; [done|]. split; [|done].
    destruct He as [->|[n ->]]; [done|apply realloc_keeps].
  - intros s' r (_ & n & Hn). destruct (realloc_ok n (environment s)) as [bs Hbs]. congruence.
Qed.

(** [c'] is [c] with another input buffer and its idle timer possibly restarted. *)
Definition same_peer c c' : Prop :=
  client_id c' = client_id c /\ client_sock c' = client_sock c /\ raddr c' = raddr c /\
  addr_len c' = addr_len c /\ client_next c' = client_next c /\
  read_watcher_active c' = read_watcher_active c.

Lemma same_client_peer c c' : same_client c c' -> same_peer c c'.
Proof. intros ->. done. Qed.

Lemma same_peer_trans c1 c2 c3 : same_peer c1 c2 -> same_peer c2 c3 -> same_peer c1 c3.
Proof. unfold same_peer. intuition congruence. Qed.

Lemma idle_timer_again_run p c v s :
  client_heap (part _ s) !! p = Some c -> holds c v ->
  wp (idle_timer_again p) s
    (fun s' _ => received (trace s') = received (trace s) /\ environment s' = environment s /\
       exists c', part dns_server_tcp_s s' = set_client p c' (part _ s) /\
         holds c' v /\ same_peer c c' /\ timer_watcher_active c' = true)
    (fun _ _ => False).
Proof.
  intros Hc Hh. unfold idle_timer_again. apply wp_bind. eapply wp_load; [done|].
  apply wp_bind. eapply wp_store; [done|]. apply wp_emit.
  cbn [trace environment with_server]. rewrite received_app. cbn. rewrite app_nil_r.
  split; [done|]. split; [done|]. eexists. split.
  { unfold part. cbn [world]. by rewrite view_set. }
  by split; [exact Hh|].
Qed.

Lemma stream_length rs : (length rs <= Z.to_nat (zlen (stream rs)))%nat.
Proof.
  induction rs as [|r rs IH]; [done|]. rewrite stream_cons, zlen_app, zlen_frame.
  pose proof (zlen_nonneg r). pose proof (zlen_nonneg (stream rs)). cbn [length]. lia.
Qed.

(** One [read_cb]: the chunk completes the requests [rs] and leaves [tail]. *)
Lemma read_cb_run p c v ch rest rs tail s :
  J s -> incoming (environment s) = ch :: rest -> client_heap (part _ s) !! p = Some c ->
  holds c v -> incomplete v -> 0 < zlen ch <= DNS_REQUEST_BUFFER_SIZE ->
  v ++ ch = stream rs ++ tail -> Forall admissible rs -> incomplete tail ->
  wp (read_cb cb p) s
    (fun s' _ => received (trace s') = received (trace s) ++ (pair (raddr c) <$> rs) /\
       incoming (environment s') = rest /\
       (exists c', part dns_server_tcp_s s' = set_client p c' (part _ s) /\
         holds c' tail /\ same_peer c c') /\ J s')
    (fun _ r => stops r).
Proof.
  intros HJ Hin Hc Hh Hiv Hch Heq Hall Hit. pose proof Hh as [[Hu _] _].
  unfold DNS_REQUEST_BUFFER_SIZE in *.
  pose proof (incomplete_length _ Hiv) as Hlv. change (MAX_SAFE_REQUEST + 1) with 61437 in Hlv.
  pose proof (zlen_nonneg v).
  unfold read_cb. apply wp_bind. eapply wp_load; [done|].
  apply wp_bind, wp_perform. intros a e Ha.
  destruct (recv_next (client_sock c) 4096 (environment s) ch rest Hin) as [Hr1 Hr2].
  change DNS_REQUEST_BUFFER_SIZE with 4096 in Ha. rewrite Ha in Hr1, Hr2. cbn in Hr1, Hr2. subst a.
  destruct ch as [|b ch0]; [zlen_lia|]. cbn iota. set (ch := b :: ch0) in *. clearbody ch.
  unfold UINT16_MAX. rewrite Hu, !wrap_small by lia.
  replace ((65535 <? zlen ch) || (65535 - zlen ch <? zlen v)) with false by lia.
  unfold TCP_DNS_MAX_PAYLOAD, UINT16_MAX. replace (65535 - 2 <? zlen v + zlen ch) with false by lia.
  wp_steps.
  set (s0 := Sys _ _ _).
  assert (part dns_server_tcp_s s0 = part dns_server_tcp_s s) as Hp0 by done.
  assert (J s0) as HJ0 by (eapply (framed dns_server_tcp_s s); [apply (own_world dns_server_tcp_s s); cbn [trace]; rewrite transfer_events_app; apply app_nil_r|done]).
  assert (first_ok (v ++ ch)) as Hfo by (rewrite Heq; by apply first_ok_stream).
  eapply (wp_framed dns_server_tcp_s J); [apply append_input_stays|exact HJ0|apply (append_input_run p c v ch)| |done]; try done.
  { apply Hh. } { lia. } { unfold TCP_DNS_MAX_PAYLOAD, UINT16_MAX. lia. }
  intros s1 [] HJ1 (Hr & Hi1 & z1 & n1 & c1 & Hp1 & Hc1 & Hl1 & Hn1 & _). rewrite Hp0 in Hp1.
  assert (holds c1 (v ++ ch)) as Hh1.
  { subst c1. split; [|cbn; destruct (v ++ ch) eqn:Evc; [|done]].
    - split; [done|]. right. by exists z1.
    - apply app_eq_nil in Evc as [-> ->]. zlen_lia. }
  assert (same_client c c1) as Hs1 by (rewrite Hc1; apply same_client_input).
  assert (input_buffer c1 <> None) as Hnn1 by (by rewrite Hc1).
  apply wp_bind. eapply wp_load; [by rewrite Hp1, set_client_heap|].
  apply wp_bind. rewrite Heq in Hh1.
  eapply wp_mono; [eapply (split_requests_run tail rs p c1)| |done]; try done.
  { destruct Hh1 as [[-> _] _]. rewrite zlen_app.
    pose proof (stream_length rs). pose proof (zlen_nonneg tail). pose proof (zlen_nonneg (stream rs)). lia. }
  { by rewrite Hp1, set_client_heap. }
  intros s2 res (-> & Hr2' & Hi2 & (c2 & Hp2 & Hh2 & Hs2 & Hn2) & HJ2). cbn [orb].
  assert (same_peer c c2) as Hsp.
  { apply same_client_peer. by eapply same_client_trans. }
  assert (raddr c1 = raddr c) as Hra by (by rewrite Hs1).
  rewrite Hp1, set_client_twice in Hp2. rewrite Hra in Hr2'.
  assert (received (trace s0) = received (trace s)) as Ht0.
  { cbn. rewrite received_app. cbn. by rewrite app_nil_r. }
  destruct (bool_decide (rs <> [])).
  - eapply (wp_framed dns_server_tcp_s J); [apply idle_timer_again_stays|exact HJ2|apply (idle_timer_again_run p c2 tail)| |done].
    + by rewrite Hp2, set_client_heap.
    + done.
    + intros s3 [] HJ3 (Hr3 & He3 & c3 & Hp3 & Hh3 & Hs3 & _).
      rewrite Hr3, He3, Hr2', Hr, Ht0, Hi2, Hi1. split; [done|]. split; [exact Hr2|]. split; [|done].
      exists c3. rewrite Hp3, Hp2, set_client_twice. split; [done|]. split; [done|].
      by eapply same_peer_trans.
  - apply wp_ret. rewrite Hr2', Hr, Ht0, Hi2, Hi1. split; [done|]. split; [exact Hr2|]. split; [by exists c2|done].
Qed.

(** Consecutive readiness notifications of one client. *)
Fixpoint read_n (n : nat) (p : loc) : M W unit :=
  match n with
  | O => mret tt
  | S n => read_cb cb p ;; read_n n p
  end.

Lemma read_n_run chunks : forall p c v todo s,
  J s -> incoming (environment s) = chunks -> client_heap (part _ s) !! p = Some c ->
  holds c v -> incomplete v -> Forall (fun ch => 0 < zlen ch <= DNS_REQUEST_BUFFER_SIZE) chunks ->
  v ++ concat chunks = stream todo -> Forall admissible todo ->
  wp (read_n (length chunks) p) s
    (fun s' _ => received (trace s') = received (trace s) ++ (pair (raddr c) <$> todo) /\
       exists c', client_heap (part dns_server_tcp_s s') !! p = Some c' /\ holds c' [] /\ same_peer c c')
    (fun _ r => stops r).
Proof.
  induction chunks as [|ch chunks IH]; intros p c v todo s HJ Hin Hc Hh Hiv Hch Heq Hall; cbn [length read_n].
  - apply wp_ret. cbn in Heq. rewrite app_nil_r in Heq. subst v.
    rewrite (incomplete_stream todo Hall Hiv) in *. rewrite app_nil_r. split; [done|]. by exists c.
  - apply Forall_cons in Hch as [Hch Hchunks]. cbn [concat] in Heq. rewrite app_assoc in Heq.
    destruct (cut_stream todo _ _ Hall Heq) as (rs & rest & tail & -> & Hf & Ht & Hi & _).
    apply Forall_app in Hall as [Hrs Hrest].
    apply wp_bind. eapply wp_mono; [by eapply read_cb_run| |done].
    intros s1 [] (Hr1 & Hin1 & (c1 & Hp1 & Hh1 & Hs1) & HJ1).
    eapply wp_mono; [apply (IH p c1 tail rest)| |done]; try done.
    { by rewrite Hp1, set_client_heap. }
    intros s2 [] (Hr2 & c2 & Hc2 & Hh2 & Hs2). split.
    + destruct Hs1 as (_ & _ & Hra & _). by rewrite Hr2, Hr1, Hra, fmap_app, app_assoc.
    + exists c2. split; [done|]. split; [done|]. by eapply same_peer_trans.
Qed.

End Reading.

(** ** Reassembly *)

(** An environment that delivers a list of chunks to [recv]. *)
Definition streaming : Env :=
  {| env_state := list (list byte);
     answer A c e :=
       match c in call A return A * list (list byte) with
       | Recv fd n => match e with ch :: rest => (Recv_data ch, rest) | [] => (Recv_error EAGAIN, []) end
       | c => (generous_answer c, e)
       end |}.

Lemma streaming_memory : @MemoryAvailable streaming.
Proof. split; intros; cbn; by eauto. Defined.

Lemma streaming_incoming : @Incoming streaming (fun e => e).
Proof. split; [|done|done]. intros fd n e ch rest ->. done. Defined.

(** A callback that drops the request. *)
Definition drop_request `{Env} {W} (_ : bool) (_ _ : list byte) : M W unit := mret tt.

Lemma drop_request_ok `{Env} {W} `{!Lens W dns_server_tcp_s} stops :
  ReqCallback stops (fun _ => True) (@drop_request _ W).
Proof. intros is_tcp addr req s _ _. done. Qed.

Lemma drop_request_aloof `{Env} {W} incoming : Aloof incoming (@drop_request _ W).
Proof. intros is_tcp addr req s. done. Qed.

(** A client as [accept_cb] leaves it. *)
Definition fresh_client (c : tcp_client_s) : Prop :=
  input_buffer c = None /\ input_buffer_size c = 0 /\ input_buffer_used c = 0.

Lemma fresh_holds c : fresh_client c -> holds c [].
Proof. intros (Hb & Hs & Hu). split; [split; [done|by left]|by rewrite Hb]. Qed.

(** C8: TCP reassembly. If a client sends any sequence of requests of 12 to
    61436 bytes, each preceded by its two-byte length, and the stream arrives
    cut into chunks of 1 to 4096 bytes in any way, then the [read_cb] calls hand
    exactly those requests, in order and byte for byte, to the callback, no
    request is lost, merged or duplicated, the client stays connected and its
    buffer is empty again; the process stops only if the callback does
    (allocations succeed: [MemoryAvailable]). *)
Theorem tcp_requests_reassembled `{MemoryAvailable} {W} `{!Lens W dns_server_tcp_s}
    incoming `{!Incoming incoming} stops J `{!Framed dns_server_tcp_s J}
    cb `{!ReqCallback (W:=W) stops J cb} `{!Aloof incoming cb}
    (requests chunks : list (list byte)) p c (s : sys W) :
  J s -> Forall admissible requests ->
  Forall (fun ch => 0 < zlen ch <= DNS_REQUEST_BUFFER_SIZE) chunks ->
  concat chunks = stream requests ->
  incoming (environment s) = chunks ->
  client_heap (part dns_server_tcp_s s) !! p = Some c -> fresh_client c ->
  wp (read_n cb (length chunks) p) s
    (fun s' _ =>
       received (trace s') = received (trace s) ++ (pair (raddr c) <$> requests) /\
       exists c', client_heap (part dns_server_tcp_s s') !! p = Some c' /\
         input_buffer_used c' = 0 /\ same_peer c c')
    (fun _ r => stops r).
Proof.
  intros HJ Hreq Hch Heq Hin Hc Hfresh.
  eapply wp_mono; [eapply (read_n_run incoming stops J cb chunks p c []); eauto|..]; try done.
  - by apply fresh_holds.
  - by left.
  - intros s' [] (Hr & c' & Hc' & [[Hu _] _] & Hs). split; [done|]. by exists c'.
Qed.

(** Two requests of twelve bytes whose stream arrives byte by byte at first. *)
Definition example_client : tcp_client_s :=
  TcpClient 1 7 (sockaddr_storage [x7f; x00; x00; x01]) 4 None 0 0 true true NULL.
Definition example_server : dns_server_tcp_s :=
  TcpServer 3 16 true 1 1 20 (Some 1%positive) {[1%positive := example_client]}.

Lemma tcp_requests_reassembled_witness :
  let r1 := replicate 12 x41 in
  let r2 := replicate 13 x42 in
  let chunks := [[x00]; [x0c; x41]; replicate 11 x41 ++ [x00]; x0d :: r2] in
  let s := @Sys streaming _ example_server chunks [] in
  (Forall admissible [r1; r2] /\ concat chunks = stream [r1; r2]) /\
  @wp streaming _ _ (@read_n streaming dns_server_tcp_s _ drop_request (length chunks) 1%positive) s
    (fun s' _ =>
       received (trace s') = received (trace s) ++ (pair (raddr example_client) <$> [r1; r2]) /\
       exists c', client_heap (part dns_server_tcp_s s') !! 1%positive = Some c' /\
         input_buffer_used c' = 0 /\ same_peer example_client c')
    (fun _ r => False).
Proof.
  intros r1 r2 chunks s.
  assert (Forall admissible [r1; r2]) as Hadm by evaluate.
  assert (Forall (fun ch : list byte => 0 < zlen ch <= DNS_REQUEST_BUFFER_SIZE) chunks) as Hch by evaluate.
  assert (concat chunks = stream [r1; r2]) as Heq by (vm_compute; reflexivity).
  split; [by split|].
  exact (@tcp_requests_reassembled streaming streaming_memory dns_server_tcp_s _ (fun e => e)
           streaming_incoming (fun _ => False) (fun _ => True) (@framed_True streaming _ _ _) drop_request
           (@drop_request_ok streaming _ _ _) (@drop_request_aloof streaming _ _)
           [r1; r2] chunks 1%positive example_client s I
           Hadm Hch Heq eq_refl eq_refl (conj eq_refl (conj eq_refl eq_refl))).
Defined.

(** ** The length prefix near the top of its range *)

Section Oversized.
Context `{MemoryAvailable} {W : Type} `{!Lens W dns_server_tcp_s}.
Implicit Types (s : sys W) (c : tcp_client_s).

Lemma wrapped_size hi lo :
  UINT16_MAX - 1 <= ntohs hi lo -> u16 (2 + ntohs hi lo) = ntohs hi lo - (UINT16_MAX - 1).
Proof.
  intros Hn. pose proof (ntohs_range hi lo) as Hr. unfold UINT16_MAX, wrap in *.
  change (2 ^ 16) with 65536.
  replace (2 + ntohs hi lo) with ((ntohs hi lo - 65534) + 1 * 65536) by lia.
  rewrite Z_mod_plus_full, Z.mod_small by lia. lia.
Qed.

(** The copy runs past a buffer of fewer than 65536 bytes. *)
Lemma get_dns_request_overread p c hi lo rest s :
  client_heap (part _ s) !! p = Some c -> input_buffer c = Some (hi :: lo :: rest) ->
  UINT16_MAX - 1 <= ntohs hi lo -> 1 <= input_buffer_used c ->
  zlen (hi :: lo :: rest) < 65536 ->
  wp (get_dns_request p) s (fun _ _ => False) (fun _ r => r = Fault OutOfBounds).
Proof.
  intros Hc Hb Hn Hu Hl. pose proof (ntohs_range hi lo).
  unfold get_dns_request. apply wp_bind. eapply wp_load; [done|]. rewrite Hb.
  change (znth (hi :: lo :: rest) 0) with (Some hi).
  change (znth (hi :: lo :: rest) 1) with (Some lo). cbn iota.
  rewrite wrapped_size by done. unfold UINT16_MAX in *.
  replace (input_buffer_used c <? ntohs hi lo - (65535 - 1)) with false by lia.
  destruct (malloc_answer (ntohs hi lo) (environment s)) as [e Ha].
  apply wp_bind, wp_perform. intros b e' Ha'. rewrite Ha in Ha'. injection Ha' as <- <-. cbn [negb]. cbn iota.
  by replace (zlen (hi :: lo :: rest) <? 2 + ntohs hi lo) with true by lia.
Qed.

End Oversized.

(** C38: the two-byte length is added to the prefix size in 16 bits, so a length
    of 65534 or 65535 wraps around to a request that looks complete: a newly
    accepted client whose first bytes are such a length makes [read_cb] copy
    more than 65000 bytes past the end of its input buffer (allocations
    succeed: [MemoryAvailable]). *)
Theorem oversized_length_overreads `{MemoryAvailable} {W} `{!Lens W dns_server_tcp_s}
    incoming `{!Incoming incoming} cb p c hi lo more rest (s : sys W) :
  UINT16_MAX - 1 <= ntohs hi lo ->
  zlen (hi :: lo :: more) <= DNS_REQUEST_BUFFER_SIZE ->
  incoming (environment s) = (hi :: lo :: more) :: rest ->
  client_heap (part dns_server_tcp_s s) !! p = Some c -> fresh_client c ->
  wp (read_cb cb p) s (fun _ _ => False) (fun _ r => r = Fault OutOfBounds).
Proof.
  intros Hn Hlen Hin Hc Hfresh. pose proof (fresh_holds _ Hfresh) as [Hh _].
  destruct Hfresh as (_ & Hsz & Hu). unfold DNS_REQUEST_BUFFER_SIZE in *.
  set (ch := hi :: lo :: more) in *.
  assert (0 < zlen ch) as Hpos by (unfold ch; zlen_lia).
  unfold read_cb. apply wp_bind. eapply wp_load; [done|].
  apply wp_bind, wp_perform. intros a e Ha.
  destruct (recv_next (client_sock c) 4096 (environment s) ch rest Hin) as [Hr1 _].
  change DNS_REQUEST_BUFFER_SIZE with 4096 in Ha. rewrite Ha in Hr1. cbn in Hr1. subst a.
  unfold ch at 1. cbn iota. fold ch. rewrite Hu. unfold UINT16_MAX. rewrite !wrap_small by lia.
  replace ((65535 <? zlen ch) || (65535 - zlen ch <? 0)) with false by lia.
  unfold TCP_DNS_MAX_PAYLOAD, UINT16_MAX. replace (65535 - 2 <? 0 + zlen ch) with false by lia.
  wp_steps. eapply wp_mono; [eapply (append_input_run incoming p c [] ch)| |done]; try done.
  { unfold TCP_DNS_MAX_PAYLOAD, UINT16_MAX. zlen_lia. }
  intros s1 [] (_ & _ & z & n & c1 & Hp1 & -> & Hz & Hn1 & Hcap).
  apply wp_bind. eapply wp_load; [by rewrite Hp1, set_client_heap|].
  cbn [input_buffer_used with_input app]. apply wp_bind. cbn [split_requests]. apply wp_bind.
  eapply wp_mono; [eapply (get_dns_request_overread p _ hi lo (more ++ z))|done|done].
  - by rewrite Hp1, set_client_heap.
  - done.
  - done.
  - cbn. lia.
  - change (hi :: lo :: more ++ z) with (ch ++ z). cbn [app] in Hz. rewrite Hz. cbn in Hcap. lia.
Qed.

Lemma oversized_length_overreads_witness :
  let s := @Sys streaming _ example_server [[xff; xff]] [] in
  UINT16_MAX - 1 <= ntohs xff xff /\
  @wp streaming _ _ (@read_cb streaming dns_server_tcp_s _ drop_request 1%positive) s
    (fun _ _ => False) (fun _ r => r = Fault OutOfBounds).
Proof.
  intros s. assert (UINT16_MAX - 1 <= ntohs xff xff) as Hn by (vm_compute; discriminate).
  split; [exact Hn|].
  exact (@oversized_length_overreads streaming streaming_memory dns_server_tcp_s _ (fun e => e)
           streaming_incoming drop_request 1%positive example_client xff xff [] [] s Hn
           ltac:(vm_compute; discriminate) eq_refl eq_refl (conj eq_refl (conj eq_refl eq_refl))).
Defined.

(** C39: in a buffer that has grown to its full 65536 bytes the length 65534 is
    within bounds but counts as zero bytes consumed: the loop of [read_cb] finds
    the same request again without end, whatever the number of iterations
    (allocations succeed: [MemoryAvailable]). *)
Theorem oversized_length_loops `{MemoryAvailable} {W} `{!Lens W dns_server_tcp_s}
    J `{!Framed dns_server_tcp_s J} cb `{!ReqCallback (W:=W) (fun _ => False) J cb} p c rest fuel flag (s : sys W) :
  J s -> client_heap (part dns_server_tcp_s s) !! p = Some c ->
  input_buffer c = Some (xff :: xfe :: rest) -> zlen (xff :: xfe :: rest) = 65536 ->
  2 <= input_buffer_used c <= 65536 ->
  wp (split_requests cb fuel p flag) s (fun _ _ => False) (fun _ r => r = OutOfFuel).
Proof.
  revert c flag s. induction fuel as [|fuel IH]; intros c flag s HJ Hc Hb Hl Hu; [done|].
  cbn [split_requests]. apply wp_bind. unfold get_dns_request.
  apply wp_bind. eapply wp_load; [done|]. rewrite Hb.
  change (znth (xff :: xfe :: rest) 0) with (Some xff).
  change (znth (xff :: xfe :: rest) 1) with (Some xfe). cbn iota.
  change (ntohs xff xfe) with 65534. change (u16 (2 + 65534)) with 0.
  replace (input_buffer_used c <? 0) with false by lia.
  destruct (malloc_answer 65534 (environment s)) as [e Ha].
  apply wp_bind, wp_perform. intros b e' Ha'. rewrite Ha in Ha'. injection Ha' as <- <-. cbn [negb]. cbn iota.
  rewrite Hl. replace (65536 <? 2 + 65534) with false by lia.
  rewrite Z.sub_0_r, wrap_small by lia.
  replace (65536 <? 0 + input_buffer_used c) with false by lia.
  rewrite zdrop_0, ztake_zdrop.
  apply wp_bind. eapply wp_store; [done|]. apply wp_ret. cbn iota.
  replace (65534 <? DNS_HEADER_LENGTH) with false by done.
  apply wp_bind. eapply wp_load; [by rewrite part_with_server, set_client_heap|].
  wp_steps. eapply wp_mono; [apply cb_keeps_server| |done].
  { eapply (framed dns_server_tcp_s s); [|exact HJ]. apply (own_seen dns_server_tcp_s s).
    cbn [trace with_server]. rewrite transfer_events_app. apply app_nil_r. }
  { rewrite zlen_ztake, zlen_zdrop, Hl by lia. unfold DNS_HEADER_LENGTH. lia. }
  intros s2 [] (Hp2 & HJ2).
  apply (IH (with_input (Some (xff :: xfe :: rest)) (input_buffer_size c) (input_buffer_used c) c));
    try done.
  rewrite Hp2. unfold part, with_server. cbn [world]. by rewrite view_set, set_client_heap.
Qed.

Lemma oversized_length_loops_witness :
  let buf := xff :: xfe :: repeat x00 65534 in
  let c := with_input (Some buf) 65536 40000 example_client in
  let d := set_client 1%positive c example_server in
  zlen buf = 65536 /\
  forall fuel, @wp streaming _ _ (@split_requests streaming _ _ drop_request fuel 1%positive false)
    (@Sys streaming _ d [] []) (fun _ _ => False) (fun _ r => r = OutOfFuel).
Proof.
  intros buf c d.
  assert (zlen buf = 65536) as Hl by (vm_compute; reflexivity).
  split; [exact Hl|]. intros fuel.
  exact (@oversized_length_loops streaming streaming_memory dns_server_tcp_s _ (fun _ => True)
           (@framed_True streaming _ _ _) drop_request
           (@drop_request_ok streaming _ _ _) 1%positive c (repeat x00 65534) fuel false
           (@Sys streaming _ d [] []) I eq_refl eq_refl Hl ltac:(cbn; lia)).
Defined.
