(* ===== verification/TcpClients.v ===== *)
(** * The clients of the TCP server (src/dns_server_tcp.c)

    What the server promises whatever its clients send and whatever order the
    event loop runs the handlers in: the client list, the counters and the
    accept watcher stay consistent, no handler touches a client that was
    removed, a response is written completely or its client is removed, and
    stopping the server releases every client. *)

From Stdlib Require Import ZArith Lia String Strings.Byte.
From stdpp Require Import base tactics list option gmap.
From S2P Require Import Prelude Effects HeapList DnsServer DnsServerTcp.

Open Scope Z_scope.

(** ** The invariant *)

(** The bytes in the buffer, whatever they are. *)
Definition client_ok (c : tcp_client_s) : Prop := exists v, holds_bytes c v.

(** [d] serves exactly the clients [ls]. *)
Record serves (d : dns_server_tcp_s) (ls : list loc) : Prop := {
  serves_chain : chain (client_heap d) (clients d) ls;
  serves_dom : dom (client_heap d) = list_to_set ls;
  serves_count : client_count d = Z.of_nat (length ls);
  serves_limit : 0 < client_limit d <= UINT16_MAX;
  serves_within : Z.of_nat (length ls) <= client_limit d;
  serves_accept : accept_watcher_active d = (Z.of_nat (length ls) <? client_limit d);
  serves_buffers : map_Forall (fun _ => client_ok) (client_heap d)
}.

Section Invariant.
Context `{Env} {W : Type} `{!Lens W dns_server_tcp_s}.
Implicit Types (s : sys W) (d : dns_server_tcp_s) (c : tcp_client_s) (ls : list loc).

Lemma serves_NoDup d ls : serves d ls -> NoDup ls.
Proof. intros Hd. eapply chain_NoDup, serves_chain, Hd. Qed.

Lemma serves_size d ls : serves d ls -> size (client_heap d) = length ls.
Proof.
  intros Hd. rewrite <-size_dom, (serves_dom _ _ Hd).
  apply size_list_to_set. by eapply serves_NoDup.
Qed.

Lemma serves_live d ls p : serves d ls -> p ∈ ls <-> is_Some (client_heap d !! p).
Proof. intros Hd. rewrite <-elem_of_dom, (serves_dom _ _ Hd). set_solver. Qed.

Lemma serves_client d ls p : serves d ls -> p ∈ ls -> exists c, client_heap d !! p = Some c /\ client_ok c.
Proof.
  intros Hd Hp. apply (serves_live d ls p Hd) in Hp as [c Hc].
  exists c. split; [done|]. by eapply (serves_buffers _ _ Hd).
Qed.

Lemma serves_pos d ls p c : serves d ls -> client_heap d !! p = Some c -> 0 < Z.of_nat (length ls).
Proof.
  intros Hd Hc. assert (p ∈ ls) as Hp by (apply (serves_live d ls p Hd); by eexists).
  destruct ls; [set_solver|cbn; lia].
Qed.

(** Storing a client with the same [next] and a well-formed buffer. *)
Lemma serves_set d ls p c c' :
  serves d ls -> client_heap d !! p = Some c -> client_next c' = client_next c -> client_ok c' ->
  serves (set_client p c' d) ls.
Proof.
  intros [Hch Hdom Hcnt Hlim Hwi Hacc Hbuf] Hc Hn Hok. split; cbn; try done.
  - by eapply chain_update.
  - rewrite dom_insert_L, Hdom. apply elem_of_dom_2 in Hc. rewrite Hdom in Hc. set_solver.
  - by apply map_Forall_insert_2.
Qed.

Lemma client_ok_next q c : client_ok c -> client_ok (set_next q c).
Proof. intros [v Hv]. by exists v. Qed.

(** The counters after a client has left. *)
Definition released d : dns_server_tcp_s :=
  with_count (d_client_id d) (client_count d - 1)
    (if client_count d =? client_limit d then with_accept true d else d).

Lemma released_heap d : client_heap (released d) = client_heap d.
Proof. unfold released. by destruct (_ =? _). Qed.

Lemma released_clients d : clients (released d) = clients d.
Proof. unfold released. by destruct (_ =? _). Qed.

(** Taking one client off the list, whatever happened to its object before. *)
Lemma serves_without d ls p head h' :
  serves d ls -> p ∈ ls -> chain (delete p h') head (without p ls) ->
  dom h' = dom (client_heap d) -> map_Forall (fun l a => l <> p -> client_ok a) h' ->
  serves (with_clients head (delete p h') (released d)) (without p ls).
Proof.
  intros Hd Hp Hch Hdom Hok. pose proof (serves_NoDup _ _ Hd) as Hnd.
  pose proof (length_without p ls Hnd Hp) as Hlen.
  assert (0 < length ls)%nat as Hpos by (destruct ls; [set_solver|cbn; lia]).
  destruct Hd as [_ Hdm Hcnt Hlim Hwi Hacc _]. unfold released.
  assert (Z.of_nat (length (without p ls)) = Z.of_nat (length ls) - 1) as Hz by lia.
  split.
  - done.
  - cbn. rewrite dom_delete_L, Hdom, Hdm. unfold without. apply set_eq. intros x.
    rewrite elem_of_difference, !elem_of_list_to_set, list_elem_of_filter, elem_of_singleton. tauto.
  - cbn [client_count with_clients with_count released]. lia.
  - by destruct (client_count d =? client_limit d).
  - destruct (client_count d =? client_limit d); cbn [client_limit with_clients with_count with_accept released]; lia.
  - destruct (client_count d =? client_limit d) eqn:E;
      cbn [client_limit accept_watcher_active with_clients with_count with_accept released]; [lia|].
    rewrite Hacc. lia.
  - intros l a Hl. cbn in Hl. apply lookup_delete_Some in Hl as [Hne Hl]. by apply (Hok l a Hl).
Qed.

(** The server after [remove_client]: what changed besides the list. *)
Definition same_listener d d' : Prop :=
  d_sock d' = d_sock d /\ d_addrlen d' = d_addrlen d /\ client_limit d' = client_limit d.

(** Every client but [p] is as it was, up to its place in the list. *)
Definition others_kept p d d' : Prop :=
  forall l c', client_heap d' !! l = Some c' -> l <> p /\
    exists c, client_heap d !! l = Some c /\ (c' = c \/ exists q, c' = set_next q c).

Lemma srv_store p c c' s Φ Ψ :
  client_heap (part _ s) !! p = Some c ->
  (forall s', part _ s' = set_client p c' (part _ s) -> trace s' = trace s -> Φ s' tt) ->
  wp (store p c') s Φ Ψ.
Proof. intros Hc HΦ. eapply wp_store; [done|]. apply HΦ; [apply part_with_server|done]. Qed.

(** The list surgery of [remove_client]: the client is bypassed. *)
Lemma unlink_behind_head h (head : ptr) ls p c :
  chain h head ls -> dom h = list_to_set ls -> h !! p = Some c -> head <> Some p ->
  exists h', unlink_after (S (size h)) h head p (client_next c) = inr h' /\
    chain (delete p h') head (without p ls) /\ dom h' = dom h /\ same_but_next h h'.
Proof.
  intros Hch Hdom Hc Hne.
  assert (p ∈ ls) as Hp by (apply elem_of_dom_2 in Hc; rewrite Hdom in Hc; set_solver).
  assert (size h = length ls) as Hsz.
  { rewrite <-size_dom, Hdom. apply size_list_to_set. by eapply chain_NoDup. }
  rewrite Hsz. inversion Hch as [|l a ls' Hl Hch']; simplify_eq; [set_solver|].
  assert (p ∈ ls') as Hp' by (apply elem_of_cons in Hp as [->|]; [congruence|done]).
  destruct (unlink_after_spec h l ls' p c (S (length (l :: ls'))) Hch Hp' Hc)
    as (h' & Hu & Hch2 & Hd & Hsame & _ & _); [cbn; lia|].
  exists h'. split; [exact Hu|]. split; [|done].
  rewrite without_cons_ne by congruence. exact Hch2.
Qed.

Lemma unlink_head h ls p c :
  chain h (Some p) ls -> h !! p = Some c -> chain (delete p h) (client_next c) (without p ls).
Proof.
  intros Hch Hc. pose proof (chain_NoDup _ _ _ Hch) as Hnd.
  inversion Hch as [|l a ls' Hl Hch']; simplify_eq.
  apply NoDup_cons in Hnd as [Hp _]. rewrite without_cons_eq by done. by apply chain_delete_ne.
Qed.

End Invariant.

(** One step of a handler, seen from the server. *)
Ltac srv_step := see_step dns_server_tcp_s.

Section Removal.
Context `{Env} {W : Type} `{!Lens W dns_server_tcp_s}.
Implicit Types (s : sys W) (d : dns_server_tcp_s) (c : tcp_client_s) (ls : list loc).

Lemma same_but_next_refl (h : gmap loc tcp_client_s) : same_but_next h h.
Proof. intros l a Hl. by exists a; eauto. Qed.

Lemma unlink_run p ls c s :
  chain (client_heap (part _ s)) (clients (part _ s)) ls ->
  dom (client_heap (part _ s)) = list_to_set ls -> client_heap (part _ s) !! p = Some c ->
  wp (if bool_decide (clients (part _ s) = Some p)
      then put (with_clients (client_next c) (client_heap (part _ s)) (part _ s))
      else unlink_client p (client_next c)) s
    (fun s' _ => trace s' = trace s /\
       exists head h', part _ s' = with_clients head h' (part _ s) /\
         chain (delete p h') head (without p ls) /\ dom h' = dom (client_heap (part _ s)) /\
         same_but_next (client_heap (part _ s)) h')
    (fun _ _ => False).
Proof.
  intros Hch Hdom Hc. case_bool_decide as Hhd.
  - srv_step. split; [done|]. eexists _, _. split; [exact Hp|]. rewrite Hhd in Hch.
    split; [by apply unlink_head|]. split; [done|apply same_but_next_refl].
  - unfold unlink_client. srv_step.
    destruct (unlink_behind_head _ _ _ _ _ Hch Hdom Hc Hhd) as (h' & -> & Hch' & Hd' & Hsame).
    srv_step. split; [done|]. by exists (clients (part _ s)), h'.
Qed.

(** [remove_client] on a client of the list never fails: it closes the client's
    socket and takes exactly that client off the list. *)
Lemma remove_client_run p ls c s :
  serves (part _ s) ls -> client_heap (part _ s) !! p = Some c ->
  wp (remove_client p) s
    (fun s' _ => trace s' = trace s ++ [Logged LOG_DEBUG "C-%u: Removing client, socket %d"; Closed (client_sock c)] /\
       serves (part _ s') (without p ls) /\
       same_listener (part _ s) (part _ s') /\ others_kept p (part _ s) (part _ s'))
    (fun _ _ => False).
Proof.
  intros Hd Hc. unfold remove_client.
  apply wp_bind. eapply wp_load; [done|]. set (d := part _ s) in *.
  do 4 srv_step. set (cx := TcpClient _ _ _ _ _ _ _ _ _ _).
  assert (part _ s2 = released d) as Hr.
  { pose proof (serves_count _ _ Hd). pose proof (serves_within _ _ Hd).
    pose proof (serves_limit _ _ Hd). pose proof (serves_pos _ _ _ _ Hd Hc). unfold UINT16_MAX in *.
    rewrite Hp1, Hp0, Hp. fold d. unfold released.
    destruct (client_count d =? client_limit d); cbn; rewrite wrap_small by lia; done. }
  clear Hp1 Hp0 Hp.
  assert (client_heap (part _ s2) = client_heap d) as Hh by (rewrite Hr; apply released_heap).
  apply wp_bind. eapply srv_store; [by rewrite Hh|]. see_intro. do 3 srv_step.
  assert (part _ s5 = set_client p cx (released d)) as Hs5 by congruence.
  pose proof (unlink_run p ls cx s5) as Hu. rewrite Hs5 in Hu |- *.
  cbn [set_client clients client_heap with_clients] in Hu |- *.
  rewrite released_clients, released_heap in Hu |- *.
  assert (p ∈ ls) as Hin by (apply (serves_live d ls p Hd); by eexists).
  apply wp_bind. eapply wp_mono; [apply Hu| |done].
  { eapply chain_update; [apply (serves_chain _ _ Hd)|done|done]. }
  { rewrite dom_insert_L, (serves_dom _ _ Hd). set_solver. }
  { apply lookup_insert_eq. }
  intros s6 [] (Ht6 & head & h' & Hp6 & Hch & Hdom & Hsame).
  srv_step. rewrite Hp6 in Hp2. cbn in Hp2.
  assert (part _ s7 = with_clients head (delete p h') (released d)) as Hs7 by (rewrite Hp2; by destruct (released d)).
  assert (forall l a, h' !! l = Some a -> l <> p ->
            exists c0, client_heap d !! l = Some c0 /\ (a = c0 \/ exists q, a = set_next q c0)) as Hold.
  { intros l a0 Hl Hne. destruct (Hsame l a0 Hl) as (c0 & Hc0 & Hor).
    rewrite lookup_insert_ne in Hc0 by done. by exists c0. }
  split; [|split; [|split]].
  - by rewrite Ht5, Ht6, Ht4, Ht3, Ht2, Ht1, Ht0, Ht, <-app_assoc.
  - rewrite Hs7. apply serves_without; try done.
    + rewrite Hdom, dom_insert_L. apply elem_of_dom_2 in Hc. set_solver.
    + intros l a0 Hl Hne. destruct (Hold l a0 Hl Hne) as (c0 & Hc0 & Hor).
      pose proof (serves_buffers _ _ Hd l c0 Hc0) as Hok.
      destruct Hor as [->|[q ->]]; [done|by apply client_ok_next].
  - rewrite Hs7. unfold same_listener, released. fold d. by destruct (client_count d =? client_limit d).
  - rewrite Hs7. intros l a0 Hl. cbn in Hl. apply lookup_delete_Some in Hl as [Hne Hl]. split; [done|].
    by apply (Hold l a0).
Qed.

End Removal.

(** ** Reading arbitrary bytes *)

(** The length at the front of the buffer is one that [get_dns_request] adds up
    wrongly. *)
Definition oversized (c : tcp_client_s) : Prop :=
  exists hi lo rest, input_buffer c = Some (hi :: lo :: rest) /\ UINT16_MAX - 1 <= ntohs hi lo.

Section Reading.
Context `{Env} {W : Type} `{!Lens W dns_server_tcp_s}.
Implicit Types (s : sys W) (d : dns_server_tcp_s) (c : tcp_client_s) (ls : list loc).

(** Whatever the buffer holds, [get_dns_request] takes bytes off its front or
    leaves it alone, unless the length there is oversized. *)
Lemma get_dns_request_any p c v s :
  client_heap (part _ s) !! p = Some c -> holds_bytes c v -> input_buffer c <> None ->
  wp (get_dns_request p) s
    (fun s' res => match res with
       | None => s' = s
       | Some (req, n) => n = zlen req /\ exists c' v', part _ s' = set_client p c' (part _ s) /\ same_client c c' /\
           holds_bytes c' v' /\ input_buffer c' <> None /\
           ((~ oversized c /\ zlen v' < zlen v) \/ (oversized c /\ c' = c))
       end)
    (fun s' r => r = Exited 1 \/ (part _ s' = part _ s /\ r = Fault OutOfBounds /\ oversized c)).
Proof.
  intros Hc [Hu Hb] Hn. destruct Hb as [(? & _)|(z & Hb & Hl & Hsz)]; [done|].
  unfold get_dns_request. apply wp_bind. eapply wp_load; [done|]. rewrite Hb.
  destruct (v ++ z) as [|hi [|lo rest]] eqn:E; [zlen_lia|zlen_lia|].
  change (znth (hi :: lo :: rest) 0) with (Some hi).
  change (znth (hi :: lo :: rest) 1) with (Some lo). cbn iota zeta.
  pose proof (ntohs_range hi lo) as Hr. unfold UINT16_MAX in Hr.
  pose proof (zlen_nonneg v) as Hv. pose proof (zlen_nonneg z) as Hz0.
  assert (zlen (hi :: lo :: rest) = zlen v + zlen z) as Hlz by (by rewrite <-E, zlen_app).
  set (n := ntohs hi lo) in *. rewrite Hu.
  assert (oversized c \/ (2 <= u16 (2 + n) /\ u16 (2 + n) = 2 + n)) as Hcase.
  { destruct (decide (65534 <= n)); [left; exists hi, lo, rest; by split|].
    right. rewrite wrap_small by lia. lia. }
  assert (oversized c -> u16 (2 + n) = n - 65534) as Hw.
  { intros (hi' & lo' & rest' & Hb' & Hn'). simplify_eq. by apply wrapped_size. }
  assert (0 <= u16 (2 + n)) as H0 by (destruct Hcase as [Ho|[? ->]]; [|lia];
    specialize (Hw Ho); destruct Ho as (hi' & lo' & rest' & Hb' & Hn'); simplify_eq; unfold UINT16_MAX in *; lia).
  destruct (zlen v <? u16 (2 + n)) eqn:E1; bool_facts; [by srv_step|].
  apply wp_bind, (seen_perform (T := dns_server_tcp_s)). intros s1 b Hp1 _.
  destruct b; cbn [negb]; cbn iota; [|srv_step; by left].
  destruct (zlen (hi :: lo :: rest) <? 2 + n) eqn:E2; bool_facts.
  { apply wp_halt. right. split; [done|]. split; [done|]. destruct Hcase as [|[? ?]]; [done|lia]. }
  rewrite (wrap_small 32) by lia.
  destruct (zlen (hi :: lo :: rest) <? u16 (2 + n) + (zlen v - u16 (2 + n))) eqn:E3; bool_facts; [lia|].
  apply wp_bind. eapply srv_store; [by rewrite Hp1|]. intros s2 Hp2 _. srv_step.
  set (k := u16 (2 + n)) in *. set (u := zlen v - k) in *.
  set (buf := hi :: lo :: rest) in *.
  split; [rewrite zlen_ztake, zlen_zdrop by lia; lia|].
  exists (with_input (Some (ztake u (zdrop k buf) ++ zdrop u buf)) (input_buffer_size c) u c), (ztake u (zdrop k buf)).
  rewrite Hp1 in Hp2. split; [exact Hp2|]. split; [done|].
  assert (zlen (ztake u (zdrop k buf)) = u) as Hzu.
  { rewrite zlen_ztake by lia. rewrite zlen_zdrop by lia. lia. }
  split; [|split; [done|]].
  - split; [cbn; lia|]. right. eexists. split; [done|].
    cbn [input_buffer_size with_input]. rewrite zlen_app, Hzu, zlen_zdrop by lia. lia.
  - rewrite Hzu. destruct (decide (k = 0)) as [Hk|Hk]; [right|left; split; [intros Ho; specialize (Hw Ho); lia|lia]].
    destruct Hcase as [Ho|[? ?]]; [|lia]. split; [done|].
    assert (u = zlen v) as -> by lia. rewrite Hk, zdrop_0, ztake_zdrop, <-Hb, <-Hu. by destruct c.
Qed.

Context (stops : stop -> Prop) (J : sys W -> Prop) `{!Framed dns_server_tcp_s J}.
Context cb `{!ReqCallback (W:=W) stops J cb}.

(** How a handler of the server may end the process: [FLOG], what the callback
    does, or an oversized length at the front of the buffer of [p]. *)
Definition stops_at (p : loc) s (r : stop) : Prop :=
  r = Exited 1 \/ stops r \/
  ((r = Fault OutOfBounds \/ r = OutOfFuel) /\
   exists c, client_heap (part dns_server_tcp_s s) !! p = Some c /\ oversized c).

(** The bytes behind the client's buffer pointer. *)
Definition buffers p v s : Prop :=
  exists c, client_heap (part dns_server_tcp_s s) !! p = Some c /\ holds_bytes c v /\ input_buffer c <> None.

Lemma split_requests_any p ls fuel : forall v flag s,
  J s -> serves (part _ s) ls -> buffers p v s ->
  (zlen v < Z.of_nat fuel \/
   exists c, client_heap (part dns_server_tcp_s s) !! p = Some c /\ oversized c) ->
  wp (split_requests cb fuel p flag) s
    (fun s' res => match res with
       | None => serves (part _ s') (without p ls)
       | Some _ => serves (part _ s') ls
       end /\ J s')
    (stops_at p).
Proof.
  induction fuel as [|fuel IH]; intros v flag s HJ Hd (c & Hc & Hv & Hn) Hf; cbn [split_requests].
  { apply wp_halt. right; right. split; [by right|].
    destruct Hf as [Hf|Hf]; [|done]. pose proof (zlen_nonneg v). lia. }
  apply wp_bind. eapply (wp_framed dns_server_tcp_s J); [apply get_dns_request_stays|exact HJ|by eapply get_dns_request_any| |].
  2:{ intros s' r [->|(Hp & -> & Ho)]; [by left|]. right; right. split; [by left|].
      exists c. by rewrite Hp. }
  intros s1 [[req n]|] HJ1 Hres; [|subst s1; by srv_step].
  destruct Hres as (-> & c1 & v1 & Hp1 & Hsame & Hv1 & Hn1 & Hlt).
  assert (client_heap (part _ s1) !! p = Some c1) as Hc1 by (rewrite Hp1; apply set_client_heap).
  assert (serves (part _ s1) ls) as Hd1.
  { rewrite Hp1. eapply serves_set; [done|done|by rewrite Hsame|by exists v1]. }
  destruct (zlen req <? DNS_HEADER_LENGTH) eqn:Elen; bool_facts.
  - unfold WLOG. apply (log_framed dns_server_tcp_s J); [done|]. intros s2 HJ2 Hp2. apply (emit_framed dns_server_tcp_s J); [done|done|].
    intros s3 HJ3 Hp3. apply wp_bind. rewrite <-Hp2, <-Hp3 in Hc1, Hd1.
    eapply (wp_framed dns_server_tcp_s J); [apply remove_client_stays|exact HJ3|by eapply remove_client_run| |done].
    intros s4 [] HJ4 (_ & Hs & _). by srv_step.
  - apply wp_bind. eapply wp_load; [done|]. apply (emit_framed dns_server_tcp_s J); [done|done|]. intros s2 HJ2 Hp2. apply wp_bind.
    eapply wp_mono; [by apply cb_keeps_server| |intros ? ? ?; by right; left].
    intros s3 [] (Hp3 & HJ3). rewrite Hp2 in Hp3.
    apply (IH v1); [done|by rewrite Hp3|exists c1; by rewrite Hp3|].
    rewrite Hp3. destruct Hlt as [[Hno Hlt]|[Ho ->]]; [left|by right; exists c].
    destruct Hf as [Hf|(c' & Hc' & Ho')]; [lia|]. by simplify_eq.
Qed.

(** The clients are still [ls], or [ls] without [p]. *)
Definition serves_still p ls s : Prop :=
  serves (part _ s) ls \/ serves (part _ s) (without p ls).

Lemma log_and_remove level fmt p ls c s Ψ :
  J s -> serves (part _ s) ls -> client_heap (part _ s) !! p = Some c ->
  wp (LOG level fmt ;; remove_client p) s (fun s' _ => serves_still p ls s' /\ J s') Ψ.
Proof.
  intros HJ Hd Hc. apply (log_framed dns_server_tcp_s J); [done|]. intros s1 HJ1 Hp. rewrite <-Hp in Hd, Hc.
  eapply (wp_framed dns_server_tcp_s J); [apply remove_client_stays|exact HJ1|by eapply remove_client_run| |done].
  intros s' [] HJ' (_ & Hs & _). split; [by right|done].
Qed.

Lemma idle_timer_again_any p ls c s Ψ :
  serves (part _ s) ls -> client_heap (part _ s) !! p = Some c ->
  wp (idle_timer_again p) s
    (fun s' _ => serves (part _ s') ls /\ trace s' = trace s ++ [IdleTimerAgain (client_id c)]) Ψ.
Proof.
  intros Hd Hc. unfold idle_timer_again. apply wp_bind. eapply wp_load; [done|].
  apply wp_bind. eapply srv_store; [done|]. see_intro. srv_step. split; [|by rewrite Ht0, Ht].
  rewrite Hp0, Hp. eapply serves_set; [done|done|done|].
  destruct (serves_buffers _ _ Hd p c Hc) as [v Hv]. by exists v.
Qed.

Lemma read_cb_any p ls s :
  J s -> serves (part _ s) ls -> p ∈ ls ->
  wp (read_cb cb p) s (fun s' _ => serves_still p ls s' /\ J s') (stops_at p).
Proof.
  intros HJ Hd Hin. destruct (serves_client _ _ _ Hd Hin) as (c & Hc & v & Hv).
  unfold read_cb. apply wp_bind. eapply wp_load; [done|].
  apply (perform_framed dns_server_tcp_s J); [done|]. intros s1 r HJ1 Hp1. rewrite <-Hp1 in Hd, Hc.
  destruct r as [[|b buf]|[]]; try (by eapply log_and_remove); try (srv_step; split; [by left|done]).
  set (ch := b :: buf). assert (0 < zlen ch) as Hpos by (unfold ch; zlen_lia).
  pose proof (zlen_nonneg v) as Hv0. pose proof (proj1 Hv) as Hu. rewrite Hu.
  unfold UINT16_MAX at 1 2.
  destruct ((65535 <? zlen ch) || (u32 (65535 - zlen ch) <? zlen v)) eqn:E;
    [by eapply log_and_remove|]. bool_facts. rewrite (wrap_small 32) in * by lia.
  rewrite (wrap_small 32) by lia.
  destruct (TCP_DNS_MAX_PAYLOAD <? zlen v + zlen ch) eqn:E3; [by eapply log_and_remove|]. bool_facts.
  unfold DLOG. apply (log_framed dns_server_tcp_s J); [done|]. intros s2 HJ2 Hp. apply wp_bind. rewrite <-Hp in Hd, Hc.
  eapply (wp_framed dns_server_tcp_s J); [apply append_input_stays|exact HJ2|by eapply append_input_any| |intros s' r [-> _]; by left].
  intros s3 [] HJ3 (_ & _ & z & n & c3 & Hp3 & -> & Hz & Hn & _).
  set (c3 := with_input _ _ _ _) in *.
  assert (client_heap (part _ s3) !! p = Some c3) as Hc3 by (rewrite Hp3; apply set_client_heap).
  assert (holds_bytes c3 (v ++ ch)) as Hv3 by (split; [done|right; by exists z]).
  assert (serves (part _ s3) ls) as Hd3.
  { rewrite Hp3. eapply serves_set; [done|done|done|by exists (v ++ ch)]. }
  apply wp_bind. eapply wp_load; [done|]. apply wp_bind.
  eapply wp_mono; [apply (split_requests_any p ls _ (v ++ ch)); [done|done|by exists c3|]| |done].
  { left. cbn [c3 input_buffer_used with_input]. pose proof (zlen_nonneg (v ++ ch)). lia. }
  intros s4 [[]|] [Hs4 HJ4]; [|srv_step; split; [by left|done]|srv_step; split; [by right|done]].
  destruct (serves_client _ _ _ Hs4 Hin) as (c4 & Hc4 & _).
  eapply (wp_framed dns_server_tcp_s J); [apply idle_timer_again_stays|exact HJ4|by eapply idle_timer_again_any| |done].
  intros s5 [] HJ5 [Hs5 _]. split; [by left|done].
Qed.

End Reading.

(** ** Accepting *)

Section Accepting.
Context `{Env} {W : Type} `{!Lens W dns_server_tcp_s}.
Implicit Types (s : sys W) (d : dns_server_tcp_s) (c : tcp_client_s) (ls : list loc).

Lemma fresh_client_ok c : fresh_client c -> client_ok c.
Proof. intros Hf. exists []. by apply fresh_holds. Qed.

(** A new client is put in front of the list; at the limit the server stops
    listening for more. *)
Lemma serves_cons d ls p c :
  serves d ls -> Z.of_nat (length ls) < client_limit d -> client_heap d !! p = None ->
  client_next c = clients d -> fresh_client c ->
  serves (with_clients (Some p) (<[p := c]> (client_heap d))
            (let d1 := with_count (u64 (d_client_id d + 1)) (u16 (client_count d + 1)) d in
             if client_count d1 =? client_limit d1 then with_accept false d1 else d1)) (p :: ls).
Proof.
  intros [Hch Hdom Hcnt Hlim Hwi Hacc Hbuf] Hlt Hnew Hnext Hf. cbn zeta.
  assert (p ∉ ls) as Hp by (intros Hin; apply not_elem_of_dom in Hnew; set_solver).
  unfold UINT16_MAX in *.
  assert (u16 (client_count d + 1) = Z.of_nat (length (p :: ls))) as Hu.
  { rewrite wrap_small by lia. cbn [length]. lia. }
  cbn [client_count client_limit with_count].
  split; cbn [clients client_heap with_clients].
  - econstructor; [apply lookup_insert_eq|]. apply chain_insert_ne; [done|]. cbn. by rewrite Hnext.
  - rewrite dom_insert_L, Hdom. done.
  - destruct (_ =? _); exact Hu.
  - by destruct (_ =? _).
  - destruct (_ =? _); cbn [length client_limit with_count with_accept with_clients]; lia.
  - rewrite Hu. cbn [length] in *.
    destruct (Z.of_nat (S (length ls)) =? client_limit d) eqn:E; bool_facts;
      cbn [accept_watcher_active client_limit with_accept with_count with_clients];
      [symmetry; apply Z.ltb_ge; lia|]. rewrite Hacc. transitivity true; [lia|symmetry; apply Z.ltb_lt; lia].
  - apply map_Forall_insert_2; [by apply fresh_client_ok|done].
Qed.

Lemma add_client_run sock addr ls s :
  serves (part _ s) ls -> Z.of_nat (length ls) < client_limit (part _ s) ->
  wp (add_client sock addr) s
    (fun s' _ => exists p c, serves (part _ s') (p :: ls) /\ client_heap (part _ s') !! p = Some c /\
       fresh_client c /\ client_sock c = sock /\ raddr c = sockaddr_storage addr /\ addr_len c = zlen addr /\
       read_watcher_active c = true /\ timer_watcher_active c = true)
    (fun _ r => r = Exited 1).
Proof.
  intros Hd Hlt. unfold add_client. do 3 srv_step. apply wp_bind, (seen_perform (T := dns_server_tcp_s)).
  intros s2 block Hp2 _. destruct block as [hint|]; [|by srv_step].
  srv_step. set (p := place _ _). set (c := TcpClient _ _ _ _ _ _ _ _ _ _). do 3 srv_step.
  rewrite Hp3, Hp2 in *. rewrite Hp in Hp0.
  pose proof (serves_cons (part _ s) ls p c Hd Hlt) as Hs. cbn zeta in Hs. rewrite <-Hp0 in Hs.
  assert (client_heap (part _ s1) = client_heap (part _ s)) as Hh by (rewrite Hp0; by destruct (_ =? _)).
  assert (clients (part _ s1) = clients (part _ s)) as Hcl by (rewrite Hp0; by destruct (_ =? _)).
  exists p, c. rewrite Hp4, Hp1. split; [|by split; [apply lookup_insert_eq|]].
  rewrite Hh. apply Hs; [|cbn; by rewrite Hp2, Hcl|done].
  unfold p. rewrite Hp2, Hh. apply place_fresh.
Qed.

Lemma accept_cb_any ls s :
  serves (part _ s) ls -> accept_watcher_active (part _ s) = true ->
  wp accept_cb s
    (fun s' _ => serves (part _ s') ls \/ exists p, serves (part _ s') (p :: ls))
    (fun _ r => r = Exited 1).
Proof.
  intros Hd Ha. assert (Z.of_nat (length ls) < client_limit (part _ s)) as Hlt.
  { rewrite (serves_accept _ _ Hd) in Ha. lia. }
  assert (forall sock addr s1, part _ s1 = part _ s ->
            wp (add_client sock addr) s1
              (fun s' _ => serves (part _ s') ls \/ exists p, serves (part _ s') (p :: ls))
              (fun _ r => r = Exited 1)) as Hadd.
  { intros sock addr s1 Hp1. eapply wp_mono; [apply (add_client_run sock addr ls); by rewrite Hp1| |done].
    intros s' [] (p & c & Hs & _). right. by exists p. }
  unfold accept_cb. srv_step. apply wp_bind, (seen_perform (T := dns_server_tcp_s)). intros s1 r Hp1 _.
  destruct r as [sock addr|[] stack]; try (by apply Hadd); try (srv_step; left; congruence).
  srv_step. apply wp_bind.
  destruct (a =? -1); [srv_step|apply (seen_perform (T := dns_server_tcp_s)); intros s2 ? Hp2 _]; apply Hadd; congruence.
Qed.

End Accepting.

(** ** Responding *)

(** The bytes written to a socket. *)
Definition sent_on (fd : Z) (tr : list event) : list byte :=
  concat (omap (fun ev => match ev with
                          | Sent fd' bs => if fd' =? fd then Some bs else None
                          | _ => None
                          end) tr).

Lemma sent_on_app fd tr tr' : sent_on fd (tr ++ tr') = sent_on fd tr ++ sent_on fd tr'.
Proof. unfold sent_on. by rewrite omap_app, concat_app. Qed.

Lemma sent_on_same fd bs : sent_on fd [Sent fd bs] = bs.
Proof. unfold sent_on. cbn. rewrite Z.eqb_refl. apply app_nil_r. Qed.

Lemma sent_on_other fd fd' bs : fd <> fd' -> sent_on fd [Sent fd' bs] = [].
Proof. intros. unfold sent_on. cbn. by replace (fd' =? fd) with false by lia. Qed.

(** [tr'] extends [tr] by writing exactly [bs] to [fd] and nothing elsewhere. *)
Definition writes fd bs (tr tr' : list event) : Prop :=
  sent_on fd tr' = sent_on fd tr ++ bs /\ forall fd', fd' <> fd -> sent_on fd' tr' = sent_on fd' tr.

Lemma writes_nothing fd tr tr' : (forall fd', sent_on fd' tr' = sent_on fd' tr) -> writes fd [] tr tr'.
Proof. intros Hs. split; [by rewrite app_nil_r|done]. Qed.

Lemma writes_quiet fd tr ev : (forall fd' bs, ev <> Sent fd' bs) -> writes fd [] tr (tr ++ [ev]).
Proof.
  intros Hq. apply writes_nothing. intros fd'. rewrite sent_on_app.
  replace (sent_on fd' [ev]) with (@nil byte); [apply app_nil_r|].
  destruct ev; try done. by destruct (Hq fd0 bs).
Qed.

Lemma writes_sent fd bs tr : writes fd bs tr (tr ++ [Sent fd bs]).
Proof.
  split; [by rewrite sent_on_app, sent_on_same|].
  intros fd' Hne. by rewrite sent_on_app, sent_on_other, app_nil_r.
Qed.

Lemma writes_trans fd bs bs' tr tr' tr'' :
  writes fd bs tr tr' -> writes fd bs' tr' tr'' -> writes fd (bs ++ bs') tr tr''.
Proof.
  intros [Ha Hb] [Ha' Hb']. split; [by rewrite Ha', Ha, app_assoc|].
  intros fd' Hne. by rewrite Hb', Hb.
Qed.

(** [send] takes no more than it was given. *)
Class SaneSend `{Env} : Prop :=
  send_within : forall fd data e n, fst (answer (Send fd data) e) = Send_ok n -> 0 <= n <= zlen data.

Section Responding.
Context `{Env} {W : Type} `{!Lens W dns_server_tcp_s}.
Implicit Types (s : sys W) (d : dns_server_tcp_s) (c : tcp_client_s) (ls : list loc).

(** The state after a removal: the client is gone, its socket closed last. *)
Definition dropped p c ls s : Prop :=
  serves (part _ s) (without p ls) /\ last (trace s) = Some (Closed (client_sock c)).

Lemma remove_client_dropped p ls c s :
  serves (part _ s) ls -> client_heap (part _ s) !! p = Some c ->
  wp (remove_client p) s
    (fun s' _ => dropped p c ls s' /\ writes (client_sock c) [] (trace s) (trace s'))
    (fun _ _ => False).
Proof.
  intros Hd Hc. eapply wp_mono; [by eapply remove_client_run| |done].
  intros s' [] (Ht & Hs & _). rewrite Ht. split; [split; [done|by rewrite Ht, last_app]|].
  apply writes_nothing. intros fd. rewrite sent_on_app. apply app_nil_r.
Qed.

Lemma log_and_drop level fmt p ls c s :
  serves (part _ s) ls -> client_heap (part _ s) !! p = Some c ->
  wp (LOG level fmt ;; remove_client p) s
    (fun s' _ => dropped p c ls s' /\ writes (client_sock c) [] (trace s) (trace s'))
    (fun _ _ => False).
Proof.
  intros Hd Hc. srv_step. rewrite <-Hp in Hd, Hc.
  eapply wp_mono; [by eapply remove_client_dropped| |done].
  intros s' [] [Hdr Hw]. split; [done|]. change [] with ([] ++ [] : list byte).
  eapply writes_trans; [|exact Hw]. rewrite Ht. by apply writes_quiet.
Qed.

(** However the kernel splits the payload, what has been written is a prefix of
    it; the loop ends after at most [n] attempts. *)
Lemma send_loop_run `{!SaneSend} p ls c resp n : forall sent s,
  serves (part _ s) ls -> client_heap (part _ s) !! p = Some c -> 0 <= sent <= zlen resp ->
  wp (send_loop n p (client_sock c) resp sent) s
    (fun s' res => exists k, sent <= k <= zlen resp /\
       writes (client_sock c) (ztake (k - sent) (zdrop sent resp)) (trace s) (trace s') /\
       match res with
       | Some k' => k' = k /\ part _ s' = part _ s
       | None => dropped p c ls s'
       end)
    (fun _ _ => False).
Proof.
  induction n as [|n IH]; intros sent s Hd Hc Hsent; cbn [send_loop].
  { srv_step. exists sent. split; [lia|]. rewrite Z.sub_diag. split; [|done]. by apply writes_nothing. }
  apply wp_bind, wp_perform. intros r e Ha.
  set (s1 := Sys (world s) e (trace s)).
  assert (forall err, wp (WLOG "C-%u: Send error: %s" ;; remove_client p ;; mret None) s1
    (fun s' res => exists k, sent <= k <= zlen resp /\
       writes (client_sock c) (ztake (k - sent) (zdrop sent resp)) (trace s) (trace s') /\
       match res with Some k' => k' = k /\ part _ s' = part _ s | None => dropped p c ls s' end)
    (fun _ _ => err)) as Herr.
  { intros err. apply wp_bind, (seen_log (T := dns_server_tcp_s)). intros s2 Hp2 Ht2. apply wp_bind.
    eapply wp_mono; [eapply (remove_client_dropped p ls c); by rewrite Hp2| |done].
    intros s3 [] [Hdr Hw]. srv_step. exists sent. split; [lia|]. split; [|done].
    rewrite Z.sub_diag. change (ztake 0 _) with ([] ++ [] : list byte).
    eapply writes_trans; [|exact Hw]. rewrite Ht2. by apply writes_quiet. }
  destruct r as [len|[]]; try apply Herr.
  2,3: (eapply wp_mono; [apply (IH sent); done| |done]; intros s' res (k & Hk & Hw & Hres); by exists k).
  pose proof (send_within (client_sock c) (zdrop sent resp) (environment s) len) as Hlen.
  rewrite Ha in Hlen. specialize (Hlen eq_refl). rewrite zlen_zdrop in Hlen by lia.
  srv_step. pose proof (writes_sent (client_sock c) (ztake len (zdrop sent resp)) (trace s)) as Hw0.
  change (trace s1) with (trace s) in Ht. rewrite <-Ht in Hw0.
  destruct (sent + len =? zlen resp) eqn:E; bool_facts.
  { srv_step. exists (sent + len). split; [lia|]. by replace (sent + len - sent) with len by lia. }
  do 2 srv_step. eapply wp_mono; [apply (IH (sent + len)); rewrite ?Hp1, ?Hp0, ?Hp; try done; lia| |done].
  intros s' res (k & Hk & Hw & Hres). exists k. split; [lia|]. split; [|by rewrite Hp1, Hp0, Hp in Hres].
  assert (ztake (k - sent) (zdrop sent resp) =
    ztake len (zdrop sent resp) ++ [] ++ ztake (k - (sent + len)) (zdrop (sent + len) resp)) as ->.
  { rewrite app_nil_l, <-zdrop_zdrop, ztake_split by lia. f_equal. lia. }
  eapply writes_trans; [exact Hw0|]. eapply writes_trans; [|exact Hw].
  rewrite Ht1, Ht0. by apply writes_quiet.
Qed.

(** The response reached the client completely, or the client is gone. *)
Definition answered p c ls resp s s' : Prop :=
  (serves (part _ s') ls /\ writes (client_sock c) (frame resp) (trace s) (trace s') /\
   last (trace s') = Some (IdleTimerAgain (client_id c))) \/
  (dropped p c ls s' /\ exists k, writes (client_sock c) (ztake k (frame resp)) (trace s) (trace s')).

Lemma payload_run `{!SaneSend} p ls c resp s0 s :
  serves (part _ s) ls -> client_heap (part _ s) !! p = Some c ->
  writes (client_sock c) (htons (zlen resp)) (trace s0) (trace s) ->
  wp (sent ← send_loop 50 p (client_sock c) resp 0;
      match sent with
      | None => mret tt
      | Some sent =>
          if sent =? zlen resp then idle_timer_again p
          else
            WLOG "C-%u: Send timeout after %d attempts, sent %zd/%zu bytes" ;;
            remove_client p
      end) s (fun s' _ => answered p c ls resp s0 s') (fun _ _ => False).
Proof.
  intros Hd Hc Hh. pose proof (zlen_nonneg resp). apply wp_bind.
  eapply wp_mono; [apply (send_loop_run p ls c resp 50 0); try done; lia| |done].
  intros s1 res (k & Hk & Hw & Hres). rewrite Z.sub_0_r, zdrop_0 in Hw.
  assert (writes (client_sock c) (ztake (2 + k) (frame resp)) (trace s0) (trace s1)) as Hw1.
  { unfold frame. rewrite <-ztake_split, ztake_app_exact, zdrop_app_exact by (done || lia).
    by eapply writes_trans. }
  destruct res as [k'|]; [destruct Hres as [-> Hp1]|srv_step; right; split; [done|by exists (2 + k)]].
  rewrite <-Hp1 in Hd, Hc. destruct (k =? zlen resp) eqn:E; bool_facts.
  - eapply wp_mono; [by eapply (idle_timer_again_any p ls c _ (fun _ _ => False))| |done].
    intros s2 [] [Hd2 Ht2]. left.
    split; [done|]. rewrite Ht2. split; [|by rewrite last_app].
    rewrite ztake_all in Hw1 by (rewrite zlen_frame; lia). rewrite <-(app_nil_r (frame resp)).
    eapply writes_trans; [exact Hw1|]. by apply writes_quiet.
  - eapply wp_mono; [by eapply log_and_drop| |done]. intros s2 [] [Hdr Hw2]. right. split; [done|].
    exists (2 + k). rewrite <-(app_nil_r (ztake _ _)). by eapply writes_trans.
Qed.

(** Which client a response goes to: the first of the list with that address. *)
Definition first_match addr d ls p c : Prop :=
  exists ls1 ls2, ls = ls1 ++ p :: ls2 /\ client_heap d !! p = Some c /\ same_addr addr c = true /\
    forall l c', l ∈ ls1 -> client_heap d !! l = Some c' -> same_addr addr c' = false.

Lemma first_match_unique addr d ls p c p' c' :
  first_match addr d ls p c -> first_match addr d ls p' c' -> p' = p /\ c' = c.
Proof.
  intros (l1 & l2 & Heq & Hp & Hs & Hno) (l1' & l2' & Heq' & Hp' & Hs' & Hno').
  assert (p' = p) as ->; [|by simplify_eq].
  destruct (decide (p' = p)) as [|Hne]; [done|exfalso]. rewrite Heq in Heq'.
  apply app_eq_app in Heq' as [k [[-> Hk]|[-> Hk]]]; destruct k as [|x k]; simplify_eq/=.
  - rewrite (Hno x c') in Hs'; [done| |done]. set_solver.
  - rewrite (Hno' x c) in Hs; [done| |done]. set_solver.
Qed.

Lemma find_client addr d ls :
  serves d ls ->
  match find_node (S (size (client_heap d))) (client_heap d) NULL (clients d) (same_addr addr) with
  | inl _ => False
  | inr None => forall l c, client_heap d !! l = Some c -> same_addr addr c = false
  | inr (Some (_, p)) => exists c, first_match addr d ls p c
  end.
Proof.
  intros Hd. pose proof (find_node_spec (client_heap d) NULL (clients d) ls (same_addr addr)
    (S (size (client_heap d))) (serves_chain _ _ Hd)) as Hf.
  rewrite (serves_size _ _ Hd) in *. specialize (Hf ltac:(lia)).
  destruct (find_node _ _ _ _ _) as [|[[q p]|]]; [done| |].
  - destruct Hf as (l1 & l2 & c & -> & Hc & Hs & _ & Hno). exists c, l1, l2. done.
  - intros l c Hc. apply (Hf l c); [|done]. apply (serves_live d ls l Hd). by eexists.
Qed.

Lemma respond_run `{!SaneSend} addr resp ls s :
  serves (part _ s) ls ->
  wp (dns_server_tcp_respond addr resp) s
    (fun s' _ =>
       (part _ s' = part _ s /\ (forall fd, sent_on fd (trace s') = sent_on fd (trace s)) /\
        ((zlen resp < DNS_HEADER_LENGTH \/ TCP_DNS_MAX_PAYLOAD < zlen resp) \/
         forall l c, client_heap (part _ s) !! l = Some c -> same_addr addr c = false)) \/
       exists p c, first_match addr (part _ s) ls p c /\ answered p c ls resp s s')
    (fun _ _ => False).
Proof.
  intros Hd. unfold dns_server_tcp_respond.
  destruct (_ || _) eqn:E.
  { srv_step. left. split; [done|]. split; [|left; apply orb_true_iff in E; lia].
    intros fd. rewrite Ht, sent_on_app. apply app_nil_r. }
  bool_facts. srv_step. pose proof (find_client addr _ _ Hd) as Hf.
  destruct (find_node _ _ _ _ _) as [|[[q p]|]]; [done| |].
  2:{ srv_step. left. split; [done|]. split; [|by right].
      intros fd. rewrite Ht, sent_on_app. apply app_nil_r. }
  destruct Hf as [c Hfm]. assert (client_heap (part _ s) !! p = Some c) as Hc by (by destruct Hfm as (?&?&?&?&?)).
  apply wp_bind. eapply wp_load; [done|]. srv_step.
  rewrite wrap_small by (unfold TCP_DNS_MAX_PAYLOAD, UINT16_MAX, DNS_HEADER_LENGTH in *; lia).
  apply wp_bind, wp_perform. intros r e Ha. set (s1 := Sys (world s0) e (trace s0)).
  assert (writes (client_sock c) [] (trace s) (trace s1)) as Hq by (cbn; rewrite Ht; by apply writes_quiet).
  change (part _ s0) with (part dns_server_tcp_s s1) in Hp. apply wp_bind.
  pose proof (send_within (client_sock c) (htons (zlen resp)) (environment s0)) as Hsane.
  rewrite Ha in Hsane. cbn [fst] in Hsane. clearbody s1.
  set (Φ := fun (s' : sys W) (_ : unit) => exists bs, part _ s' = part _ s /\
     writes (client_sock c) bs (trace s) (trace s') /\
     (r = Send_ok 2 -> bs = htons (zlen resp)) /\ exists k, bs = ztake k (frame resp)).
  eapply (wp_mono _ _ Φ _ (fun _ _ => False)); [| |done].
  - destruct r as [n|err].
    + srv_step. exists (ztake n (htons (zlen resp))). specialize (Hsane n eq_refl). rewrite zlen_htons in Hsane.
      split; [congruence|]. split; [|split].
      * rewrite Ht0, <-(app_nil_l (ztake _ _)). eapply writes_trans; [exact Hq|apply writes_sent].
      * by intros [= ->].
      * exists n. unfold frame. by rewrite ztake_app_le by (rewrite zlen_htons; lia).
    + srv_step. exists []. split; [done|]. split; [done|]. split; [done|]. by exists 0.
  - intros s2 [] (bs & Hp2 & Hw & Hb & k & ->). rewrite <-Hp2 in Hd, Hc.
    case_bool_decide as Hr.
    + rewrite (Hb Hr) in Hw. eapply wp_mono; [by eapply (payload_run p ls c resp s)| |done].
      intros s3 [] Hans. right. by exists p, c.
    + eapply wp_mono; [by eapply log_and_drop| |done]. intros s3 [] [Hdr Hw2]. right. exists p, c.
      split; [done|]. right. split; [done|]. exists k.
      rewrite <-(app_nil_r (ztake _ _)). by eapply writes_trans.
Qed.

End Responding.

(** ** Starting and stopping *)

(** The sockets closed, in order. *)
Definition closed (tr : list event) : list Z :=
  omap (fun ev => match ev with Closed fd => Some fd | _ => None end) tr.

Lemma closed_app tr tr' : closed (tr ++ tr') = closed tr ++ closed tr'.
Proof. apply omap_app. Qed.

(** The sockets of the clients, in list order. *)
Definition client_socks (d : dns_server_tcp_s) (ls : list loc) : list Z :=
  omap (fun l => client_sock <$> client_heap d !! l) ls.

Section Lifetime.
Context `{Env} {W : Type} `{!Lens W dns_server_tcp_s}.
Implicit Types (s : sys W) (d : dns_server_tcp_s) (c : tcp_client_s) (ls : list loc).

Lemma client_socks_kept p d d' ls :
  others_kept p d d' -> (forall l, l ∈ ls -> is_Some (client_heap d' !! l)) ->
  client_socks d' ls = client_socks d ls.
Proof.
  intros Hk. induction ls as [|l ls IH]; intros Hl; [done|].
  destruct (Hl l) as [c' Hc']; [set_solver|].
  destruct (Hk l c' Hc') as (_ & c & Hc & Hor).
  assert (client_sock c' = client_sock c) as Hs by (by destruct Hor as [->|[q ->]]).
  assert (client_socks d' ls = client_socks d ls) as Hrest by (apply IH; set_solver).
  unfold client_socks in *. cbn. rewrite Hc', Hc. cbn. by rewrite Hs, Hrest.
Qed.

Lemma remove_all_run ls : forall fuel s,
  serves (part _ s) ls -> (length ls < fuel)%nat ->
  wp (remove_all_clients fuel) s
    (fun s' _ => serves (part _ s') [] /\ same_listener (part _ s) (part _ s') /\
       closed (trace s') = closed (trace s) ++ client_socks (part _ s) ls)
    (fun _ _ => False).
Proof.
  induction ls as [|p ls IH]; intros [|fuel] s Hd Hf; try (cbn in Hf; lia);
    cbn [remove_all_clients]; srv_step; pose proof (serves_chain _ _ Hd) as Hch; inversion Hch as [Hnl|? c ? Hc Hn Hhd].
  - srv_step. split; [done|]. split; [done|]. by rewrite app_nil_r.
  - pose proof (serves_NoDup _ _ Hd) as [Hnin _]%NoDup_cons. apply wp_bind.
    eapply wp_mono; [by eapply remove_client_run| |done].
    intros s1 [] (Ht & Hs & Hli & Hk). rewrite without_cons_eq in Hs by done.
    eapply wp_mono; [apply (IH fuel); [done|cbn in Hf; lia]| |done].
    intros s2 [] (Hs2 & Hl2 & Ht2). split; [done|]. split.
    { destruct Hli as (? & ? & ?), Hl2 as (? & ? & ?). repeat split; congruence. }
    rewrite Ht2, Ht, closed_app, <-app_assoc. f_equal. cbn.
    rewrite (client_socks_kept p (part _ s) (part _ s1)); [|done|].
    + unfold client_socks. cbn. by rewrite Hc.
    + intros x Hin. by apply (serves_live _ _ x Hs).
Qed.

Lemma serves_nil d : serves d [] -> clients d = NULL /\ client_heap d = ∅ /\ client_count d = 0.
Proof.
  intros Hd. pose proof (serves_chain _ _ Hd) as Hch. inversion Hch.
  split; [done|]. split; [|apply (serves_count _ _ Hd)].
  apply dom_empty_inv_L. apply (serves_dom _ _ Hd).
Qed.

Lemma create_run a limit s :
  0 < limit <= UINT16_MAX ->
  wp (dns_server_tcp_create a limit) s
    (fun s' _ => serves (part _ s') [] /\ accept_watcher_active (part _ s') = true)
    (fun _ r => r = Exited 1).
Proof.
  intros Hl. unfold dns_server_tcp_create. srv_step. destruct a0; cbn [negb]; cbn iota; [|by srv_step].
  apply wp_bind. apply wp_mono with (Φ := fun _ _ => True) (Ψ := fun _ r => r = Exited 1); [| |done].
  - unfold get_tcp_listen_sock.
    repeat first [srv_step; [] | progress case_match]; done.
  - intros s1 sock _. apply seen_put. intros s2 Hp2 _. rewrite Hp2. unfold UINT16_MAX in *.
    split; [|done]. rewrite wrap_small by lia.
    split; cbn [part client_heap clients client_count client_limit accept_watcher_active length];
      try done; try lia; [apply chain_nil|symmetry; apply Z.ltb_lt; lia].
Qed.

End Lifetime.

(** ** The event loop *)

(** What can make the server run: its watchers, and the proxy responding. *)
Inductive tcp_event :=
| On_accept
| On_read (p : loc)
| On_timer (p : loc)
| On_response (addr : sockaddr) (resp : list byte).

(** Which callbacks the event loop may run: those of active watchers. *)
Definition enabled (d : dns_server_tcp_s) (ev : tcp_event) : Prop :=
  match ev with
  | On_accept => accept_watcher_active d = true
  | On_read p => exists c, client_heap d !! p = Some c /\ read_watcher_active c = true
  | On_timer p => exists c, client_heap d !! p = Some c /\ timer_watcher_active c = true
  | On_response _ _ => True
  end.

Section Loop.
Context `{Env} {W : Type} `{!Lens W dns_server_tcp_s}.
Context (J : sys W -> Prop) (cb : bool -> sockaddr -> list byte -> M W unit).
Implicit Types (s : sys W).

Definition handle (ev : tcp_event) : M W unit :=
  match ev with
  | On_accept => accept_cb
  | On_read p => read_cb cb p
  | On_timer p => timer_cb p
  | On_response addr resp => dns_server_tcp_respond addr resp
  end.

(** The states of a running server: it was created with a limit the options
    allow, callbacks of active watchers ran, and in between anything happened
    outside of it that keeps [J]. *)
Inductive reachable : sys W -> Prop :=
| reach_create a limit s s' :
    0 < limit <= UINT16_MAX -> J s -> dns_server_tcp_create a limit s = Ok s' tt -> reachable s'
| reach_handle s ev s' :
    reachable s -> enabled (part _ s) ev -> handle ev s = Ok s' tt -> reachable s'
| reach_outside s s' :
    reachable s -> part dns_server_tcp_s s' = part _ s -> J s' -> reachable s'.

Context `{!SaneSend} (stops : stop -> Prop) `{!Framed dns_server_tcp_s J} `{!ReqCallback (W:=W) stops J cb}.

(** One callback on a consistent server. *)
Lemma handle_run ev ls s :
  J s -> serves (part _ s) ls -> enabled (part _ s) ev ->
  wp (handle ev) s (fun s' _ => (exists ls', serves (part _ s') ls') /\ J s')
    (fun s' r => r = Exited 1 \/ stops r \/
       exists p c, ev = On_read p /\ client_heap (part dns_server_tcp_s s') !! p = Some c /\ oversized c).
Proof.
  intros HJ Hd Hen. destruct ev as [|p|p|addr resp]; cbn [handle].
  - eapply (wp_framed dns_server_tcp_s J); [apply accept_cb_stays|exact HJ|by eapply accept_cb_any| |by left].
    intros s' [] HJ' [Hs|[p Hs]]; eauto.
  - destruct Hen as (c & Hc & _).
    assert (p ∈ ls) as Hin by (apply (serves_live _ _ p Hd); by eexists).
    eapply wp_mono; [by apply (read_cb_any stops J cb p ls)|intros s' [] [[Hs|Hs] HJ']; eauto|].
    intros s' r [->|[Hr|(_ & c' & Hc' & Ho)]]; [by left|by right; left|].
    right; right. by exists p, c'.
  - destruct Hen as (c & Hc & _).
    eapply (wp_framed dns_server_tcp_s J); [apply timer_cb_stays|exact HJ|by apply (log_and_drop _ _ p ls c)| |done].
    intros s' [] HJ' [[Hs _] _]; eauto.
  - eapply (wp_framed dns_server_tcp_s J); [apply respond_stays|exact HJ|by apply (respond_run addr resp ls)| |done].
    intros s' [] HJ' [(Hp & _)|(p & c & _ & [(Hs & _)|[[Hs _] _]])]; [|by eauto..].
    split; [|done]. exists ls. by rewrite Hp.
Qed.

Lemma reachable_serves s : reachable s -> (exists ls, serves (part _ s) ls) /\ J s.
Proof.
  induction 1 as [a limit s s' Hl HJ Hcr|s ev s' _ [[ls IH] HJ] Hen Hh|s s' _ [[ls IH] HJ] Hp HJ'].
  - pose proof (create_run a limit s Hl) as Hw. pose proof (create_stays a limit s) as Ho. unfold wp in Hw, Ho.
    rewrite Hcr in Hw, Ho. destruct Hw as [Hs _]. split; [by eexists|]. by eapply framed.
  - pose proof (handle_run ev ls s HJ IH Hen) as Hw. unfold wp in Hw. by rewrite Hh in Hw.
  - split; [|done]. exists ls. by rewrite Hp.
Qed.

End Loop.

(** ** A run *)

(** An environment with a client on socket 7 whose kernel takes at most seven
    bytes at a time. *)
Definition slow_kernel : Env :=
  {| env_state := unit;
     answer A c e :=
       match c in call A return A * unit with
       | Accept fd => (Accept_ok 7 [x7f; x00; x00; x01], e)
       | Recv fd n => (Recv_data [x00; x0c; x41], e)
       | Send fd data => (Send_ok (Z.min 7 (zlen data)), e)
       | c => (generous_answer c, e)
       end |}.

Lemma slow_kernel_sane : @SaneSend slow_kernel.
Proof. intros fd data e n [= <-]. pose proof (zlen_nonneg data). lia. Defined.

(** The state after a computation. *)
Definition state_of {A} (o : @outcome slow_kernel dns_server_tcp_s A) : @sys slow_kernel dns_server_tcp_s :=
  match o with Ok s _ => s | Stop s _ => s end.

Definition start : @sys slow_kernel dns_server_tcp_s := @Sys slow_kernel _ example_server tt [].
Definition created : @sys slow_kernel dns_server_tcp_s :=
  state_of (@dns_server_tcp_create slow_kernel _ _ (Addrinfo AF_INET [] 16) 2 start).
Definition accepted : @sys slow_kernel dns_server_tcp_s := state_of (@accept_cb slow_kernel _ _ created).
Definition accepted_client : tcp_client_s :=
  TcpClient 1 7 (sockaddr_storage [x7f; x00; x00; x01]) 4 None 0 0 true true NULL.

Lemma accepted_reachable : @reachable slow_kernel dns_server_tcp_s _ (fun _ => True) drop_request accepted.
Proof.
  eapply (@reach_handle slow_kernel _ _ (fun _ => True) _ created On_accept); [|vm_compute; reflexivity..].
  eapply (@reach_create slow_kernel _ _ (fun _ => True) _ (Addrinfo AF_INET [] 16) 2 start); vm_compute; done.
Defined.

Lemma accepted_server :
  @part slow_kernel _ dns_server_tcp_s _ accepted =
  TcpServer 3 16 true 1 1 2 (Some 1%positive) {[1%positive := accepted_client]}.
Proof. vm_compute. reflexivity. Defined.

Lemma accepted_serves : serves (@part slow_kernel _ dns_server_tcp_s _ accepted) [1%positive].
Proof.
  rewrite accepted_server. split; [|vm_compute; done..|].
  - eapply (chain_cons _ _ accepted_client); [done|apply chain_nil].
  - intros l c Hl. cbn [client_heap] in Hl. apply lookup_singleton_Some in Hl as [_ <-]. exists []. by split; [|left].
Defined.

(** ** Theorems *)

(** C9: the server's invariant. Whatever the clients send and however the event
    loop orders the callbacks, the [next] pointers visit exactly the live client
    objects, each once; [client_count] is their number and never exceeds the
    limit; the accept watcher is active exactly while there is room; and every
    input buffer is allocated with the size recorded for it, at most 65536
    bytes, and not used beyond it. *)
Theorem tcp_server_invariant `{SaneSend} {W} `{!Lens W dns_server_tcp_s} stops
    J `{!Framed dns_server_tcp_s J} cb `{!ReqCallback (W:=W) stops J cb} (s : sys W) :
  reachable J cb s -> exists ls, serves (part dns_server_tcp_s s) ls.
Proof. intros Hs. apply (reachable_serves J cb stops s Hs). Qed.

Lemma tcp_server_invariant_witness :
  @reachable slow_kernel dns_server_tcp_s _ (fun _ => True) drop_request accepted /\
  exists ls, serves (@part slow_kernel _ dns_server_tcp_s _ accepted) ls.
Proof.
  split; [exact accepted_reachable|].
  exact (@tcp_server_invariant slow_kernel slow_kernel_sane dns_server_tcp_s _ (fun _ => False) (fun _ => True)
           (@framed_True slow_kernel _ _ _) drop_request (@drop_request_ok slow_kernel _ _ _) accepted accepted_reachable).
Defined.

(** C10: no callback of a running server ends the process other than by [FLOG] or
    through the request callback, with one exception: a [read_cb] that finds a
    length of 65534 or 65535 at the front of the buffer it was reading.  In
    particular no callback follows a pointer to a client that was removed. *)
Theorem tcp_server_safe `{SaneSend} {W} `{!Lens W dns_server_tcp_s} stops
    J `{!Framed dns_server_tcp_s J} cb `{!ReqCallback (W:=W) stops J cb} (s : sys W) ev :
  reachable J cb s -> enabled (part dns_server_tcp_s s) ev ->
  wp (handle cb ev) s (fun s' _ => reachable J cb s')
    (fun s' r => r = Exited 1 \/ stops r \/
       exists p c, ev = On_read p /\ client_heap (part dns_server_tcp_s s') !! p = Some c /\ oversized c).
Proof.
  intros Hr Hen. destruct (reachable_serves J cb stops s Hr) as [[ls Hd] HJ].
  pose proof (handle_run J cb stops ev ls s HJ Hd Hen) as Hw. unfold wp in *.
  destruct (handle cb ev s) as [s' []|s' r] eqn:E; [|done]. by eapply reach_handle.
Qed.

Lemma tcp_server_safe_witness :
  enabled (@part slow_kernel _ dns_server_tcp_s _ accepted) (On_read 1%positive) /\
  @wp slow_kernel _ _ (@handle slow_kernel _ _ drop_request (On_read 1%positive)) accepted
    (fun s' _ => @reachable slow_kernel _ _ (fun _ => True) drop_request s')
    (fun s' r => r = Exited 1 \/ False \/
       exists p c, On_read 1%positive = On_read p /\
         client_heap (@part slow_kernel _ dns_server_tcp_s _ s') !! p = Some c /\ oversized c).
Proof.
  assert (enabled (@part slow_kernel _ dns_server_tcp_s _ accepted) (On_read 1%positive)) as Hen.
  { exists accepted_client. rewrite accepted_server. by split. }
  split; [exact Hen|].
  exact (@tcp_server_safe slow_kernel slow_kernel_sane dns_server_tcp_s _ (fun _ => False) (fun _ => True)
           (@framed_True slow_kernel _ _ _) drop_request (@drop_request_ok slow_kernel _ _ _) accepted (On_read 1%positive) accepted_reachable Hen).
Defined.

(** C11: a response for a connected client is framed correctly: either its two
    length bytes and all its bytes are written to that client's socket, in
    however many pieces the kernel takes them, and the idle timer is restarted;
    or only a prefix could be written and the client is removed and its socket
    closed, so a client never reads a frame that starts in the middle of
    another.  Nothing is written to any other socket. *)
Theorem tcp_response_framed `{SaneSend} {W} `{!Lens W dns_server_tcp_s}
    addr resp ls p c (s : sys W) :
  serves (part dns_server_tcp_s s) ls -> first_match addr (part _ s) ls p c ->
  DNS_HEADER_LENGTH <= zlen resp <= TCP_DNS_MAX_PAYLOAD ->
  wp (dns_server_tcp_respond addr resp) s
    (fun s' _ =>
       (serves (part _ s') ls /\ writes (client_sock c) (frame resp) (trace s) (trace s') /\
        last (trace s') = Some (IdleTimerAgain (client_id c))) \/
       (serves (part _ s') (without p ls) /\ last (trace s') = Some (Closed (client_sock c)) /\
        exists k, writes (client_sock c) (ztake k (frame resp)) (trace s) (trace s')))
    (fun _ _ => False).
Proof.
  intros Hd Hm Hlen. eapply wp_mono; [by apply (respond_run addr resp ls)| |done].
  intros s' [] [(_ & _ & Hno)|(p' & c' & Hm' & Hans)].
  - exfalso. destruct Hno as [Hno|Hno]; [lia|].
    destruct Hm as (? & ? & _ & Hc & Hs & _). by rewrite (Hno p c Hc) in Hs.
  - destruct (first_match_unique _ _ _ _ _ _ _ Hm Hm') as [-> ->].
    destruct Hans as [?|[[? ?] ?]]; [by left|by right].
Qed.

Lemma tcp_response_framed_witness :
  let resp := replicate 20 x42 in
  let addr := [x7f; x00; x00; x01] in
  let d := @part slow_kernel _ dns_server_tcp_s _ accepted in
  first_match addr d [1%positive] 1%positive accepted_client /\
  @wp slow_kernel _ _ (@dns_server_tcp_respond slow_kernel dns_server_tcp_s _ addr resp) accepted
    (fun s' _ =>
       (serves (@part slow_kernel _ dns_server_tcp_s _ s') [1%positive] /\
        writes 7 (frame resp) (@trace slow_kernel _ accepted) (@trace slow_kernel _ s') /\
        last (@trace slow_kernel _ s') = Some (IdleTimerAgain 1)) \/
       (serves (@part slow_kernel _ dns_server_tcp_s _ s') (without 1%positive [1%positive]) /\
        last (@trace slow_kernel _ s') = Some (Closed 7) /\
        exists k, writes 7 (ztake k (frame resp)) (@trace slow_kernel _ accepted) (@trace slow_kernel _ s')))
    (fun _ _ => False).
Proof.
  intros resp addr d.
  assert (first_match addr d [1%positive] 1%positive accepted_client) as Hm.
  { exists [], []. unfold d. rewrite accepted_server. repeat split. set_solver. }
  split; [exact Hm|].
  exact (@tcp_response_framed slow_kernel slow_kernel_sane dns_server_tcp_s _ addr resp [1%positive] 1%positive
           accepted_client accepted accepted_serves Hm ltac:(vm_compute; split; discriminate)).
Defined.

(** C12: stopping the server removes every client: the loop ends, no client object
    is left allocated, the sockets of all clients are closed in list order, and
    the accept watcher is stopped although removing a client may start it. *)
Theorem tcp_stop_releases_all `{Env} {W} `{!Lens W dns_server_tcp_s} ls (s : sys W) :
  serves (part dns_server_tcp_s s) ls ->
  wp dns_server_tcp_stop s
    (fun s' _ => clients (part dns_server_tcp_s s') = NULL /\ client_heap (part _ s') = ∅ /\
       client_count (part _ s') = 0 /\ accept_watcher_active (part _ s') = false /\
       d_sock (part _ s') = d_sock (part _ s) /\
       closed (trace s') = closed (trace s) ++ client_socks (part _ s) ls)
    (fun _ _ => False).
Proof.
  intros Hd. unfold dns_server_tcp_stop. srv_step. apply wp_bind.
  eapply wp_mono; [apply (remove_all_run ls); [done|rewrite (serves_size _ _ Hd); lia]| |done].
  intros s1 [] (Hs1 & (Hsk & _) & Hc). apply seen_modify. intros s2 Hp2 Ht2.
  rewrite Hp2, Ht2. by destruct (serves_nil _ Hs1) as (? & ? & ?).
Qed.

Lemma tcp_stop_releases_all_witness :
  @wp slow_kernel _ _ (@dns_server_tcp_stop slow_kernel dns_server_tcp_s _) accepted
    (fun s' _ => clients (@part slow_kernel _ dns_server_tcp_s _ s') = NULL /\
       client_heap (@part slow_kernel _ dns_server_tcp_s _ s') = ∅ /\
       client_count (@part slow_kernel _ dns_server_tcp_s _ s') = 0 /\
       accept_watcher_active (@part slow_kernel _ dns_server_tcp_s _ s') = false /\
       d_sock (@part slow_kernel _ dns_server_tcp_s _ s') = 3 /\
       closed (@trace slow_kernel _ s') = [] ++ [7])
    (fun _ _ => False).
Proof.
  exact (@tcp_stop_releases_all slow_kernel dns_server_tcp_s _ [1%positive] accepted accepted_serves).
Defined.

(** When [accept] reports that there is no connection after all, the check
    of its error lets the call through: a client without a socket is entered in
    the list and takes one of the places. *)
Theorem accept_without_connection `{Env} {W} `{!Lens W dns_server_tcp_s} err stack e ls (s : sys W) :
  err = EAGAIN \/ err = EWOULDBLOCK ->
  answer (Accept (d_sock (part dns_server_tcp_s s))) (environment s) = (Accept_error err stack, e) ->
  serves (part _ s) ls -> accept_watcher_active (part _ s) = true ->
  wp accept_cb s
    (fun s' _ => exists p c, serves (part _ s') (p :: ls) /\ client_heap (part _ s') !! p = Some c /\
       client_sock c = -1 /\ read_watcher_active c = true)
    (fun _ r => r = Exited 1).
Proof.
  intros Herr Ha Hd Hact. unfold accept_cb. srv_step. apply wp_bind, wp_perform.
  intros r e' Ha'. rewrite Ha in Ha'. injection Ha' as <- <-.
  set (s1 := Sys _ _ _). assert (part dns_server_tcp_s s1 = part _ s) as Hp by done.
  rewrite (serves_accept _ _ Hd) in Hact. bool_facts.
  destruct Herr as [-> | ->]; (eapply wp_mono; [apply (add_client_run (-1) stack ls); by rewrite Hp| |done]);
    intros s' [] (p & c & ? & ? & _ & ? & _ & _ & ? & _); by exists p, c.
Qed.

Definition example_idle_server : dns_server_tcp_s := TcpServer 3 16 true 0 0 20 NULL ∅.

Lemma example_idle_serves : serves example_idle_server [].
Proof. split; try done; apply chain_nil. Defined.

Lemma accept_without_connection_witness :
  let s := @Sys generous _ example_idle_server tt [] in
  @wp generous _ _ (@accept_cb generous dns_server_tcp_s _) s
    (fun s' _ => exists p c, serves (@part generous _ dns_server_tcp_s _ s') [p] /\
       client_heap (@part generous _ dns_server_tcp_s _ s') !! p = Some c /\
       client_sock c = -1 /\ read_watcher_active c = true)
    (fun _ r => r = Exited 1).
Proof.
  intros s.
  exact (@accept_without_connection generous dns_server_tcp_s _ EAGAIN [] tt [] s (or_introl eq_refl)
           eq_refl example_idle_serves eq_refl).
Defined.
