(* ===== verification/Options.v ===== *)
(** * Command-line options (src/options.c)

    [options_init] sets the defaults, [options_parse_args] interprets the
    arguments and checks the values; what the rest of the proxy relies on is
    the ranges established here. *)

From Stdlib Require Import ZArith NArith Lia Ascii String List.
From Stdlib Require Import Decimal DecimalString DecimalN.
From coqutil Require Import Datatypes.RecordSetters.
From stdpp Require Import base tactics list option strings.
From S2P Require Import Prelude Effects.
Import DoubleBraceUpdate.

Open Scope Z_scope.

Definition DEFAULT_HTTP_VERSION : Z := 2.
Definition MAX_TCP_CLIENTS : Z := 200.
Definition STDOUT_FILENO : Z := 1.
(** [(uid_t)-1] *)
Definition NO_ID : Z := 2 ^ 32 - 1.

Record Options := {
  listen_addr : string;
  listen_port : Z;
  tcp_client_limit : Z;
  logfile : option string;
  logfd : Z;
  loglevel : Z;
  daemonize : Z;
  user : option string;
  group : option string;
  uid : Z;
  gid : Z;
  bootstrap_dns : string;
  bootstrap_dns_polling_interval : Z;
  ipv4 : Z;
  dscp : Z;
  resolver_url : option string;
  curl_proxy : option string;
  source_addr : option string;
  use_http_version : Z;
  max_idle_time : Z;
  conn_loss_time : Z;
  stats_interval : Z;
  ca_info : option string;
  flight_recorder_size : Z
}.

Inductive OptionsParseResult :=
| OPR_SUCCESS
| OPR_HELP
| OPR_VERSION
| OPR_OPTION_ERROR
| OPR_PARSING_ERROR.

Definition options_init : Options := {|
  listen_addr := "127.0.0.1";
  listen_port := 5053;
  tcp_client_limit := 20;
  logfile := Some "-"%string;
  logfd := STDOUT_FILENO;
  loglevel := 3 (* LOG_ERROR *);
  daemonize := 0;
  dscp := 0;
  user := None;
  group := None;
  uid := NO_ID;
  gid := NO_ID;
  bootstrap_dns := "8.8.8.8,1.1.1.1,8.8.4.4,1.0.0.1,145.100.185.15,145.100.185.16,185.49.141.37";
  bootstrap_dns_polling_interval := 120;
  ipv4 := 0;
  resolver_url := Some "https://dns.google/dns-query"%string;
  curl_proxy := None;
  source_addr := None;
  use_http_version := DEFAULT_HTTP_VERSION;
  max_idle_time := 118;
  conn_loss_time := 15;
  stats_interval := 0;
  ca_info := None;
  flight_recorder_size := 0
|}.

(** ** Numbers: [strtoul] with base 10 *)

Definition code (c : ascii) : Z := Z.of_N (N_of_ascii c).
Definition isspace (c : ascii) : bool := (code c =? 32) || ((9 <=? code c) && (code c <=? 13)).
Definition isdigit (c : ascii) : bool := (48 <=? code c) && (code c <=? 57).

Fixpoint skip_spaces (s : string) : string :=
  match s with
  | String c s' => if isspace c then skip_spaces s' else s
  | EmptyString => s
  end.

(** The value of the leading digits, in unbounded arithmetic, and the rest. *)
Fixpoint read_digits (acc : Z) (s : string) : Z * string :=
  match s with
  | String c s' => if isdigit c then read_digits (acc * 10 + (code c - 48)) s' else (acc, s)
  | EmptyString => (acc, s)
  end.

Definition starts_with_digit (s : string) : bool :=
  match s with String c _ => isdigit c | EmptyString => false end.

(** The value saturates; a minus sign negates it modulo 2^64; without digits
    nothing is consumed. *)
Definition strtoul (s : string) : Z * string :=
  let t := skip_spaces s in
  let '(neg, u) :=
    match t with
    | String c t' => if code c =? 45 then (true, t') else if code c =? 43 then (false, t') else (false, t)
    | EmptyString => (false, t)
    end in
  if starts_with_digit u then
    let '(v, rest) := read_digits 0 u in
    (if ULONG_MAX <? v then ULONG_MAX else if (neg : bool) then u64 (- v) else v, rest)
  else (0, s).

Definition parse_int (str : string) : Z :=
  let '(value, endptr) := strtoul str in
  match endptr with
  | String _ _ => -1
  | EmptyString => if INT32_MAX <? value then -1 else value
  end.

(** ** [getopt] *)

(** What [getopt] returns at one call, with [optarg]; ["?"] is its error. *)
Definition opt_result : Type := ascii * option string.

Inductive opt_kind := Unknown | Flag | WithArg.

(** How the option string describes a character. *)
Fixpoint kind_of (optstring : string) (c : ascii) : opt_kind :=
  match optstring with
  | EmptyString => Unknown
  | String c' rest =>
      if Ascii.eqb c c' && negb (Ascii.eqb c ":") then
        match rest with
        | String ":" _ => WithArg
        | _ => Flag
        end
      else kind_of rest c
  end.

Section Getopt.
Variable optstring : string.

(** The options of one argument after its dash, and the option that still needs
    its value. *)
Fixpoint cluster (cs : string) : list opt_result * option ascii :=
  match cs with
  | EmptyString => ([], None)
  | String c cs' =>
      match kind_of optstring c with
      | WithArg => match cs' with EmptyString => ([], Some c) | _ => ([(c, Some cs')], None) end
      | Flag => let '(rs, pending) := cluster cs' in ((c, None) :: rs, pending)
      | Unknown => let '(rs, pending) := cluster cs' in (("?"%char, None) :: rs, pending)
      end
  end.

(** The results of the calls of [getopt] until it returns -1; arguments that
    are not options are passed over, ["--"] ends the options. *)
Fixpoint getopt (args : list string) : list opt_result :=
  match args with
  | [] => []
  | "--"%string :: _ => []
  | String "-" (String c cs) :: rest =>
      let '(rs, pending) := cluster (String c cs) in
      match pending with
      | None => rs ++ getopt rest
      | Some p =>
          match rest with
          | [] => rs ++ [("?"%char, None)]
          | v :: rest' => rs ++ (p, Some v) :: getopt rest'
          end
      end
  | _ :: rest => getopt rest
  end.

End Getopt.

(** The formats of the usage message, one per [printf], without the final line
    end. *)
Definition usage_formats : list string := [
  "Usage: %s [-a <listen_addr>] [-p <listen_port>] [-T <tcp_client_limit>]";
  "        [-b <dns_servers>] [-i <polling_interval>] [-4]";
  "        [-r <resolver_url>] [-t <proxy_server>] [-S <source_addr>] [-x] [-q] [-C <ca_path>] [-c <dscp_codepoint>]";
  "        [-d] [-u <user>] [-g <group>] ";
  "        [-v]+ [-l <logfile>] [-s <statistic_interval>] [-F <log_limit>] [-V] [-h]";
  "
 DNS server";
  "  -a listen_addr         Local IPv4/v6 address to bind to. (Default: %s)";
  "  -p listen_port         Local port to bind to. (Default: %d)";
  "  -T tcp_client_limit    Number of TCP clients to serve. (Default: %d, Disabled: 0, Min: 1, Max: %d)";
  "
 DNS client";
  "  -b dns_servers         Comma-separated IPv4/v6 addresses and ports (addr:port)";
  "                         of DNS servers to resolve resolver host (e.g. dns.google).
                         When specifying a port for IPv6, enclose the address in [].
                         (Default: %s)";
  "  -i polling_interval    Optional polling interval of DNS servers.
                         (Default: %d, Min: 5, Max: 3600)";
  "  -4                     Force IPv4 hostnames for DNS resolvers non IPv6 networks.";
  "
 HTTPS client";
  "  -r resolver_url        The HTTPS path to the resolver URL. (Default: %s)";
  "  -t proxy_server        Optional HTTP proxy. e.g. socks5://127.0.0.1:1080";
  "                         Remote name resolution will be used if the protocol";
  "                         supports it (http, https, socks4a, socks5h), otherwise";
  "                         initial DNS resolution will still be done via the";
  "                         bootstrap DNS servers.";
  "  -S source_addr         Source IPv4/v6 address for outbound HTTPS and bootstrap DNS.";
  "                         (Default: system default)";
  "  -x                     Use HTTP/1.1 instead of HTTP/2. Useful with broken
                         or limited builds of libcurl.";
  "  -q                     Use HTTP/3 (QUIC) only.";
  "  -m max_idle_time       Maximum idle time in seconds allowed for reusing a HTTPS connection.
                         (Default: %d, Min: 0, Max: 3600)";
  "  -L conn_loss_time      Time in seconds to tolerate connection timeouts of reused connections.
                         This option mitigates half-open TCP connection issue (e.g. WAN IP change).
                         (Default: %d, Min: 5, Max: 60)";
  "  -C ca_path             Optional file containing CA certificates.";
  "  -c dscp_codepoint      Optional DSCP codepoint to set on upstream HTTPS server";
  "                         connections. (Min: 0, Max: 63)";
  "
 Process";
  "  -d                     Daemonize.";
  "  -u user                Optional user to drop to if launched as root.";
  "  -g group               Optional group to drop to if launched as root.";
  "
 Logging";
  "  -v                     Increase logging verbosity. (Default: error)";
  "                         Levels: fatal, stats, error, warning, info, debug";
  "                         Request issues are logged on warning level.";
  "  -l logfile             Path to file to log to. (Default: standard output)";
  "  -s statistic_interval  Optional statistic printout interval.
                         (Default: %d, Disabled: 0, Min: 1, Max: 3600)";
  "  -F log_limit           Flight recorder: storing desired amount of logs from all levels
                         in memory and dumping them on fatal error or on SIGUSR2 signal.
                         (Default: %u, Disabled: 0, Min: 100, Max: 100000)";
  "  -V                     Print versions and exit.";
  "  -h                     Print help and exit."
]%string.

(** ** Parsing *)

Definition OPTSTRING : string := "a:c:p:T:du:g:b:i:4r:e:t:l:vxqm:L:s:S:C:F:hV".

(** One iteration of the [while] loop: the options so far, or the result the
    function returns at once. *)
Definition parse_option (opt : Options) (r : opt_result) : OptionsParseResult + Options :=
  match r with
  | ("a"%char, Some optarg) => inr opt{{listen_addr := optarg}}
  | ("c"%char, Some optarg) => inr opt{{dscp := parse_int optarg}}
  | ("p"%char, Some optarg) => inr opt{{listen_port := parse_int optarg}}
  | ("T"%char, Some optarg) => inr opt{{tcp_client_limit := parse_int optarg}}
  | ("d"%char, None) => inr opt{{daemonize := 1}}
  | ("u"%char, Some optarg) => inr opt{{user := Some optarg}}
  | ("g"%char, Some optarg) => inr opt{{group := Some optarg}}
  | ("b"%char, Some optarg) => inr opt{{bootstrap_dns := optarg}}
  | ("i"%char, Some optarg) => inr opt{{bootstrap_dns_polling_interval := parse_int optarg}}
  | ("4"%char, None) => inr opt{{ipv4 := 1}}
  | ("r"%char, Some optarg) => inr opt{{resolver_url := Some optarg}}
  | ("t"%char, Some optarg) => inr opt{{curl_proxy := Some optarg}}
  | ("l"%char, Some optarg) => inr opt{{logfile := Some optarg}}
  | ("v"%char, None) => inr (if loglevel opt =? 0 then opt else opt{{loglevel := loglevel opt - 1}})
  | ("x"%char, None) =>
      if use_http_version opt =? DEFAULT_HTTP_VERSION then inr opt{{use_http_version := 1}}
      else inl OPR_OPTION_ERROR
  | ("q"%char, None) =>
      if use_http_version opt =? DEFAULT_HTTP_VERSION then inr opt{{use_http_version := 3}}
      else inl OPR_OPTION_ERROR
  | ("m"%char, Some optarg) => inr opt{{max_idle_time := parse_int optarg}}
  | ("L"%char, Some optarg) => inr opt{{conn_loss_time := parse_int optarg}}
  | ("s"%char, Some optarg) => inr opt{{stats_interval := parse_int optarg}}
  | ("S"%char, Some optarg) => inr opt{{source_addr := Some optarg}}
  | ("C"%char, Some optarg) => inr opt{{ca_info := Some optarg}}
  | ("F"%char, Some optarg) => inr opt{{flight_recorder_size := parse_int optarg}}
  | ("h"%char, None) => inl OPR_HELP
  | ("V"%char, None) => inl OPR_VERSION
  | _ => inl OPR_PARSING_ERROR
  end.

(** The loop: the options, and the result when the function returns in it. *)
Fixpoint parse_options (opt : Options) (rs : list opt_result) : option OptionsParseResult * Options :=
  match rs with
  | [] => (None, opt)
  | r :: rs => match parse_option opt r with
               | inl res => (Some res, opt)
               | inr opt => parse_options opt rs
               end
  end.

(** The range checks at the end: the message of the first that fails. *)
Definition range_error (opt : Options) : option string :=
  if match resolver_url opt with None => true | Some url => negb (String.prefix "https://" url) end
  then Some "Resolver prefix (%s) must be a https:// address."%string
  else if (bootstrap_dns_polling_interval opt <? 5) || (3600 <? bootstrap_dns_polling_interval opt)
  then Some "DNS servers polling interval must be between 5 and 3600."%string
  else if (max_idle_time opt <? 0) || (3600 <? max_idle_time opt)
  then Some "Maximum idle time must be between 0 and 3600."%string
  else if (conn_loss_time opt <? 5) || (60 <? conn_loss_time opt)
  then Some "Connection loss time must be between 5 and 60."%string
  else if (stats_interval opt <? 0) || (3600 <? stats_interval opt)
  then Some "Statistic interval must be between 0 and 3600."%string
  else if negb (flight_recorder_size opt =? 0) &&
          ((flight_recorder_size opt <? 100) || (100000 <? flight_recorder_size opt))
  then Some "Flight recorder limit must be between 100 and 100000."%string
  else if (listen_port opt <? 0) || (UINT16_MAX <? listen_port opt)
  then Some "Listen port must be between 0 and %u."%string
  else if (tcp_client_limit opt <? 0) || (MAX_TCP_CLIENTS <? tcp_client_limit opt)
  then Some "TCP client limit must be between 0 and %u."%string
  else None.

Section Operations.
Context `{Env} {W : Type}.

(** [user] and [group] looked up: [None] when the name is not usable. *)
Definition lookup_id (name : option string) (find : string -> call (option Z)) (msg : string) (id : Z) :
    M W (option Z) :=
  match name with
  | None => mret (Some id)
  | Some n =>
      p ← perform (find n);
      match (p : option Z) with
      | Some v => if v =? 0 then emit (Stdout msg) ;; mret None else mret (Some v)
      | None => emit (Stdout msg) ;; mret None
      end
  end.

Definition options_check (opt : Options) : M W (OptionsParseResult * Options) :=
  u ← lookup_id (user opt) Getpwnam "Username (%s) invalid." (uid opt);
  match u with
  | None => mret (OPR_OPTION_ERROR, opt)
  | Some u =>
      let opt := opt{{uid := u}} in
      g ← lookup_id (group opt) Getgrnam "Group (%s) invalid." (gid opt);
      match g with
      | None => mret (OPR_OPTION_ERROR, opt)
      | Some g =>
          let opt := opt{{gid := g}} in
          if (dscp opt <? 0) || (63 <? dscp opt) then
            emit (Stdout "DSCP code must be between 0 and 63.") ;; mret (OPR_OPTION_ERROR, opt)
          else
            let opt := opt{{dscp := Z.shiftl (dscp opt) 2}} in
            me ← perform Getuid;
            (if (me =? 0) && (negb (bool_decide (is_Some (user opt))) || negb (bool_decide (is_Some (group opt))))
             then
               emit (Stdout "WARNING: Running as root without dropping privileges is NOT recommended.") ;;
               emit (Slept 1000000)
             else mret tt) ;;
            opt ← (match logfile opt with
                   | Some f =>
                       if String.eqb f "-" then mret opt
                       else
                         fd ← perform (Open f);
                         (if fd <=? 0 then emit (Stdout "Could not open logfile '%s' for writing.") else mret tt) ;;
                         mret opt{{logfd := fd}}
                   | None => mret opt
                   end);
            match range_error opt with
            | Some msg => emit (Stdout msg) ;; mret (OPR_OPTION_ERROR, opt)
            | None => mret (OPR_SUCCESS, opt)
            end
      end
  end.

Definition options_parse_args (opt : Options) (args : list string) : M W (OptionsParseResult * Options) :=
  match parse_options opt (getopt OPTSTRING args) with
  | (Some OPR_OPTION_ERROR, opt) =>
      emit (Stdout "HTTP version already set to: HTTP/%s") ;; mret (OPR_OPTION_ERROR, opt)
  | (Some res, opt) => mret (res, opt)
  | (None, opt) => options_check opt
  end.

Definition options_cleanup (opt : Options) : M W unit :=
  if negb (logfd opt =? STDOUT_FILENO) && (0 <? logfd opt) then
    perform (Close (logfd opt)) ;; emit (Closed (logfd opt))
  else mret tt.

Fixpoint print_all (formats : list string) : M W unit :=
  match formats with
  | [] => mret tt
  | f :: rest => emit (Stdout f) ;; print_all rest
  end.

Definition options_show_usage : M W unit :=
  let defaults := options_init in
  print_all usage_formats ;;
  options_cleanup defaults.

End Operations.

(** ** Numbers *)

(** The decimal numeral of a number. *)
Definition decimal (n : N) : string := NilEmpty.string_of_uint (N.to_uint n).

Lemma read_digits_acc d : forall p,
  read_digits (Z.pos p) (NilEmpty.string_of_uint d) = (Z.pos (Pos.of_uint_acc d p), EmptyString).
Proof.
  induction d; intros p; cbn [NilEmpty.string_of_uint read_digits Pos.of_uint_acc]; [done|..];
    match goal with |- context [isdigit ?c] => change (isdigit c) with true end; cbn iota;
    rewrite <-IHd; f_equal; match goal with |- context [code ?c] => let v := eval vm_compute in (code c) in
      change (code c) with v end; lia.
Qed.

Lemma read_digits_uint d :
  read_digits 0 (NilEmpty.string_of_uint d) = (Z.of_N (N.of_uint d), EmptyString).
Proof.
  induction d; cbn [NilEmpty.string_of_uint read_digits]; [done|..];
    match goal with |- context [isdigit ?c] => change (isdigit c) with true end; cbn iota;
    match goal with |- context [code ?c] => let v := eval vm_compute in (code c) in
      change (code c) with v end; cbn [Z.mul Z.add Z.sub Z.opp Z.pos_sub Pos.pred_double]; [exact IHd|apply read_digits_acc..].
Qed.

Lemma decimal_digits n : starts_with_digit (decimal n) = true /\
  exists c s, decimal n = String c s /\ isspace c = false /\ code c <> 45 /\ code c <> 43.
Proof.
  unfold decimal. assert (N.to_uint n <> Nil) as Hn.
  { destruct n as [|p]; [done|]. apply DecimalPos.Unsigned.to_uint_nonnil. }
  destruct (N.to_uint n); [done|..]; cbn [NilEmpty.string_of_uint]; (split; [done|]);
    eexists _, _; (split; [done|]); vm_compute; (split; [done|split; discriminate]).
Qed.

Lemma strtoul_decimal n :
  strtoul (decimal n) = (if ULONG_MAX <? Z.of_N n then ULONG_MAX else Z.of_N n, EmptyString).
Proof.
  destruct (decimal_digits n) as [Hd (c & s & Heq & Hsp & Hm & Hp)]. unfold strtoul.
  assert (skip_spaces (decimal n) = String c s) as -> by (rewrite Heq; cbn; by rewrite Hsp).
  cbn iota. replace (code c =? 45) with false by lia. replace (code c =? 43) with false by lia.
  cbn iota. rewrite <-Heq, Hd. unfold decimal. rewrite read_digits_uint, DecimalN.Unsigned.of_to. done.
Qed.

Lemma strtoul_negative n :
  strtoul (String "-" (decimal n)) = (if ULONG_MAX <? Z.of_N n then ULONG_MAX else u64 (- Z.of_N n), EmptyString).
Proof.
  destruct (decimal_digits n) as [Hd _]. unfold strtoul.
  change (skip_spaces (String "-" (decimal n))) with (String "-" (decimal n)). cbn iota.
  replace (code "-" =? 45) with true by done. cbn iota. rewrite Hd. unfold decimal. rewrite read_digits_uint, DecimalN.Unsigned.of_to. done.
Qed.

Lemma read_digits_nonneg s : forall acc, 0 <= acc -> 0 <= fst (read_digits acc s).
Proof.
  induction s as [|c s IH]; intros acc Ha; cbn [read_digits]; [done|].
  destruct (isdigit c) eqn:E; [|done]. unfold isdigit in E. bool_facts. apply IH. lia.
Qed.

Lemma strtoul_range s : 0 <= fst (strtoul s).
Proof.
  unfold strtoul. set (pair := match skip_spaces s with String _ _ => _ | EmptyString => _ end).
  destruct pair as [neg u].
  destruct (starts_with_digit u); [|done].
  pose proof (read_digits_nonneg u 0 ltac:(lia)) as Hr. destruct (read_digits 0 u) as [v rest]. cbn in Hr |- *.
  destruct (ULONG_MAX <? v); [done|]. destruct neg; [|done]. apply Z.mod_pos_bound. done.
Qed.

Lemma parse_int_range s : -1 <= parse_int s <= INT32_MAX.
Proof.
  unfold parse_int. pose proof (strtoul_range s) as Hr. destruct (strtoul s) as [v [|c rest]]; cbn in Hr.
  - destruct (INT32_MAX <? v) eqn:E; bool_facts; unfold INT32_MAX in *; lia.
  - done.
Qed.

Lemma parse_int_decimal n : parse_int (decimal n) = if INT32_MAX <? Z.of_N n then -1 else Z.of_N n.
Proof.
  unfold parse_int. rewrite strtoul_decimal. destruct (ULONG_MAX <? Z.of_N n) eqn:E; bool_facts; [|done].
  unfold ULONG_MAX, INT32_MAX in *. by replace (2147483647 <? Z.of_N n) with true by lia.
Qed.

(** ** What a successful parse establishes *)

(** The fields the loop sets to one of a few values. *)
Record loop_ok (opt : Options) : Prop := {
  ok_http : use_http_version opt = 1 \/ use_http_version opt = 2 \/ use_http_version opt = 3;
  ok_level : 0 <= loglevel opt <= 3;
  ok_daemonize : daemonize opt = 0 \/ daemonize opt = 1;
  ok_ipv4 : ipv4 opt = 0 \/ ipv4 opt = 1;
  ok_uid : uid opt = NO_ID;
  ok_gid : gid opt = NO_ID;
  ok_logfd : logfd opt = STDOUT_FILENO
}.

Lemma options_init_ok : loop_ok options_init.
Proof. split; cbn; try done; try lia; auto. Qed.

Lemma parse_option_ok opt r opt' : loop_ok opt -> parse_option opt r = inr opt' -> loop_ok opt'.
Proof.
  intros [Hh Hl Hd H4 Hu Hg Hf].
  destruct r as [[b0 b1 b2 b3 b4 b5 b6 b7] o]; unfold parse_option;
    destruct b0, b1, b2, b3, b4, b5, b6, b7, o; try discriminate; intros Heq;
    repeat match type of Heq with context [if ?b then _ else _] => destruct b eqn:? end;
    try discriminate; injection Heq as <-; bool_facts; split; cbn; unfold constant; auto; lia.
Qed.

Lemma parse_options_ok rs : forall opt, loop_ok opt -> loop_ok (snd (parse_options opt rs)).
Proof.
  induction rs as [|r rs IH]; intros opt Hok; cbn [parse_options]; [done|].
  destruct (parse_option opt r) as [res|opt'] eqn:E; [done|]. eapply IH, parse_option_ok; eauto.
Qed.

Lemma parse_option_early opt r : parse_option opt r <> inl OPR_SUCCESS.
Proof.
  destruct r as [[b0 b1 b2 b3 b4 b5 b6 b7] o]; unfold parse_option;
    destruct b0, b1, b2, b3, b4, b5, b6, b7, o; try discriminate;
    destruct (use_http_version opt =? DEFAULT_HTTP_VERSION); discriminate.
Qed.

Lemma parse_options_early rs : forall opt, fst (parse_options opt rs) <> Some OPR_SUCCESS.
Proof.
  induction rs as [|r rs IH]; intros opt; cbn [parse_options]; [done|].
  pose proof (parse_option_early opt r). destruct (parse_option opt r); cbn; [congruence|apply IH].
Qed.

(** The ranges the proxy relies on. *)
Record valid (opt : Options) : Prop := {
  valid_url : exists path, resolver_url opt = Some ("https://" ++ path)%string;
  valid_interval : 5 <= bootstrap_dns_polling_interval opt <= 3600;
  valid_idle : 0 <= max_idle_time opt <= 3600;
  valid_loss : 5 <= conn_loss_time opt <= 60;
  valid_stats : 0 <= stats_interval opt <= 3600;
  valid_recorder : flight_recorder_size opt = 0 \/ 100 <= flight_recorder_size opt <= 100000;
  valid_port : 0 <= listen_port opt <= UINT16_MAX;
  valid_tcp : 0 <= tcp_client_limit opt <= MAX_TCP_CLIENTS;
  valid_http : use_http_version opt = 1 \/ use_http_version opt = 2 \/ use_http_version opt = 3;
  valid_level : 0 <= loglevel opt <= 3
}.

Lemma prefix_app p s : String.prefix p s = true -> exists t, s = (p ++ t)%string.
Proof.
  revert s. induction p as [|c p IH]; intros s Hp; [by exists s|].
  destruct s as [|c' s]; [done|]. cbn in Hp. destruct (ascii_dec c c') as [->|]; [|done].
  destruct (IH s Hp) as [t ->]. by exists t.
Qed.

Lemma prefix_of_app p t : String.prefix p (p ++ t) = true.
Proof.
  induction p as [|c p IH]; [by destruct t|].
  change (String c p +:+ t)%string with (String c (p +:+ t)%string). cbn.
  destruct (ascii_dec c c); [exact IH|congruence].
Qed.

Lemma check_passed (b : bool) (msg : string) (rest : option string) :
  (if b then Some msg else rest) = None <-> b = false /\ rest = None.
Proof. destruct b; split; [done|by intros []|done|by intros []]. Qed.

Lemma range_error_None opt :
  range_error opt = None <->
  (exists path, resolver_url opt = Some ("https://" ++ path)%string) /\
  5 <= bootstrap_dns_polling_interval opt <= 3600 /\ 0 <= max_idle_time opt <= 3600 /\
  5 <= conn_loss_time opt <= 60 /\ 0 <= stats_interval opt <= 3600 /\
  (flight_recorder_size opt = 0 \/ 100 <= flight_recorder_size opt <= 100000) /\
  0 <= listen_port opt <= UINT16_MAX /\ 0 <= tcp_client_limit opt <= MAX_TCP_CLIENTS.
Proof.
  unfold range_error. rewrite !check_passed.
  assert (match resolver_url opt with Some url => negb (String.prefix "https://" url) | None => true end = false <->
          exists path, resolver_url opt = Some ("https://" ++ path)%string) as ->.
  { destruct (resolver_url opt) as [url|]; [|split; [done|by intros []]].
    rewrite negb_false_iff. split; [intros Hp; destruct (prefix_app _ _ Hp) as [t ->]; by exists t|].
    intros [t [= ->]]. apply prefix_of_app. }
  assert (negb (flight_recorder_size opt =? 0) &&
     ((flight_recorder_size opt <? 100) || (100000 <? flight_recorder_size opt)) = false <->
     flight_recorder_size opt = 0 \/ 100 <= flight_recorder_size opt <= 100000) as -> by lia.
  rewrite !orb_false_iff, !Z.ltb_ge. tauto.
Qed.

Section Checks.
Context `{Env} {W : Type}.
Implicit Types (s : sys W).

(** [v] is what looking up [name] gives in the environment [e], which becomes
    [e']: nothing is looked up without a name, and root's identity is refused. *)
Definition looked_up (name : option string) (find : string -> call (option Z)) (v : Z) (e e' : env_state) : Prop :=
  match name with
  | None => v = NO_ID /\ e' = e
  | Some n => answer (find n) e = (Some v, e') /\ v <> 0
  end.

(** There is a name, and it is unknown or root's. *)
Definition rejected (name : option string) (find : string -> call (option Z)) (e : env_state) : Prop :=
  exists n, name = Some n /\ (fst (answer (find n) e) = None \/ fst (answer (find n) e) = Some 0).

(** The log goes to standard output, or to the descriptor [open] gave for the
    file. *)
Definition log_opened (file : option string) (fd : Z) (e : env_state) : Prop :=
  match file with
  | None => fd = STDOUT_FILENO
  | Some f => if String.eqb f "-" then fd = STDOUT_FILENO else fd = fst (answer (Open f) e)
  end.

(** The user, the group and the log file of [o], looked up in this order from
    the environment [e] on ([getuid] is asked in between). *)
Definition resolved (e : env_state) (o : Options) (u g fd : Z) : Prop :=
  exists e1 e2, looked_up (user o) Getpwnam u e e1 /\ looked_up (group o) Getgrnam g e1 e2 /\
    log_opened (logfile o) fd (snd (answer Getuid e2)).

Definition unresolved (e : env_state) (o : Options) : Prop :=
  rejected (user o) Getpwnam e \/
  exists u e1, looked_up (user o) Getpwnam u e e1 /\ rejected (group o) Getgrnam e1.

Lemma lookup_id_run name find msg s :
  wp (lookup_id name find msg NO_ID) s
    (fun s' r => match r with
                 | Some v => looked_up name find v (environment s) (environment s')
                 | None => rejected name find (environment s)
                 end) (fun _ _ => False).
Proof.
  unfold lookup_id, looked_up, rejected. destruct name as [n|]; [|by apply wp_ret].
  apply wp_bind, wp_perform. intros [v|] e He.
  - destruct (v =? 0) eqn:E; bool_facts; wp_steps; [|done]. exists n. split; [done|]. right. by rewrite He; subst.
  - wp_steps. exists n. split; [done|]. left. by rewrite He.
Qed.

(** The checks after the loop: what is stored when they pass, and what is wrong
    when they do not. *)
Definition settled (o : Options) (u g fd : Z) : Options := o{{uid := u; gid := g; dscp := 4 * dscp o; logfd := fd}}.

Definition check_outcome (e : env_state) (o : Options) (r : OptionsParseResult * Options) : Prop :=
  (exists u g fd, resolved e o u g fd /\ 0 <= dscp o <= 63 /\ range_error o = None /\ r = (OPR_SUCCESS, settled o u g fd)) \/
  (fst r = OPR_OPTION_ERROR /\ (unresolved e o \/ ~ (0 <= dscp o <= 63) \/ range_error o <> None)).

Lemma options_check_run opt s :
  loop_ok opt -> wp (options_check opt) s (fun _ r => check_outcome (environment s) opt r) (fun _ _ => False).
Proof.
  intros [Hh Hl Hd H4 Hu Hg Hf]. unfold options_check. rewrite Hu.
  apply wp_bind. eapply wp_mono; [apply lookup_id_run| |done].
  intros s1 [u|] Hid; [|apply wp_ret; right; split; [done|]; by left; left].
  change (gid opt{{uid := u}}) with (gid opt). rewrite Hg.
  apply wp_bind. eapply wp_mono; [apply lookup_id_run| |done].
  intros s2 [g|] Hgd; [|apply wp_ret; right; split; [done|]; left; right; by exists u, (environment s1)].
  change (dscp opt{{uid := u}}{{gid := g}}) with (dscp opt).
  destruct (_ || _) eqn:E; [wp_steps; right; split; [done|]; right; left; lia|].
  assert (0 <= dscp opt <= 63) as Hds by lia. rewrite Z.shiftl_mul_pow2, Z.mul_comm by lia.
  change (2 ^ 2) with 4. set (o := opt{{uid := u}}{{gid := g}}{{dscp := _}}).
  apply wp_bind, wp_perform. intros me e He. apply wp_bind.
  eapply (wp_mono _ _ (fun s' _ => environment s' = e) _ (fun _ _ => False)); [case_match; by wp_steps| |done].
  intros s3 [] He3. apply wp_bind.
  eapply (wp_mono _ _ (fun _ o' => exists fd, log_opened (logfile opt) fd e /\ o' = settled opt u g fd)
            _ (fun _ _ => False)); [| |done].
  - assert (o = settled opt u g STDOUT_FILENO) as Ho by (unfold o; clear -Hf; destruct opt; cbn in *; by subst).
    change (logfile o) with (logfile opt). unfold log_opened.
    destruct (logfile opt) as [f|]; [|wp_steps; by exists STDOUT_FILENO].
    destruct (String.eqb f "-") eqn:Ef; [wp_steps; by exists STDOUT_FILENO|].
    apply wp_bind, wp_perform. intros fd e' Ho'. rewrite He3 in Ho'.
    case_match; wp_steps; exists fd; by rewrite Ho'.
  - intros s4 o' (fd & Hlog & ->). change (range_error (settled opt u g fd)) with (range_error opt).
    destruct (range_error opt) as [msg|] eqn:Er.
    { wp_steps. right. split; [done|]. right; right. by rewrite Er. }
    apply wp_ret. left. exists u, g, fd. split; [|done].
    exists (environment s1), (environment s2). by rewrite He.
Qed.

(** What [OPR_SUCCESS] means, for a parse that begins in the environment [e]. *)
Definition settings_ok (e : env_state) (opt : Options) : Prop :=
  valid opt /\ resolved e opt (uid opt) (gid opt) (logfd opt) /\ (exists d, 0 <= d <= 63 /\ dscp opt = 4 * d).

Lemma settled_ok e opt u g fd :
  loop_ok opt -> resolved e opt u g fd -> 0 <= dscp opt <= 63 -> range_error opt = None -> settings_ok e (settled opt u g fd).
Proof.
  intros [Hh Hl Hd H4 Hu Hg Hf] Hr Hds (? & ? & ? & ? & ? & ? & ? & ?)%range_error_None.
  split; [by split|]. split; [exact Hr|]. by exists (dscp opt).
Qed.

End Checks.

Lemma parse_args_stays `{Env} {W} T `{!Lens W T} args : stays (W:=W) T (options_parse_args options_init args).
Proof. unfold options_parse_args, options_check, lookup_id. stay T. Qed.

(** A successful parse establishes the ranges. *)
Lemma parse_args_run `{Env} {W} args (s : sys W) :
  wp (options_parse_args options_init args) s
    (fun _ r => fst r = OPR_SUCCESS -> settings_ok (environment s) (snd r)) (fun _ _ => False).
Proof.
  unfold options_parse_args. pose proof (parse_options_ok (getopt OPTSTRING args) options_init options_init_ok) as Hok.
  destruct (parse_options options_init (getopt OPTSTRING args)) as [[res|] opt] eqn:E; cbn in Hok.
  - pose proof (parse_options_early (getopt OPTSTRING args) options_init) as Hs. rewrite E in Hs.
    destruct res; wp_steps; done.
  - eapply wp_mono; [by apply options_check_run| |done].
    intros s' r [(u & g & fd & Hr & Hd & He & ->)|[Hr _]] Hs; [by apply settled_ok|congruence].
Qed.

(** C30: whatever the command line, the parser returns one of its results and
    never crashes; if it reports success then every number is in the range the
    proxy relies on, the resolver is an https address, exactly one HTTP version
    is chosen, the DSCP code is shifted into its place, the uid is the one
    [getpwnam] gave for the user and not root's, the gid the one [getgrnam] gave
    for the group and not 0 (none of them without a name), and the log
    descriptor is what [open] gave for the log file, whether or not that is a
    descriptor, or standard output. *)
Theorem options_success_valid `{Env} {W} args (s : sys W) :
  wp (options_parse_args options_init args) s
    (fun _ r => fst r = OPR_SUCCESS -> settings_ok (environment s) (snd r)) (fun _ _ => False).
Proof. apply parse_args_run. Qed.

(** ** Round trip *)

(** The command line that asks for given options. *)
Definition int_arg (c : ascii) (n : Z) : list string := [String "-" (String c ""); decimal (Z.to_N n)].
Definition str_arg (c : ascii) (v : string) : list string := [String "-" (String c ""); v].
Definition opt_arg (c : ascii) (v : option string) : list string :=
  match v with Some v => str_arg c v | None => [] end.
Definition flag_arg (c : ascii) (on : bool) : list string :=
  if on then [String "-" (String c "")] else [].

Definition command_line (o : Options) : list string :=
  str_arg "a" (listen_addr o) ++ int_arg "p" (listen_port o) ++ int_arg "T" (tcp_client_limit o) ++
  opt_arg "l" (logfile o) ++ concat (repeat (flag_arg "v" true) (Z.to_nat (3 - loglevel o))) ++
  flag_arg "d" (daemonize o =? 1) ++ opt_arg "u" (user o) ++ opt_arg "g" (group o) ++
  str_arg "b" (bootstrap_dns o) ++ int_arg "i" (bootstrap_dns_polling_interval o) ++
  flag_arg "4" (ipv4 o =? 1) ++ int_arg "c" (dscp o) ++ opt_arg "r" (resolver_url o) ++
  opt_arg "t" (curl_proxy o) ++ opt_arg "S" (source_addr o) ++
  flag_arg "x" (use_http_version o =? 1) ++ flag_arg "q" (use_http_version o =? 3) ++
  int_arg "m" (max_idle_time o) ++ int_arg "L" (conn_loss_time o) ++ int_arg "s" (stats_interval o) ++
  opt_arg "C" (ca_info o) ++ int_arg "F" (flight_recorder_size o).

Lemma getopt_with_arg c v rest :
  kind_of OPTSTRING c = WithArg ->
  getopt OPTSTRING (str_arg c v ++ rest) = (c, Some v) :: getopt OPTSTRING rest.
Proof.
  destruct c as [b0 b1 b2 b3 b4 b5 b6 b7].
  destruct b0, b1, b2, b3, b4, b5, b6, b7; try discriminate; reflexivity.
Qed.

Lemma getopt_flag c rest :
  kind_of OPTSTRING c = Flag ->
  getopt OPTSTRING (flag_arg c true ++ rest) = (c, None) :: getopt OPTSTRING rest.
Proof.
  destruct c as [b0 b1 b2 b3 b4 b5 b6 b7].
  destruct b0, b1, b2, b3, b4, b5, b6, b7; try discriminate; reflexivity.
Qed.

(** The options found so far, continued with more arguments. *)
Definition parse_from (opt : Options) (args : list string) : option OptionsParseResult * Options :=
  parse_options opt (getopt OPTSTRING args).

Lemma parse_str c v rest opt opt' :
  kind_of OPTSTRING c = WithArg -> parse_option opt (c, Some v) = inr opt' ->
  parse_from opt (str_arg c v ++ rest) = parse_from opt' rest.
Proof. intros Hk Hp. unfold parse_from. rewrite getopt_with_arg by done. cbn [parse_options]. by rewrite Hp. Qed.

Lemma parse_int_str c n rest opt (set : Z -> Options) :
  kind_of OPTSTRING c = WithArg -> 0 <= n <= INT32_MAX ->
  (forall v, parse_option opt (c, Some v) = inr (set (parse_int v))) ->
  parse_from opt (int_arg c n ++ rest) = parse_from (set n) rest.
Proof.
  intros Hk Hn Hp. change (int_arg c n) with (str_arg c (decimal (Z.to_N n))).
  eapply parse_str; [done|]. rewrite Hp, parse_int_decimal, Z2N.id by lia.
  by replace (INT32_MAX <? n) with false by lia.
Qed.

Lemma parse_opt_str c (o : option string) rest opt (set : option string -> Options) :
  kind_of OPTSTRING c = WithArg -> set None = opt ->
  (forall v, parse_option opt (c, Some v) = inr (set (Some v))) ->
  parse_from opt (opt_arg c o ++ rest) = parse_from (set o) rest.
Proof. intros Hk Hn Hp. destruct o as [v|]; [by eapply parse_str|]. by rewrite Hn. Qed.

Lemma parse_flag c (on : bool) rest opt (set : bool -> Options) :
  kind_of OPTSTRING c = Flag -> set false = opt -> parse_option opt (c, None) = inr (set true) ->
  parse_from opt (flag_arg c on ++ rest) = parse_from (set on) rest.
Proof.
  intros Hk Hn Hp. destruct on; [|by rewrite Hn]. unfold parse_from. rewrite getopt_flag by done.
  cbn [parse_options]. by rewrite Hp.
Qed.

Lemma parse_verbosity n rest : forall opt,
  Z.of_nat n <= loglevel opt ->
  parse_from opt (concat (repeat (flag_arg "v" true) n) ++ rest) =
  parse_from opt{{loglevel := loglevel opt - Z.of_nat n}} rest.
Proof.
  induction n as [|n IH]; intros opt Hn.
  - cbn [repeat concat app]. f_equal. destruct opt; cbn. unfold constant. f_equal. lia.
  - change (concat (repeat (flag_arg "v" true) (S n)) ++ rest)
      with (flag_arg "v" true ++ concat (repeat (flag_arg "v" true) n) ++ rest).
    unfold parse_from at 1. rewrite getopt_flag by done. cbn [parse_options].
    assert (parse_option opt ("v"%char, None) = inr opt{{loglevel := loglevel opt - 1}}) as ->.
    { cbn. by replace (loglevel opt =? 0) with false by lia. }
    fold (parse_from opt{{loglevel := loglevel opt - 1}} (concat (repeat (flag_arg "v" true) n) ++ rest)).
    rewrite IH by (cbn; unfold constant; lia). f_equal.
    destruct opt; cbn. unfold constant. f_equal. lia.
Qed.

Lemma parse_version n rest opt :
  use_http_version opt = DEFAULT_HTTP_VERSION -> n = 1 \/ n = 2 \/ n = 3 ->
  parse_from opt (flag_arg "x" (n =? 1) ++ flag_arg "q" (n =? 3) ++ rest) =
  parse_from opt{{use_http_version := n}} rest.
Proof.
  intros Hv [-> | [-> | ->]]; [| |]; cbn [Z.eqb Pos.eqb].
  - rewrite (parse_flag "x" true _ opt (fun b : bool => if b then opt{{use_http_version := 1}} else opt)); [done..|].
    cbn. by rewrite Hv.
  - cbn [flag_arg app]. f_equal. destruct opt. cbn in *. by subst.
  - change (flag_arg "x" false ++ flag_arg "q" true ++ rest) with (flag_arg "q" true ++ rest).
    rewrite (parse_flag "q" true _ opt (fun b : bool => if b then opt{{use_http_version := 3}} else opt)); [done..|].
    cbn. by rewrite Hv.
Qed.

(** One field of the options set from one group of arguments. *)
Ltac parse_normal :=
  lazymatch goal with
  | |- parse_from ?opt _ = _ =>
      let o := eval cbv beta iota zeta delta [apply_update constant options_init loglevel] in opt in
      change opt with o
  end.
Ltac parse_field lem f :=
  lazymatch goal with
  | |- parse_from ?opt _ = _ => rewrite (lem _ _ _ opt (fun v => opt{{f := v}})); [parse_normal|try done; try lia..]
  end.
Ltac parse_text f :=
  lazymatch goal with
  | |- parse_from ?opt (str_arg _ ?v ++ _) = _ =>
      rewrite (parse_str _ _ _ opt opt{{f := v}}); [parse_normal|done..]
  end.
Ltac parse_switch f v0 v1 :=
  lazymatch goal with
  | |- parse_from ?opt _ = _ =>
      rewrite (parse_flag _ _ _ opt (fun b : bool => opt{{f := if b then v1 else v0}})); [parse_normal|try done..]
  end.

(** The options a command line can ask for. *)
Record expressible (o : Options) : Prop := {
  exp_loop : loop_ok o;
  exp_range : range_error o = None;
  exp_dscp : 0 <= dscp o <= 63;
  exp_logfile : is_Some (logfile o)
}.

Lemma parse_command_line o : expressible o -> parse_from options_init (command_line o) = (None, o).
Proof.
  intros [[Hh Hl Hd H4 Hu Hg Hf] (Hurl & ? & ? & ? & ? & ? & ? & ?)%range_error_None Hds [f Hlf]].
  destruct Hurl as [path Hurl]. unfold command_line, INT32_MAX, UINT16_MAX, MAX_TCP_CLIENTS in *.
  assert (forall n, 0 <= n <= 100000 -> 0 <= n <= INT32_MAX) as Hint by (unfold INT32_MAX; lia).
  rewrite Hlf, Hurl. cbn [opt_arg].
  parse_text listen_addr.
  parse_field parse_int_str listen_port; [|apply Hint; lia].
  parse_field parse_int_str tcp_client_limit; [|apply Hint; lia].
  erewrite (parse_str _ f); [parse_normal|done..].
  rewrite parse_verbosity by (cbn; lia). parse_normal.
  parse_switch daemonize 0 1.
  parse_field parse_opt_str user.
  parse_field parse_opt_str group.
  parse_text bootstrap_dns.
  parse_field parse_int_str bootstrap_dns_polling_interval; [|apply Hint; lia].
  parse_switch ipv4 0 1.
  parse_field parse_int_str dscp; [|apply Hint; lia].
  erewrite (parse_str _ (_ +:+ path)); [parse_normal|done..].
  parse_field parse_opt_str curl_proxy.
  parse_field parse_opt_str source_addr.
  rewrite parse_version by done. parse_normal.
  parse_field parse_int_str max_idle_time; [|apply Hint; lia].
  parse_field parse_int_str conn_loss_time; [|apply Hint; lia].
  parse_field parse_int_str stats_interval; [|apply Hint; lia].
  parse_field parse_opt_str ca_info.
  rewrite <-(app_nil_r (int_arg "F" _)).
  parse_field parse_int_str flight_recorder_size; [|apply Hint; lia].
  unfold parse_from. cbn [getopt parse_options]. f_equal.
  assert (3 - Z.of_nat (Z.to_nat (3 - loglevel o)) = loglevel o) as Hlev by lia.
  assert ((if daemonize o =? 1 then 1 else 0) = daemonize o) as Hdm by (by destruct Hd as [-> | ->]).
  assert ((if ipv4 o =? 1 then 1 else 0) = ipv4 o) as Hv4 by (by destruct H4 as [-> | ->]).
  destruct o. cbn in * |-. cbv [apply_update constant options_init loglevel]. cbn. f_equal; try assumption; try (symmetry; assumption).
Qed.

(** C31: round trip. For any options a command line can express, in any
    combination, parsing that command line yields exactly those options: no
    option is lost, confused with another or overwritten, and every number is
    read back as written.  Beyond them the result has what the parser adds: the
    DSCP code in its shifted form, the uid and the gid looked up for the user and
    the group, and the descriptor of the log file.  The parse fails only when the
    user or the group is unknown or root's. *)
Theorem options_roundtrip `{Env} {W} o (s : sys W) :
  expressible o ->
  wp (options_parse_args options_init (command_line o)) s
    (fun _ r =>
       (exists u g fd, resolved (environment s) o u g fd /\
          r = (OPR_SUCCESS, o{{uid := u; gid := g; dscp := 4 * dscp o; logfd := fd}})) \/
       (fst r = OPR_OPTION_ERROR /\ unresolved (environment s) o)) (fun _ _ => False).
Proof.
  intros Ho. pose proof (parse_command_line o Ho) as Hp. unfold parse_from in Hp.
  unfold options_parse_args. rewrite Hp. destruct Ho as [Hok Hr Hd _].
  eapply wp_mono; [by apply options_check_run| |done].
  intros s' r [(u & g & fd & Hres & _ & _ & ->)|[Hf [Hu|[?|?]]]]; [|by right|done..].
  left. by exists u, g, fd.
Qed.

Definition example_options : Options :=
  options_init{{listen_port := 53; tcp_client_limit := 0; daemonize := 1; loglevel := 1; dscp := 10;
    user := Some "nobody"%string; group := Some "nogroup"%string; logfile := Some "/var/log/proxy.log"%string;
    resolver_url := Some "https://doh.example/dns-query"%string; source_addr := Some "192.0.2.1"%string;
    use_http_version := 3; flight_recorder_size := 100}}.

Lemma options_roundtrip_witness :
  let s := @Sys generous _ tt tt [] in
  expressible example_options /\
  @wp generous _ _ (@options_parse_args generous unit options_init (command_line example_options)) s
    (fun _ r => r = (OPR_SUCCESS, example_options{{uid := 1000; gid := 1000; dscp := 40; logfd := 4}})) (fun _ _ => False).
Proof.
  intros s.
  assert (expressible example_options) as He.
  { split; [|reflexivity|vm_compute; split; discriminate|by eexists].
    split; try done; try (vm_compute; split; discriminate); vm_compute; auto. }
  split; [exact He|].
  eapply wp_mono; [exact (@options_roundtrip generous unit example_options s He)| |done].
  intros s' r [(u & g & fd & (e1 & e2 & [[= <- _] _] & [[= <- _] _] & Hfd) & ->)|[_ [(n & [= <-] & [|])|(u & e1 & _ & n & [= <-] & [|])]]];
    [|discriminate..].
  vm_compute in Hfd. by subst.
Defined.

(** [parse_int] reads every decimal numeral exactly or rejects it: a number
    that does not fit in an [int], however long, becomes -1, which every range
    check refuses. *)
Theorem parse_int_exact n :
  parse_int (decimal n) = if Z.of_N n <=? INT32_MAX then Z.of_N n else -1.
Proof. rewrite parse_int_decimal, Z.leb_antisym. by destruct (INT32_MAX <? Z.of_N n). Qed.

(** A negative number is not rejected as such: [strtoul] negates it modulo
    2^64, so that minus (2^64 - n) is accepted as n. *)
Theorem parse_int_negative n :
  (0 < Z.of_N n <= INT32_MAX) -> parse_int (String "-" (decimal (2 ^ 64 - n))) = Z.of_N n.
Proof.
  intros Hn. unfold INT32_MAX in *. unfold parse_int. rewrite strtoul_negative.
  assert (Z.of_N (2 ^ 64 - n) = 2 ^ 64 - Z.of_N n) as -> by (rewrite N2Z.inj_sub by lia; done).
  unfold ULONG_MAX. replace (18446744073709551615 <? 2 ^ 64 - Z.of_N n) with false by lia.
  unfold wrap. replace (- (2 ^ 64 - Z.of_N n)) with (Z.of_N n + (-1) * 2 ^ 64) by lia.
  rewrite Z_mod_plus_full, Z.mod_small by lia. unfold INT32_MAX.
  by replace (2147483647 <? Z.of_N n) with false by lia.
Qed.

Lemma parse_int_negative_witness : (0 < Z.of_N 53 <= INT32_MAX) /\ parse_int "-18446744073709551563" = 53.
Proof.
  assert (0 < Z.of_N 53 <= INT32_MAX) as Hn by (vm_compute; split; [reflexivity|discriminate]).
  split; [exact Hn|]. exact (parse_int_negative 53 Hn).
Defined.
