(* ===== verification/IoEvents.v ===== *)
(** * Watcher slots

    Both clients of the event loop that do not own their sockets, the bootstrap
    resolver (c-ares) and the HTTPS client (libcurl), keep a fixed array of
    [ev_io] watchers.  A slot whose [fd] is 0 is unused.  The library reports
    which events of a socket it waits for; the slot of the socket is released
    and, if it still waits for something, a slot is reserved again.  This file
    has the array operations and their abstract specification: the array
    represents the finite map from sockets to the events watched. *)

From Stdlib Require Import ZArith Lia.
From stdpp Require Import base tactics list option gmap.
From S2P Require Import Prelude.

Open Scope Z_scope.

Definition EV_READ : Z := 1.
Definition EV_WRITE : Z := 2.

Record ev_io := EvIo {
  io_fd : Z;
  io_mask : Z;
  io_active : bool
}.

(** An unused slot, as [calloc] leaves it. *)
Definition unused_io : ev_io := EvIo 0 0 false.

(** [for (i = 0; i < count; i++) if (io_events[i].fd == sock) return &io_events[i];] *)
Fixpoint get_io_event (io_events : list ev_io) (sock : Z) : option nat :=
  match io_events with
  | [] => None
  | w :: rest => if io_fd w =? sock then Some 0%nat else S <$> get_io_event rest sock
  end.

(** [ev_io_stop(loop, &io_events[i]); io_events[i].fd = 0;] *)
Definition release_io (io_events : list ev_io) (i : nat) : list ev_io :=
  alter (fun w => EvIo 0 (io_mask w) false) i io_events.

(** [ev_io_init(&io_events[i], cb, sock, mask); ev_io_start(loop, &io_events[i]);] *)
Definition reserve_io (io_events : list ev_io) (i : nat) (sock mask : Z) : list ev_io :=
  <[i := EvIo sock mask true]> io_events.

(** ** The map an array represents *)

Definition used (w : ev_io) : Prop := io_fd w <> 0.

(** A slot is active exactly when it is used, and no socket has two slots. *)
Record slots_ok (ws : list ev_io) : Prop := {
  slots_active : Forall (fun w => io_active w = negb (io_fd w =? 0)) ws;
  slots_unique : NoDup (filter (fun fd => fd <> 0) (io_fd <$> ws))
}.

(** The events watched, by socket. *)
Definition watched (ws : list ev_io) : gmap Z Z :=
  list_to_map (omap (fun w => if io_fd w =? 0 then None else Some (io_fd w, io_mask w)) ws).

Lemma watched_cons w ws :
  watched (w :: ws) = if io_fd w =? 0 then watched ws else <[io_fd w := io_mask w]> (watched ws).
Proof. unfold watched. cbn. by destruct (io_fd w =? 0). Qed.

Lemma slots_cons w ws :
  slots_ok (w :: ws) <->
  io_active w = negb (io_fd w =? 0) /\ slots_ok ws /\ (io_fd w <> 0 -> io_fd w ∉ (io_fd <$> ws)).
Proof.
  split.
  - intros [Ha Hu]. apply Forall_cons in Ha as [Hw Ha]. rewrite fmap_cons, filter_cons in Hu.
    case_decide as Hd.
    + apply NoDup_cons in Hu as [Hn Hu]. split; [done|]. split; [by split|].
      intros _ Hin. apply Hn, list_elem_of_filter. done.
    + split; [done|]. split; [by split|]. done.
  - intros (Hw & [Ha Hu] & Hn). split; [by constructor|]. rewrite fmap_cons, filter_cons.
    case_decide; [|done]. constructor; [|done]. rewrite list_elem_of_filter. naive_solver.
Qed.

Lemma watched_None ws fd : watched ws !! fd = None <-> fd = 0 \/ fd ∉ (io_fd <$> ws).
Proof.
  induction ws as [|w ws IH]; [by split; [right; apply not_elem_of_nil|]|].
  rewrite watched_cons. cbn. rewrite not_elem_of_cons.
  destruct (decide (fd = 0)) as [->|Hfd].
  - destruct (io_fd w =? 0) eqn:E; bool_facts; [|rewrite lookup_insert_None]; rewrite IH; tauto.
  - destruct (io_fd w =? 0) eqn:E; bool_facts; [|rewrite lookup_insert_None]; rewrite IH; intuition congruence.
Qed.

Lemma get_io_event_None ws fd : get_io_event ws fd = None <-> fd ∉ (io_fd <$> ws).
Proof.
  induction ws as [|w ws IH]; [split; [intros _; apply not_elem_of_nil|done]|].
  cbn [get_io_event]. rewrite fmap_cons, not_elem_of_cons.
  destruct (io_fd w =? fd) eqn:E; bool_facts; [split; [done|intros [? _]; congruence]|].
  rewrite fmap_None, IH. intuition congruence.
Qed.

Lemma get_io_event_Some ws fd i :
  get_io_event ws fd = Some i -> exists w, ws !! i = Some w /\ io_fd w = fd.
Proof.
  revert i. induction ws as [|w ws IH]; intros i; [done|]. cbn [get_io_event].
  destruct (io_fd w =? fd) eqn:E; bool_facts; [intros [= <-]; by exists w|].
  intros (j & Hj & ->)%fmap_Some. by apply IH.
Qed.

(** Releasing the slot of a socket forgets that socket and nothing else. *)
Lemma release_spec ws fd i :
  slots_ok ws -> fd <> 0 -> get_io_event ws fd = Some i ->
  slots_ok (release_io ws i) /\ watched (release_io ws i) = delete fd (watched ws) /\
  length (release_io ws i) = length ws.
Proof.
  intros Hok Hfd. revert i. unfold release_io.
  induction ws as [|w ws IH]; intros i Hi; [done|]. cbn [get_io_event] in Hi.
  apply slots_cons in Hok as (Hw & Hok & Hn).
  destruct (io_fd w =? fd) eqn:E; bool_facts.
  - injection Hi as <-. cbn [alter list_alter]. split; [|split; [|done]].
    + apply slots_cons. cbn. naive_solver.
    + rewrite !watched_cons. cbn. replace (io_fd w =? 0) with false by lia. rewrite E, delete_insert_id; [done|].
      apply watched_None. right. rewrite <-E. apply Hn. by rewrite E.
  - apply fmap_Some in Hi as (j & Hj & ->). destruct (IH Hok j Hj) as (Hok' & Hm & Hl).
    cbn [alter list_alter]. split; [|split; [|cbn; by rewrite Hl]].
    + apply slots_cons. split; [done|]. split; [done|]. intros Hne Hin. apply (Hn Hne).
      destruct (decide (io_fd w ∈ io_fd <$> ws)) as [|Hnin]; [done|exfalso].
      assert (watched (alter (fun x => EvIo 0 (io_mask x) false) j ws) !! io_fd w = None) as Hnone.
      { rewrite Hm, lookup_delete_ne by done. apply watched_None. by right. }
      apply watched_None in Hnone as [?|?]; done.
    + rewrite !watched_cons, Hm. destruct (io_fd w =? 0); [done|]. by rewrite delete_insert_ne.
Qed.

(** Reserving a free slot adds the socket and nothing else. *)
Lemma reserve_spec ws fd mask i :
  slots_ok ws -> fd <> 0 -> watched ws !! fd = None -> get_io_event ws 0 = Some i ->
  slots_ok (reserve_io ws i fd mask) /\ watched (reserve_io ws i fd mask) = <[fd := mask]> (watched ws) /\
  length (reserve_io ws i fd mask) = length ws.
Proof.
  intros Hok Hfd. revert i. unfold reserve_io.
  induction ws as [|w ws IH]; intros i Hnew Hi; [done|]. cbn [get_io_event] in Hi.
  apply slots_cons in Hok as (Hw & Hok & Hn). rewrite watched_cons in Hnew.
  destruct (io_fd w =? 0) eqn:E; bool_facts.
  - injection Hi as <-. cbn [insert list_insert]. split; [|split; [|done]].
    + apply slots_cons. cbn. replace (fd =? 0) with false by lia. split; [done|]. split; [done|].
      intros _. apply watched_None in Hnew as [?|?]; done.
    + rewrite !watched_cons. cbn. replace (fd =? 0) with false by lia. by rewrite E.
  - apply fmap_Some in Hi as (j & Hj & ->).
    apply lookup_insert_None in Hnew as [Hnew Hne].
    destruct (IH Hok j Hnew Hj) as (Hok' & Hm & Hl).
    change (<[S j := EvIo fd mask true]> (w :: ws)) with (w :: <[j := EvIo fd mask true]> ws).
    split; [|split; [|exact (f_equal S Hl)]].
    + apply slots_cons. split; [by replace (io_fd w =? 0) with false by lia|]. split; [exact Hok'|]. intros Hne0 Hin. apply (Hn Hne0).
      destruct (decide (io_fd w ∈ io_fd <$> ws)) as [|Hnin]; [done|exfalso].
      assert (watched (<[j := EvIo fd mask true]> ws) !! io_fd w = None) as Hnone.
      { rewrite Hm, lookup_insert_ne by done. apply watched_None. by right. }
      apply watched_None in Hnone as [?|?]; done.
    + rewrite !watched_cons, Hm. replace (io_fd w =? 0) with false by lia. by rewrite insert_insert_ne.
Qed.

(** After a release there is a free slot. *)
Lemma release_frees ws fd i : get_io_event ws fd = Some i -> get_io_event (release_io ws i) 0 <> None.
Proof.
  intros (w & Hw & _)%get_io_event_Some Hn. apply get_io_event_None in Hn. apply Hn.
  apply list_elem_of_fmap. exists (EvIo 0 (io_mask w) false). split; [done|].
  apply list_elem_of_lookup. exists i. unfold release_io. by rewrite list_lookup_alter_eq, Hw.
Qed.

(** Every slot is taken by a socket other than [fd]. *)
Definition exhausted (fd : Z) (ws : list ev_io) : Prop :=
  Forall (fun w => io_fd w <> 0 /\ io_fd w <> fd) ws.

Lemma exhausted_spec ws fd :
  get_io_event ws fd = None -> get_io_event ws 0 = None -> exhausted fd ws.
Proof.
  rewrite !get_io_event_None. intros Hfd H0. apply Forall_forall. intros w Hw.
  split; intros Heq; [apply H0|apply Hfd]; rewrite <-Heq; apply list_elem_of_fmap; by exists w.
Qed.
