(* ===== verification/DnsPoller.v ===== *)
(** * The bootstrap resolver (src/dns_poller.c)

    c-ares resolves the host name of the DNS-over-HTTPS server at intervals.
    The poller has one timer: it fires to start a query, to let c-ares handle
    timeouts while a query is under way, and again after the polling interval.
    c-ares calls back into the poller while it runs: the answer of a call of it
    is the list of these callbacks, which are then executed in order. *)

From Stdlib Require Import ZArith Lia String Strings.Byte.
From Stdlib Require SpecFloat.
From stdpp Require Import base tactics list option gmap.
From S2P Require Import Prelude Effects IoEvents.

Open Scope Z_scope.

Definition POLLER_ADDR_LIST_SIZE : Z := 1024.
Definition ARES_SUCCESS : Z := 0.
Definition ARES_EDESTRUCTION : Z := 16.
Definition AF_UNSPEC : family := AF_other 0.

Definition comma : byte := x2c.

(** The C string at the front of a buffer. *)
Fixpoint cstr (buf : list byte) : list byte :=
  match buf with
  | [] => []
  | b :: rest => if decide (b = x00) then [] else b :: cstr rest
  end.

(** [dns_poller_t]; [io_events] is [None] when the array is not allocated,
    [timer] is the delay of the timer when it is active. *)
Record dns_poller_t := Poller {
  hostname : list byte;
  poll_family : family;
  polling_interval : Z;
  request_ongoing : bool;
  timer : option double;
  io_events : option (list ev_io)
}.

Definition with_timer (t : option double) (d : dns_poller_t) : dns_poller_t :=
  Poller (hostname d) (poll_family d) (polling_interval d) (request_ongoing d) t (io_events d).
Definition with_ongoing (b : bool) (d : dns_poller_t) : dns_poller_t :=
  Poller (hostname d) (poll_family d) (polling_interval d) b (timer d) (io_events d).
Definition with_slots (ws : option (list ev_io)) (d : dns_poller_t) : dns_poller_t :=
  Poller (hostname d) (poll_family d) (polling_interval d) (request_ongoing d) (timer d) ws.

(** The constants 1e-6 and 0.1. *)
Definition micro : double := SpecFloat.S754_finite false 4722366482869645 (-72).
Definition tenth : double := SpecFloat.S754_finite false 7205759403792794 (-56).

(** [ares_inet_ntop]: the text of an address, or [None] when the buffer of the
    given size is too small. *)
Class AresNtop := ares_inet_ntop : family -> list byte -> Z -> option (list byte).

Section Operations.
Context `{Env} {W : Type} `{!Lens W dns_poller_t} `{!AresNtop}.

(** [d->cb(d->hostname, d->cb_data, addr_list)] *)
Variable cb : list byte -> option (list byte) -> M W unit.

(** The array of watchers. *)
Definition slots : M W (list ev_io) :=
  d ← get;
  match io_events d with
  | Some ws => mret ws
  | None => halt (Fault NullDereference)
  end.

Definition sock_state_cb (fd : Z) (readable writable : bool) : M W unit :=
  ws ← slots;
  (match get_io_event ws fd with
   | Some i => modify (with_slots (Some (release_io ws i))) ;; DLOG "Released used io event: %p"
   | None => mret tt
   end) ;;
  if negb readable && negb writable then mret tt
  else
    ws ← slots;
    match get_io_event ws 0 with
    | None => FLOG "c-ares needed more IO event handler, than the number of provided nameservers: %u"
    | Some i =>
        DLOG "Reserved new io event: %p" ;;
        modify (with_slots (Some (reserve_io ws i fd
          (Z.lor (if readable then EV_READ else 0) (if writable then EV_WRITE else 0)))))
    end.

(** Storing bytes in a buffer. *)
Definition write_at (buf : list byte) (pos : Z) (bs : list byte) : M W (list byte) :=
  if zlen buf <? pos + zlen bs then halt (Fault OutOfBounds)
  else mret (ztake pos buf ++ bs ++ zdrop (pos + zlen bs) buf).

(** The loop of [get_addr_listing]: the buffer and the position reached. *)
Fixpoint list_nodes (nodes : list ares_node) (list : list byte) (pos : Z) : M W (Datatypes.list byte * Z) :=
  match nodes with
  | [] => mret (list, pos)
  | node :: rest =>
      if POLLER_ADDR_LIST_SIZE - 1 <=? pos then
        DLOG "Not enough space for more addresses" ;; mret (list, pos)
      else
        let remaining := POLLER_ADDR_LIST_SIZE - 1 - pos in
        match node_family node with
        | AF_other _ => WLOG "Unhandled address family: %d" ;; list_nodes rest list pos
        | f =>
            match ares_inet_ntop f (node_addr node) remaining with
            | None =>
                DLOG "Not enough space left for further IP addresses" ;; mret (list, pos)
            | Some text =>
                list ← write_at list pos (text ++ [x00]);
                let pos := pos + zlen (cstr (zdrop pos list)) in
                if POLLER_ADDR_LIST_SIZE - 1 <=? pos then
                  DLOG "Not enough space for comma separator" ;; mret (list, pos)
                else
                  list ← write_at list pos [comma];
                  list_nodes rest list (pos + 1)
            end
        end
  end.

Definition get_addr_listing (nodes : list ares_node) : M W (option (list byte)) :=
  block ← perform (Malloc POLLER_ADDR_LIST_SIZE);
  if negb block then FLOG "Out of mem"
  else
    r ← list_nodes nodes (replicate (Z.to_nat POLLER_ADDR_LIST_SIZE) x00) 0;
    let '(list, pos) := (r : Datatypes.list byte * Z) in
    DLOG "Received %u IPv4 and %u IPv6 addresses" ;;
    if pos =? 0 then mret None
    else
      list ← write_at list (pos - 1) [x00];
      mret (Some (cstr list)).

(** [ev_timer_stop; ev_timer_set(interval, 0); ev_timer_start] *)
Definition restart_timer (interval : double) : M W unit := modify (with_timer (Some interval)).

Definition ares_cb (status : Z) (result : option (list ares_node)) : M W unit :=
  modify (with_ongoing false) ;;
  interval ←
    (if negb (status =? ARES_SUCCESS) then
       WLOG "DNS lookup of '%s' failed: %s" ;; mret (double_of_Z 5)
     else
       match result with
       | None | Some [] => WLOG "No hosts found for '%s'" ;; mret (double_of_Z 5)
       | Some nodes =>
           d ← get;
           list ← get_addr_listing nodes;
           cb (hostname d) list ;;
           mret (double_of_Z (polling_interval d))
       end);
  if status =? ARES_EDESTRUCTION then mret tt
  else DLOG "DNS poll interval changed to: %.0lf" ;; restart_timer interval.

(** The callbacks c-ares makes during a call, in order. *)
Fixpoint run_callbacks (cbs : list ares_callback) : M W unit :=
  match cbs with
  | [] => mret tt
  | Sock_state fd r w :: rest => sock_state_cb fd r w ;; run_callbacks rest
  | Resolved status result :: rest => ares_cb status result ;; run_callbacks rest
  end.

Definition ares_call (op : ares_op) : M W unit :=
  cbs ← perform (Ares op); run_callbacks cbs.

(** [sock_cb] of a watcher: which of its events occurred. *)
Definition sock_cb (fd : Z) (revents : Z) : M W unit :=
  ares_call (Ares_process_fd
    (if Z.land revents EV_READ =? 0 then None else Some fd)
    (if Z.land revents EV_WRITE =? 0 then None else Some fd)).

Definition set_bootstrap_source_addr (source_addr : option string) (f : family) : M W unit :=
  match source_addr with
  | None => mret tt
  | Some a =>
      v4 ← perform (Inet_pton false a);
      if (v4 : bool) then
        match f with
        | AF_INET6 => WLOG "Bootstrap source address '%s' is IPv4, but IPv6-only mode is set"
        | _ => perform (Ares_set_local_ip false a)
        end
      else
        v6 ← perform (Inet_pton true a);
        if (v6 : bool) then
          match f with
          | AF_INET => WLOG "Bootstrap source address '%s' is IPv6, but IPv4-only mode is set"
          | _ => perform (Ares_set_local_ip true a)
          end
        else WLOG "Bootstrap source address '%s' is not a valid IP literal"
  end.

Definition get_timeout : M W double :=
  tv ← perform (Ares_timeout 5);
  let after := dadd (double_of_Z (fst tv)) (dmul (double_of_Z (snd tv)) micro) in
  mret (if dltb tenth after then after else tenth).

Definition timer_cb : M W unit :=
  d ← get;
  (if request_ongoing d then
     DLOG "Processing DNS query timeouts" ;;
     ares_call (Ares_process_fd None None)
   else
     DLOG "Starting DNS query" ;;
     ares_call Ares_cancel ;;
     modify (with_ongoing true) ;;
     ares_call (Ares_getaddrinfo (hostname d) (poll_family d))) ;;
  d ← get;
  if request_ongoing d then
    interval ← get_timeout;
    DLOG "DNS poll interval changed to: %.03f" ;;
    restart_timer interval
  else mret tt.

(** The event loop stops the one-shot timer before it calls [timer_cb]. *)
Definition timer_fires : M W unit := modify (with_timer None) ;; timer_cb.

(** The number of commas of the server list, plus one. *)
Definition nameserver_count (bootstrap_dns : list byte) : nat :=
  S (length (filter (fun b => b = comma) bootstrap_dns)).

Definition dns_poller_init (bootstrap_dns : list byte) (bootstrap_dns_polling_interval : Z)
    (source_addr : option string) (host : list byte) (f : family) : M W unit :=
  r ← perform Ares_library_init;
  if negb (r =? ARES_SUCCESS) then FLOG "ares_library_init error: %s"
  else
    r ← perform Ares_init_options;
    if negb (r =? ARES_SUCCESS) then FLOG "ares_init_options error: %s"
    else
      r ← perform (Ares_set_servers bootstrap_dns);
      if negb (r =? ARES_SUCCESS) then FLOG "ares_set_servers_ports_csv error: %s"
      else
        set_bootstrap_source_addr source_addr f ;;
        put (Poller host f bootstrap_dns_polling_interval false (Some (double_of_Z 0)) None) ;;
        let nameservers := nameserver_count bootstrap_dns in
        DLOG "Nameservers count: %d" ;;
        block ← perform (Malloc (Z.of_nat nameservers));
        if negb block then FLOG "Out of mem"
        else modify (with_slots (Some (replicate nameservers unused_io))).

Definition dns_poller_cleanup : M W unit :=
  ares_call Ares_destroy ;;
  modify (with_timer None) ;;
  modify (with_slots None).

End Operations.

(** ** The address list *)

Definition INET6_ADDRSTRLEN : Z := 46.

(** [presentation] is the text of an address; [ares_inet_ntop] gives it when it
    fits in the buffer with its terminator. *)
Class NtopLaws `{AresNtop} (presentation : family -> list byte -> list byte) : Prop := {
  ntop_spec : forall f a n, ares_inet_ntop f a n =
    if zlen (presentation f a) <? n then Some (presentation f a) else None;
  ntop_text : forall f a, presentation f a <> [] /\ x00 ∉ presentation f a;
  ntop_short : forall f a, zlen (presentation f a) < INET6_ADDRSTRLEN
}.

(** The texts of the addresses of the families the proxy knows. *)
Definition texts (presentation : family -> list byte -> list byte) (nodes : list ares_node) : list (list byte) :=
  omap (fun n => match node_family n with
                 | AF_other _ => None
                 | f => Some (presentation f (node_addr n))
                 end) nodes.

(** The first texts that fit in [space] bytes, each with a separator behind it. *)
Fixpoint fitting (space : Z) (ts : list (list byte)) : list (list byte) :=
  match ts with
  | [] => []
  | t :: ts => if zlen t <? space then t :: fitting (space - zlen t - 1) ts else []
  end.

(** Texts separated by commas. *)
Definition join (ts : list (list byte)) : list byte :=
  match ts with
  | [] => []
  | t :: ts => t ++ concat (map (cons comma) ts)
  end.

(** The list for an answer: as many addresses as fit, [None] without any. *)
Definition listing (presentation : family -> list byte -> list byte) (nodes : list ares_node) :
    option (list byte) :=
  match fitting 1023 (texts presentation nodes) with
  | [] => None
  | ts => Some (join ts)
  end.

(** Each text followed by a comma: what the loop has written. *)
Definition commas (ts : list (list byte)) : list byte := concat (map (fun t => t ++ [comma]) ts).

Lemma commas_join ts : ts <> [] -> commas ts = join ts ++ [comma].
Proof.
  destruct ts as [|t ts]; [done|]. intros _. unfold join. revert t.
  induction ts as [|t' ts IH]; intros t.
  - unfold commas. cbn. by rewrite !app_nil_r.
  - change (commas (t :: t' :: ts)) with ((t ++ [comma]) ++ commas (t' :: ts)). rewrite (IH t').
    cbn. rewrite <-!app_assoc. cbn. by rewrite <-!app_assoc.
Qed.

Lemma commas_cons t ts : commas (t :: ts) = (t ++ [comma]) ++ commas ts.
Proof. done. Qed.

Lemma cstr_stop t rest : x00 ∉ t -> cstr (t ++ x00 :: rest) = t.
Proof.
  induction t as [|b t IH]; intros Hn; cbn; [by rewrite decide_True|].
  apply not_elem_of_cons in Hn as [? ?]. rewrite decide_False by done. by rewrite IH.
Qed.

Lemma join_text ts : Forall (fun t => x00 ∉ t) ts -> x00 ∉ join ts.
Proof.
  destruct ts as [|t ts]; [intros _; apply not_elem_of_nil|]. intros [Ht Hts]%Forall_cons. cbn.
  rewrite not_elem_of_app. split; [done|]. induction ts as [|t' ts IH]; cbn; [apply not_elem_of_nil|].
  apply Forall_cons in Hts as [Ht' Hts]. rewrite not_elem_of_cons, not_elem_of_app. naive_solver.
Qed.

Lemma fitting_Forall (P : list byte -> Prop) ts : forall space, Forall P ts -> Forall P (fitting space ts).
Proof.
  induction ts as [|t ts IH]; intros space Hall; cbn; [done|]. apply Forall_cons in Hall as [? ?].
  destruct (zlen t <? space); [by constructor; [|apply IH]|done].
Qed.

Section Listing.
Context `{Env} {W : Type} `{!Lens W dns_poller_t} `{!AresNtop}.
Context presentation `{!NtopLaws presentation}.
Implicit Types (s : sys W).

Lemma write_at_run buf pos bs s :
  0 <= pos -> pos + zlen bs <= zlen buf ->
  wp (write_at buf pos bs) s
    (fun s' buf' => s' = s /\ buf' = ztake pos buf ++ bs ++ zdrop (pos + zlen bs) buf) (fun _ _ => False).
Proof. intros. unfold write_at. replace (zlen buf <? pos + zlen bs) with false by lia. by wp_steps. Qed.

(** The memory while the list is built: what was written, then zeros. *)
Definition zeros (n : Z) : list byte := replicate (Z.to_nat n) x00.

Lemma zlen_zeros n : 0 <= n -> zlen (zeros n) = n.
Proof. intros. unfold zlen, zeros. rewrite length_replicate. lia. Qed.

Lemma zdrop_zeros k n : 0 <= k <= n -> zdrop k (zeros n) = zeros (n - k).
Proof. intros. unfold zdrop, zeros. rewrite drop_replicate. f_equal. lia. Qed.

Lemma zeros_cons n : 0 < n -> zeros n = x00 :: zeros (n - 1).
Proof. intros. unfold zeros. replace (Z.to_nat n) with (S (Z.to_nat (n - 1))) by lia. done. Qed.

(** Writing over the zeros. *)
Lemma write_over done bs s :
  zlen done + zlen bs <= 1024 ->
  wp (write_at (done ++ zeros (1024 - zlen done)) (zlen done) bs) s
    (fun s' buf' => s' = s /\ buf' = (done ++ bs) ++ zeros (1024 - zlen (done ++ bs))) (fun _ _ => False).
Proof.
  intros Hl. pose proof (zlen_nonneg done). pose proof (zlen_nonneg bs).
  eapply wp_mono; [apply write_at_run; [done|rewrite zlen_app, zlen_zeros by lia; lia]| |done].
  intros s' buf' [-> ->]. split; [done|].
  rewrite ztake_app_exact by done. rewrite <-zdrop_zdrop by lia. rewrite zdrop_app_exact by done.
  rewrite zdrop_zeros by lia. rewrite zlen_app, app_assoc. do 2 f_equal. lia.
Qed.

(** What the loop has written when it ends. *)
Definition listed done nodes s (s' : sys W) (r : list byte * Z) : Prop :=
  let ts := done ++ fitting (1023 - zlen (commas done)) (texts presentation nodes) in
  part dns_poller_t s' = part _ s /\
  r = (commas ts ++ zeros (1024 - zlen (commas ts)), zlen (commas ts)) /\ zlen (commas ts) <= 1023.

(** One address: written with its comma, or the list ends before it. *)
Lemma list_one f addr node nodes done s :
  (forall done s, zlen (commas done) <= 1023 -> Forall (fun t => x00 ∉ t) done ->
     wp (list_nodes nodes (commas done ++ zeros (1024 - zlen (commas done))) (zlen (commas done))) s
       (listed done nodes s) (fun _ _ => False)) ->
  texts presentation (node :: nodes) = presentation f addr :: texts presentation nodes ->
  zlen (commas done) < 1023 -> Forall (fun t => x00 ∉ t) done ->
  wp (match ares_inet_ntop f addr (1023 - zlen (commas done)) with
      | None =>
          DLOG "Not enough space left for further IP addresses" ;;
          mret (commas done ++ zeros (1024 - zlen (commas done)), zlen (commas done))
      | Some text =>
          list ← write_at (commas done ++ zeros (1024 - zlen (commas done))) (zlen (commas done)) (text ++ [x00]);
          let pos := zlen (commas done) + zlen (cstr (zdrop (zlen (commas done)) list)) in
          if 1023 <=? pos then
            DLOG "Not enough space for comma separator" ;; mret (list, pos)
          else
            list ← write_at list pos [comma];
            list_nodes nodes list (pos + 1)
      end) s (listed done (node :: nodes) s) (fun _ _ => False).
Proof.
  intros IH Htx Hl Hz. unfold listed. rewrite Htx. cbn [fitting]. set (text := presentation f addr).
  rewrite ntop_spec. fold text. destruct (ntop_text f addr) as [Hne Hnul]. fold text in Hne, Hnul.
  pose proof (zlen_nonneg text). pose proof (zlen_nonneg (commas done)).
  set (pos := zlen (commas done)) in *.
  destruct (zlen text <? 1023 - pos) eqn:E; bool_facts.
  2:{ do 2 see_step dns_poller_t. rewrite app_nil_r. fold pos. repeat split; [done|lia]. }
  apply wp_bind. eapply wp_mono; [apply write_over; fold pos; rewrite zlen_app; change (zlen [x00]) with 1; lia| |done].
  intros s1 buf [-> ->]. cbn zeta.
  assert (zdrop pos ((commas done ++ text ++ [x00]) ++ zeros (1024 - zlen (commas done ++ text ++ [x00]))) =
          text ++ x00 :: zeros (1024 - zlen (commas done ++ text ++ [x00]))) as Hdrop.
  { rewrite <-app_assoc, zdrop_app_exact by done. by rewrite <-app_assoc. }
  rewrite Hdrop, cstr_stop by done. replace (1023 <=? pos + zlen text) with false by lia.
  assert (zlen (commas done ++ text ++ [x00]) = pos + zlen text + 1) as Hlen.
  { rewrite !zlen_app. fold pos. change (zlen [x00]) with 1. lia. }
  assert ((commas done ++ text ++ [x00]) ++ zeros (1024 - zlen (commas done ++ text ++ [x00])) =
          (commas done ++ text) ++ zeros (1024 - zlen (commas done ++ text))) as ->.
  { rewrite Hlen, zlen_app. fold pos. rewrite (zeros_cons (1024 - (pos + zlen text))) by lia.
    rewrite <-!app_assoc. cbn. do 4 f_equal. lia. }
  replace (pos + zlen text) with (zlen (commas done ++ text)) by (rewrite zlen_app; done).
  apply wp_bind. eapply wp_mono; [apply write_over; rewrite zlen_app; fold pos; change (zlen [comma]) with 1; lia| |done].
  intros s1 buf [-> ->].
  assert ((commas done ++ text) ++ [comma] = commas (done ++ [text])) as Hc.
  { unfold commas. rewrite map_app, concat_app. cbn. by rewrite app_nil_r, app_assoc. }
  replace (zlen (commas done ++ text) + 1) with (zlen ((commas done ++ text) ++ [comma])) by (rewrite !zlen_app; done).
  rewrite Hc. assert (zlen (commas (done ++ [text])) = pos + zlen text + 1) as Hlen2.
  { rewrite <-Hc, !zlen_app. fold pos. change (zlen [comma]) with 1. lia. }
  eapply wp_mono; [apply (IH (done ++ [text])); [lia|]| |done].
  { apply Forall_app. split; [done|]. by constructor. }
  intros s2 r (Hp & Hr & Hb). rewrite Hlen2 in Hr, Hb. rewrite <-app_assoc in Hr, Hb. cbn [app] in Hr, Hb.
  replace (1023 - (pos + zlen text + 1)) with (1023 - pos - zlen text - 1) in Hr, Hb by lia. done.
Qed.

Lemma list_nodes_run nodes : forall done s,
  zlen (commas done) <= 1023 -> Forall (fun t => x00 ∉ t) done ->
  wp (list_nodes nodes (commas done ++ zeros (1024 - zlen (commas done))) (zlen (commas done))) s
    (listed done nodes s) (fun _ _ => False).
Proof.
  induction nodes as [|node nodes IH]; intros done s Hl Hz; cbn [list_nodes].
  { see_step dns_poller_t. unfold listed. cbn. by rewrite app_nil_r. }
  unfold POLLER_ADDR_LIST_SIZE. change (1024 - 1) with 1023.
  destruct (1023 <=? zlen (commas done)) eqn:E; bool_facts.
  { do 2 see_step dns_poller_t. unfold listed. split; [done|].
    assert (fitting (1023 - zlen (commas done)) (texts presentation (node :: nodes)) = []) as ->; [|by rewrite app_nil_r].
    destruct (texts _ _) as [|t ts]; [done|]. cbn. pose proof (zlen_nonneg t).
    by replace (zlen t <? 1023 - zlen (commas done)) with false by lia. }
  destruct (node_family node) eqn:Ef.
  - apply list_one; try done. cbn. by rewrite Ef.
  - apply list_one; try done. cbn. by rewrite Ef.
  - see_step dns_poller_t. eapply wp_mono; [by apply IH| |done].
    intros s1 r (Hp1 & Hr & Hb). unfold listed.
    assert (texts presentation (node :: nodes) = texts presentation nodes) as -> by (cbn; by rewrite Ef).
    split; [congruence|done].
Qed.

Lemma get_addr_listing_run nodes s :
  wp (get_addr_listing nodes) s
    (fun s' r => part dns_poller_t s' = part _ s /\ r = listing presentation nodes)
    (fun _ r => r = Exited 1 /\ fst (answer (Malloc POLLER_ADDR_LIST_SIZE) (environment s)) = false).
Proof.
  unfold get_addr_listing. apply wp_bind, wp_perform. intros b e Ha.
  destruct b; cbn [negb]; cbn iota; [|wp_steps; by rewrite Ha]. apply wp_bind.
  eapply wp_mono; [apply (list_nodes_run nodes []); done| |intros ? ? []].
  intros s1 r (Hp1 & -> & Hl). cbn [app] in *. change (1023 - zlen (commas [])) with 1023 in *.
  set (ts := fitting 1023 (texts presentation nodes)) in *. see_step dns_poller_t.
  assert (Forall (fun t => x00 ∉ t) ts) as Hnul.
  { apply fitting_Forall, Forall_forall. intros t (n & _ & Hn)%list_elem_of_omap.
    destruct (node_family n); simplify_eq; apply ntop_text. }
  unfold listing. fold ts. destruct (decide (ts = [])) as [Hts|Hts].
  - rewrite Hts. change (zlen (commas []) =? 0) with true. cbn iota. see_step dns_poller_t. split; [|done]. rewrite Hp. exact Hp1.
  - rewrite (commas_join ts Hts) in *. rewrite zlen_app in *. change (zlen [comma]) with 1 in *.
    pose proof (zlen_nonneg (join ts)). replace (zlen (join ts) + 1 =? 0) with false by lia.
    apply wp_bind. eapply wp_mono; [apply write_at_run; [lia|rewrite !zlen_app, zlen_zeros by lia; change (zlen [comma]) with 1; change (zlen [x00]) with 1; lia]| |intros ? ? []].
    intros s2 buf [-> ->]. see_step dns_poller_t. split; [rewrite Hp; exact Hp1|]. transitivity (Some (join ts)); [f_equal|by destruct ts].
    replace (zlen (join ts) + 1 - 1) with (zlen (join ts)) by lia.
    rewrite <-app_assoc, ztake_app_exact by done. cbn [app]. apply cstr_stop. by apply join_text.
Qed.

End Listing.

(** ** Watchers and timer *)

(** The events of a socket as a mask. *)
Definition wanted (readable writable : bool) : Z :=
  Z.lor (if readable then EV_READ else 0) (if writable then EV_WRITE else 0).

(** What the watchers should be after c-ares reported a socket. *)
Definition watch (fd : Z) (readable writable : bool) (m : gmap Z Z) : gmap Z Z :=
  if readable || writable then <[fd := wanted readable writable]> m else delete fd m.

(** An answer has no address or one of a family that was asked for. *)
Definition addressed (result : option (list ares_node)) : Prop :=
  match result with
  | None | Some [] => True
  | Some nodes => Exists (fun n => node_family n = AF_INET \/ node_family n = AF_INET6) nodes
  end.

(** c-ares uses no descriptor 0, reports destruction only when it is destroyed,
    and lists addresses of the families that were asked for. *)
Class OrderlyAres `{Env} : Prop := {
  ares_fd_nonzero : forall op e fd r w, Sock_state fd r w ∈ fst (answer (Ares op) e) -> fd <> 0;
  ares_destruction : forall op e result, op <> Ares_destroy ->
    Resolved ARES_EDESTRUCTION result ∉ fst (answer (Ares op) e);
  ares_addressed : forall op e status result,
    Resolved status result ∈ fst (answer (Ares op) e) -> addressed result
}.

(** The callback of the poller gets a list and leaves the poller alone; [J] is
    what it needs of the rest of the program and establishes again. *)
Class PollCallback `{Env} {W} `{!Lens W dns_poller_t} (stops : stop -> Prop) (J : sys W -> Prop)
    (cb : list byte -> option (list byte) -> M W unit) : Prop :=
  poll_cb_keeps : forall host list (s : sys W), J s ->
    wp (cb host (Some list)) s (fun s' _ => part dns_poller_t s' = part _ s /\ J s') (fun _ r => stops r).

(** An answer with an address gives a list. *)
Lemma listing_Some `{AresNtop} presentation `{!NtopLaws presentation} nodes :
  nodes <> [] -> addressed (Some nodes) -> is_Some (listing presentation nodes).
Proof.
  intros Hne Ha. unfold listing.
  assert (texts presentation nodes <> []) as Ht.
  { destruct nodes as [|n0 ns]; [done|]. unfold texts.
    apply Exists_exists in Ha as (n & Hin & Hf). intros Hnil.
    assert (presentation (node_family n) (node_addr n) ∈ @nil (list byte)) as Hx; [|by apply not_elem_of_nil in Hx].
    rewrite <-Hnil. apply list_elem_of_omap. exists n. split; [done|]. by destruct Hf as [-> | ->]. }
  assert (forall t, t ∈ texts presentation nodes -> zlen t < 46) as Hs.
  { intros t (n & _ & Hn)%list_elem_of_omap. destruct (node_family n); simplify_eq; apply ntop_short. }
  destruct (texts presentation nodes) as [|t ts]; [done|]. cbn [fitting].
  rewrite (proj2 (Z.ltb_lt _ _)); [by eexists|]. specialize (Hs t ltac:(set_solver)). lia.
Qed.

Section Stays.
Context `{Env} {W : Type} `{!Lens W dns_poller_t} `{!AresNtop}.
Abbreviation stays m := (stays (W:=W) dns_poller_t m).

Lemma slots_stays : stays slots.
Proof. unfold slots. stay dns_poller_t. Qed.
Lemma sock_state_cb_stays fd r w : stays (sock_state_cb fd r w).
Proof. unfold sock_state_cb. stay dns_poller_t; apply slots_stays. Qed.
Lemma write_at_stays buf pos bs : stays (write_at buf pos bs).
Proof. unfold write_at. stay dns_poller_t. Qed.
Lemma list_nodes_stays nodes : forall list pos, stays (list_nodes nodes list pos).
Proof. induction nodes; intros list pos; cbn [list_nodes]; stay dns_poller_t; auto using write_at_stays. Qed.
Lemma get_addr_listing_stays nodes : stays (get_addr_listing nodes).
Proof. unfold get_addr_listing. stay dns_poller_t; auto using list_nodes_stays, write_at_stays. Qed.
Lemma init_stays servers interval source host f : stays (dns_poller_init servers interval source host f).
Proof. unfold dns_poller_init, set_bootstrap_source_addr. stay dns_poller_t. Qed.
Lemma get_timeout_stays : stays get_timeout.
Proof. unfold get_timeout. stay dns_poller_t. Qed.

End Stays.

Section Watching.
Context `{Env} {W : Type} `{!Lens W dns_poller_t} `{!AresNtop}.
Implicit Types (s : sys W) (d : dns_poller_t) (ws : list ev_io).

Lemma wp_slots ws s Φ Ψ : io_events (part _ s) = Some ws -> Φ s ws -> wp slots s Φ Ψ.
Proof. intros Hw HΦ. unfold slots. apply wp_bind, wp_get. rewrite Hw. by apply wp_ret. Qed.

(** The watchers follow what c-ares reports, one per socket. *)
Lemma sock_state_cb_run fd r w ws s :
  io_events (part _ s) = Some ws -> slots_ok ws -> fd <> 0 ->
  wp (sock_state_cb fd r w) s
    (fun s' _ => exists ws', part _ s' = with_slots (Some ws') (part _ s) /\ slots_ok ws' /\
       length ws' = length ws /\ watched ws' = watch fd r w (watched ws))
    (fun _ e => e = Exited 1 /\ exhausted fd ws).
Proof.
  intros Hws Hok Hfd. unfold sock_state_cb. apply wp_bind. eapply wp_slots; [done|]. apply wp_bind.
  set (Φ := fun s1 (_ : unit) => exists ws1, part dns_poller_t s1 = with_slots (Some ws1) (part _ s) /\
    slots_ok ws1 /\ length ws1 = length ws /\ watched ws1 = delete fd (watched ws) /\
    (get_io_event ws1 0 = None -> exhausted fd ws)).
  eapply (wp_mono _ _ Φ _ (fun _ _ => False)); [| |done].
  - destruct (get_io_event ws fd) as [i|] eqn:Ei.
    + destruct (release_spec ws fd i Hok Hfd Ei) as (Hok1 & Hm & Hl). do 2 see_step dns_poller_t.
      exists (release_io ws i). rewrite Hp0, Hp. split; [done|]. repeat (split; [done|]).
      intros Hn. by destruct (release_frees ws fd i Ei).
    + see_step dns_poller_t. exists ws. split; [destruct (part dns_poller_t s); cbn in *; by subst|].
      split; [done|]. split; [done|]. split; [|by apply exhausted_spec]. symmetry. apply delete_id, watched_None.
      right. by apply get_io_event_None.
  - intros s1 [] (ws1 & Hp1 & Hok1 & Hl1 & Hm1 & Hex). unfold watch.
    rewrite <-negb_orb. destruct (r || w) eqn:Erw; cbn [negb]; [|see_step dns_poller_t; by exists ws1].
    apply wp_bind. eapply wp_slots; [by rewrite Hp1|].
    destruct (get_io_event ws1 0) as [i|] eqn:E0; [|see_step dns_poller_t; split; [done|by apply Hex]].
    assert (watched ws1 !! fd = None) as Hnone by (rewrite Hm1; apply lookup_delete_eq).
    destruct (reserve_spec ws1 fd (wanted r w) i Hok1 Hfd Hnone E0) as (Hok2 & Hm2 & Hl2).
    do 2 see_step dns_poller_t. exists (reserve_io ws1 i fd (wanted r w)). rewrite Hp0, Hp, Hp1.
    split; [done|]. split; [done|]. split; [congruence|]. by rewrite Hm2, Hm1, insert_delete_eq.
Qed.

Definition watching d : Prop := exists ws, io_events d = Some ws /\ slots_ok ws.

(** What the callbacks of c-ares may do to the poller: a lookup that ended has
    armed the timer; otherwise timer and request are as before. *)
Definition evolves d d' : Prop :=
  watching d' /\ hostname d' = hostname d /\ poll_family d' = poll_family d /\
  polling_interval d' = polling_interval d /\
  (is_Some (timer d') \/ (timer d' = timer d /\ request_ongoing d' = request_ongoing d)).

Lemma evolves_refl d : watching d -> evolves d d.
Proof. intros Hw. repeat (split; [done|]). by right. Qed.

Lemma evolves_trans d1 d2 d3 : evolves d1 d2 -> evolves d2 d3 -> evolves d1 d3.
Proof.
  intros (_ & H1 & H2 & H3 & H4) (Hw & H1' & H2' & H3' & H4').
  split; [done|]. repeat (split; [congruence|]). destruct H4' as [?|[Ht Hr]]; [by left|].
  destruct H4 as [Hs|[? ?]]; [left; by rewrite Ht|right; split; congruence].
Qed.

Lemma get_timeout_seen s :
  wp get_timeout s (fun s' _ => part dns_poller_t s' = part dns_poller_t s) (fun _ _ => False).
Proof. unfold get_timeout. by do 2 see_step dns_poller_t. Qed.

Context presentation `{!NtopLaws presentation}.
Context (stops : stop -> Prop) (J : sys W -> Prop) `{!Framed dns_poller_t J}.
Context cb `{!PollCallback (W:=W) stops J cb}.

(** How the poller may end the process. *)
Definition poller_stops (r : stop) : Prop := r = Exited 1 \/ stops r.

Lemma ares_cb_run status result s :
  J s -> watching (part _ s) -> status <> ARES_EDESTRUCTION -> addressed result ->
  wp (ares_cb cb status result) s
    (fun s' _ => watching (part _ s') /\ evolves (part _ s) (part _ s') /\ is_Some (timer (part _ s')) /\
       request_ongoing (part _ s') = false /\ J s')
    (fun _ r => poller_stops r).
Proof.
  intros HJ Hw Hst Hadr. unfold ares_cb.
  apply wp_bind, (modify_framed dns_poller_t J); [done|]. intros s0 HJ0 Hp0. apply wp_bind.
  apply wp_mono with (Φ := fun s1 _ => part dns_poller_t s1 = with_ongoing false (part _ s) /\ J s1)
                     (Ψ := fun _ r => poller_stops r); [| |done].
  - assert (forall fmt, wp (WLOG fmt ;; mret (double_of_Z 5)) s0
      (fun s1 _ => part dns_poller_t s1 = with_ongoing false (part _ s) /\ J s1) (fun _ r => poller_stops r)) as Hwarn.
    { intros fmt. apply (log_framed dns_poller_t J); [done|]. intros s1 HJ1 Hp1. apply wp_ret. split; congruence. }
    destruct (negb (status =? ARES_SUCCESS)); [apply Hwarn|].
    destruct result as [[|node nodes]|]; [apply Hwarn| |apply Hwarn].
    apply wp_bind, wp_get, wp_bind.
    destruct (listing_Some presentation (node :: nodes) ltac:(done) Hadr) as [list Hlist].
    eapply (wp_framed dns_poller_t J); [apply get_addr_listing_stays|exact HJ0|apply (get_addr_listing_run presentation)
      | |intros ? ? [-> _]; by left].
    intros s1 r HJ1 [Hp1 ->]. rewrite Hlist. apply wp_bind.
    eapply wp_mono; [by apply poll_cb_keeps| |intros ? ? ?; by right].
    intros s2 [] [Hp2 HJ2]. apply wp_ret. split; congruence.
  - intros s1 interval [Hp1 HJ1]. replace (status =? ARES_EDESTRUCTION) with false by lia.
    apply (log_framed dns_poller_t J); [done|]. intros s2 HJ2 Hp2.
    apply (modify_framed dns_poller_t J); [done|]. intros s3 HJ3 Hp3. rewrite Hp3, Hp2, Hp1. unfold evolves, watching in *. cbn.
    repeat (split; [done|]). split; [|by split; [eexists|]]. repeat (split; [done|]). left. by eexists.
Qed.

Lemma run_callbacks_run cbs : forall s,
  (forall fd r w, Sock_state fd r w ∈ cbs -> fd <> 0) ->
  (forall result, Resolved ARES_EDESTRUCTION result ∉ cbs) ->
  (forall status result, Resolved status result ∈ cbs -> addressed result) ->
  J s -> watching (part _ s) ->
  wp (run_callbacks cb cbs) s (fun s' _ => evolves (part _ s) (part _ s') /\ J s') (fun _ r => poller_stops r).
Proof.
  induction cbs as [|c cbs IH]; intros s Hfd Hde Hadr HJ Hw; cbn [run_callbacks].
  { apply wp_ret. split; [by apply evolves_refl|done]. }
  assert (forall s1, J s1 -> watching (part _ s1) ->
            wp (run_callbacks cb cbs) s1 (fun s' _ => evolves (part _ s1) (part _ s') /\ J s') (fun _ r => poller_stops r)) as Hrest.
  { intros s1 HJ1 Hw1. apply IH; [intros; eapply Hfd; by right|intros result Hin; apply (Hde result); by right
      |intros st result Hin; apply (Hadr st); by right|done|done]. }
  destruct c as [fd r w|status result]; apply wp_bind.
  - destruct Hw as (ws & Hws & Hok).
    eapply (wp_framed dns_poller_t J); [apply sock_state_cb_stays|exact HJ
      |apply (sock_state_cb_run fd r w ws); [done|done|eapply Hfd; by left]| |intros ? ? [-> _]; by left].
    intros s1 [] HJ1 (ws1 & Hp1 & Hok1 & _).
    assert (watching (part _ s1)) as Hw1 by (exists ws1; by rewrite Hp1).
    eapply wp_mono; [by apply Hrest| |done]. intros s2 [] [He HJ2]. split; [|done]. eapply evolves_trans; [|exact He].
    split; [done|]. rewrite Hp1. cbn. repeat (split; [done|]). by right.
  - eapply wp_mono; [apply ares_cb_run; [done|done| |]| |done].
    { intros ->. apply (Hde result). by left. }
    { apply (Hadr status). by left. }
    intros s1 [] (Hw1 & He1 & _ & _ & HJ1). eapply wp_mono; [by apply Hrest| |done].
    intros s2 [] [He2 HJ2]. split; [by eapply evolves_trans|done].
Qed.

Context `{!OrderlyAres}.

Lemma ares_call_run c s :
  c <> Ares_destroy -> J s -> watching (part _ s) ->
  wp (ares_call cb c) s (fun s' _ => evolves (part _ s) (part _ s') /\ J s') (fun _ r => poller_stops r).
Proof.
  intros Hc HJ Hw. unfold ares_call. apply wp_bind, wp_perform. intros cbs e Ha.
  apply (run_callbacks_run cbs (Sys (world s) e (trace s))); [| | | |exact Hw].
  - intros fd r w Hin. apply (ares_fd_nonzero c (environment s) fd r w). by rewrite Ha.
  - intros result Hin. apply (ares_destruction c (environment s) result Hc). by rewrite Ha.
  - intros status result Hin. apply (ares_addressed c (environment s) status). by rewrite Ha.
  - by eapply (framed dns_poller_t s); [apply own_world|].
Qed.

(** The timer is armed again whenever [timer_cb] returns. *)
Lemma timer_fires_run s :
  J s -> watching (part _ s) ->
  wp (timer_fires cb) s (fun s' _ => watching (part _ s') /\ is_Some (timer (part _ s')) /\ J s')
    (fun _ r => poller_stops r).
Proof.
  intros HJ Hw. unfold timer_fires, timer_cb. apply wp_bind, (modify_framed dns_poller_t J); [done|]. intros s0 HJ0 Hp.
  apply wp_bind, wp_get.
  assert (watching (part _ s0)) as Hw0 by (by rewrite Hp).
  apply wp_bind. apply wp_mono with
    (Φ := fun s1 _ => watching (part dns_poller_t s1) /\ (is_Some (timer (part _ s1)) \/ request_ongoing (part _ s1) = true) /\ J s1)
    (Ψ := fun _ r => poller_stops r); [| |done].
  - destruct (request_ongoing (part _ s0)) eqn:Eo; (apply (log_framed dns_poller_t J); [done|]); intros s1 HJ1 Hp1.
    + eapply wp_mono; [apply ares_call_run; [done|done|by rewrite Hp1]| |done].
      intros s2 [] ((Hw2 & _ & _ & _ & Ht2) & HJ2). split; [done|]. split; [|done].
      destruct Ht2 as [?|[_ Hr]]; [by left|right]. congruence.
    + apply wp_bind. eapply wp_mono; [apply ares_call_run; [done|done|by rewrite Hp1]| |done].
      intros s2 [] ((Hw2 & _) & HJ2). apply wp_bind, (modify_framed dns_poller_t J); [done|]. intros s3 HJ3 Hp3.
      eapply wp_mono; [apply ares_call_run; [done|done|by rewrite Hp3]| |done].
      intros s4 [] ((Hw4 & _ & _ & _ & Ht4) & HJ4). split; [done|]. split; [|done].
      destruct Ht4 as [?|[_ Hr]]; [by left|right]. by rewrite Hr, Hp3.
  - intros s1 [] (Hw1 & Ht1 & HJ1). apply wp_bind, wp_get. destruct (request_ongoing (part _ s1)).
    + apply wp_bind. eapply (wp_framed dns_poller_t J); [apply get_timeout_stays|exact HJ1
        |apply get_timeout_seen| |done].
      intros s2 interval HJ2 Hp2. apply (log_framed dns_poller_t J); [done|]. intros s3 HJ3 Hp3.
      apply (modify_framed dns_poller_t J); [done|]. intros s4 HJ4 Hp4. rewrite Hp4, Hp3, Hp2. split; [exact Hw1|]. split; [by eexists|done].
    + apply wp_ret. split; [done|]. split; [by destruct Ht1|done].
Qed.

Lemma unused_slots_ok n : slots_ok (replicate n unused_io).
Proof.
  induction n as [|n IH]; [split; constructor|]. apply slots_cons. split; [done|]. split; [done|]. done.
Qed.

Lemma dns_poller_init_run servers interval source host f s :
  wp (dns_poller_init servers interval source host f) s
    (fun s' _ => watching (part _ s') /\ is_Some (timer (part _ s'))) (fun _ r => r = Exited 1).
Proof.
  unfold dns_poller_init.
  do 3 (see_step dns_poller_t; destruct (negb (_ =? ARES_SUCCESS)); [by see_step dns_poller_t|]).
  apply wp_bind. apply wp_mono with (Φ := fun _ _ => True) (Ψ := fun _ r => r = Exited 1); [| |done].
  { unfold set_bootstrap_source_addr. destruct source as [addr|]; [|by see_step dns_poller_t].
    repeat first [see_step dns_poller_t; [] | progress case_match]; done. }
  intros s3 [] _. do 3 see_step dns_poller_t. destruct a2; cbn [negb]; cbn iota; [|by see_step dns_poller_t].
  see_step dns_poller_t. rewrite Hp5, Hp4, Hp3, Hp2. split; [|by eexists].
  eexists. split; [done|]. apply unused_slots_ok.
Qed.

(** The states of a poller in use: its timer fires when it is armed, c-ares is
    told about the sockets that are watched, and anything happens elsewhere. *)
Inductive polling : sys W -> Prop :=
| polling_init servers interval source host f s s' :
    J s -> dns_poller_init servers interval source host f s = Ok s' tt -> polling s'
| polling_timer s s' :
    polling s -> is_Some (timer (part _ s)) -> timer_fires cb s = Ok s' tt -> polling s'
| polling_socket fd revents s s' :
    polling s -> (exists ws, io_events (part _ s) = Some ws /\ is_Some (watched ws !! fd)) ->
    sock_cb cb fd revents s = Ok s' tt -> polling s'
| polling_outside s s' : polling s -> part dns_poller_t s' = part _ s -> J s' -> polling s'.

Lemma sock_cb_run fd revents s :
  J s -> watching (part _ s) -> is_Some (timer (part _ s)) ->
  wp (sock_cb cb fd revents) s (fun s' _ => watching (part _ s') /\ is_Some (timer (part _ s')) /\ J s')
    (fun _ r => poller_stops r).
Proof.
  intros HJ Hw Ht. unfold sock_cb. eapply wp_mono; [by apply ares_call_run| |done].
  intros s1 [] ((Hw1 & _ & _ & _ & Hor) & HJ1). split; [done|]. split; [|done]. destruct Hor as [?|[-> _]]; done.
Qed.

Lemma polling_inv s : polling s -> watching (part _ s) /\ is_Some (timer (part _ s)) /\ J s.
Proof.
  induction 1 as [servers interval source host f s s' HJ Hi|s s' _ (Hw & _ & HJ) _ Ht
    |fd revents s s' _ (Hw & Ht & HJ) _ Hs|s s' _ (Hw & Ht & _) Hp HJ].
  - pose proof (dns_poller_init_run servers interval source host f s) as Hr.
    pose proof (init_stays servers interval source host f s) as Ho. unfold wp in Hr, Ho. rewrite Hi in Hr, Ho.
    destruct Hr as [? ?]. split; [done|]. split; [done|]. by eapply framed.
  - pose proof (timer_fires_run s HJ Hw) as Hr. unfold wp in Hr. by rewrite Ht in Hr.
  - pose proof (sock_cb_run fd revents s HJ Hw Ht) as Hr. unfold wp in Hr. by rewrite Hs in Hr.
  - by rewrite Hp.
Qed.

End Watching.

(** Comparison of doubles is asymmetric. *)
Lemma dltb_asym a b : dltb a b = true -> dltb b a = false.
Proof.
  unfold dltb, SpecFloat.SFltb, SpecFloat.SFcompare.
  destruct a as [[]|[]| |[] ma ea], b as [[]|[]| |[] mb eb]; try done;
    rewrite (Z.compare_antisym ea eb); destruct (ea ?= eb) eqn:E; cbn; try done;
    change (Pos.compare_cont Eq) with Pos.compare; rewrite (Pos.compare_antisym ma mb);
    by destruct (ma ?= mb)%positive.
Qed.

(** ** Theorems *)

(** C26: the address list handed over is exactly the comma-separated texts of the
    IPv4 and IPv6 addresses of the answer, in order, as many as fit in the 1024
    bytes of the buffer; an address is never cut, the buffer never overrun, and
    there is no list only when there is no such address. *)
Theorem addr_listing_complete `{Env} {W} `{!Lens W dns_poller_t} `{!AresNtop} presentation
    `{!NtopLaws presentation} nodes (s : sys W) :
  fst (answer (Malloc POLLER_ADDR_LIST_SIZE) (environment s)) = true ->
  wp (get_addr_listing nodes) s (fun _ r => r = listing presentation nodes) (fun _ _ => False).
Proof.
  intros Hm. eapply wp_mono; [apply (get_addr_listing_run presentation)|by intros s' r [_ ->]|].
  intros s' r [_ Hf]. congruence.
Qed.

(** A text for the witnesses: fifteen characters. *)
Definition fifteen (f : family) (a : list byte) : list byte := replicate 15 x31.
Definition toy_ntop : AresNtop := fun f a n =>
  if zlen (fifteen f a) <? n then Some (fifteen f a) else None.

Lemma toy_ntop_laws : @NtopLaws toy_ntop fifteen.
Proof.
  split; [done| |done]. intros f a. split; [done|]. apply (bool_decide_unpack _). vm_compute. exact I.
Defined.

Definition example_poller : dns_poller_t := Poller [x61] AF_UNSPEC 120 false None None.
Definition example_nodes : list ares_node :=
  [AresNode AF_INET [x01]; AresNode (AF_other 1) []; AresNode AF_INET6 [x02]].

Lemma addr_listing_complete_witness :
  let s := @Sys generous _ example_poller tt [] in
  listing fifteen example_nodes = Some (replicate 15 x31 ++ comma :: replicate 15 x31) /\
  @wp generous _ _ (@get_addr_listing generous _ toy_ntop example_nodes) s
    (fun _ r => r = listing fifteen example_nodes) (fun _ _ => False).
Proof.
  intros s. split; [vm_compute; reflexivity|].
  exact (@addr_listing_complete generous _ _ toy_ntop fifteen toy_ntop_laws example_nodes s eq_refl).
Defined.

Lemma fitting_replicate t k : zlen t = 15 -> forall n,
  fitting (16 * Z.of_nat k + 15) (replicate n t) = replicate (min n k) t.
Proof.
  intros Ht. induction k as [|k IH]; intros [|n]; try done; cbn [replicate fitting]; rewrite Ht.
  - done.
  - rewrite (proj2 (Z.ltb_lt 15 (16 * Z.of_nat (S k) + 15))) by lia. cbn [min replicate]. f_equal.
    rewrite <-IH. f_equal. lia.
Qed.

(** The buffer, said to be enough for 64 IPv4 addresses, holds 63 of the
    longest ones. *)
Theorem addr_list_capacity `{Env} {W} `{!Lens W dns_poller_t} `{!AresNtop} presentation
    `{!NtopLaws presentation} addr (s : sys W) :
  zlen (presentation AF_INET addr) = 15 ->
  fst (answer (Malloc POLLER_ADDR_LIST_SIZE) (environment s)) = true ->
  wp (get_addr_listing (replicate 64 (AresNode AF_INET addr))) s
    (fun _ r => r = Some (join (replicate 63 (presentation AF_INET addr)))) (fun _ _ => False).
Proof.
  intros Ht Hm. eapply wp_mono; [apply (get_addr_listing_run presentation)| |].
  - intros s' r [_ ->]. unfold listing.
    change (texts presentation (replicate 64 (AresNode AF_INET addr))) with (replicate 64 (presentation AF_INET addr)).
    by rewrite (fitting_replicate _ 63 Ht).
  - intros s' r [_ Hf]. congruence.
Qed.

Lemma addr_list_capacity_witness :
  let s := @Sys generous _ example_poller tt [] in
  zlen (fifteen AF_INET []) = 15 /\
  @wp generous _ _ (@get_addr_listing generous _ toy_ntop (replicate 64 (AresNode AF_INET []))) s
    (fun _ r => r = Some (join (replicate 63 (fifteen AF_INET [])))) (fun _ _ => False).
Proof.
  intros s. split; [vm_compute; reflexivity|].
  exact (@addr_list_capacity generous _ _ toy_ntop fifteen toy_ntop_laws [] s eq_refl eq_refl).
Defined.

(** C27: the watchers of the poller represent exactly what c-ares waits for: after
    [sock_state_cb] the socket is watched for the events reported, or no longer,
    all other sockets as before, with one slot per socket; the process exits only
    when every slot is taken by another socket. *)
Theorem sock_state_refines `{Env} {W} `{!Lens W dns_poller_t} fd r w ws (s : sys W) :
  io_events (part _ s) = Some ws -> slots_ok ws -> fd <> 0 ->
  wp (sock_state_cb fd r w) s
    (fun s' _ => exists ws', io_events (part _ s') = Some ws' /\ slots_ok ws' /\
       length ws' = length ws /\ watched ws' = watch fd r w (watched ws))
    (fun _ e => e = Exited 1 /\ exhausted fd ws).
Proof.
  intros Hws Hok Hfd. eapply wp_mono; [by apply sock_state_cb_run| |done].
  intros s' [] (ws' & Hp & Hr). exists ws'. by rewrite Hp.
Qed.

Lemma sock_state_refines_witness :
  let ws := replicate 2 unused_io in
  let s := @Sys generous _ (with_slots (Some ws) example_poller) tt [] in
  slots_ok ws /\
  @wp generous _ _ (@sock_state_cb generous _ _ 5 true false) s
    (fun s' _ => exists ws', io_events (@part generous _ dns_poller_t _ s') = Some ws' /\ slots_ok ws' /\
       length ws' = length ws /\ watched ws' = watch 5 true false (watched ws))
    (fun _ e => e = Exited 1 /\ exhausted 5 ws).
Proof.
  intros ws s. pose proof (unused_slots_ok 2) as Hok. split; [exact Hok|].
  exact (@sock_state_refines generous _ _ 5 true false ws s eq_refl Hok ltac:(discriminate)).
Defined.

(** C25: polling never stalls. In every state a poller in use can reach its timer
    is armed and its watchers are consistent; when the timer fires the poller
    either ends the process as [FLOG] does (or its callback did), or the timer is
    armed again afterwards, whether a lookup is started, under way, finished or
    failed within the call. *)
Theorem poller_never_stalls `{Env} {W} `{!Lens W dns_poller_t} `{!AresNtop} presentation
    `{!NtopLaws presentation} stops J `{!Framed dns_poller_t J} cb `{!PollCallback (W:=W) stops J cb}
    `{!OrderlyAres} (s : sys W) :
  polling J cb s ->
  watching (part dns_poller_t s) /\ is_Some (timer (part _ s)) /\
  wp (timer_fires cb) s (fun s' _ => polling J cb s' /\ is_Some (timer (part _ s')))
    (fun _ r => r = Exited 1 \/ stops r).
Proof.
  intros Hs. destruct (polling_inv presentation stops J cb s Hs) as (Hw & Ht & HJ). split; [done|]. split; [done|].
  pose proof (timer_fires_run presentation stops J cb s HJ Hw) as Hr. unfold wp in *.
  destruct (timer_fires cb s) as [s' []|s' r] eqn:E; [|done].
  split; [by eapply polling_timer|by destruct Hr as (_ & ? & _)].
Qed.

(** A resolver that waits on socket 5 and answers when it is processed. *)
Definition resolving : Env :=
  {| env_state := unit;
     answer A c e :=
       match c in call A return A * unit with
       | Ares (Ares_getaddrinfo _ _) => ([Sock_state 5 true false], e)
       | Ares (Ares_process_fd _ _) =>
           ([Sock_state 5 false false; Resolved ARES_SUCCESS (Some example_nodes)], e)
       | c => (generous_answer c, e)
       end |}.

Lemma resolving_orderly : @OrderlyAres resolving.
Proof.
  split.
  - intros op e fd r w. destruct op; cbn; rewrite ?elem_of_cons, ?elem_of_nil; intros Hin;
      repeat destruct Hin as [Hin|Hin]; try done; by injection Hin as -> _ _.
  - intros op e result Hne. destruct op; cbn; rewrite ?not_elem_of_cons; try done;
      repeat split; try discriminate; apply not_elem_of_nil.
  - intros op e status result. destruct op; cbn; rewrite ?elem_of_cons, ?elem_of_nil; intros Hin;
      repeat destruct Hin as [Hin|Hin]; try done. injection Hin as -> ->. apply Exists_cons_hd. by left.
Defined.

Definition ignore_list `{Env} {W} (_ : list byte) (_ : option (list byte)) : M W unit := mret tt.

Lemma ignore_list_ok `{Env} {W} `{!Lens W dns_poller_t} stops : PollCallback stops (fun _ => True) (@ignore_list _ W).
Proof. intros host list s _. done. Qed.

Definition poller_state {A} (o : @outcome resolving dns_poller_t A) : @sys resolving dns_poller_t :=
  match o with Ok s _ => s | Stop s _ => s end.

Definition initialised : @sys resolving dns_poller_t :=
  poller_state (@dns_poller_init resolving _ _ [x38; comma; x39] 120 None [x61] AF_UNSPEC
    (@Sys resolving _ example_poller tt [])).

Lemma poller_never_stalls_witness :
  @polling resolving _ _ toy_ntop (fun _ => True) ignore_list initialised /\
  (watching (@part resolving _ dns_poller_t _ initialised) /\
   is_Some (timer (@part resolving _ dns_poller_t _ initialised)) /\
   @wp resolving _ _ (@timer_fires resolving _ _ toy_ntop ignore_list) initialised
     (fun s' _ => @polling resolving _ _ toy_ntop (fun _ => True) ignore_list s' /\
        is_Some (timer (@part resolving _ dns_poller_t _ s')))
     (fun _ r => r = Exited 1 \/ False)).
Proof.
  assert (@polling resolving _ _ toy_ntop (fun _ => True) ignore_list initialised) as Hs.
  { apply (@polling_init resolving _ _ toy_ntop (fun _ => True) ignore_list [x38; comma; x39] 120 None [x61] AF_UNSPEC
      (@Sys resolving _ example_poller tt [])); [exact I|]. vm_compute. reflexivity. }
  split; [exact Hs|].
  exact (@poller_never_stalls resolving _ _ toy_ntop fifteen toy_ntop_laws (fun _ => False) (fun _ => True)
           (@framed_True resolving _ _ _) ignore_list (@ignore_list_ok resolving _ _ _) resolving_orderly initialised Hs).
Defined.

(** While a lookup is under way the timer waits at least a tenth of a second,
    whatever c-ares asks for: the event loop does not spin. *)
Theorem poll_timeout_floor `{Env} {W} (s : sys W) :
  wp get_timeout s (fun _ t => dltb t tenth = false) (fun _ _ => False).
Proof.
  unfold get_timeout. apply wp_bind, wp_perform. intros tv e _. apply wp_ret.
  destruct (dltb tenth _) eqn:E; [by apply dltb_asym|by vm_compute].
Qed.
