(* ===== verification/AddrList.v ===== *)
(** * Comparing address lists ([addr_list_reduced] of src/main.c)

    The proxy keeps its connection to the resolver as long as every address it
    was given before is still in the new answer of the bootstrap resolver; the
    lists are strings of addresses separated by commas. *)

From Stdlib Require Import ZArith Lia String Strings.Byte.
From stdpp Require Import base tactics list option gmap.
From S2P Require Import Prelude Effects DnsPoller.

Open Scope Z_scope.

(** [sizeof(current)] *)
Definition CURRENT_SIZE : Z := 50.

(** Whether [p] is at the front of [l]. *)
Fixpoint starts_with (p l : list byte) : bool :=
  match p, l with
  | [], _ => true
  | a :: p, b :: l => bool_decide (a = b) && starts_with p l
  | _ :: _, [] => false
  end.

(** [strstr]: the index of the first occurrence. *)
Fixpoint strstr (hay needle : list byte) : option nat :=
  if starts_with needle hay then Some 0%nat
  else match hay with
       | [] => None
       | _ :: rest => S <$> strstr rest needle
       end.

(** The bytes before the first comma: [strchr(pos, ',')]. *)
Fixpoint before_comma (l : list byte) : list byte :=
  match l with
  | [] => []
  | b :: rest => if decide (b = comma) then [] else b :: before_comma rest
  end.

(** The test of one address: it occurs, and its first occurrence is delimited
    by commas or the ends of the list. *)
Definition address_listed (full_list current : list byte) : bool :=
  match strstr full_list current with
  | None => false
  | Some i =>
      (match i with O => true | S j => bool_decide (full_list !! j = Some comma) end) &&
      (match full_list !! (i + length current)%nat with None => true | Some b => bool_decide (b = comma) end)
  end.

(** The loop: the message of the first address that is not found. *)
Fixpoint missing (fuel : nat) (full_list pos : list byte) : option string :=
  match fuel, pos with
  | O, _ => None
  | _, [] => None
  | S fuel, _ =>
      let current := before_comma pos in
      let ip_len := zlen current in
      if CURRENT_SIZE <=? ip_len then Some "IP address too long: %zu bytes"%string
      else if address_listed full_list current then missing fuel full_list (zdrop (ip_len + 1) pos)
      else Some "IP address missing: %s"%string
  end.

Definition addr_list_reduced `{Env} {W} (full_list l : list byte) : M W bool :=
  match missing (S (length l)) full_list l with
  | Some msg => DLOG msg ;; mret true
  | None => mret false
  end.

(** ** The entries of a list *)

Fixpoint entries (l : list byte) : list (list byte) :=
  match l with
  | [] => [[]]
  | b :: rest =>
      if decide (b = comma) then [] :: entries rest
      else match entries rest with
           | e :: es => (b :: e) :: es
           | [] => [[b]]
           end
  end.

Lemma entries_nonempty l : entries l <> [].
Proof. destruct l as [|b l]; cbn; [done|]. destruct (decide _); [done|]. by destruct (entries l). Qed.

Lemma entries_app l l' : entries (l ++ comma :: l') = entries l ++ entries l'.
Proof.
  induction l as [|b l IH]; [done|]. cbn. destruct (decide (b = comma)); [by rewrite IH|].
  rewrite IH. pose proof (entries_nonempty l). by destruct (entries l).
Qed.

Lemma entries_single t : comma ∉ t -> entries t = [t].
Proof.
  induction t as [|b t IH]; intros Hn; [done|]. apply not_elem_of_cons in Hn as [? ?]. cbn.
  rewrite decide_False by done. by rewrite IH.
Qed.

(** An address of a list: no comma, short enough for the buffer. *)
Definition address (t : list byte) : Prop := t <> [] /\ (comma ∉ t) /\ zlen t < CURRENT_SIZE.

Lemma join_cons t ts : ts <> [] -> join (t :: ts) = t ++ comma :: join ts.
Proof. by destruct ts. Qed.

Lemma entries_join ts : ts <> [] -> Forall (fun t => comma ∉ t) ts -> entries (join ts) = ts.
Proof.
  induction ts as [|t ts IH]; [done|]. intros _ Hall. apply Forall_cons in Hall as [Ht Hts].
  destruct ts as [|t' ts]; [cbn; rewrite app_nil_r; by apply entries_single|].
  rewrite join_cons by done. rewrite entries_app, entries_single, IH by done. done.
Qed.

Lemma before_comma_stop t l : comma ∉ t -> before_comma (t ++ comma :: l) = t.
Proof.
  induction t as [|b t IH]; intros Hn; cbn; [by rewrite decide_True|].
  apply not_elem_of_cons in Hn as [? ?]. rewrite decide_False by done. by rewrite IH.
Qed.

Lemma before_comma_all t : comma ∉ t -> before_comma t = t.
Proof.
  induction t as [|b t IH]; intros Hn; cbn; [done|].
  apply not_elem_of_cons in Hn as [? ?]. rewrite decide_False by done. by rewrite IH.
Qed.

Lemma starts_with_app p l : starts_with p l = true -> exists r, l = p ++ r.
Proof.
  revert l. induction p as [|a p IH]; intros [|b l]; cbn; try done; [by exists []|by exists (b :: l)|].
  intros [->%bool_decide_eq_true Hs]%andb_true_iff. destruct (IH l Hs) as [r ->]. by exists r.
Qed.

Lemma strstr_spec hay needle i :
  strstr hay needle = Some i -> exists pre post, hay = pre ++ needle ++ post /\ length pre = i.
Proof.
  revert i. induction hay as [|b hay IH]; intros i; cbn [strstr].
  - destruct (starts_with needle []) eqn:E; [|done]. intros [= <-].
    destruct (starts_with_app _ _ E) as [r Hr]. by exists [], r.
  - destruct (starts_with needle (b :: hay)) eqn:E.
    + intros [= <-]. destruct (starts_with_app _ _ E) as [r Hr]. by exists [], r.
    + intros (j & Hj & ->)%fmap_Some. destruct (IH j Hj) as (pre & post & -> & <-). by exists (b :: pre), post.
Qed.

(** An address that passes the test is an entry of the list. *)
Lemma address_listed_sound full t : comma ∉ t -> address_listed full t = true -> t ∈ entries full.
Proof.
  intros Ht. unfold address_listed. destruct (strstr full t) as [i|] eqn:E; [|done].
  apply strstr_spec in E as (pre & post & -> & <-). intros [Hpre Hpost]%andb_true_iff.
  assert (t ∈ entries (t ++ post)) as Hin.
  { rewrite app_assoc, lookup_app_r in Hpost by (rewrite length_app; lia).
    replace (length pre + length t - length (pre ++ t))%nat with 0%nat in Hpost by (rewrite length_app; lia).
    destruct post as [|b post]; cbn in Hpost.
    - rewrite app_nil_r, entries_single by done. set_solver.
    - apply bool_decide_eq_true in Hpost as ->. rewrite entries_app, entries_single by done. set_solver. }
  destruct (length pre) as [|j] eqn:El; [by apply nil_length_inv in El as ->|].
  apply bool_decide_eq_true in Hpre.
  rewrite lookup_app_l in Hpre by lia.
  assert (pre = take j pre ++ [comma]) as Hp.
  { rewrite <-(take_drop_middle pre j comma Hpre) at 1. f_equal. f_equal.
    apply drop_ge. lia. }
  rewrite Hp, <-app_assoc. cbn. rewrite entries_app. set_solver.
Qed.

(** ** When the test finds an address *)

(** [t] occurs within [e]. *)
Definition part_of (t e : list byte) : Prop := exists pre post, e = pre ++ t ++ post.

(** [t] is one of the addresses and not part of a longer one. *)
Definition confirmed (ts : list (list byte)) (t : list byte) : Prop :=
  t ∈ ts /\ forall e, e ∈ ts -> part_of t e -> e = t.

Lemma starts_with_self p r : starts_with p (p ++ r) = true.
Proof. induction p as [|a p IH]; [done|]. cbn. by rewrite bool_decide_eq_true_2. Qed.

Lemma strstr_occurs hay needle : part_of needle hay -> is_Some (strstr hay needle).
Proof.
  intros (pre & post & ->). induction pre as [|b pre IH]; cbn [app].
  - exists 0%nat. destruct (needle ++ post) eqn:E; cbn [strstr]; by rewrite <-E, starts_with_self.
  - cbn [strstr]. destruct (starts_with _ _); [by eexists|]. destruct IH as [i ->]. by eexists.
Qed.

Lemma join_entries l : join (entries l) = l.
Proof.
  induction l as [|b l IH]; [done|]. cbn [entries]. destruct (decide (b = comma)) as [->|Hb].
  - rewrite join_cons by apply entries_nonempty. by rewrite IH.
  - pose proof (entries_nonempty l). destruct (entries l) as [|e es]; [done|]. by rewrite <-IH.
Qed.

Lemma join_part ts t : t ∈ ts -> part_of t (join ts).
Proof.
  induction ts as [|u ts IH]; [by intros ?%not_elem_of_nil|]. intros [->|Hin]%elem_of_cons.
  - exists []. destruct ts; [by exists []|]. rewrite join_cons by done. by eexists.
  - destruct (IH Hin) as (pre & post & Hj). rewrite join_cons by (intros ->; by apply not_elem_of_nil in Hin).
    exists (u ++ comma :: pre), post. rewrite Hj, <-app_assoc. done.
Qed.

Lemma last_segment (l : list byte) :
  exists p a, l = p ++ a /\ (comma ∉ a) /\ (p = [] \/ exists p', p = p' ++ [comma]).
Proof.
  induction l as [|b l (p & a & -> & Ha & Hp)] using rev_ind.
  - exists [], []. split; [done|]. split; [apply not_elem_of_nil|by left].
  - destruct (decide (b = comma)) as [->|Hb].
    + exists ((p ++ a) ++ [comma]), []. rewrite app_nil_r. split; [done|]. split; [apply not_elem_of_nil|right; by eexists].
    + exists p, (a ++ [b]). rewrite app_assoc. split; [done|]. split; [|done]. set_solver.
Qed.

Lemma first_segment (l : list byte) :
  exists b p, l = b ++ p /\ (comma ∉ b) /\ (p = [] \/ exists p', p = comma :: p').
Proof.
  induction l as [|c l (b & p & -> & Hb & Hp)].
  - exists [], []. split; [done|]. split; [apply not_elem_of_nil|by left].
  - destruct (decide (c = comma)) as [->|Hc].
    + exists [], (comma :: b ++ p). split; [done|]. split; [apply not_elem_of_nil|right; by eexists].
    + exists (c :: b), p. split; [done|]. split; [|done]. set_solver.
Qed.

(** An occurrence of an address lies within one entry. *)
Lemma occurrence_entry pre t post :
  comma ∉ t -> exists p a b p', pre = p ++ a /\ post = b ++ p' /\ a ++ t ++ b ∈ entries (pre ++ t ++ post) /\
    (p = [] \/ exists q, p = q ++ [comma]) /\ (p' = [] \/ exists q, p' = comma :: q).
Proof.
  intros Ht. destruct (last_segment pre) as (p & a & -> & Ha & Hp). destruct (first_segment post) as (b & p' & -> & Hb & Hp').
  exists p, a, b, p'. split; [done|]. split; [done|]. split; [|done].
  assert (comma ∉ a ++ t ++ b) as Hno by set_solver.
  assert (a ++ t ++ b ∈ entries ((a ++ t ++ b) ++ p')) as Hin.
  { destruct Hp' as [->|[q ->]]; [rewrite app_nil_r, entries_single by done; set_solver|].
    rewrite entries_app, entries_single by done. set_solver. }
  replace ((p ++ a) ++ t ++ b ++ p') with (p ++ (a ++ t ++ b) ++ p') by (by rewrite <-!app_assoc).
  destruct Hp as [->|[q ->]]; [done|]. rewrite <-app_assoc. cbn [app]. rewrite entries_app. set_solver.
Qed.

Lemma address_listed_complete full t : comma ∉ t -> confirmed (entries full) t -> address_listed full t = true.
Proof.
  intros Ht [Hin Honly]. unfold address_listed.
  destruct (strstr_occurs full t) as [i Hi]; [rewrite <-(join_entries full); by apply join_part|]. rewrite Hi.
  apply strstr_spec in Hi as (pre & post & -> & <-).
  destruct (occurrence_entry pre t post Ht) as (p & a & b & p' & -> & -> & He & Hp & Hp').
  specialize (Honly _ He (ex_intro _ a (ex_intro _ b eq_refl))).
  assert (a = [] /\ b = []) as [-> ->].
  { apply (f_equal length) in Honly. rewrite !length_app in Honly. split; apply nil_length_inv; lia. }
  rewrite app_nil_r, app_nil_l. apply andb_true_iff. split.
  - destruct Hp as [->|[q ->]]; [done|]. rewrite length_app, Nat.add_comm. cbn [length Nat.add].
    apply bool_decide_eq_true. rewrite <-app_assoc. rewrite lookup_app_r, Nat.sub_diag by done. done.
  - rewrite app_assoc, lookup_app_r by (rewrite length_app; lia). rewrite length_app, Nat.sub_diag.
    destruct Hp' as [->|[q ->]]; [done|]. by apply bool_decide_eq_true.
Qed.

(** One round of the loop. *)
Lemma missing_step fuel full t ts :
  address t -> missing (S fuel) full (join (t :: ts)) =
    if address_listed full t then missing fuel full (join ts) else Some "IP address missing: %s"%string.
Proof.
  intros (Hne & Hc & Hsz).
  assert (before_comma (join (t :: ts)) = t) as Hb.
  { destruct ts as [|t' ts]; [cbn; rewrite app_nil_r; by apply before_comma_all|].
    rewrite join_cons by done. by apply before_comma_stop. }
  assert (zdrop (zlen t + 1) (join (t :: ts)) = join ts) as Hd.
  { pose proof (zlen_nonneg t).
    destruct ts as [|t' ts]; [cbn [join map concat]; rewrite app_nil_r; apply zdrop_all; lia|].
    rewrite join_cons by done. change (t ++ comma :: join (t' :: ts)) with (t ++ [comma] ++ join (t' :: ts)).
    rewrite app_assoc. apply zdrop_app_exact. rewrite zlen_app. done. }
  destruct (join (t :: ts)) as [|b l] eqn:Ej; [destruct t; [done|by destruct ts]|]. cbn [missing]. rewrite <-Ej in *.
  rewrite Hb, Hd. unfold CURRENT_SIZE in *. by replace (50 <=? zlen t) with false by lia.
Qed.

Lemma length_join t ts : t <> [] -> (length (join ts) < length (join (t :: ts)))%nat.
Proof.
  intros Ht. assert (0 < length t)%nat by (destruct t; [done|cbn; lia]).
  destruct ts as [|u ts]; [cbn [join]; rewrite length_app; cbn; lia|].
  rewrite (join_cons t (u :: ts)) by done. rewrite length_app. cbn [length]. lia.
Qed.

Lemma missing_sound full ts : forall fuel,
  Forall address ts -> (length (join ts) < fuel)%nat -> missing fuel full (join ts) = None ->
  Forall (fun t => t ∈ entries full) ts.
Proof.
  induction ts as [|t ts IH]; intros [|fuel] Hts Hf Hm; [constructor|constructor|lia|].
  apply Forall_cons in Hts as [Ht Hts]. rewrite missing_step in Hm by done. pose proof (length_join t ts (proj1 Ht)).
  destruct (address_listed full t) eqn:El; [|done]. constructor; [by apply address_listed_sound; [apply Ht|]|].
  apply (IH fuel); [done|lia|done].
Qed.

Lemma missing_complete full ts : forall fuel,
  Forall address ts -> (length (join ts) < fuel)%nat -> Forall (confirmed (entries full)) ts ->
  missing fuel full (join ts) = None.
Proof.
  induction ts as [|t ts IH]; intros [|fuel] Hts Hf Hl; [reflexivity|reflexivity|lia|].
  apply Forall_cons in Hts as [Ht Hts]. apply Forall_cons in Hl as [Hl1 Hl]. pose proof (length_join t ts (proj1 Ht)).
  rewrite missing_step, address_listed_complete by (done || apply Ht). apply IH; [done|lia|done].
Qed.

(** ** Theorems *)

(** C28: when the proxy finds the address list unchanged and keeps its connection,
    every address it used before is indeed an entry of the new list: the check
    is never satisfied by a part of another address. *)
Theorem addr_list_kept_sound `{Env} {W} full ts (s : sys W) :
  Forall address ts ->
  wp (addr_list_reduced full (join ts)) s
    (fun s' reduced => world s' = world s /\ (reduced = false -> Forall (fun t => t ∈ entries full) ts))
    (fun _ _ => False).
Proof.
  intros Hts. unfold addr_list_reduced. destruct (missing _ _ _) as [msg|] eqn:Em; wp_steps; [done|].
  split; [done|]. intros _. eapply missing_sound; [done| |exact Em]. lia.
Qed.

Definition ip_a : list byte := [x31; x2e; x31; x2e; x31; x2e; x31]. (* 1.1.1.1 *)
Definition ip_b : list byte := x31 :: ip_a. (* 11.1.1.1 *)

Lemma addr_list_kept_sound_witness :
  let s := @Sys generous unit tt tt [] in
  Forall address [ip_a] /\
  @wp generous unit _ (@addr_list_reduced generous _ (join [ip_a; ip_b]) (join [ip_a])) s
    (fun s' reduced => @world generous _ s' = tt /\
       (reduced = false -> Forall (fun t => t ∈ entries (join [ip_a; ip_b])) [ip_a]))
    (fun _ _ => False).
Proof.
  intros s. assert (Forall address [ip_a]) as Ha.
  { constructor; [|constructor]. split; [discriminate|]. split; [|vm_compute; reflexivity].
    apply (bool_decide_unpack _). vm_compute. exact I. }
  split; [exact Ha|].
  exact (@addr_list_kept_sound generous unit (join [ip_a; ip_b]) [ip_a] s Ha).
Defined.

(** The converse fails: only the first occurrence is looked at, so an address
    that also ends an earlier one is reported missing although it is listed. *)
Theorem addr_list_false_alarm `{Env} {W} (s : sys W) :
  ip_a ∈ entries (join [ip_b; ip_a]) /\
  wp (addr_list_reduced (join [ip_b; ip_a]) (join [ip_a])) s (fun _ reduced => reduced = true) (fun _ _ => False).
Proof. split; [apply (bool_decide_unpack _); vm_compute; exact I|]. by vm_compute. Qed.
