(* ===== verification/HttpsClient.v ===== *)
(** * The HTTPS client (src/https_client.c, src/https_client.h)

    Each DNS request is posted to the resolver by one libcurl transfer, an
    [https_fetch_ctx] on the client's list, from [https_client_fetch] until
    [https_fetch_ctx_cleanup] has called the response callback.  libcurl is
    driven by the event loop: it tells which sockets and which timeout it waits
    for and is called when they are ready; while it runs it calls the program
    back, so a call of it answers with the list of callbacks it makes, which
    are executed in order before the call returns.

    Besides the client's own fields the state has what the program has handed
    to libcurl and libcurl may use later: the options of each easy handle (the
    callback pointers among them) and the string lists, so that a pointer that
    outlives its object is a [Fault]. *)

From Stdlib Require Import ZArith Lia String Ascii Strings.Byte.
From stdpp Require Import base tactics list option gmap strings.
From S2P Require Import Prelude Effects HeapList Stat Options IoEvents.

Open Scope Z_scope.

Definition HTTPS_SOCKET_LIMIT : Z := 12.
Definition HTTPS_CONNECTION_LIMIT : Z := 8.
Definition DOH_CONTENT_TYPE : string := "application/dns-message".
Definition DOH_MAX_RESPONSE_SIZE : Z := 65535.

(** ** Constants of libcurl *)

Definition CURLE_OK : Z := 0.
Definition CURLE_WRITE_ERROR : Z := 23.
Definition CURLE_OPERATION_TIMEDOUT : Z := 28.
Definition CURLM_OK : Z := 0.
Definition CURLM_ABORTED_BY_CALLBACK : Z := 11.
Definition CURL_SOCKET_BAD : Z := -1.
Definition CURL_SOCKET_TIMEOUT : Z := -1.
Definition CURL_CSELECT_IN : Z := 1.
Definition CURL_CSELECT_OUT : Z := 2.
Definition CURL_POLL_IN : Z := 1.
Definition CURL_POLL_OUT : Z := 2.
Definition CURL_POLL_REMOVE : Z := 4.
Definition CURL_HTTP_VERSION_NONE : Z := 0.
Definition CURL_HTTP_VERSION_1_0 : Z := 1.
Definition CURL_HTTP_VERSION_1_1 : Z := 2.
Definition CURL_HTTP_VERSION_2_0 : Z := 3.
Definition CURL_HTTP_VERSION_2TLS : Z := 4.
Definition CURL_HTTP_VERSION_3 : Z := 30.
Definition CURL_SSLVERSION_TLSv1_2 : Z := 6.
Definition CURLPIPE_MULTIPLEX : Z := 2.
Definition CURLINFO_TEXT : Z := 0.
Definition CURLINFO_HEADER_IN : Z := 1.
Definition CURLINFO_HEADER_OUT : Z := 2.
Definition CURLINFO_DATA_IN : Z := 3.
Definition CURLINFO_DATA_OUT : Z := 4.
Definition CURLINFO_SSL_DATA_IN : Z := 5.
Definition CURLINFO_SSL_DATA_OUT : Z := 6.
(** [errno] as a number *)
Definition ENETUNREACH_code : Z := 101.

(** ** State *)

Section Data.
Context {D : Type}.

(** [struct https_fetch_ctx]; [buf] is the allocated block.  The callback
    [cb] is the same for every transfer; [cb_data] is its argument. *)
Record https_fetch_ctx := FetchCtx {
  curl : ptr;
  ctx_id : Z;
  cb_data : D;
  buf : option (list byte);
  buflen : Z;
  ctx_next : ptr
}.

(** The multi handle: [NULL], usable, or passed to [curl_multi_cleanup]. *)
Inductive multi := Multi_null | Multi_live | Multi_freed.

Record https_client_t := Client {
  curlm : multi;
  header_list : ptr;
  fetches : ptr;
  c_timer : option double;
  c_io_events : list ev_io;
  connections : Z;
  opt : Options;
  has_stat : bool;
  reset_timer : bool;
  fetch_heap : gmap loc https_fetch_ctx;
  easy : gmap loc (list curl_option);
  slists : gmap loc (list (list byte))
}.

Definition with_multi (m : multi) (l : ptr) (c : https_client_t) : https_client_t :=
  Client m l (fetches c) (c_timer c) (c_io_events c) (connections c) (opt c) (has_stat c)
    (reset_timer c) (fetch_heap c) (easy c) (slists c).
Definition with_fetches (head : ptr) (h : gmap loc https_fetch_ctx) (c : https_client_t) : https_client_t :=
  Client (curlm c) (header_list c) head (c_timer c) (c_io_events c) (connections c) (opt c) (has_stat c)
    (reset_timer c) h (easy c) (slists c).
Definition with_timer (t : option double) (c : https_client_t) : https_client_t :=
  Client (curlm c) (header_list c) (fetches c) t (c_io_events c) (connections c) (opt c) (has_stat c)
    (reset_timer c) (fetch_heap c) (easy c) (slists c).
Definition with_slots (ws : list ev_io) (c : https_client_t) : https_client_t :=
  Client (curlm c) (header_list c) (fetches c) (c_timer c) ws (connections c) (opt c) (has_stat c)
    (reset_timer c) (fetch_heap c) (easy c) (slists c).
Definition with_connections (n : Z) (c : https_client_t) : https_client_t :=
  Client (curlm c) (header_list c) (fetches c) (c_timer c) (c_io_events c) n (opt c) (has_stat c)
    (reset_timer c) (fetch_heap c) (easy c) (slists c).
Definition with_reset (b : bool) (c : https_client_t) : https_client_t :=
  Client (curlm c) (header_list c) (fetches c) (c_timer c) (c_io_events c) (connections c) (opt c) (has_stat c)
    b (fetch_heap c) (easy c) (slists c).
Definition with_easy (e : gmap loc (list curl_option)) (c : https_client_t) : https_client_t :=
  Client (curlm c) (header_list c) (fetches c) (c_timer c) (c_io_events c) (connections c) (opt c) (has_stat c)
    (reset_timer c) (fetch_heap c) e (slists c).
Definition with_slists (l : gmap loc (list (list byte))) (c : https_client_t) : https_client_t :=
  Client (curlm c) (header_list c) (fetches c) (c_timer c) (c_io_events c) (connections c) (opt c) (has_stat c)
    (reset_timer c) (fetch_heap c) (easy c) l.

Definition with_buf (b : option (list byte)) (n : Z) (x : https_fetch_ctx) : https_fetch_ctx :=
  FetchCtx (curl x) (ctx_id x) (cb_data x) b n (ctx_next x).

End Data.
Arguments https_fetch_ctx : clear implicits.
Arguments https_client_t : clear implicits.

#[export] Instance fetch_linked (D : Type) : Linked (https_fetch_ctx D) := {|
  next := ctx_next;
  set_next p x := FetchCtx (curl x) (ctx_id x) (cb_data x) (buf x) (buflen x) p;
  next_set_next p x := eq_refl
|}.

(** The pointers libcurl passes to the write and debug callbacks of a transfer. *)
Definition write_data (os : list curl_option) : ptr :=
  head (omap (fun o => match o with CURLOPT_WRITEDATA p => Some p | _ => None end) os).
Definition debug_data (os : list curl_option) : ptr :=
  head (omap (fun o => match o with CURLOPT_DEBUGDATA p => Some p | _ => None end) os).

(** The string lists a transfer refers to; libcurl does not copy them. *)
Definition used_lists (os : list curl_option) : list loc :=
  omap (fun o => match o with CURLOPT_RESOLVE l | CURLOPT_HTTPHEADER l => l | _ => None end) os.

(** ** Text *)

Definition to_bytes (s : string) : list byte := list_byte_of_string s.

Definition hex_digit (n : Z) : byte := byte_of (if n <? 10 then 48 + n else 87 + n).

(** [tolower] in the C locale *)
Definition tolower (b : byte) : byte :=
  if (65 <=? byte_val b) && (byte_val b <=? 90) then byte_of (byte_val b + 32) else b.

Definition strcasecmp_eq (a b : string) : bool :=
  bool_decide (tolower <$> to_bytes a = tolower <$> to_bytes b).

(** [isprint] in the C locale *)
Definition isprint (b : byte) : bool := (32 <=? byte_val b) && (byte_val b <=? 126).

(** [off += snprintf(buf + off, cap - off, text)] *)
Definition snprintf_at (cap : Z) (st : list byte * Z) (text : list byte) : list byte * Z :=
  let '(b, off) := st in (b ++ ztake (cap - off - 1) text, off + zlen text).

(** One cell of the row at offset [i] of a hex dump: the columns so far with
    their offsets. *)
Definition dump_cell (data : list byte) (i : Z) (st : (list byte * Z) * (list byte * Z)) (c : nat) :
    (list byte * Z) * (list byte * Z) :=
  let width := 16 in
  let '(hex, str) := st in
  match znth data (i + Z.of_nat c) with
  | Some b =>
      (snprintf_at (3 * width + 1) hex [hex_digit (byte_val b / 16); hex_digit (byte_val b mod 16); x20],
       snprintf_at (width + 1) str [if isprint b then b else x2e])
  | None => (snprintf_at (3 * width + 1) hex [x20; x20; x20], str)
  end.

(** The two columns of the row. *)
Definition dump_row (data : list byte) (i : Z) : list byte * list byte :=
  let '(hex, str) := foldl (dump_cell data i) (([], 0), ([], 0)) (seq 0 16) in
  (fst hex, fst str).

(** Whether [strncmp(data + start, "Expire", 6) == 0]; [None] when the
    comparison runs past the end of the data. *)
Fixpoint strncmp_eq (data word : list byte) {struct word} : option bool :=
  match word with
  | [] => Some true
  | w :: word =>
      match data with
      | [] => None
      | b :: data => if decide (b = w) then strncmp_eq data word else Some false
      end
  end.

Section Operations.
Context {D : Type}.
Context `{Env} {W : Type} `{!Lens W (https_client_t D)} `{!Lens W stat_t}.

(** The response callback of the program, [https_response_cb]. *)
Variable cb : D -> option (list byte) -> Z -> M W unit.
(** [logging_debug_enabled()]: the level is set once, before the client runs. *)
Variable logging_debug_enabled : bool.

Definition client : M W (https_client_t D) := get.

(** [*ctx] and storing to it. *)
Definition load (p : loc) : M W (https_fetch_ctx D) :=
  c ← client;
  match fetch_heap c !! p with
  | Some x => mret x
  | None => halt (Fault UseAfterFree)
  end.
Definition store (p : loc) (x : https_fetch_ctx D) : M W unit :=
  load p ;; modify (fun c : https_client_t D => with_fetches (fetches c) (<[p := x]> (fetch_heap c)) c).

(** ** Callbacks of libcurl *)

Definition write_buffer (data : list byte) (size nmemb : Z) (p : loc) : M W Z :=
  ctx ← load p;
  let write_size := u64 (size * nmemb) in
  let new_size := u64 (buflen ctx + write_size) in
  if DOH_MAX_RESPONSE_SIZE <? new_size then
    WLOG "%04hX: Response size is too large!" ;; mret 0
  else
    new_buf ← perform (Realloc (new_size + 1));
    match new_buf with
    | None => ELOG "%04hX: Out of memory!" ;; mret 0
    | Some fresh =>
        let b := realloc_contents (default [] (buf ctx)) fresh (new_size + 1) in
        if (zlen data <? write_size) || (zlen b <? buflen ctx + write_size) then halt (Fault OutOfBounds)
        else
          let b := ztake (buflen ctx) b ++ ztake write_size data ++ zdrop (buflen ctx + write_size) b in
          if zlen b <=? new_size then halt (Fault OutOfBounds)
          else
            store p (with_buf (Some (zset b new_size x00)) new_size ctx) ;;
            mret write_size
    end.

Definition opensocket_callback (ipcxn : bool) (f : family) (stream : bool) : M W Z :=
  c ← client;
  if HTTPS_SOCKET_LIMIT <=? connections c then
    ELOG "curl needed more socket, than the number of maximum sockets: %d" ;; mret CURL_SOCKET_BAD
  else
    sock ← perform (Socket f stream);
    if sock =? -1 then ELOG "Could not open curl socket %d:%s" ;; mret CURL_SOCKET_BAD
    else
      DLOG "curl opened socket: %d" ;;
      modify (fun c : https_client_t D => with_connections (connections c + 1) c) ;;
      (if has_stat c then stat_connection_opened else mret tt) ;;
      if negb ipcxn then mret sock
      else
        match f with
        | AF_INET | AF_INET6 => _ ← perform (Setsockopt sock); mret sock
        | AF_other _ => mret sock
        end.

Definition closesocket_callback (sock : Z) : M W Z :=
  r ← perform (Close sock);
  if negb (r =? 0) then ELOG "Could not close curl socket %d:%s" ;; mret 1
  else
    emit (Closed sock) ;;
    DLOG "curl closed socket: %d" ;;
    modify (fun c : https_client_t D => with_connections (connections c - 1) c) ;;
    c ← client;
    (if (connections c <=? 0) && reset_timer c then
       ILOG "Client reset timer cancelled, since all connection closed" ;;
       modify (fun c : https_client_t D => with_reset false c)
     else mret tt) ;;
    (if has_stat c then stat_connection_closed else mret tt) ;;
    mret 0.

(** [for (i = 0; i < size; i += width)], [rows] bounding the iterations. *)
Fixpoint https_log_data (rows : nat) (level : LogSeverity) (prefix : string) (data : list byte) (i : Z) : M W unit :=
  match rows with
  | O => mret tt
  | S rows =>
      if i <? zlen data then
        emit (Dumped level prefix i (fst (dump_row data i)) (snd (dump_row data i))) ;;
        https_log_data rows level prefix data (i + 16)
      else mret tt
  end.

(** The rows of a whole buffer. *)
Definition log_data (level : LogSeverity) (prefix : string) (data : list byte) : M W unit :=
  https_log_data (length data) level prefix data 0.

(** The loop of [https_curl_debug] at position [pos], [rest] the data from there
    on and [start] the position of the current line. *)
Fixpoint debug_lines (prefix : string) (data rest : list byte) (pos : Z) (start : option Z) : M W unit :=
  let tokenize (k : option Z -> M W unit) :=
    match start with
    | Some st =>
        if 0 <? pos - st then
          match strncmp_eq (zdrop st data) (to_bytes "Expire") with
          | None => halt (Fault OutOfBounds)
          | Some true => k start
          | Some false => emit (CurlText prefix (ztake (pos - st) (zdrop st data))) ;; k None
          end
        else k start
    | None => k start
    end in
  match rest with
  | [] => tokenize (fun _ => mret tt)
  | b :: rest =>
      if bool_decide (b = x0d) || bool_decide (b = x0a) then tokenize (debug_lines prefix data rest (pos + 1))
      else debug_lines prefix data rest (pos + 1) (match start with None => Some pos | s => s end)
  end.

Definition https_curl_debug (type : Z) (data : list byte) (p : loc) : M W Z :=
  load p ;;
  (if type =? CURLINFO_TEXT then debug_lines "* " data data 0 None
   else if type =? CURLINFO_HEADER_OUT then debug_lines "> " data data 0 None
   else if type =? CURLINFO_HEADER_IN then debug_lines "< " data data 0 None
   else if type =? CURLINFO_DATA_OUT then log_data LOG_DEBUG "> " data
   else if type =? CURLINFO_DATA_IN then log_data LOG_DEBUG "< " data
   else if (type =? CURLINFO_SSL_DATA_OUT) || (type =? CURLINFO_SSL_DATA_IN) then mret tt
   else WLOG "Unhandled curl info type: %d") ;;
  mret 0.

Fixpoint dump_io_events (ws : list ev_io) : M W unit :=
  match ws with
  | [] => mret tt
  | _ :: ws => ILOG "IO event #%d: fd=%d, events=%d/%s%s" ;; dump_io_events ws
  end.

Definition multi_sock_cb (easy_handle : ptr) (sock what : Z) : M W Z :=
  match easy_handle with
  | None => FLOG "Unexpected NULL pointer for CURL"
  | Some _ =>
      c ← client;
      (match get_io_event (c_io_events c) sock with
       | Some i =>
           modify (fun c : https_client_t D => with_slots (release_io (c_io_events c) i) c) ;;
           DLOG "Released used io event: %p"
       | None => mret tt
       end) ;;
      if what =? CURL_POLL_REMOVE then mret 0
      else
        c ← client;
        match get_io_event (c_io_events c) 0 with
        | None =>
            ELOG "curl needed more IO event handler, than the number of maximum sockets: %d" ;;
            dump_io_events (c_io_events c) ;;
            emit RecorderDump ;;
            mret (-1)
        | Some i =>
            DLOG "Reserved new io event: %p" ;;
            modify (fun c : https_client_t D => with_slots (reserve_io (c_io_events c) i sock
              (Z.lor (if Z.land what CURL_POLL_IN =? 0 then 0 else EV_READ)
                     (if Z.land what CURL_POLL_OUT =? 0 then 0 else EV_WRITE))) c) ;;
            mret 0
        end
  end.

Definition multi_timer_cb (timeout_ms : Z) : M W Z :=
  modify (fun c : https_client_t D => with_timer
    (if 0 <=? timeout_ms then Some (ddiv (double_of_Z timeout_ms) (double_of_Z 1000)) else None) c) ;;
  mret 0.

(** One callback; those of a transfer get the pointer the program has set. *)
Definition run_callback (k : curl_callback) : M W Z :=
  c ← client;
  match k with
  | Cb_write h data size nmemb =>
      match easy c !! h ≫= write_data with
      | Some p => write_buffer data size nmemb p
      | None => mret 0
      end
  | Cb_debug h type data =>
      match easy c !! h ≫= debug_data with
      | Some p => https_curl_debug type data p
      | None => mret 0
      end
  | Cb_opensocket ipcxn f stream => opensocket_callback ipcxn f stream
  | Cb_closesocket sock => closesocket_callback sock
  | Cb_socket h sock what => multi_sock_cb h sock what
  | Cb_timer ms => multi_timer_cb ms
  end.

Fixpoint run_callbacks (ks : list curl_callback) : M W unit :=
  match ks with
  | [] => mret tt
  | k :: ks => _ ← run_callback k; run_callbacks ks
  end.

(** ** Calls of libcurl *)

Definition live_easy (h : ptr) : M W unit :=
  c ← client;
  match h with
  | Some h => match easy c !! h with Some _ => mret tt | None => halt (Fault UseAfterFree) end
  | None => mret tt
  end.

Definition live_multi : M W unit :=
  c ← client;
  match curlm c with Multi_freed => halt (Fault UseAfterFree) | _ => mret tt end.

(** Transfers that run read their string lists. *)
Definition live_lists : M W unit :=
  c ← client;
  if bool_decide (map_Forall (fun _ os => Forall (fun l => is_Some (slists c !! l)) (used_lists os)) (easy c))
  then mret tt else halt (Fault UseAfterFree).

(** A call that runs callbacks: the objects it is given must be live. *)
Definition curl_call (op : curl_op) : M W Z :=
  (match op with
   | Multi_add_handle h | Multi_remove_handle h => live_multi ;; live_easy h
   | Easy_cleanup h => live_easy h
   | Multi_socket_action _ _ => live_multi ;; live_lists
   | Multi_cleanup => live_multi
   end) ;;
  r ← perform (Curl op);
  let '(code, ks) := (r : Z * list curl_callback) in
  run_callbacks ks ;;
  mret code.

Definition curl_easy_init : M W ptr :=
  r ← perform Curl_easy_init;
  match r with
  | None => mret None
  | Some hint =>
      c ← client;
      let h := place (easy c) hint in
      put (with_easy (<[h := []]> (easy c)) c) ;;
      mret (Some h)
  end.

Definition curl_easy_setopt (h : ptr) (o : curl_option) : M W Z :=
  live_easy h ;;
  code ← perform (Curl_easy_setopt h o);
  (match h with
   | Some h =>
       if code =? CURLE_OK then
         modify (fun c : https_client_t D => with_easy (alter (fun os => os ++ [o]) h (easy c)) c)
       else mret tt
   | None => mret tt
   end) ;;
  mret code.

(** [curl_easy_cleanup] frees the handle when it returns. *)
Definition curl_easy_cleanup (h : ptr) : M W unit :=
  _ ← curl_call (Easy_cleanup h);
  match h with
  | Some h => modify (fun c : https_client_t D => with_easy (delete h (easy c)) c)
  | None => mret tt
  end.

Definition curl_easy_getinfo (h : ptr) (i : curl_info) : M W (Z * Z) :=
  live_easy h ;; perform (Curl_easy_getinfo h i).
Definition curl_easy_getinfo_str (h : ptr) (i : curl_info) : M W (Z * option string) :=
  live_easy h ;; perform (Curl_easy_getinfo_str h i).

(** A list is the address of its first node: appending to [NULL] makes a list,
    appending to a list keeps its address; without memory the result is [NULL]. *)
Definition curl_slist_append (l : ptr) (s : list byte) : M W ptr :=
  r ← perform Curl_slist_append;
  match r with
  | None => mret None
  | Some hint =>
      c ← client;
      match l with
      | None =>
          let l := place (slists c) hint in
          put (with_slists (<[l := [s]]> (slists c)) c) ;; mret (Some l)
      | Some l =>
          match slists c !! l with
          | Some old => put (with_slists (<[l := old ++ [s]]> (slists c)) c) ;; mret (Some l)
          | None => halt (Fault UseAfterFree)
          end
      end
  end.

Definition curl_slist_free_all (l : ptr) : M W unit :=
  match l with
  | None => mret tt
  | Some l =>
      c ← client;
      match slists c !! l with
      | Some _ => put (with_slists (delete l (slists c)) c)
      | None => halt (Fault UseAfterFree)
      end
  end.

(** ** A transfer *)

(** The format of the message starts with the name of the option. *)
Definition ASSERT_CURL_EASY_SETOPT (h : ptr) (o : curl_option) : M W unit :=
  code ← curl_easy_setopt h o;
  if negb (code =? CURLE_OK) then FLOG "%04hX: CURLOPT error %d: %s" else mret tt.

Fixpoint assert_setopts (h : ptr) (os : list curl_option) : M W unit :=
  match os with
  | [] => mret tt
  | o :: os => ASSERT_CURL_EASY_SETOPT h o ;; assert_setopts h os
  end.

Definition http_version_str (version : Z) : M W string :=
  if version =? CURL_HTTP_VERSION_1_0 then mret "1.0"%string
  else if version =? CURL_HTTP_VERSION_1_1 then mret "1.1"%string
  else if (version =? CURL_HTTP_VERSION_2_0) || (version =? CURL_HTTP_VERSION_2TLS) then mret "2"%string
  else if version =? CURL_HTTP_VERSION_3 then mret "3"%string
  else FLOG "Unsupported HTTP version: %d".

Definition https_set_request_version (h : ptr) : M W unit :=
  c ← client;
  let v := use_http_version (opt c) in
  http_version_int ←
    (if v =? 1 then mret CURL_HTTP_VERSION_1_1
     else if v =? 2 then mret CURL_HTTP_VERSION_2TLS
     else if v =? 3 then mret CURL_HTTP_VERSION_3
     else FLOG "%04hX: Invalid HTTP version: %d");
  _ ← http_version_str http_version_int;
  DLOG "%04hX: Requesting HTTP/%s" ;;
  easy_code ← curl_easy_setopt h (CURLOPT_HTTP_VERSION http_version_int);
  if negb (easy_code =? CURLE_OK) then
    _ ← http_version_str http_version_int;
    ELOG "%04hX: Setting HTTP/%s version failed with %d: %s" ;;
    if v =? 3 then ELOG "Try to run application without -q argument!"
    else if v =? 2 then
      ELOG "Try to run application with -x argument! Falling back to HTTP/1.1 version."
    else mret tt
  else mret tt.

(** The result codes and values [https_fetch_ctx_process_response] asks for. *)
Definition check_redirect (h : ptr) : M W unit :=
  r ← curl_easy_getinfo_str h CURLINFO_REDIRECT_URL;
  let '(res, str_resp) := (r : Z * option string) in
  if negb (res =? CURLE_OK) then ELOG "%04hX: CURLINFO_REDIRECT_URL: %s"
  else
    match str_resp with
    | None => mret tt
    | Some url =>
        WLOG "%04hX: Request would be redirected to: %s" ;;
        c ← client;
        match resolver_url (opt c) with
        | None => halt (Fault NullDereference)
        | Some resolver =>
            if negb (String.eqb url resolver) then
              WLOG "Please update Resolver URL to avoid redirection!"
            else mret tt
        end
    end.

Definition check_verify (h : ptr) : M W unit :=
  r ← curl_easy_getinfo h CURLINFO_SSL_VERIFYRESULT;
  let '(res, long_resp) := (r : Z * Z) in
  if negb (res =? CURLE_OK) then ELOG "%04hX: CURLINFO_SSL_VERIFYRESULT: %s"
  else if negb (long_resp =? 0) then
    WLOG "%04hX: CURLINFO_SSL_VERIFYRESULT: certificate verification failure %d"
  else mret tt.

Definition check_os_errno (h : ptr) : M W unit :=
  r ← curl_easy_getinfo h CURLINFO_OS_ERRNO;
  let '(res, long_resp) := (r : Z * Z) in
  if negb (res =? CURLE_OK) then ELOG "%04hX: CURLINFO_OS_ERRNO: %s"
  else if negb (long_resp =? 0) then
    WLOG "%04hX: CURLINFO_OS_ERRNO: %d %s" ;;
    c ← client;
    if (long_resp =? ENETUNREACH_code) && (ipv4 (opt c) =? 0) then
      WLOG "Try to run application with -4 argument!"
    else mret tt
  else mret tt.

Definition check_reused (h : ptr) : M W unit :=
  r ← curl_easy_getinfo h CURLINFO_NUM_CONNECTS;
  let '(res, long_resp) := (r : Z * Z) in
  if negb (res =? CURLE_OK) then ELOG "%04hX: CURLINFO_NUM_CONNECTS: %s"
  else
    DLOG "%04hX: CURLINFO_NUM_CONNECTS: %d" ;;
    c ← client;
    if (long_resp =? 0) && has_stat c then stat_connection_reused else mret tt.

(** The condition of the timing block: the calls up to the first that fails. *)
Fixpoint timing_available (h : ptr) (infos : list curl_info) : M W bool :=
  match infos with
  | [] => mret true
  | i :: infos =>
      r ← curl_easy_getinfo h i;
      let '(res, _) := (r : Z * Z) in
      if negb (res =? CURLE_OK) then mret false else timing_available h infos
  end.

Definition log_details (h : ptr) : M W unit :=
  r ← curl_easy_getinfo_str h CURLINFO_EFFECTIVE_URL;
  (if negb (fst (r : Z * option string) =? CURLE_OK) then ELOG "%04hX: CURLINFO_EFFECTIVE_URL: %s"
   else DLOG "%04hX: CURLINFO_EFFECTIVE_URL: %s") ;;
  r ← curl_easy_getinfo h CURLINFO_HTTP_VERSION;
  (let '(res, long_resp) := (r : Z * Z) in
   if negb (res =? CURLE_OK) then ELOG "%04hX: CURLINFO_HTTP_VERSION: %s"
   else if negb (long_resp =? CURL_HTTP_VERSION_NONE) then
     _ ← http_version_str long_resp; DLOG "%04hX: CURLINFO_HTTP_VERSION: %s"
   else mret tt) ;;
  r ← curl_easy_getinfo_str h CURLINFO_SCHEME;
  (let '(res, str_resp) := (r : Z * option string) in
   if negb (res =? CURLE_OK) then ELOG "%04hX: CURLINFO_SCHEME: %s"
   else
     match str_resp with
     | Some scheme =>
         if negb (strcasecmp_eq scheme "https") then DLOG "%04hX: CURLINFO_SCHEME: %s" else mret tt
     | None => mret tt
     end) ;;
  ok ← timing_available h [CURLINFO_NAMELOOKUP_TIME; CURLINFO_CONNECT_TIME; CURLINFO_APPCONNECT_TIME;
                           CURLINFO_PRETRANSFER_TIME; CURLINFO_STARTTRANSFER_TIME; CURLINFO_TOTAL_TIME];
  if negb ok then ELOG "%04hX: Error getting timing"
  else DLOG "%04hX: Times: %lf, %lf, %lf, %lf, %lf, %lf".

(** The [switch] on the result of the transfer: whether it failed. *)
Definition check_result (h : ptr) (curl_result_code : Z) : M W bool :=
  if curl_result_code =? CURLE_OK then DLOG "%04hX: curl request succeeded" ;; mret false
  else if curl_result_code =? CURLE_WRITE_ERROR then
    WLOG "%04hX: curl request failed with write error (probably response content was too large)" ;; mret true
  else
    (if curl_result_code =? CURLE_OPERATION_TIMEDOUT then
       c ← client;
       if negb (reset_timer c) then
         ILOG "%04hX: Client reset timer started" ;;
         modify (fun c : https_client_t D => with_reset true c)
       else mret tt
     else mret tt) ;;
    WLOG "%04hX: curl request failed with %d: %s" ;;
    e ← perform (Curl_errbuf_set h);
    (if (e : bool) then WLOG "%04hX: curl error message: %s" else mret tt) ;;
    mret true.

(** The checks of the HTTP response code: whether the response is faulty. *)
Definition check_response_code (p : loc) (h : ptr) (faulty_response : bool) : M W bool :=
  r ← curl_easy_getinfo h CURLINFO_RESPONSE_CODE;
  let '(res, long_resp) := (r : Z * Z) in
  if negb (res =? CURLE_OK) then ELOG "%04hX: CURLINFO_RESPONSE_CODE: %s" ;; mret true
  else if long_resp =? 200 then mret faulty_response
  else if long_resp =? 0 then
    u ← curl_easy_getinfo h CURLINFO_SIZE_UPLOAD_T;
    let '(ures, uploaded_bytes) := (u : Z * Z) in
    (if (ures =? CURLE_OK) && (0 <? uploaded_bytes) then
       WLOG "%04hX: Connecting and sending request to resolver was successful, but no response was sent back" ;;
       c ← client;
       if use_http_version (opt c) =? 1 then
         _ ← http_version_str (use_http_version (opt c));
         WLOG "Resolver may not support current HTTP/%s protocol version"
       else mret tt
     else WLOG "%04hX: No response (probably connection has been closed or timed out)") ;;
    mret true
  else
    WLOG "%04hX: curl response code: %d, content length: %zu" ;;
    ctx ← load p;
    (if 0 <? buflen ctx then log_data LOG_WARNING "" (ztake (buflen ctx) (default [] (buf ctx))) else mret tt) ;;
    mret true.

Definition check_content_type (h : ptr) (faulty_response : bool) : M W bool :=
  if faulty_response then mret true
  else
    r ← curl_easy_getinfo_str h CURLINFO_CONTENT_TYPE;
    let '(res, str_resp) := (r : Z * option string) in
    if negb (res =? CURLE_OK) then ELOG "%04hX: CURLINFO_CONTENT_TYPE: %s" ;; mret false
    else
      match str_resp with
      | Some t =>
          if String.prefix DOH_CONTENT_TYPE t then mret false
          else WLOG "%04hX: Invalid response Content-Type: %s" ;; mret true
      | None => WLOG "%04hX: Invalid response Content-Type: %s" ;; mret true
      end.

Definition https_fetch_ctx_process_response (p : loc) (curl_result_code : Z) : M W bool :=
  ctx ← load p;
  let h := curl ctx in
  faulty_response ← check_result h curl_result_code;
  faulty_response ← check_response_code p h faulty_response;
  faulty_response ← check_content_type h faulty_response;
  (if logging_debug_enabled || faulty_response || (buflen ctx =? 0) then
     check_redirect h ;; check_verify h ;; check_os_errno h
   else mret tt) ;;
  c ← client;
  (if logging_debug_enabled || has_stat c then check_reused h else mret tt) ;;
  (if logging_debug_enabled then log_details h else mret tt) ;;
  mret faulty_response.

(** [free(ctx->buf)] *)
Definition free_buf (b : option (list byte)) : M W unit :=
  match b with Some b => emit (Freed b) | None => mret tt end.

(** [if (prev) prev->next = ctx->next; else client->fetches = ctx->next;] *)
Definition unlink (prev : ptr) (nx : ptr) : M W unit :=
  match prev with
  | Some q => x ← load q; store q (set_next nx x)
  | None => modify (fun c : https_client_t D => with_fetches nx (fetch_heap c) c)
  end.

(** What the callback is given: the bytes of the response. *)
Definition reply_of (ctx : https_fetch_ctx D) : option (list byte) := ztake (buflen ctx) <$> buf ctx.

Definition https_fetch_ctx_cleanup (prev : ptr) (p : loc) (curl_result_code : Z) : M W unit :=
  ctx ← load p;
  code ← curl_call (Multi_remove_handle (curl ctx));
  if negb (code =? CURLM_OK) then FLOG "%04hX: curl_multi_remove_handle error %d: %s"
  else
    drop_reply ←
      (if curl_result_code <? 0 then WLOG "%04hX: Request was aborted" ;; mret true
       else
         faulty ← https_fetch_ctx_process_response p curl_result_code;
         if (faulty : bool) then ILOG "%04hX: Response was faulty, skipping DNS reply" ;; mret true
         else mret false);
    (if (drop_reply : bool) then
       ctx ← load p; free_buf (buf ctx) ;; store p (with_buf None 0 ctx)
     else mret tt) ;;
    ctx ← load p;
    emit (Replied (ctx_id ctx) (reply_of ctx)) ;;
    cb (cb_data ctx) (buf ctx) (buflen ctx) ;;
    ctx ← load p;
    curl_easy_cleanup (curl ctx) ;;
    ctx ← load p;
    free_buf (buf ctx) ;;
    unlink prev (ctx_next ctx) ;;
    modify (fun c : https_client_t D => with_fetches (fetches c) (delete p (fetch_heap c)) c).

(** [CURLMSG_DONE]: the transfer with that handle is finished. *)
Definition check_msg (m : curl_msg) : M W unit :=
  match m with
  | Msg_done h result =>
      c ← client;
      match find_node (S (size (fetch_heap c))) (fetch_heap c) NULL (fetches c)
              (fun x => bool_decide (curl x = Some h)) with
      | inl r => halt r
      | inr None => mret tt
      | inr (Some (prev, cur)) => https_fetch_ctx_cleanup prev cur result
      end
  | Msg_other _ => ELOG "Unhandled curl message: %d"
  end.

Fixpoint check_msgs (ms : list curl_msg) : M W unit :=
  match ms with
  | [] => mret tt
  | m :: ms => check_msg m ;; check_msgs ms
  end.

(** The messages [curl_multi_info_read] returns until it returns [NULL]. *)
Definition check_multi_info : M W unit :=
  live_multi ;; ms ← perform Curl_multi_info_read; check_msgs ms.

(** ** The client *)

(** [while (c->fetches) https_fetch_ctx_cleanup(c, NULL, c->fetches, -1);] *)
Fixpoint drop_fetches (fuel : nat) : M W unit :=
  match fuel with
  | O => halt OutOfFuel
  | S fuel =>
      c ← client;
      match fetches c with
      | None => mret tt
      | Some p => https_fetch_ctx_cleanup NULL p (-1) ;; drop_fetches fuel
      end
  end.

Definition https_client_cleanup : M W unit :=
  c ← client;
  drop_fetches (S (size (fetch_heap c))) ;;
  c ← client;
  curl_slist_free_all (header_list c) ;;
  _ ← curl_call Multi_cleanup;
  modify (fun c : https_client_t D => with_multi Multi_freed (header_list c) c) ;;
  modify (fun c : https_client_t D => with_reset false c).

Definition ASSERT_CURL_MULTI_SETOPT (o : curl_multi_option) : M W unit :=
  c ← client;
  match curlm c with
  | Multi_freed => halt (Fault UseAfterFree)
  | Multi_null => FLOG "CURLMOPT error %d: %s"
  | Multi_live =>
      code ← perform (Curl_multi_setopt o);
      if negb (code =? CURLM_OK) then FLOG "CURLMOPT error %d: %s" else mret tt
  end.

Definition https_client_multi_init (header_list : ptr) : M W unit :=
  m ← perform Curl_multi_init;
  modify (fun c : https_client_t D => with_multi (if (m : bool) then Multi_live else Multi_null) header_list c) ;;
  ASSERT_CURL_MULTI_SETOPT (CURLMOPT_PIPELINING CURLPIPE_MULTIPLEX) ;;
  ASSERT_CURL_MULTI_SETOPT (CURLMOPT_MAX_TOTAL_CONNECTIONS HTTPS_CONNECTION_LIMIT) ;;
  ASSERT_CURL_MULTI_SETOPT (CURLMOPT_MAX_HOST_CONNECTIONS HTTPS_CONNECTION_LIMIT) ;;
  ASSERT_CURL_MULTI_SETOPT CURLMOPT_SOCKETDATA ;;
  ASSERT_CURL_MULTI_SETOPT CURLMOPT_SOCKETFUNCTION ;;
  ASSERT_CURL_MULTI_SETOPT CURLMOPT_TIMERDATA ;;
  ASSERT_CURL_MULTI_SETOPT CURLMOPT_TIMERFUNCTION.

Definition https_client_reset : M W unit :=
  c ← client;
  let l := header_list c in
  modify (fun c : https_client_t D => with_multi (curlm c) NULL c) ;;
  https_client_cleanup ;;
  https_client_multi_init l.

Definition https_client_init (o : Options) (stat : bool) : M W unit :=
  modify (fun c : https_client_t D =>
    Client Multi_null NULL NULL None (replicate (Z.to_nat HTTPS_SOCKET_LIMIT) unused_io) 0 o stat false
      (fetch_heap c) (easy c) (slists c)) ;;
  l ← curl_slist_append NULL (to_bytes ("Accept: " ++ DOH_CONTENT_TYPE));
  l ← curl_slist_append l (to_bytes ("Content-Type: " ++ DOH_CONTENT_TYPE));
  https_client_multi_init l.

(** The options set after the protocol version, in order. *)
Definition debug_options (p : loc) : list curl_option :=
  if logging_debug_enabled then [CURLOPT_VERBOSE 1; CURLOPT_DEBUGFUNCTION; CURLOPT_DEBUGDATA p] else [].

Definition transfer_options (c : https_client_t D) (p : loc) (url : string) (data : list byte) (datalen : Z) :
    list curl_option :=
  [CURLOPT_OPENSOCKETFUNCTION; CURLOPT_OPENSOCKETDATA; CURLOPT_CLOSESOCKETFUNCTION; CURLOPT_CLOSESOCKETDATA;
   CURLOPT_URL url; CURLOPT_HTTPHEADER (header_list c);
   CURLOPT_POSTFIELDSIZE datalen; CURLOPT_POSTFIELDS data;
   CURLOPT_WRITEFUNCTION; CURLOPT_WRITEDATA p;
   CURLOPT_MAXAGE_CONN (max_idle_time (opt c));
   CURLOPT_PIPEWAIT (if 1 <? use_http_version (opt c) then 1 else 0);
   CURLOPT_USERAGENT "https_dns_proxy/0.4"; CURLOPT_FOLLOWLOCATION 0; CURLOPT_NOSIGNAL 1;
   CURLOPT_TIMEOUT (if 0 <? connections c then 5 else 10);
   CURLOPT_SSLVERSION CURL_SSLVERSION_TLSv1_2; CURLOPT_ERRORBUFFER].

(** An option that is only set when the setting is there. *)
Definition assert_setopt_if (h : ptr) (v : option string) (fmt : string) (o : string -> curl_option) : M W unit :=
  match v with
  | Some v => DLOG fmt ;; ASSERT_CURL_EASY_SETOPT h (o v)
  | None => mret tt
  end.

Definition https_fetch_ctx_init (p : loc) (url : string) (data : list byte) (datalen : Z)
    (resolv : ptr) (id : Z) (d : D) : M W unit :=
  h ← curl_easy_init;
  c ← client;
  put (with_fetches (Some p) (<[p := FetchCtx h id d None 0 (fetches c)]> (fetch_heap c)) c) ;;
  ASSERT_CURL_EASY_SETOPT h (CURLOPT_RESOLVE resolv) ;;
  https_set_request_version h ;;
  assert_setopts h (debug_options p) ;;
  c ← client;
  assert_setopts h (transfer_options c p url data datalen) ;;
  assert_setopt_if h (curl_proxy (opt c)) "%04hX: Using curl proxy: %s" CURLOPT_PROXY ;;
  assert_setopt_if h (source_addr (opt c)) "%04hX: Using source address: %s" CURLOPT_INTERFACE ;;
  (match ca_info (opt c) with
   | Some path => ASSERT_CURL_EASY_SETOPT h (CURLOPT_CAINFO path)
   | None => mret tt
   end) ;;
  multi_code ← curl_call (Multi_add_handle h);
  if negb (multi_code =? CURLM_OK) then
    ELOG "%04hX: curl_multi_add_handle error %d: %s" ;;
    if multi_code =? CURLM_ABORTED_BY_CALLBACK then
      WLOG "%04hX: Resetting HTTPS client to recover from faulty state!" ;; https_client_reset
    else
      c ← client;
      match fetches c with
      | Some p => https_fetch_ctx_cleanup NULL p (-1)
      | None => halt (Fault NullDereference)
      end
  else mret tt.

Definition https_client_fetch (url : string) (data : list byte) (datalen : Z) (resolv : ptr) (id : Z) (d : D) :
    M W unit :=
  block ← perform (Calloc 312);
  match block with
  | None => FLOG "Out of mem"
  | Some hint =>
      emit (Fetch id) ;;
      c ← client;
      https_fetch_ctx_init (place (fetch_heap c) hint) url data datalen resolv id d
  end.

(** ** Watcher callbacks *)

Definition sock_cb (fd revents : Z) : M W unit :=
  code ← curl_call (Multi_socket_action fd
    (Z.lor (if Z.land revents EV_READ =? 0 then 0 else CURL_CSELECT_IN)
           (if Z.land revents EV_WRITE =? 0 then 0 else CURL_CSELECT_OUT)));
  if code =? CURLM_OK then check_multi_info
  else
    (FLOG "curl_multi_socket_action error %d: %s" : M W unit) ;;
    if code =? CURLM_ABORTED_BY_CALLBACK then
      WLOG "Resetting HTTPS client to recover from faulty state!" ;; https_client_reset
    else mret tt.

Definition timer_cb : M W unit :=
  code ← curl_call (Multi_socket_action CURL_SOCKET_TIMEOUT 0);
  (if negb (code =? CURLM_OK) then ELOG "curl_multi_socket_action error %d: %s" else mret tt) ;;
  check_multi_info.

Definition reset_timer_cb : M W unit :=
  ILOG "Client reset timer timeouted" ;; https_client_reset.

End Operations.
