(* ===== verification/HttpsTransfers.v ===== *)
(** * The transfers of the HTTPS client

    The invariant of the transfer list and the behaviour of the operations of
    [HttpsClient] on it: what libcurl's callbacks may change ([steady]), what
    finishing a transfer does, and the theorems about whole runs. *)

From Stdlib Require Import ZArith Lia String Strings.Byte.
From stdpp Require Import base tactics list option gmap strings.
From S2P Require Import Prelude Effects HeapList Stat Options IoEvents HttpsClient.

Open Scope Z_scope.

(** Storing to the part [R] of the memory does not change the part [T]. *)
Class Apart (W T R : Type) `{!Lens W T} `{!Lens W R} : Prop :=
  apart : forall (r : R) (w : W), view (T:=T) (set_view r w) = view w.

(** A property of the memory that does not depend on the part [T]. *)
Class Ignores {W} (J : W -> Prop) (T : Type) `{!Lens W T} : Prop :=
  ignores : forall (t : T) w, J w -> J (set_view t w).

(** ** The invariant *)

Section Invariant.
Context {D : Type}.
(** Whether debug logging is on, and what is known of the data of every request. *)
Context (debug : bool) (G : D -> Prop).
Implicit Types (c : https_client_t D) (x : https_fetch_ctx D) (ls : list loc).

(** The response collected so far: [body] with a terminating zero, or nothing. *)
Definition holds x (body : list byte) : Prop :=
  buflen x = zlen body /\ zlen body <= DOH_MAX_RESPONSE_SIZE /\
  (buf x = Some (body ++ [x00]) \/ (buf x = None /\ body = [])).

(** A transfer and its easy handle refer to each other. *)
Definition wired c (p : loc) x : Prop :=
  exists h os, curl x = Some h /\ easy c !! h = Some os /\ write_data os = Some p /\
    debug_data os = (if debug then Some p else None).

Record transfers c ls : Prop := {
  tr_chain : chain (fetch_heap c) (fetches c) ls;
  tr_dom : dom (fetch_heap c) = list_to_set ls;
  tr_wired : map_Forall (wired c) (fetch_heap c);
  tr_easy : forall h, is_Some (easy c !! h) -> exists p x, fetch_heap c !! p = Some x /\ curl x = Some h;
  tr_data : map_Forall (fun _ x => G (cb_data x)) (fetch_heap c);
  tr_bodies : map_Forall (fun _ x => exists body, holds x body) (fetch_heap c);
  tr_limit : connections c <= HTTPS_SOCKET_LIMIT;
  tr_url : resolver_url (opt c) <> None;
  tr_live : curlm c = Multi_live
}.

(** The string lists of the transfers, and the header list, exist. *)
Definition lists_live c : Prop :=
  map_Forall (fun _ os => Forall (fun l => is_Some (slists c !! l)) (used_lists os)) (easy c).
Definition header_live c : Prop := forall l, header_list c = Some l -> is_Some (slists c !! l).

(** The same transfer, with more of its response. *)
Definition same_transfer x x' : Prop :=
  curl x' = curl x /\ ctx_id x' = ctx_id x /\ cb_data x' = cb_data x /\ ctx_next x' = ctx_next x /\
  ((exists body, holds x body) -> exists body, holds x' body).

(** What callbacks of libcurl may change. *)
Record steady c c' : Prop := {
  st_fetches : fetches c' = fetches c;
  st_heap : forall p, option_Forall2 same_transfer (fetch_heap c !! p) (fetch_heap c' !! p);
  st_easy : easy c' = easy c;
  st_slists : slists c' = slists c;
  st_header : header_list c' = header_list c;
  st_multi : curlm c' = curlm c;
  st_opt : opt c' = opt c;
  st_limit : connections c <= HTTPS_SOCKET_LIMIT -> connections c' <= HTTPS_SOCKET_LIMIT
}.

#[export] Instance same_transfer_preorder : PreOrder same_transfer.
Proof.
  split; [done|]. intros x y z (? & ? & ? & ? & ?) (? & ? & ? & ? & ?).
  repeat split; try congruence. eauto.
Qed.

#[export] Instance steady_preorder : PreOrder steady.
Proof.
  split; [by split|]. intros a b c [] []. split; try congruence; [|eauto].
  intros p. by trans (fetch_heap b !! p).
Qed.

Lemma steady_lookup c c' p x :
  steady c c' -> fetch_heap c !! p = Some x -> exists x', fetch_heap c' !! p = Some x' /\ same_transfer x x'.
Proof.
  intros Hs Hx. pose proof (st_heap _ _ Hs p) as Hp. rewrite Hx in Hp. inversion Hp. eauto.
Qed.

Lemma steady_lookup_inv c c' p x' :
  steady c c' -> fetch_heap c' !! p = Some x' -> exists x, fetch_heap c !! p = Some x /\ same_transfer x x'.
Proof.
  intros Hs Hx. pose proof (st_heap _ _ Hs p) as Hp. rewrite Hx in Hp. inversion Hp. eauto.
Qed.

Lemma chain_same (h h' : gmap loc (https_fetch_ctx D)) cur ls :
  chain h cur ls -> (forall p, option_Forall2 same_transfer (h !! p) (h' !! p)) -> chain h' cur ls.
Proof.
  intros Hc Hh. induction Hc as [|l a ls Hl Hc IH]; [constructor|].
  pose proof (Hh l) as Hl'. rewrite Hl in Hl'. inversion Hl' as [? a' Hs Ha Ha'|]; subst.
  econstructor; [by symmetry|]. destruct Hs as (_ & _ & _ & Hn & _). cbn in *. by rewrite Hn.
Qed.

Lemma transfers_steady c c' ls : transfers c ls -> steady c c' -> transfers c' ls.
Proof.
  intros [Hch Hdom Hw He Hg Hb Hl Hu Hm] Hs. split.
  - rewrite (st_fetches _ _ Hs). eapply chain_same; [done|]. apply (st_heap _ _ Hs).
  - rewrite <-Hdom. apply set_eq. intros p. rewrite !elem_of_dom.
    pose proof (st_heap _ _ Hs p) as Hp. inversion Hp; split; intros []; naive_solver.
  - intros p x' Hx'. destruct (steady_lookup_inv _ _ _ _ Hs Hx') as (x & Hx & Hsame & _).
    destruct (Hw p x Hx) as (h & os & ?). exists h, os. rewrite Hsame, (st_easy _ _ Hs). done.
  - intros h Hh. rewrite (st_easy _ _ Hs) in Hh. destruct (He h Hh) as (p & x & Hx & Hc).
    destruct (steady_lookup _ _ _ _ Hs Hx) as (x' & Hx' & Hsame & _). exists p, x'. split; [done|congruence].
  - intros p x' Hx'. destruct (steady_lookup_inv _ _ _ _ Hs Hx') as (x & Hx & _ & _ & Hd & _).
    rewrite Hd. by apply (Hg p).
  - intros p x' Hx'. destruct (steady_lookup_inv _ _ _ _ Hs Hx') as (x & Hx & _ & _ & _ & _ & Hk).
    apply Hk. by apply (Hb p).
  - by apply (st_limit _ _ Hs).
  - by rewrite (st_opt _ _ Hs).
  - by rewrite (st_multi _ _ Hs).
Qed.

(** The identifiers of the transfers, in the order of the list. *)
Definition ids_of c ls : list Z := omap (fun p => ctx_id <$> fetch_heap c !! p) ls.

Lemma ids_cons c p ls :
  ids_of c (p :: ls) = match fetch_heap c !! p with Some x => ctx_id x :: ids_of c ls | None => ids_of c ls end.
Proof. unfold ids_of. cbn. by destruct (fetch_heap c !! p). Qed.

Lemma ids_steady c c' ls : steady c c' -> ids_of c' ls = ids_of c ls.
Proof.
  intros Hs. induction ls as [|p ls IH]; [done|]. rewrite !ids_cons, IH.
  pose proof (st_heap _ _ Hs p) as Hp. inversion Hp as [x x' (_ & Hi & _)|]; [|done]. by rewrite Hi.
Qed.

End Invariant.

(** ** Steps that leave the transfers alone

    [calmly c0 m]: from a client that [c0] may have become by callbacks, [m]
    leaves a client that [c0] may have become, starts and answers no request,
    keeps [J] and stops only in an expected way. *)

Section Calm.
Context {D : Type}.
Context `{Env} {W : Type} `{!Lens W (https_client_t D)} `{!Lens W stat_t}.
Context `{!Apart W (https_client_t D) stat_t}.
Context (J : W -> Prop) `{!Ignores J (https_client_t D)} `{!Ignores J stat_t}.
Context (debug : bool).
Implicit Types (s : sys W) (c : https_client_t D) (x : https_fetch_ctx D).

Lemma wp_load_fetch p x s Φ Ψ : fetch_heap (part (https_client_t D) s) !! p = Some x -> Φ s x -> wp (load p) s Φ Ψ.
Proof. intros Hx HΦ. unfold load, client. apply wp_bind, wp_get. rewrite Hx. by apply wp_ret. Qed.

Definition stored p x c : https_client_t D := with_fetches (fetches c) (<[p := x]> (fetch_heap c)) c.

Lemma wp_store_fetch p x x' s Φ Ψ :
  fetch_heap (part (https_client_t D) s) !! p = Some x ->
  Φ (Sys (set_view (stored p x' (part _ s)) (world s)) (environment s) (trace s)) tt ->
  wp (store p x') s Φ Ψ.
Proof. intros Hx HΦ. unfold store. apply wp_bind. eapply wp_load_fetch; [done|]. by apply wp_modify. Qed.

(** Reading debug output past its end is possible when debugging is on. *)
Definition may_stop (r : stop) : Prop := r = Exited 1 \/ (debug = true /\ r = Fault OutOfBounds).

Definition calmly c0 {A} (m : M W A) : Prop := forall s,
  steady c0 (part _ s) -> J (world s) ->
  wp m s (fun s' _ => steady c0 (part _ s') /\ transfer_events (trace s') = transfer_events (trace s) /\ J (world s'))
         (fun _ r => may_stop r).

Lemma calm_ret c0 {A} (a : A) : calmly c0 (mret a).
Proof. intros s Hs HJ. by apply wp_ret. Qed.

Lemma calm_bind c0 {A B} (m : M W A) (k : A -> M W B) :
  calmly c0 m -> (forall a, calmly c0 (k a)) -> calmly c0 (m ≫= k).
Proof.
  intros Hm Hk s Hs HJ. apply wp_bind. eapply wp_mono; [by apply Hm| |done].
  intros s1 a (Hs1 & Ht1 & HJ1). eapply wp_mono; [by apply Hk| |done].
  intros s2 b (Hs2 & Ht2 & HJ2). by rewrite Ht2, Ht1.
Qed.

Lemma calm_if c0 {A} (b : bool) (m1 m2 : M W A) : calmly c0 m1 -> calmly c0 m2 -> calmly c0 (if b then m1 else m2).
Proof. by destruct b. Qed.

Lemma calm_get c0 {B} (k : https_client_t D -> M W B) :
  (forall c, steady c0 c -> calmly c0 (k c)) -> calmly c0 (client ≫= k).
Proof. intros Hk s Hs HJ. apply wp_bind, wp_get. by apply Hk. Qed.

Lemma calm_perform c0 {A} (q : call A) : calmly c0 (perform q).
Proof. intros s Hs HJ. by apply wp_perform. Qed.

Lemma calm_emit c0 ev : transfer_event ev = None -> calmly c0 (emit ev).
Proof.
  intros He s Hs HJ. apply wp_emit. split; [done|]. split; [|done].
  cbn [trace]. rewrite transfer_events_app. cbn. by rewrite He, app_nil_r.
Qed.

Lemma calm_log c0 level fmt : calmly c0 (LOG level fmt).
Proof. by apply calm_emit. Qed.

Lemma calm_flog c0 {A} fmt : calmly c0 (FLOG fmt : M W A).
Proof. intros s Hs HJ. apply wp_flog. by left. Qed.

Lemma calm_modify c0 (f : https_client_t D -> https_client_t D) :
  (forall c, steady c0 c -> steady c0 (f c)) -> calmly c0 (modify f).
Proof.
  intros Hf s Hs HJ. apply wp_modify. unfold part in *. cbn [world trace]. rewrite view_set.
  split; [by apply Hf|]. split; [done|by apply ignores].
Qed.

Lemma calm_stat c0 (f : stat_t -> stat_t) : calmly c0 (modify f).
Proof.
  intros s Hs HJ. apply wp_modify. unfold part in *. cbn [world trace]. rewrite apart.
  split; [done|]. split; [done|by apply ignores].
Qed.

Lemma calm_load c0 p x {B} (k : https_fetch_ctx D -> M W B) :
  fetch_heap c0 !! p = Some x -> (forall x', same_transfer x x' -> calmly c0 (k x')) -> calmly c0 (load p ≫= k).
Proof.
  intros Hx Hk s Hs HJ. destruct (steady_lookup _ _ _ _ Hs Hx) as (x' & Hx' & Hsame).
  apply wp_bind. unfold load, client. apply wp_bind, wp_get. rewrite Hx'. by apply wp_ret, Hk.
Qed.

Lemma calm_live_easy c0 h os : easy c0 !! h = Some os -> calmly c0 (live_easy (Some h)).
Proof.
  intros Hh. apply calm_get. intros c Hc. rewrite (st_easy _ _ Hc), Hh. apply calm_ret.
Qed.

Lemma calm_live_multi c0 : curlm c0 = Multi_live -> calmly c0 live_multi.
Proof. intros Hm. apply calm_get. intros c Hc. rewrite (st_multi _ _ Hc), Hm. apply calm_ret. Qed.

Lemma calm_live_lists c0 : lists_live c0 -> calmly c0 live_lists.
Proof.
  intros Hl. apply calm_get. intros c Hc. rewrite (st_easy _ _ Hc), (st_slists _ _ Hc).
  rewrite bool_decide_true by exact Hl. apply calm_ret.
Qed.

Lemma calm_getinfo c0 h os i : easy c0 !! h = Some os -> calmly c0 (curl_easy_getinfo (Some h) i).
Proof. intros Hh. apply calm_bind; [by eapply calm_live_easy|intros; apply calm_perform]. Qed.

Lemma calm_getinfo_str c0 h os i : easy c0 !! h = Some os -> calmly c0 (curl_easy_getinfo_str (Some h) i).
Proof. intros Hh. apply calm_bind; [by eapply calm_live_easy|intros; apply calm_perform]. Qed.

End Calm.

(** Follow the structure of a computation that is calm. *)
Ltac calm_step :=
  lazymatch goal with
  | |- calmly _ _ _ (let '(_, _) := ?r in _) => destruct r
  | |- calmly _ _ _ (match ?b with true => _ | false => _ end) => apply calm_if
  | |- calmly _ _ _ (match ?r with _ => _ end) => destruct r eqn:?
  | |- calmly _ _ _ (mret _) => apply calm_ret
  | |- calmly _ _ _ (client ≫= _) => apply calm_get; intros ??
  | |- calmly _ _ _ (load _ ≫= _) => eapply calm_load; [eassumption|intros ??]
  | |- calmly _ _ _ (_ ≫= _) => apply calm_bind; [|intros ?]
  | |- calmly _ _ _ (perform _) => apply calm_perform
  | |- calmly _ _ _ (emit _) => apply calm_emit; reflexivity
  | |- calmly _ _ _ (LOG _ _) => apply calm_log
  | |- calmly _ _ _ (DLOG _) => apply calm_log
  | |- calmly _ _ _ (ILOG _) => apply calm_log
  | |- calmly _ _ _ (WLOG _) => apply calm_log
  | |- calmly _ _ _ (ELOG _) => apply calm_log
  | |- calmly _ _ _ (FLOG _) => apply calm_flog
  | |- calmly _ _ _ stat_connection_opened => apply calm_stat; exact _
  | |- calmly _ _ _ stat_connection_closed => apply calm_stat; exact _
  | |- calmly _ _ _ stat_connection_reused => apply calm_stat; exact _
  | |- calmly _ _ _ (curl_easy_getinfo _ _) => eapply calm_getinfo; eassumption
  | |- calmly _ _ _ (curl_easy_getinfo_str _ _) => eapply calm_getinfo_str; eassumption
  end.
Ltac calm := repeat calm_step.

Section Callbacks.
Context {D : Type}.
Context `{Env} {W : Type} `{!Lens W (https_client_t D)} `{!Lens W stat_t}.
Context `{!Apart W (https_client_t D) stat_t}.
Context (J : W -> Prop) `{!Ignores J (https_client_t D)} `{!Ignores J stat_t}.
Context (debug : bool).
Implicit Types (s : sys W) (c : https_client_t D) (x : https_fetch_ctx D).

(** Storing a later state of the same transfer. *)
Lemma steady_store c0 c p x x' :
  steady c0 c -> fetch_heap c !! p = Some x -> same_transfer x x' ->
  steady c0 (stored p x' c).
Proof.
  intros Hc Hx Hs. trans c; [done|]. split; try done. intros q. cbn [fetch_heap with_fetches stored].
  destruct (decide (q = p)) as [->|]; [rewrite lookup_insert_eq, Hx; by constructor|].
  by rewrite lookup_insert_ne.
Qed.

(** The data libcurl delivers is what it says, and there is not more of it than
    memory can hold. *)
Definition write_ok (k : curl_callback) : Prop :=
  match k with
  | Cb_write _ data size nmemb => zlen data = size * nmemb /\ zlen data < 2 ^ 63
  | _ => True
  end.

(** The response grows by the data, or stays when it would get too long or there
    is no memory. *)
Lemma write_buffer_run p x body data size nmemb s :
  fetch_heap (part _ s) !! p = Some x -> holds x body -> zlen data = size * nmemb -> zlen data < 2 ^ 63 ->
  wp (write_buffer (D:=D) data size nmemb p) s
    (fun s' n =>
       (n = zlen data /\ zlen (body ++ data) <= DOH_MAX_RESPONSE_SIZE /\
        world s' = set_view (stored p (with_buf (Some ((body ++ data) ++ [x00])) (zlen (body ++ data)) x)
                               (part (https_client_t D) s)) (world s) /\ trace s' = trace s) \/
       (n = 0 /\ world s' = world s /\
        ((DOH_MAX_RESPONSE_SIZE < zlen (body ++ data) /\
          trace s' = trace s ++ [Logged LOG_WARNING "%04hX: Response size is too large!"]) \/
         (fst (answer (Realloc (zlen (body ++ data) + 1)) (environment s)) = None /\
          trace s' = trace s ++ [Logged LOG_ERROR "%04hX: Out of memory!"]))))
    (fun _ _ => False).
Proof.
  intros Hx (Hl & Hmax & Hb) Hd Hlt. unfold write_buffer.
  apply wp_bind. eapply wp_load_fetch; [done|].
  pose proof (zlen_nonneg body). pose proof (zlen_nonneg data). unfold DOH_MAX_RESPONSE_SIZE in *.
  rewrite <-Hd, Hl, (wrap_small 64 (zlen data)), (wrap_small 64) by lia. rewrite <-zlen_app.
  destruct (65535 <? zlen (body ++ data)) eqn:E; bool_facts.
  { wp_steps. right. split; [done|]. split; [done|]. left. split; [lia|done]. }
  apply wp_bind, wp_perform. intros [fresh|] e He.
  2:{ wp_steps. right. split; [done|]. split; [done|]. right. by rewrite He. }
  assert (exists z, realloc_contents (default [] (buf x)) fresh (zlen (body ++ data) + 1) = body ++ z /\
            zlen (body ++ z) = zlen (body ++ data) + 1) as (z & -> & Hz).
  { destruct (realloc_contents_run (default [] (buf x)) fresh (zlen (body ++ data) + 1)) as (z & Hz & Hlz).
    - destruct Hb as [->|[-> ->]]; cbn [default from_option id]; zlen_lia.
    - rewrite Hz. destruct Hb as [Hb|[Hb ->]]; rewrite Hb in Hlz |- *; cbn [default from_option id] in Hlz |- *.
      + exists ([x00] ++ z). by rewrite app_assoc.
      + by exists z. }
  rewrite !zlen_app in *.
  replace ((zlen data <? zlen data) || (zlen body + zlen z <? zlen body + zlen data)) with false by lia.
  rewrite (ztake_app_exact (zlen body)), (ztake_all (zlen data) data) by lia.
  assert (zlen (zdrop (zlen body + zlen data) (body ++ z)) = 1) as Htail
    by (rewrite zlen_zdrop, zlen_app by lia; lia).
  destruct (zdrop (zlen body + zlen data) (body ++ z)) as [|b [|]]; [done| |zlen_lia].
  replace (zlen body + (zlen data + zlen [b]) <=? zlen body + zlen data) with false by lia.
  assert (zset (body ++ data ++ [b]) (zlen body + zlen data) x00 = (body ++ data) ++ [x00]) as ->.
  { unfold zset. replace (0 <=? zlen body + zlen data) with true by lia.
    replace (Z.to_nat (zlen body + zlen data)) with (length (body ++ data) + 0)%nat
      by (rewrite length_app; unfold zlen; lia).
    rewrite app_assoc. by rewrite insert_app_r. }
  apply wp_bind. eapply wp_store_fetch; [done|]. apply wp_ret. left. repeat split; lia.
Qed.

Lemma calm_store c0 p x x' : fetch_heap c0 !! p = Some x -> (forall y, same_transfer x y -> same_transfer y x') ->
  calmly J debug c0 (store p x').
Proof.
  intros Hx Hxx. eapply calm_load; [done|]. intros y Hy. unfold store.
  intros s Hs HJ. destruct (steady_lookup _ _ _ _ Hs Hx) as (y' & Hy' & Hsame).
  eapply calm_modify; [done|..|done|done]. intros c Hc.
  destruct (steady_lookup _ _ _ _ Hc Hx) as (z & Hz & Hxz). eapply steady_store; [done|done|by apply Hxx].
Qed.

Lemma calm_write_buffer c0 p x data size nmemb :
  fetch_heap c0 !! p = Some x -> (exists body, holds x body) -> zlen data = size * nmemb -> zlen data < 2 ^ 63 ->
  calmly J debug c0 (write_buffer data size nmemb p).
Proof.
  intros Hx Hbody Hd Hlt s Hs HJ.
  destruct (steady_lookup _ _ _ _ Hs Hx) as (x' & Hx' & Hsame).
  destruct (proj2 (proj2 (proj2 (proj2 Hsame))) Hbody) as [body Hb].
  eapply wp_mono; [by apply (write_buffer_run p x' body)| |done].
  intros s' n [(_ & Hle & Hw & Ht)|(_ & Hw & Ht)].
  - rewrite Hw, Ht. split; [|split; [done|by apply ignores]].
    unfold part. rewrite Hw, view_set. eapply steady_store; [done|done|].
    split; [done|]. split; [done|]. split; [done|]. split; [done|]. intros _.
    exists (body ++ data). split; [done|]. split; [done|]. by left.
  - split; [by unfold part; rewrite Hw|]. split; [|by rewrite Hw].
    destruct Ht as [[_ ->]|[_ ->]]; rewrite transfer_events_app; apply app_nil_r.
Qed.

Lemma calm_https_log_data c0 level prefix data rows : forall i,
  calmly J debug c0 (https_log_data rows level prefix data i).
Proof. induction rows as [|rows IH]; intros i; cbn [https_log_data]; calm. apply IH. Qed.

Lemma calm_debug_lines c0 prefix data rest : forall pos start,
  debug = true -> calmly J debug c0 (debug_lines prefix data rest pos start).
Proof.
  intros pos start Hdbg. revert pos start.
  assert (calmly J debug c0 (halt (Fault OutOfBounds) : M W unit)) as Hoob.
  { intros s Hs HJ. apply wp_halt. by right. }
  induction rest as [|b rest IH]; intros pos start; cbn [debug_lines]; calm; try done; apply IH.
Qed.

Lemma calm_curl_debug c0 p x type data :
  fetch_heap c0 !! p = Some x -> debug = true -> calmly J debug c0 (https_curl_debug type data p).
Proof.
  intros Hx Hdbg. unfold https_curl_debug, log_data. calm;
    first [by apply calm_debug_lines|apply calm_https_log_data].
Qed.

Lemma steady_slots c0 c ws : steady c0 c -> steady c0 (with_slots ws c).
Proof. intros Hc. trans c; [done|by split]. Qed.

Lemma steady_timer c0 c t : steady c0 c -> steady c0 (with_timer t c).
Proof. intros Hc. trans c; [done|by split]. Qed.

Lemma steady_reset c0 c b : steady c0 c -> steady c0 (with_reset b c).
Proof. intros Hc. trans c; [done|by split]. Qed.

Lemma calm_dump_io_events c0 ws : calmly J debug c0 (dump_io_events ws).
Proof. induction ws as [|w ws IH]; cbn [dump_io_events]; calm. done. Qed.

Lemma calm_multi_sock_cb c0 h sock what : calmly J debug c0 (multi_sock_cb (D:=D) h sock what).
Proof.
  unfold multi_sock_cb. calm; first [apply calm_dump_io_events|apply calm_modify; [done|]; intros; by apply steady_slots].
Qed.

Lemma calm_timer_cb c0 ms : calmly J debug c0 (multi_timer_cb (D:=D) ms).
Proof. unfold multi_timer_cb. calm. apply calm_modify; [done|]. intros. by apply steady_timer. Qed.

Lemma calm_opensocket c0 ipcxn f stream : calmly J debug c0 (opensocket_callback (D:=D) ipcxn f stream).
Proof.
  (* the counter is read and incremented without a callback in between *)
  intros s Hs HJ. unfold opensocket_callback. apply wp_bind, wp_get.
  destruct (HTTPS_SOCKET_LIMIT <=? connections (part _ s)) eqn:E; bool_facts.
  { revert s Hs HJ E. intros s Hs HJ _. revert s Hs HJ. change (calmly J debug c0
      (ELOG "curl needed more socket, than the number of maximum sockets: %d" ;; mret CURL_SOCKET_BAD : M W Z)). calm. }
  apply wp_bind, wp_perform. intros sock e _. destruct (sock =? -1).
  { match goal with |- wp ?m ?s' _ _ => assert (calmly J debug c0 m) as Hm by calm; apply (Hm s'); done end. }
  apply wp_bind, wp_log. apply wp_bind, wp_modify. cbn [world trace environment].
  set (c1 := with_connections _ _).
  assert (steady c0 c1) as Hc1.
  { trans (part (https_client_t D) s); [done|]. split; try done. cbn. intros _.
    change (part (https_client_t D) (Sys (world s) e (trace s ++ [Logged LOG_DEBUG "curl opened socket: %d"])))
      with (part (https_client_t D) s). unfold HTTPS_SOCKET_LIMIT in *. lia. }
  match goal with |- wp ?m ?s' _ _ => assert (calmly J debug c0 m) as Hm by calm;
    eapply wp_mono; [apply (Hm s')| |done] end.
  - unfold part. cbn [world]. by rewrite view_set.
  - by apply ignores.
  - intros s' a (Hs' & Ht & HJ'). split; [done|]. split; [|done]. rewrite Ht. cbn [trace].
    rewrite transfer_events_app. apply app_nil_r.
Qed.

Lemma calm_closesocket c0 sock : calmly J debug c0 (closesocket_callback (D:=D) sock).
Proof.
  unfold closesocket_callback. calm; apply calm_modify; try done; intros c1 Hc1; [|by apply steady_reset].
  trans c1; [done|]. split; try done. cbn. lia.
Qed.

Lemma calm_run_callback G c0 ls k : transfers debug G c0 ls -> write_ok k -> calmly J debug c0 (run_callback k).
Proof.
  intros Htr Hk. unfold run_callback. apply calm_get. intros c Hc. rewrite (st_easy _ _ Hc).
  destruct k as [h data size nmemb|ipcxn f stream|sock|h sock what|ms|h type data].
  - destruct (easy c0 !! h) as [os|] eqn:Eh; cbn; [|apply calm_ret].
    destruct (write_data os) as [p|] eqn:Ep; [|apply calm_ret].
    destruct (tr_easy _ _ _ _ Htr h) as (q & x & Hx & Hcx); [by eexists|].
    destruct (tr_wired _ _ _ _ Htr q x Hx) as (h' & os' & Hcx' & Hos & Hw & _). simplify_eq.
    destruct Hk as [Hd Hlt]. eapply calm_write_buffer; [done| |done|done]. by eapply (tr_bodies _ _ _ _ Htr).
  - apply calm_opensocket.
  - apply calm_closesocket.
  - apply calm_multi_sock_cb.
  - apply calm_timer_cb.
  - destruct (easy c0 !! h) as [os|] eqn:Eh; cbn; [|apply calm_ret].
    destruct (debug_data os) as [p|] eqn:Ep; [|apply calm_ret].
    destruct (tr_easy _ _ _ _ Htr h) as (q & x & Hx & Hcx); [by eexists|].
    destruct (tr_wired _ _ _ _ Htr q x Hx) as (h' & os' & Hcx' & Hos & _ & Hdd). simplify_eq.
    assert (debug = true /\ p = q) as [Ed ->] by (destruct debug; split; congruence).
    by eapply calm_curl_debug.
Qed.

Lemma calm_run_callbacks G c0 ls ks :
  transfers debug G c0 ls -> Forall write_ok ks -> calmly J debug c0 (run_callbacks ks).
Proof.
  intros Htr Hks. induction Hks as [|k ks Hk Hks IH]; cbn [run_callbacks]; [apply calm_ret|].
  apply calm_bind; [by eapply calm_run_callback|done].
Qed.

(** ** Calls of libcurl, and the checks of a response *)

(** What is relied on in libcurl: data is as long as it says. *)
Class OrderlyCurl : Prop := {
  curl_writes : forall op e, Forall write_ok (snd (fst (answer (Curl op) e)));
  curl_setopt_null : forall o e, fst (answer (Curl_easy_setopt None o) e) <> CURLE_OK
}.

Context `{!OrderlyCurl}.

Lemma calm_perform_curl c0 op {B} (k : Z * list curl_callback -> M W B) :
  (forall code ks, Forall write_ok ks -> calmly J debug c0 (k (code, ks))) ->
  calmly J debug c0 (perform (Curl op) ≫= k).
Proof.
  intros Hk s Hs HJ. apply wp_bind, wp_perform. intros [code ks] e He.
  pose proof (curl_writes op (environment s)) as Hw. rewrite He in Hw. exact (Hk code ks Hw (Sys (world s) e (trace s)) Hs HJ).
Qed.

Lemma calm_curl_call G c0 ls op :
  transfers debug G c0 ls ->
  match op with
  | Multi_add_handle h | Multi_remove_handle h | Easy_cleanup h =>
      exists h' os, h = Some h' /\ easy c0 !! h' = Some os
  | Multi_socket_action _ _ => lists_live c0
  | Multi_cleanup => True
  end ->
  calmly J debug c0 (curl_call op).
Proof.
  intros Htr Hop. pose proof (tr_live _ _ _ _ Htr) as Hm. unfold curl_call. apply calm_bind.
  - destruct op; try (destruct Hop as (h' & os & -> & Hos));
      repeat first [by apply calm_live_multi|by eapply calm_live_easy|by apply calm_live_lists|calm_step].
  - intros _. apply calm_perform_curl. intros code ks Hks.
    apply calm_bind; [by eapply calm_run_callbacks|intros; apply calm_ret].
Qed.

Lemma calm_http_version_str c0 v : calmly J debug c0 (http_version_str v).
Proof. unfold http_version_str. calm. Qed.

Lemma calm_timing c0 h os infos : easy c0 !! h = Some os -> calmly J debug c0 (timing_available (Some h) infos).
Proof. intros Hh. induction infos as [|i infos IH]; cbn [timing_available]; calm. done. Qed.

Lemma calm_check_redirect c0 h os :
  easy c0 !! h = Some os -> resolver_url (opt c0) <> None -> calmly J debug c0 (check_redirect (Some h)).
Proof.
  intros Hh Hu. unfold check_redirect. calm.
  match goal with Hc : steady c0 ?c, E : resolver_url (opt ?c) = None |- _ =>
    by rewrite (st_opt _ _ Hc) in E end.
Qed.

Lemma calm_log_details c0 h os : easy c0 !! h = Some os -> calmly J debug c0 (log_details (Some h)).
Proof.
  intros Hh. unfold log_details. calm; first [apply calm_http_version_str|by eapply calm_timing].
Qed.

Lemma calm_check_result c0 h code : calmly J debug c0 (check_result (D:=D) h code).
Proof. unfold check_result. calm. apply calm_modify; [done|]. intros. by apply steady_reset. Qed.

Lemma calm_check_response_code c0 p x h os faulty :
  fetch_heap c0 !! p = Some x -> easy c0 !! h = Some os ->
  calmly J debug c0 (check_response_code p (Some h) faulty).
Proof.
  intros Hx Hh. unfold check_response_code, log_data.
  calm; first [apply calm_http_version_str|apply calm_https_log_data].
Qed.

Lemma calm_check_content_type c0 h os faulty :
  easy c0 !! h = Some os -> calmly J debug c0 (check_content_type (Some h) faulty).
Proof. intros Hh. unfold check_content_type. calm. Qed.

Lemma calm_process_response G c0 ls p x code :
  transfers debug G c0 ls -> fetch_heap c0 !! p = Some x ->
  calmly J debug c0 (https_fetch_ctx_process_response debug p code).
Proof.
  intros Htr Hx. destruct (tr_wired _ _ _ _ Htr p x Hx) as (h & os & Hcx & Hos & _).
  pose proof (tr_url _ _ _ _ Htr) as Hu. unfold https_fetch_ctx_process_response.
  eapply calm_load; [done|]. intros x' (Hc' & _). rewrite Hc', Hcx.
  unfold check_verify, check_os_errno, check_reused.
  calm; first [apply calm_check_result|by eapply calm_check_response_code|by eapply calm_check_content_type
              |by eapply calm_check_redirect|by eapply calm_log_details].
Qed.

End Callbacks.

(** ** Finishing a transfer *)

Section Removal.
Context {D : Type} (debug : bool) (G : D -> Prop).
Implicit Types (c : https_client_t D) (x : https_fetch_ctx D) (ls : list loc).

(** The client after [prev->next = nx], or [client->fetches = nx]. *)
Definition bypass (prev : ptr) (nx : ptr) c : https_client_t D :=
  match prev with
  | Some q => match fetch_heap c !! q with Some x => stored q (set_next nx x) c | None => c end
  | None => with_fetches nx (fetch_heap c) c
  end.

(** The client without the transfer [p] and its handle [h]. *)
Definition removed (prev : ptr) (p h : loc) (nx : ptr) c : https_client_t D :=
  let c' := bypass prev nx (with_easy (delete h (easy c)) c) in
  with_fetches (fetches c') (delete p (fetch_heap c')) c'.

Lemma removed_lookup prev p h nx c q x' :
  fetch_heap (removed prev p h nx c) !! q = Some x' ->
  q <> p /\ exists x, fetch_heap c !! q = Some x /\ curl x' = curl x /\ ctx_id x' = ctx_id x /\
    buf x' = buf x /\ buflen x' = buflen x /\ cb_data x' = cb_data x.
Proof.
  unfold removed. cbn [fetch_heap with_fetches]. intros [Hne Hq]%lookup_delete_Some. split; [done|].
  destruct prev as [q'|]; cbn [bypass fetch_heap with_fetches with_easy] in Hq; [|eauto 10].
  destruct (fetch_heap c !! q') as [y|] eqn:E; [|eauto 10].
  cbn [stored fetch_heap with_fetches with_easy] in Hq. rewrite lookup_insert_Some in Hq.
  destruct Hq as [[-> <-]|[_ Hq]]; eauto 10.
Qed.

Lemma removed_dom prev p h nx c : dom (fetch_heap (removed prev p h nx c)) = dom (fetch_heap c) ∖ {[p]}.
Proof.
  unfold removed. cbn [fetch_heap with_fetches]. rewrite dom_delete_L. f_equal.
  destruct prev as [q|]; cbn [bypass fetch_heap with_easy]; [|done].
  destruct (fetch_heap c !! q) eqn:E; [|done]. cbn. rewrite dom_insert_L.
  apply elem_of_dom_2 in E. set_solver.
Qed.

Lemma removed_rest prev p h nx c :
  easy (removed prev p h nx c) = delete h (easy c) /\ slists (removed prev p h nx c) = slists c /\
  header_list (removed prev p h nx c) = header_list c /\ curlm (removed prev p h nx c) = curlm c /\
  opt (removed prev p h nx c) = opt c /\ connections (removed prev p h nx c) = connections c.
Proof.
  unfold removed. destruct prev as [q|]; [|done]. cbn [bypass]. cbn [fetch_heap with_easy].
  by destruct (fetch_heap c !! q).
Qed.

Lemma removed_chain ls1 p ls2 x h c :
  chain (fetch_heap c) (fetches c) (ls1 ++ p :: ls2) -> fetch_heap c !! p = Some x ->
  chain (fetch_heap (removed (last ls1) p h (ctx_next x) c)) (fetches (removed (last ls1) p h (ctx_next x) c)) (ls1 ++ ls2).
Proof.
  intros Hch Hx. destruct (last ls1) as [q|] eqn:El.
  - apply last_Some in El as [ls0 ->]. rewrite <-app_assoc in Hch. cbn in Hch.
    destruct (chain_lookup _ _ _ q Hch) as [y Hy]; [set_solver|].
    unfold removed. cbn [bypass fetch_heap with_easy]. rewrite Hy. cbn [stored fetches fetch_heap with_fetches with_easy].
    rewrite <-app_assoc. exact (chain_bypass _ _ ls0 q p ls2 y x Hch Hy Hx).
  - apply last_None in El as ->. cbn. pose proof (chain_NoDup _ _ _ Hch) as [Hp _]%NoDup_cons.
    inversion Hch; simplify_eq. by apply chain_delete_ne.
Qed.

Lemma transfers_removed c ls1 p ls2 x h :
  transfers debug G c (ls1 ++ p :: ls2) -> fetch_heap c !! p = Some x -> curl x = Some h ->
  transfers debug G (removed (last ls1) p h (ctx_next x) c) (ls1 ++ ls2).
Proof.
  intros Htr Hx Hh. set (c' := removed _ _ _ _ _).
  pose proof (chain_NoDup _ _ _ (tr_chain _ _ _ _ Htr)) as Hnd. apply NoDup_app in Hnd as (_ & Hno & Hnd).
  apply NoDup_cons in Hnd as [Hp2 _].
  destruct (removed_rest (last ls1) p h (ctx_next x) c) as (He & _ & _ & Hm & Ho & Hc). fold c' in He, Hm, Ho, Hc.
  split; rewrite ?Hm, ?Ho, ?Hc; try apply Htr.
  - apply removed_chain; [apply Htr|done].
  - unfold c'. rewrite removed_dom, (tr_dom _ _ _ _ Htr). apply set_eq. intros q.
    rewrite elem_of_difference, !elem_of_list_to_set, elem_of_singleton, !elem_of_app, elem_of_cons.
    specialize (Hno p). split; [tauto|]. intros Hq. split; [tauto|]. intros ->. destruct Hq; [apply Hno|]; set_solver.
  - intros q x' Hq. destruct (removed_lookup _ _ _ _ _ _ _ Hq) as (Hne & y & Hy & Hcy & _).
    destruct (tr_wired _ _ _ _ Htr q y Hy) as (h' & os & Hcy' & Hos & Hw & Hd).
    exists h', os. rewrite Hcy, He, lookup_delete_ne; [done|].
    intros <-. destruct (tr_wired _ _ _ _ Htr p x Hx) as (h2 & os2 & Hc2 & Hos2 & Hw2 & _). simplify_eq.
  - intros h' [os Hos]. rewrite He in Hos. apply lookup_delete_Some in Hos as [Hne Hos].
    destruct (tr_easy _ _ _ _ Htr h') as (q & y & Hy & Hcy); [by eexists|].
    assert (q <> p) as Hqp by (intros ->; simplify_eq).
    assert (is_Some (fetch_heap c' !! q)) as [y' Hy'].
    { apply elem_of_dom. unfold c'. rewrite removed_dom. apply elem_of_dom_2 in Hy. set_solver. }
    destruct (removed_lookup _ _ _ _ _ _ _ Hy') as (_ & y2 & Hy2 & Hcy2 & _). simplify_eq.
    exists q, y'. split; [done|congruence].
  - intros q x' Hq. destruct (removed_lookup _ _ _ _ _ _ _ Hq) as (_ & y & Hy & _ & _ & _ & _ & Hd).
    rewrite Hd. by apply (tr_data _ _ _ _ Htr q).
  - intros q x' Hq. destruct (removed_lookup _ _ _ _ _ _ _ Hq) as (_ & y & Hy & _ & _ & Hb & Hl & _).
    destruct (tr_bodies _ _ _ _ Htr q y Hy) as [body Hbody]. exists body. unfold holds. by rewrite Hb, Hl.
Qed.

Lemma ids_removed c ls1 p ls2 x h :
  transfers debug G c (ls1 ++ p :: ls2) -> fetch_heap c !! p = Some x ->
  ids_of c (ls1 ++ p :: ls2) ≡ₚ ctx_id x :: ids_of (removed (last ls1) p h (ctx_next x) c) (ls1 ++ ls2).
Proof.
  intros Htr Hx. pose proof (chain_NoDup _ _ _ (tr_chain _ _ _ _ Htr)) as Hnd.
  apply NoDup_app in Hnd as (_ & Hno & Hnd). apply NoDup_cons in Hnd as [Hp2 _].
  assert (forall ls, p ∉ ls -> (forall q, q ∈ ls -> q ∈ ls1 ++ p :: ls2) ->
            ids_of (removed (last ls1) p h (ctx_next x) c) ls = ids_of c ls) as Hids.
  { induction ls as [|q ls IH]; intros Hp Hin; [done|].
    rewrite !ids_cons, IH by set_solver.
    assert (is_Some (fetch_heap c !! q)) as [y Hy].
    { eapply chain_lookup; [apply (tr_chain _ _ _ _ Htr)|]. apply Hin. set_solver. }
    assert (is_Some (fetch_heap (removed (last ls1) p h (ctx_next x) c) !! q)) as [y' Hy'].
    { apply elem_of_dom. rewrite removed_dom. apply elem_of_dom_2 in Hy. set_solver. }
    destruct (removed_lookup _ _ _ _ _ _ _ Hy') as (_ & y2 & Hy2 & _ & Hi & _). simplify_eq.
    by rewrite Hy, Hy', Hi. }
  rewrite Hids by set_solver. unfold ids_of. rewrite !omap_app. cbn. rewrite Hx. cbn.
  symmetry. apply Permutation_middle.
Qed.

End Removal.

(** ** Steps that do not write to one transfer *)

Section Keeps.
Context {D : Type}.
Context `{Env} {W : Type} `{!Lens W (https_client_t D)} `{!Lens W stat_t}.
Context `{!Apart W (https_client_t D) stat_t}.
Implicit Types (s : sys W) (p : loc).

Definition keeps p {A} (m : M W A) : Prop := forall s,
  wp m s (fun s' _ => fetch_heap (part (https_client_t D) s') !! p = fetch_heap (part (https_client_t D) s) !! p)
    (fun _ _ => True).

Lemma keeps_ret p {A} (a : A) : keeps p (mret a).
Proof. intros s. by apply wp_ret. Qed.
Lemma keeps_halt p {A} r : keeps p (halt r : M W A).
Proof. done. Qed.
Lemma keeps_bind p {A B} (m : M W A) (k : A -> M W B) :
  keeps p m -> (forall a, keeps p (k a)) -> keeps p (m ≫= k).
Proof.
  intros Hm Hk s. apply wp_bind. eapply wp_mono; [apply Hm| |done]. intros s1 a H1.
  eapply wp_mono; [apply Hk| |done]. intros s2 b H2. by rewrite H2.
Qed.
Lemma keeps_get p : keeps p (client (D:=D)).
Proof. intros s. by apply wp_get. Qed.
Lemma keeps_perform p {A} (q : call A) : keeps p (perform q).
Proof. intros s. by apply wp_perform. Qed.
Lemma keeps_emit p ev : keeps p (emit ev).
Proof. intros s. by apply wp_emit. Qed.
Lemma keeps_modify p (f : https_client_t D -> https_client_t D) :
  (forall c, fetch_heap (f c) = fetch_heap c) -> keeps p (modify f).
Proof. intros Hf s. apply wp_modify. unfold part. cbn [world]. by rewrite view_set, Hf. Qed.
Lemma keeps_stat p (f : stat_t -> stat_t) : keeps p (modify f).
Proof. intros s. apply wp_modify. unfold part. cbn [world]. by rewrite apart. Qed.
Lemma keeps_load p q : keeps p (load (D:=D) q).
Proof. apply keeps_bind; [apply keeps_get|]. intros c. case_match; [apply keeps_ret|apply keeps_halt]. Qed.
Lemma keeps_flog p {A} fmt : keeps p (FLOG fmt : M W A).
Proof. apply keeps_bind; [apply keeps_emit|intros; apply keeps_halt]. Qed.

(** What is known of the outcome when it is known that [m] keeps [p]. *)
Lemma wp_keeps p {A} (m : M W A) s :
  wp m s (fun s' _ => keeps p m -> fetch_heap (part (https_client_t D) s') !! p = fetch_heap (part (https_client_t D) s) !! p)
    (fun _ _ => True).
Proof. unfold wp. destruct (m s) eqn:E; [|done]. intros Hk. specialize (Hk s). unfold wp in Hk. by rewrite E in Hk. Qed.

End Keeps.

Ltac keep_step :=
  lazymatch goal with
  | |- keeps _ (match ?r with _ => _ end) => destruct r
  | |- keeps _ (mret _) => apply keeps_ret
  | |- keeps _ (halt _) => apply keeps_halt
  | |- keeps _ client => apply keeps_get
  | |- keeps _ (load _) => apply keeps_load
  | |- keeps _ (_ ≫= _) => apply keeps_bind; [|intros ?]
  | |- keeps _ (perform _) => apply keeps_perform
  | |- keeps _ (emit _) => apply keeps_emit
  | |- keeps _ (LOG _ _) => apply keeps_emit
  | |- keeps _ (DLOG _) => apply keeps_emit
  | |- keeps _ (ILOG _) => apply keeps_emit
  | |- keeps _ (WLOG _) => apply keeps_emit
  | |- keeps _ (ELOG _) => apply keeps_emit
  | |- keeps _ (FLOG _) => apply keeps_flog
  | |- keeps _ stat_connection_opened => apply keeps_stat
  | |- keeps _ stat_connection_closed => apply keeps_stat
  | |- keeps _ stat_connection_reused => apply keeps_stat
  | |- keeps _ (modify _) => apply keeps_modify; done
  end.
Ltac keep := repeat keep_step.

Section Kept.
Context {D : Type}.
Context `{Env} {W : Type} `{!Lens W (https_client_t D)} `{!Lens W stat_t}.
Context `{!Apart W (https_client_t D) stat_t}.

Lemma keeps_log_data p rows level prefix data : forall i,
  keeps (D:=D) p (https_log_data rows level prefix data i : M W unit).
Proof. induction rows as [|rows IH]; intros i; cbn [https_log_data]; keep. apply IH. Qed.

Lemma keeps_timing p h infos : keeps (D:=D) p (timing_available (D:=D) (W:=W) h infos).
Proof.
  induction infos as [|i infos IH]; cbn [timing_available]; unfold curl_easy_getinfo, live_easy; keep. done.
Qed.

Lemma keeps_process_response debug p q code :
  keeps (D:=D) p (https_fetch_ctx_process_response (W:=W) debug q code).
Proof.
  unfold https_fetch_ctx_process_response, check_result, check_response_code, check_content_type, check_redirect,
    check_verify, check_os_errno, check_reused, log_details, curl_easy_getinfo, curl_easy_getinfo_str, live_easy,
    http_version_str, log_data.
  keep; first [apply keeps_log_data|apply keeps_timing].
Qed.

(** A callback that delivers no data. *)
Definition no_write (k : curl_callback) : Prop := match k with Cb_write _ _ _ _ => False | _ => True end.

#[export] Instance no_write_dec k : Decision (no_write k).
Proof. destruct k; cbn; apply _. Defined.

Lemma keeps_dump_io_events p ws : keeps (D:=D) p (dump_io_events (W:=W) ws).
Proof. induction ws as [|w ws IH]; cbn [dump_io_events]; keep. done. Qed.

Lemma keeps_debug_lines p prefix data rest : forall pos start,
  keeps (D:=D) p (debug_lines (W:=W) prefix data rest pos start).
Proof. induction rest as [|b rest IH]; intros pos start; cbn [debug_lines]; keep; apply IH. Qed.

Lemma keeps_run_callback p k : no_write k -> keeps (D:=D) p (run_callback (W:=W) k).
Proof.
  intros Hk. unfold run_callback. apply keeps_bind; [apply keeps_get|]. intros c.
  destruct k; [done|..]; unfold opensocket_callback, closesocket_callback, multi_sock_cb, multi_timer_cb,
    https_curl_debug, log_data; keep;
    first [apply keeps_dump_io_events|apply keeps_debug_lines|apply keeps_log_data].
Qed.

Lemma keeps_run_callbacks p ks : Forall no_write ks -> keeps (D:=D) p (run_callbacks (W:=W) ks).
Proof.
  induction 1 as [|k ks Hk _ IH]; cbn [run_callbacks]; [apply keeps_ret|].
  apply keeps_bind; [by apply keeps_run_callback|done].
Qed.

(** Removing a transfer from the multi handle delivers no data. *)
Class QuietRemoval : Prop :=
  removal_quiet : forall h e, Forall no_write (snd (fst (answer (Curl (Multi_remove_handle h)) e))).

Lemma keeps_remove `{!QuietRemoval} p h : keeps (D:=D) p (curl_call (W:=W) (Multi_remove_handle h)).
Proof.
  unfold curl_call, live_multi, live_easy. apply keeps_bind; [keep|]. intros _ s.
  apply wp_bind, wp_perform. intros [code ks] e He. apply wp_bind.
  pose proof (removal_quiet h (environment s)) as Hq. rewrite He in Hq.
  eapply wp_mono; [apply (keeps_run_callbacks p ks Hq)| |done]. intros s' u Hs'. by apply wp_ret.
Qed.

End Kept.

(** What a transfer hands to the callback: nothing, or a block with the response
    and a terminating zero. *)
Definition reply_shape (b : option (list byte)) (n : Z) : Prop :=
  (b = None /\ n = 0) \/ (exists body, b = Some (body ++ [x00]) /\ n = zlen body /\ n <= DOH_MAX_RESPONSE_SIZE).

(** The response callback does not use the client that calls it; [G] is what it
    needs of its data, [J] of the rest of the program; with [aborted] this is
    about callbacks without a reply only. *)
Class RespCallback {D} `{Env} {W} `{!Lens W (https_client_t D)} (G : D -> Prop) (J : W -> Prop)
    (stops : stop -> Prop) (aborted : bool) (cb : D -> option (list byte) -> Z -> M W unit) : Prop :=
  resp_cb_keeps : forall d b n (s : sys W), G d -> J (world s) -> reply_shape b n -> (aborted = true -> b = None) ->
    wp (cb d b n) s
      (fun s' _ => part (https_client_t D) s' = part _ s /\
                   transfer_events (trace s') = transfer_events (trace s) /\ J (world s'))
      (fun _ r => stops r).

Section Finish.
Context {D : Type}.
Context `{Env} {W : Type} `{!Lens W (https_client_t D)} `{!Lens W stat_t}.
Context `{!Apart W (https_client_t D) stat_t}.
Context (J : W -> Prop) `{!Ignores J (https_client_t D)} `{!Ignores J stat_t}.
Context (debug : bool) `{!OrderlyCurl}.
Context (G : D -> Prop) (stops : stop -> Prop) (aborted : bool) cb `{!RespCallback (D:=D) G J stops aborted cb}.
Implicit Types (s : sys W) (c : https_client_t D) (x : https_fetch_ctx D) (ls : list loc).

Definition ends (r : stop) : Prop := may_stop debug r \/ stops r.

Abbreviation evs s := (transfer_events (trace s)).

Lemma wp_calm c0 {A B} (m : M W A) (k : A -> M W B) s Φ :
  calmly J debug c0 m -> steady c0 (part _ s) -> J (world s) ->
  (forall s' a, steady c0 (part _ s') -> evs s' = evs s -> J (world s') -> wp (k a) s' Φ (fun _ r => ends r)) ->
  wp (m ≫= k) s Φ (fun _ r => ends r).
Proof.
  intros Hm Hs HJ Hk. apply wp_bind. eapply wp_mono; [by apply Hm| |by left].
  intros s' a (? & ? & ?). by apply Hk.
Qed.

Lemma holds_shape x body : holds x body -> reply_shape (buf x) (buflen x).
Proof.
  intros (Hl & Hm & [Hb|[Hb ->]]); [right; exists body; by rewrite Hl|left; by rewrite Hl].
Qed.

Lemma reply_of_holds x body : holds x body -> reply_of x = None \/ reply_of x = Some body.
Proof.
  intros (Hl & _ & [Hb|[Hb _]]); unfold reply_of; rewrite Hb; [right|by left].
  cbn. by rewrite Hl, ztake_app_exact.
Qed.

(** The list surgery at the end of [https_fetch_ctx_cleanup]. *)
Lemma bypass_run ls1 p ls2 nx s Φ Ψ :
  chain (fetch_heap (part (https_client_t D) s)) (fetches (part (https_client_t D) s)) (ls1 ++ p :: ls2) ->
  (forall s', part _ s' = bypass (last ls1) nx (part (https_client_t D) s) -> trace s' = trace s ->
     (J (world s) -> J (world s')) -> Φ s' tt) ->
  wp (unlink (D:=D) (last ls1) nx) s Φ Ψ.
Proof.
  intros Hch HΦ. unfold unlink. destruct (last ls1) as [q|] eqn:El.
  - apply last_Some in El as [ls0 ->].
    destruct (chain_lookup _ _ _ q Hch) as [y Hy]; [set_solver|].
    apply wp_bind. eapply wp_load_fetch; [done|]. eapply wp_store_fetch; [done|]. apply HΦ.
    + cbn [bypass]. rewrite Hy. unfold part. cbn [world]. by rewrite view_set.
    + done.
    + by apply ignores.
  - apply wp_modify, HΦ; [unfold part; cbn [world]; by rewrite view_set|done|by apply ignores].
Qed.

(** Everything up to the callback: the reply is the response collected, or
    nothing when the request was aborted or [Q] says the response is faulty. *)
Lemma before_callback c0 ls p x code (Q : bool -> Prop) s Φ (k : unit -> M W unit) :
  transfers debug G c0 ls -> fetch_heap c0 !! p = Some x -> steady c0 (part _ s) -> J (world s) ->
  (forall s0, steady c0 (part _ s0) ->
     wp (https_fetch_ctx_process_response debug p code) s0 (fun _ f => Q f) (fun _ _ => True)) ->
  (forall s' x', steady c0 (part _ s') -> fetch_heap (part _ s') !! p = Some x' -> evs s' = evs s -> J (world s') ->
     ((code < 0 \/ Q true) /\ buf x' = None \/
      (0 <= code /\ Q false /\ fetch_heap (part (https_client_t D) s') !! p = fetch_heap (part (https_client_t D) s) !! p)) ->
     wp (k tt) s' Φ (fun _ r => ends r)) ->
  wp (drop_reply ←
      (if code <? 0 then WLOG "%04hX: Request was aborted" ;; mret true
       else
         faulty ← https_fetch_ctx_process_response debug p code;
         if (faulty : bool) then ILOG "%04hX: Response was faulty, skipping DNS reply" ;; mret true
         else mret false);
    (if (drop_reply : bool) then
       ctx ← load p; free_buf (buf ctx) ;; store p (with_buf None 0 ctx)
     else mret tt) ≫= k) s Φ (fun _ r => ends r).
Proof.
  intros Htr Hx Hs HJ HQ Hk. apply wp_bind.
  assert (wp (if code <? 0 then WLOG "%04hX: Request was aborted" ;; mret true
       else
         faulty ← https_fetch_ctx_process_response debug p code;
         if (faulty : bool) then ILOG "%04hX: Response was faulty, skipping DNS reply" ;; mret true
         else mret false) s
       (fun s' d => (steady c0 (part _ s') /\ evs s' = evs s /\ J (world s')) /\
          ((code < 0 \/ Q true) /\ d = true \/
           (0 <= code /\ Q false /\ fetch_heap (part (https_client_t D) s') !! p = fetch_heap (part (https_client_t D) s) !! p) /\
           d = false)) (fun _ r => ends r)) as Hd.
  { destruct (code <? 0) eqn:E; bool_facts.
    - apply wp_bind, wp_log, wp_ret. split; [|left; auto]. split; [done|]. split; [|done].
      cbn [trace]. rewrite transfer_events_app. apply app_nil_r.
    - apply wp_bind. eapply wp_mono; [apply wp_and; [by eapply calm_process_response|apply wp_and; [by apply HQ|apply (keeps_process_response debug p)]]
        | |intros ?? [? _]; by left].
      intros s1 f [(Hs1 & Ht1 & HJ1) [Hf Hkeep]]. destruct f.
      + apply wp_bind, wp_log, wp_ret. split; [|left; auto]. split; [done|]. split; [|done].
        cbn [trace]. rewrite transfer_events_app, Ht1. apply app_nil_r.
      + apply wp_ret. split; [done|]. right. auto. }
  eapply wp_mono; [exact Hd| |done]. clear Hd. intros s1 d [(Hs1 & Ht1 & HJ1) Hcase].
  destruct (steady_lookup _ _ _ _ Hs1 Hx) as (x1 & Hx1 & Hsame1).
  destruct Hcase as [[Hc ->]|[Hc ->]].
  - repeat (apply wp_bind). eapply wp_load_fetch; [done|]. apply wp_bind.
    assert (calmly J debug c0 (free_buf (buf x1))) as Hf.
    { unfold free_buf. destruct (buf x1); [by apply calm_emit|apply calm_ret]. }
    eapply wp_mono; [by apply Hf| |by left]. intros s2 _ (Hs2 & Ht2 & HJ2).
    destruct (steady_lookup _ _ _ _ Hs2 Hx) as (x2 & Hx2 & Hsame2).
    eapply wp_store_fetch; [done|].
    apply (Hk _ (with_buf None 0 x1)); cbn [world trace].
    + unfold part at 1. cbn [world]. rewrite view_set. eapply steady_store; [done|done|].
      destruct Hsame1 as (? & ? & ? & ? & ?), Hsame2 as (? & ? & ? & ? & ?).
      repeat split; cbn; try congruence. intros _. exists []. split; [done|]. split; [done|]. by right.
    + unfold part at 1. cbn [world]. rewrite view_set. cbn. apply lookup_insert_eq.
    + congruence.
    + by apply ignores.
    + left. split; [done|]. done.
  - apply wp_bind, wp_ret. eapply Hk; try done. by right.
Qed.

(** The client [c'] has lost the transfer [x] of [c], which got the reply [r]. *)
Definition finished c x c' : Prop :=
  (exists h, easy c' = delete h (easy c)) /\ slists c' = slists c /\ header_list c' = header_list c.

(** Finishing a transfer calls its callback once and removes it from the list. *)
Lemma fetch_cleanup_run ls1 p ls2 x code (Q : bool -> Prop) s :
  (aborted = true -> code < 0) -> transfers debug G (part _ s) (ls1 ++ p :: ls2) -> fetch_heap (part _ s) !! p = Some x -> J (world s) ->
  (forall s0, steady (part _ s) (part _ s0) ->
     wp (https_fetch_ctx_process_response debug p code) s0 (fun _ f => Q f) (fun _ _ => True)) ->
  wp (https_fetch_ctx_cleanup cb debug (last ls1) p code) s
    (fun s' _ => transfers debug G (part _ s') (ls1 ++ ls2) /\ J (world s') /\ finished (part _ s) x (part _ s') /\
       ids_of (part _ s) (ls1 ++ p :: ls2) ≡ₚ ctx_id x :: ids_of (part _ s') (ls1 ++ ls2) /\
       exists r, evs s' = evs s ++ [(ctx_id x, Some r)] /\
         ((code < 0 \/ Q true) /\ r = None \/
          (0 <= code /\ Q false /\ (keeps (D:=D) p (curl_call (W:=W) (Multi_remove_handle (curl x))) -> r = reply_of x))))
    (fun _ r => ends r).
Proof.
  intros Hab Htr Hx HJ HQ. set (c0 := part _ s) in *.
  destruct (tr_wired _ _ _ _ Htr p x Hx) as (h & os & Hcx & Hos & _).
  unfold https_fetch_ctx_cleanup. apply wp_bind. eapply wp_load_fetch; [done|]. rewrite Hcx. apply wp_bind.
  eapply wp_mono; [apply wp_and; [apply (calm_curl_call J debug G c0 _ _ Htr); [by exists h, os|done|done]|apply (wp_keeps p)]
    | |intros ?? [? _]; by left].
  intros s1 rc [(Hs1 & Ht1 & HJ1) Hk1]. destruct (negb (rc =? CURLM_OK)); [apply wp_flog; by left; left|].
  eapply (before_callback c0 _ p x code Q); [done..|].
  intros s2 x2 Hs2 Hx2 Ht2 HJ2 Hr. apply wp_bind. eapply wp_load_fetch; [done|]. apply wp_bind, wp_emit.
  destruct (steady_lookup _ _ _ _ Hs2 Hx) as (x2' & Hx2' & Hsame2). simplify_eq.
  pose proof (transfers_steady _ _ _ _ _ Htr Hs2) as Htr2.
  destruct (tr_bodies _ _ _ _ Htr2 p x2 Hx2) as [body Hbody].
  apply wp_bind. eapply wp_mono; [eapply resp_cb_keeps; [by apply (tr_data _ _ _ _ Htr2 p)|exact HJ2|by eapply holds_shape|]| |by right].
  { intros Ha. specialize (Hab Ha). destruct Hr as [[_ ?]|[? _]]; [done|lia]. }
  intros s3 _ (Hp3 & Ht3 & HJ3). cbn [trace] in Ht3. rewrite transfer_events_app in Ht3.
  change (part (https_client_t D) (Sys (world s2) (environment s2) (trace s2 ++ [Replied (ctx_id x2) (reply_of x2)])))
    with (part (https_client_t D) s2) in Hp3.
  apply wp_bind. eapply wp_load_fetch; [by rewrite Hp3|].
  assert (curl x2 = Some h) as Hc2 by (destruct Hsame2 as (-> & _); done). rewrite Hc2.
  unfold curl_easy_cleanup. apply wp_bind.
  eapply (wp_calm c0); [apply (calm_curl_call J debug G c0 _ _ Htr); by exists h, os|by rewrite Hp3|done|].
  intros s4 _ Hs4 Ht4 HJ4. apply wp_modify. set (s5 := Sys _ _ _).
  assert (part (https_client_t D) s5 = with_easy (delete h (easy (part _ s4))) (part _ s4)) as Hp5
    by (unfold part, s5; cbn [world]; by rewrite view_set).
  assert (J (world s5)) as HJ5 by (by apply ignores).
  destruct (steady_lookup _ _ _ _ Hs4 Hx) as (x4 & Hx4 & Hsame4).
  apply wp_bind. eapply wp_load_fetch; [by rewrite Hp5|]. apply wp_bind.
  assert (wp (free_buf (buf x4)) s5 (fun s6 _ => part (https_client_t D) s6 = part _ s5 /\ evs s6 = evs s5 /\ J (world s6))
            (fun _ r => ends r)) as Hfree.
  { unfold free_buf. destruct (buf x4); [|by apply wp_ret]. apply wp_emit. split; [done|]. split; [|done].
    cbn [trace]. rewrite transfer_events_app. apply app_nil_r. }
  eapply wp_mono; [exact Hfree| |done]. intros s6 _ (Hp6 & Ht6 & HJ6). rewrite Hp5 in Hp6.
  pose proof (transfers_steady _ _ _ _ _ Htr Hs4) as Htr4.
  apply wp_bind. eapply (bypass_run ls1 p ls2).
  { rewrite Hp6. cbn. apply (tr_chain _ _ _ _ Htr4). }
  intros s7 Hp7 Ht7 HJ7. apply wp_modify. set (s8 := Sys _ _ _).
  assert (part (https_client_t D) s8 = removed (last ls1) p h (ctx_next x4) (part _ s4)) as Hp8.
  { unfold part at 1, s8. cbn [world]. rewrite view_set. rewrite Hp7, Hp6. done. }
  assert (curl x4 = Some h) as Hc4 by (destruct Hsame4 as (-> & _); done).
  assert (ctx_id x4 = ctx_id x) as Hid4 by apply Hsame4.
  rewrite Hp8. split; [by apply transfers_removed|]. split; [apply ignores, HJ7, HJ6|]. split; [|split].
  - destruct (removed_rest (last ls1) p h (ctx_next x4) (part _ s4)) as (He & Hl & Hh & _).
    split; [|by rewrite Hl, Hh, (st_slists _ _ Hs4), (st_header _ _ Hs4)].
    exists h. by rewrite He, (st_easy _ _ Hs4).
  - rewrite <-(ids_steady _ _ _ Hs4), <-Hid4. by apply (ids_removed debug G).
  - exists (reply_of x2). split.
    + change (evs s8) with (evs s7). rewrite Ht7, Ht6. change (evs s5) with (evs s4).
      rewrite Ht4, Ht3, Ht2, Ht1, <-(proj1 (proj2 Hsame2)). done.
    + destruct Hr as [[? Hb]|(? & ? & Heq)]; [left; split; [done|]; unfold reply_of; by rewrite Hb|].
      right. split; [done|]. split; [done|]. intros Hk. rewrite (Hk1 Hk), Hx2 in Heq. fold c0 in Heq. congruence.
Qed.

End Finish.

(** ** The client over a run *)

(** The identifiers of the requests taken, and of those answered. *)
Definition started (es : list (Z * option (option (list byte)))) : list Z :=
  omap (fun '(id, r) => match r with None => Some id | Some _ => None end) es.
Definition answered (es : list (Z * option (option (list byte)))) : list Z :=
  omap (fun '(id, r) => match r with Some _ => Some id | None => None end) es.

Section Runs.
Context {D : Type}.
Context `{Env} {W : Type} `{!Lens W (https_client_t D)} `{!Lens W stat_t}.
Context `{!Apart W (https_client_t D) stat_t}.
Context (J : W -> Prop) `{!Ignores J (https_client_t D)} `{!Ignores J stat_t}.
Context (debug : bool) `{!OrderlyCurl}.
Context (G : D -> Prop) (stops : stop -> Prop) (aborted : bool) cb `{!RespCallback (D:=D) G J stops aborted cb}.
Implicit Types (s : sys W) (c : https_client_t D) (x : https_fetch_ctx D) (ls : list loc).

Abbreviation evs s := (transfer_events (trace s)).
Abbreviation endings := (fun _ r => ends debug stops r).

(** Every request taken is either answered or has its transfer on the list. *)
Definition balanced s ls : Prop := started (evs s) ≡ₚ answered (evs s) ++ ids_of (part (https_client_t D) s) ls.

Definition ok s ls : Prop := transfers debug G (part (https_client_t D) s) ls /\ balanced s ls /\ J (world s).

(** Transfers may have been finished, the string lists are the same. *)
Definition fewer c c' : Prop :=
  easy c' ⊆ easy c /\ slists c' = slists c /\ header_list c' = header_list c.

#[local] Instance fewer_preorder : PreOrder fewer.
Proof.
  split; [by split|]. intros a b c (? & ? & ?) (? & ? & ?). split; [by trans (easy b)|]. split; congruence.
Qed.

Lemma fewer_lists_live c c' : fewer c c' -> lists_live c -> lists_live c'.
Proof.
  intros (He & Hs & _) Hl h os Hos. rewrite Hs. apply (Hl h). by eapply lookup_weaken.
Qed.

Lemma steady_fewer c c' : steady c c' -> fewer c c'.
Proof. intros []. split; [by rewrite st_easy0|done]. Qed.

Lemma steady_ok s s' ls : steady (part _ s) (part _ s') -> evs s' = evs s -> J (world s') -> ok s ls -> ok s' ls.
Proof.
  intros Hs Ht HJ (Htr & Hb & _). split; [by eapply transfers_steady|]. split; [|done].
  unfold balanced in *. by rewrite Ht, (ids_steady _ _ _ Hs).
Qed.

(** Since [s] the requests [ids] were closed without a reply, and no other. *)
Definition closes (ids : list Z) s s' : Prop :=
  exists es, evs s' = evs s ++ es /\ es ≡ₚ (fun id => (id, Some None)) <$> ids.

Lemma closes_nil s s' : evs s' = evs s -> closes [] s s'.
Proof. intros Ht. exists []. by rewrite app_nil_r. Qed.

Lemma closes_frame ids s1 s2 s3 s4 : evs s2 = evs s1 -> closes ids s2 s3 -> evs s4 = evs s3 -> closes ids s1 s4.
Proof. intros H1 (es & H2 & Hes) H3. exists es. by rewrite H3, H2, H1. Qed.

(** Finishing the transfer [p]. *)
Lemma fetch_cleanup_ok ls1 p ls2 x code s :
  (aborted = true -> code < 0) -> ok s (ls1 ++ p :: ls2) -> fetch_heap (part _ s) !! p = Some x ->
  wp (https_fetch_ctx_cleanup cb debug (last ls1) p code) s
    (fun s' _ => ok s' (ls1 ++ ls2) /\ fewer (part _ s) (part _ s') /\
       ids_of (part _ s) (ls1 ++ p :: ls2) ≡ₚ ctx_id x :: ids_of (part (https_client_t D) s') (ls1 ++ ls2) /\
       (code < 0 -> evs s' = evs s ++ [(ctx_id x, Some None)])) endings.
Proof.
  intros Hab (Htr & Hb & HJ) Hx.
  eapply wp_mono; [apply (fetch_cleanup_run J debug G stops aborted cb ls1 p ls2 x code (fun _ => True)); try done| |done].
  { intros s0 _. by unfold wp; destruct (https_fetch_ctx_process_response _ _ _ _). }
  intros s' _ (Htr' & HJ' & ((h & He) & Hl & Hh) & Hids & r & Ht & Hr). split; [|split; [|split; [done|]]].
  - split; [done|]. split; [|done]. unfold balanced in *. rewrite Ht, Hids in *.
    unfold started, answered in *. rewrite !omap_app. cbn. rewrite app_nil_r, <-app_assoc. done.
  - split; [|done]. rewrite He. apply delete_subseteq.
  - intros Hc. destruct Hr as [[_ ->]|[? _]]; [done|lia].
Qed.

Lemma check_msg_ok m ls s :
  aborted = false -> ok s ls -> wp (check_msg cb debug m) s (fun s' _ => (exists ls', ok s' ls') /\ fewer (part _ s) (part _ s')) endings.
Proof.
  intros Hab Hok. pose proof Hok as (Htr & Hb & HJ).
  destruct m as [h result|msg]; cbn [check_msg].
  - apply wp_bind, wp_get.
    assert (length ls < S (size (fetch_heap (part (https_client_t D) s))))%nat as Hf.
    { rewrite <-size_dom, (tr_dom _ _ _ _ Htr), size_list_to_set; [lia|]. by eapply chain_NoDup, Htr. }
    pose proof (find_node_spec _ NULL _ ls (fun x => bool_decide (curl x = Some h)) _ (tr_chain _ _ _ _ Htr) Hf) as Hfind.
    destruct (find_node _ _ _ _ _) as [|[[prev cur]|]]; [done| |].
    + destruct Hfind as (ls1 & ls2 & x & -> & Hx & _ & Hprev & _).
      assert (prev = last ls1) as -> by (rewrite Hprev; by destruct (last ls1)).
      eapply wp_mono; [by apply (fetch_cleanup_ok ls1 cur ls2 x); [congruence|..]| |done]. intros s' _ (? & ? & _). eauto.
    + apply wp_ret. split; [by eexists|done].
  - apply wp_log. split; [|done]. exists ls. eapply steady_ok; [..|done]; try done.
    cbn [trace]. rewrite transfer_events_app. apply app_nil_r.
Qed.

Lemma check_msgs_ok ms : forall ls s,
  aborted = false -> ok s ls -> wp (check_msgs cb debug ms) s (fun s' _ => (exists ls', ok s' ls') /\ fewer (part _ s) (part _ s')) endings.
Proof.
  induction ms as [|m ms IH]; intros ls s Hab Hok; cbn [check_msgs].
  - apply wp_ret. split; [by eexists|done].
  - apply wp_bind. eapply wp_mono; [by eapply check_msg_ok| |done]. intros s1 _ [[ls1 Hok1] Hf1].
    eapply wp_mono; [by eapply IH| |done]. intros s2 _ [? Hf2]. split; [done|]. by trans (part (https_client_t D) s1).
Qed.

Lemma check_multi_info_ok ls s :
  aborted = false -> ok s ls -> wp (check_multi_info cb debug) s (fun s' _ => (exists ls', ok s' ls') /\ fewer (part _ s) (part _ s')) endings.
Proof.
  intros Hab Hok. pose proof Hok as (Htr & _ & HJ). unfold check_multi_info.
  eapply (wp_calm J debug stops); [apply calm_live_multi, (tr_live _ _ _ _ Htr)|done|done|].
  intros s1 _ Hs1 Ht1 HJ1. apply wp_bind, wp_perform. intros ms e _.
  eapply wp_mono; [eapply (check_msgs_ok ms ls); [done|by eapply steady_ok]| |done].
  intros s2 _ [? Hf]. split; [done|]. trans (part (https_client_t D) s1); [by apply steady_fewer|done].
Qed.

(** Aborting all transfers: the fuel of the loop is enough. *)
Lemma drop_fetches_ok ls : forall fuel s,
  ok s ls -> (length ls < fuel)%nat ->
  wp (drop_fetches cb debug fuel) s
    (fun s' _ => ok s' [] /\ fewer (part _ s) (part _ s') /\ closes (ids_of (part _ s) ls) s s') endings.
Proof.
  induction ls as [|p ls IH]; intros fuel s Hok Hf; (destruct fuel as [|fuel]; [cbn in Hf; lia|]);
    cbn [drop_fetches]; pose proof Hok as (Htr & _ & _); pose proof (tr_chain _ _ _ _ Htr) as Hch;
    apply wp_bind, wp_get; inversion Hch as [Hn|? x ? Hx Hch' Hp]; simplify_eq.
  - apply wp_ret. split; [done|]. split; [done|]. by apply closes_nil.
  - apply wp_bind. eapply wp_mono; [by apply (fetch_cleanup_ok [] p ls x); [lia|..]| |done].
    intros s1 _ (Hok1 & Hf1 & Hids & Ht1). eapply wp_mono; [apply (IH fuel s1 Hok1); cbn in Hf; lia| |done].
    intros s2 _ (Hok2 & Hf2 & es & Ht2 & Hes). split; [done|]. split; [by trans (part (https_client_t D) s1)|].
    exists ((ctx_id x, Some None) :: es). rewrite Ht2, Ht1 by lia. split; [by rewrite <-app_assoc|].
    rewrite app_nil_l in Hids. by rewrite Hids, fmap_cons, <-Hes.
Qed.

(** A client without transfers. *)
Record idle c : Prop := {
  idle_fetches : fetches c = None;
  idle_heap : fetch_heap c = ∅;
  idle_easy : easy c = ∅;
  idle_limit : connections c <= HTTPS_SOCKET_LIMIT;
  idle_url : resolver_url (opt c) <> None
}.

Lemma transfers_idle c : transfers debug G c [] -> idle c.
Proof.
  intros [Hch Hdom _ He _ _ Hl Hu _].
  assert (fetch_heap c = ∅) as Hh by (by apply dom_empty_iff_L; rewrite Hdom).
  split; try done; [by inversion Hch|].
  apply map_empty. intros h. destruct (easy c !! h) as [os|] eqn:E; [|done].
  destruct (He h) as (p & x & Hx & _); [by eexists|]. by rewrite Hh in Hx.
Qed.

Lemma idle_transfers c l : idle c -> transfers debug G (with_multi Multi_live l c) [].
Proof.
  intros [Hf Hh He Hl Hu]. split; cbn; rewrite ?Hf, ?Hh, ?He; try done.
  - constructor.
  - intros h [os Hos]. by rewrite lookup_empty in Hos.
Qed.

Lemma idle_lists c : idle c -> lists_live c.
Proof. intros Hi. unfold lists_live. by rewrite (idle_easy _ Hi). Qed.

(** All requests are answered; [c'] is [c] without its header list. *)
Definition shut s c : Prop :=
  started (evs s) ≡ₚ answered (evs s) /\ J (world s) /\ idle (part _ s) /\
  curlm (part (https_client_t D) s) = Multi_freed /\ reset_timer (part (https_client_t D) s) = false /\
  slists (part (https_client_t D) s) = match header_list c with Some l => delete l (slists c) | None => slists c end.

Lemma seen_client (f : https_client_t D -> https_client_t D) s Φ Ψ :
  (forall s', part _ s' = f (part _ s) -> trace s' = trace s -> (J (world s) -> J (world s')) -> Φ s' tt) ->
  wp (modify f) s Φ Ψ.
Proof.
  intros HΦ. apply wp_modify, HΦ; [unfold part; cbn [world]; by rewrite view_set|done|by apply ignores].
Qed.

Lemma free_all_run l s Φ Ψ :
  (forall q, l = Some q -> is_Some (slists (part (https_client_t D) s) !! q)) ->
  (forall s', part _ s' = with_slists (match l with Some q => delete q (slists (part _ s)) | None => slists (part _ s) end)
                            (part (https_client_t D) s) -> trace s' = trace s -> (J (world s) -> J (world s')) -> Φ s' tt) ->
  wp (curl_slist_free_all (D:=D) l) s Φ Ψ.
Proof.
  intros Hl HΦ. unfold curl_slist_free_all. destruct l as [q|].
  - apply wp_bind, wp_get. destruct (Hl q eq_refl) as [v ->]. apply wp_put, HΦ; [|done|by apply ignores].
    unfold part. cbn [world]. by rewrite view_set.
  - apply wp_ret, HΦ; [by destruct (part (https_client_t D) s)|done|done].
Qed.

Lemma transfers_with_slists c ls h : transfers debug G c ls -> transfers debug G (with_slists h c) ls.
Proof. intros []. by split. Qed.
Lemma transfers_with_header c ls l : transfers debug G c ls -> transfers debug G (with_multi (curlm c) l c) ls.
Proof. intros []. by split. Qed.

Lemma client_cleanup_ok ls s :
  ok s ls -> header_live (part _ s) ->
  wp (https_client_cleanup cb debug) s (fun s' _ => shut s' (part _ s) /\ closes (ids_of (part _ s) ls) s s') endings.
Proof.
  intros Hok Hhd. pose proof Hok as (Htr & _ & _). unfold https_client_cleanup. apply wp_bind, wp_get.
  assert (size (fetch_heap (part (https_client_t D) s)) = length ls) as Hsz.
  { rewrite <-size_dom, (tr_dom _ _ _ _ Htr). apply size_list_to_set. by eapply chain_NoDup, Htr. }
  apply wp_bind. eapply wp_mono; [by apply (drop_fetches_ok ls); [|lia]| |done].
  intros s1 _ ((Htr1 & Hb1 & HJ1) & (_ & Hsl1 & Hh1) & Hcl1). apply wp_bind, wp_get, wp_bind.
  apply free_all_run; [intros q Hq; rewrite Hsl1; apply Hhd; congruence|].
  intros s2 Hp2 Ht2 HJ2. rewrite Hsl1, Hh1 in Hp2.
  assert (transfers debug G (part _ s2) []) as Htr2 by (rewrite Hp2; by apply transfers_with_slists).
  eapply (wp_calm J debug stops (part _ s2)); [by apply (calm_curl_call J debug G _ [] _ Htr2)|done|by apply HJ2|].
  intros s3 _ Hs3 Ht3 HJ3. apply wp_bind, seen_client. intros s4 Hp4 Ht4 HJ4.
  apply seen_client. intros s5 Hp5 Ht5 HJ5.
  pose proof (transfers_idle _ (transfers_steady _ _ _ _ _ Htr2 Hs3)) as Hi.
  rewrite Hp4 in Hp5. split; [|by eapply closes_frame; [|exact Hcl1|rewrite Ht5, Ht4, Ht3, Ht2]].
  unfold shut. rewrite Hp5, Ht5, Ht4, Ht3, Ht2. split; [|split; [by apply HJ5, HJ4|split]].
  - unfold balanced in Hb1. by rewrite app_nil_r in Hb1.
  - by destruct Hi; split.
  - split; [done|]. split; [done|]. cbn. by rewrite (st_slists _ _ Hs3), Hp2.
Qed.

Lemma multi_setopt_run o s Φ :
  curlm (part (https_client_t D) s) <> Multi_freed ->
  (forall s', curlm (part (https_client_t D) s) = Multi_live -> world s' = world s -> trace s' = trace s -> Φ s' tt) ->
  wp (ASSERT_CURL_MULTI_SETOPT (D:=D) o) s Φ endings.
Proof.
  intros Hm HΦ. unfold ASSERT_CURL_MULTI_SETOPT. apply wp_bind, wp_get.
  destruct (curlm (part (https_client_t D) s)) eqn:E; [apply wp_flog; by left; left| |done].
  apply wp_bind, wp_perform. intros code e _. destruct (negb (code =? CURLM_OK)); [apply wp_flog; by left; left|].
  by apply wp_ret, HΦ.
Qed.

(** A new multi handle for an idle client, or the process ends. *)
Lemma multi_init_run l s :
  idle (part _ s) ->
  wp (https_client_multi_init (D:=D) l) s
    (fun s' _ => part _ s' = with_multi Multi_live l (part (https_client_t D) s) /\ trace s' = trace s /\
                 (J (world s) -> J (world s'))) endings.
Proof.
  intros Hi. unfold https_client_multi_init. apply wp_bind, wp_perform. intros m e _.
  apply wp_bind, seen_client. intros s1 Hp1 Ht1 HJ1. cbn [world trace] in *.
  change (part (https_client_t D) (Sys (world s) e (trace s))) with (part (https_client_t D) s) in Hp1.
  apply wp_bind. apply multi_setopt_run; [rewrite Hp1; by destruct m|]. intros s2 Hm Hw2 Ht2.
  rewrite Hp1 in Hm. destruct m; [|done].
  assert (forall s', world s' = world s1 -> curlm (part (https_client_t D) s') <> Multi_freed) as Hne
    by (intros s' Hw; unfold part; rewrite Hw; fold (part (https_client_t D) s1); by rewrite Hp1).
  do 5 (apply wp_bind; apply multi_setopt_run; [apply Hne; congruence|]; intros ? _ ??).
  apply multi_setopt_run; [apply Hne; congruence|]. intros s8 _ Hw8 Ht8.
  assert (world s8 = world s1) as Hw by congruence. split; [|split; [congruence|by rewrite Hw]].
  unfold part at 1. rewrite Hw. exact Hp1.
Qed.

(** Resetting answers every request and leaves a client that works. *)
Lemma client_reset_ok ls s :
  ok s ls ->
  wp (https_client_reset cb debug) s
    (fun s' _ => ok s' [] /\ slists (part _ s') = slists (part (https_client_t D) s) /\
       header_list (part _ s') = header_list (part (https_client_t D) s) /\ reset_timer (part (https_client_t D) s') = false /\
       closes (ids_of (part _ s) ls) s s')
    endings.
Proof.
  intros (Htr & Hb & HJ). unfold https_client_reset. apply wp_bind, wp_get, wp_bind, seen_client.
  intros s1 Hp1 Ht1 HJ1. apply wp_bind.
  eapply wp_mono; [apply (client_cleanup_ok ls)| |done].
  { split; [rewrite Hp1; by apply transfers_with_header|]. split; [|by apply HJ1].
    unfold balanced in *. by rewrite Ht1, Hp1. }
  { intros l. by rewrite Hp1. }
  rewrite Hp1. cbn [header_list with_multi slists]. intros s2 _ ((Hbal & HJ2 & Hi & _ & Hr & Hsl) & Hcl).
  eapply wp_mono; [by apply multi_init_run| |done]. intros s3 _ (Hp3 & Ht3 & HJ3).
  unfold ok, balanced. rewrite Hp3, Ht3. cbn. split.
  - split; [by apply idle_transfers|]. split; [|by apply HJ3]. by rewrite app_nil_r.
  - split; [done|]. split; [done|]. split; [done|]. by eapply closes_frame; [|exact Hcl|rewrite Ht3]; rewrite ?Ht1.
Qed.

(** The client with the new transfer [p], whose handle [h] has the options [os]. *)
Definition wiring c p h x (os : list curl_option) : https_client_t D :=
  with_easy (<[h := os]> (easy c)) (with_fetches (Some p) (<[p := x]> (fetch_heap c)) c).

Lemma seen_setopt c p h x os o s Φ :
  part _ s = wiring c p h x os -> J (world s) ->
  (forall s' code, part _ s' = wiring c p h x (if code =? CURLE_OK then os ++ [o] else os) ->
     evs s' = evs s -> J (world s') -> Φ s' code) ->
  wp (curl_easy_setopt (D:=D) (Some h) o) s Φ endings.
Proof.
  intros Hp HJ HΦ. unfold curl_easy_setopt, live_easy, client.
  apply wp_bind, wp_bind, wp_get. rewrite Hp. cbn [easy wiring with_easy]. rewrite lookup_insert_eq.
  apply wp_ret, wp_bind, wp_perform. intros code e _. apply wp_bind.
  destruct (code =? CURLE_OK) eqn:E.
  - apply seen_client. intros s1 Hp1 Ht1 HJ1. apply wp_ret. cbn [trace] in *. apply HΦ; [|by rewrite Ht1|by apply HJ1].
    rewrite E, Hp1. change (part (https_client_t D) (Sys (world s) e (trace s))) with (part (https_client_t D) s).
    rewrite Hp. unfold wiring. cbn. by rewrite alter_insert_eq.
  - do 2 apply wp_ret. apply HΦ; [by rewrite E|done|done].
Qed.

Lemma assert_setopts_run c p h x os2 : forall os s Φ,
  part _ s = wiring c p h x os -> J (world s) ->
  (forall s', part _ s' = wiring c p h x (os ++ os2) -> evs s' = evs s -> J (world s') -> Φ s' tt) ->
  wp (assert_setopts (D:=D) (Some h) os2) s Φ endings.
Proof.
  induction os2 as [|o os2 IH]; intros os s Φ Hp HJ HΦ; cbn [assert_setopts].
  - apply wp_ret, HΦ; [by rewrite app_nil_r|done|done].
  - apply wp_bind. unfold ASSERT_CURL_EASY_SETOPT. apply wp_bind.
    eapply seen_setopt; [done|done|]. intros s1 code Hp1 Ht1 HJ1.
    destruct (code =? CURLE_OK); cbn [negb]; [|apply wp_flog; by left; left].
    apply wp_ret. eapply IH; [done|done|]. intros s2 Hp2 Ht2 HJ2.
    apply HΦ; [by rewrite Hp2, <-app_assoc|congruence|done].
Qed.

Lemma assert_setopt_run c p h x os o s Φ :
  part _ s = wiring c p h x os -> J (world s) ->
  (forall s', part _ s' = wiring c p h x (os ++ [o]) -> evs s' = evs s -> J (world s') -> Φ s' tt) ->
  wp (ASSERT_CURL_EASY_SETOPT (D:=D) (Some h) o) s Φ endings.
Proof.
  intros Hp HJ HΦ. unfold ASSERT_CURL_EASY_SETOPT. apply wp_bind.
  eapply seen_setopt; [done|done|]. intros s1 code Hp1 Ht1 HJ1.
  destruct (code =? CURLE_OK); cbn [negb]; [|apply wp_flog; by left; left]. by apply wp_ret, HΦ.
Qed.

(** The option of a setting that may be missing. *)
Definition if_set (v : option string) (o : string -> curl_option) : list curl_option :=
  match v with Some v => [o v] | None => [] end.

Lemma assert_setopt_if_run c p h x os v fmt o s Φ :
  part _ s = wiring c p h x os -> J (world s) ->
  (forall s', part _ s' = wiring c p h x (os ++ if_set v o) -> evs s' = evs s -> J (world s') -> Φ s' tt) ->
  wp (assert_setopt_if (D:=D) (Some h) v fmt o) s Φ endings.
Proof.
  intros Hp HJ HΦ. unfold assert_setopt_if. destruct v as [v|].
  - apply wp_bind, wp_log. eapply assert_setopt_run; [exact Hp|done|]. intros s1 Hp1 Ht1 HJ1.
    apply HΦ; [done| |done]. rewrite Ht1. cbn [trace]. rewrite transfer_events_app. apply app_nil_r.
  - apply wp_ret, HΦ; [by rewrite app_nil_r|done|done].
Qed.

(** The protocol version, when libcurl knows it. *)
Definition version_option (v : Z) : curl_option :=
  CURLOPT_HTTP_VERSION (if v =? 1 then CURL_HTTP_VERSION_1_1
                        else if v =? 2 then CURL_HTTP_VERSION_2TLS else CURL_HTTP_VERSION_3).

Lemma log_run level fmt s Φ Ψ :
  (forall s', world s' = world s -> evs s' = evs s -> Φ s' tt) -> wp (LOG level fmt) s Φ Ψ.
Proof.
  intros HΦ. apply wp_log, HΦ; [done|]. cbn [trace]. rewrite transfer_events_app. apply app_nil_r.
Qed.

Lemma set_request_version_run c p h x os s Φ :
  part _ s = wiring c p h x os -> J (world s) ->
  (forall s' vs, part _ s' = wiring c p h x (os ++ vs) ->
     (vs = [] \/ vs = [version_option (use_http_version (opt c))]) ->
     evs s' = evs s -> J (world s') -> Φ s' tt) ->
  wp (https_set_request_version (D:=D) (Some h)) s Φ endings.
Proof.
  intros Hp HJ HΦ. unfold https_set_request_version. apply wp_bind, wp_get. rewrite Hp.
  change (opt (wiring c p h x os)) with (opt c). set (v := use_http_version (opt c)) in *.
  assert (forall vz, (v = 1 /\ vz = CURL_HTTP_VERSION_1_1 \/ v = 2 /\ vz = CURL_HTTP_VERSION_2TLS \/
                      v = 3 /\ vz = CURL_HTTP_VERSION_3) ->
    wp (_ ← http_version_str vz;
        DLOG "%04hX: Requesting HTTP/%s" ;;
        easy_code ← curl_easy_setopt (Some h) (CURLOPT_HTTP_VERSION vz);
        if negb (easy_code =? CURLE_OK) then
          _ ← http_version_str vz;
          ELOG "%04hX: Setting HTTP/%s version failed with %d: %s" ;;
          if v =? 3 then ELOG "Try to run application without -q argument!"
          else if v =? 2 then
            ELOG "Try to run application with -x argument! Falling back to HTTP/1.1 version."
          else mret tt
        else mret tt) s Φ endings) as Hgo.
  { intros vz Hv. assert (exists t, forall s', @http_version_str _ W vz s' = Ok s' t) as [t Ht].
    { destruct Hv as [[_ ->]|[[_ ->]|[_ ->]]]; eexists; reflexivity. }
    assert (CURLOPT_HTTP_VERSION vz = version_option v) as ->.
    { unfold version_option. destruct Hv as [[-> ->]|[[-> ->]|[-> ->]]]; done. }
    apply wp_bind. eapply wp_eq; [apply Ht|]. apply wp_bind, log_run. intros s1 Hw1 Ht1.
    apply wp_bind. eapply seen_setopt; [unfold part; rewrite Hw1; exact Hp|by rewrite Hw1|].
    intros s2 code Hp2 Ht2 HJ2. destruct (code =? CURLE_OK); cbn [negb].
    - apply wp_ret. eapply HΦ; [done|by right|congruence|done].
    - apply wp_bind. eapply wp_eq; [apply Ht|]. apply wp_bind, log_run. intros s3 Hw3 Ht3.
      assert (forall s', world s' = world s3 -> evs s' = evs s3 -> Φ s' tt) as Hend.
      { intros s' Hw' Ht'. eapply (HΦ s' []); [|by left|congruence|by rewrite Hw', Hw3].
        rewrite app_nil_r. unfold part. by rewrite Hw', Hw3. }
      destruct (v =? 3); [by apply log_run|]. destruct (v =? 2); [by apply log_run|]. by apply wp_ret, Hend. }
  apply wp_bind. destruct (v =? 1) eqn:E1; [apply wp_ret, Hgo; bool_facts; tauto|].
  destruct (v =? 2) eqn:E2; [apply wp_ret, Hgo; bool_facts; tauto|].
  destruct (v =? 3) eqn:E3; [apply wp_ret, Hgo; bool_facts; tauto|]. apply wp_flog. by left; left.
Qed.

(** All options of a transfer, in the order they are set; [vs] is the protocol
    version or nothing. *)
Definition fetch_options c (p : loc) (url : string) (data : list byte) (datalen : Z) (resolv : ptr)
    (vs : list curl_option) : list curl_option :=
  [CURLOPT_RESOLVE resolv] ++ vs ++ debug_options debug p ++ transfer_options c p url data datalen ++
  if_set (curl_proxy (opt c)) CURLOPT_PROXY ++ if_set (source_addr (opt c)) CURLOPT_INTERFACE ++
  if_set (ca_info (opt c)) CURLOPT_CAINFO.

Definition version_only (v : Z) (vs : list curl_option) : Prop := vs = [] \/ vs = [version_option v].

Lemma omap_if_set {A} (f : curl_option -> option A) v o : (forall t, f (o t) = None) -> omap f (if_set v o) = [].
Proof. intros Hf. destruct v; [cbn; by rewrite Hf|done]. Qed.

Lemma fetch_options_wired c p url data datalen resolv v vs :
  version_only v vs ->
  let os := fetch_options c p url data datalen resolv vs in
  write_data os = Some p /\ debug_data os = (if debug then Some p else None) /\
  (forall l, l ∈ used_lists os <-> resolv = Some l \/ header_list c = Some l).
Proof.
  intros Hvs os. unfold os, write_data, debug_data, used_lists, fetch_options, debug_options.
  repeat split; rewrite !omap_app, !omap_if_set, ?app_nil_r by done;
    destruct Hvs as [->| ->], debug; cbn; try done;
    destruct resolv, (header_list c); cbn; set_solver.
Qed.

(** The options that matter to the request. *)
Lemma fetch_options_has c p url data datalen resolv vs :
  [CURLOPT_POSTFIELDS data; CURLOPT_POSTFIELDSIZE datalen; CURLOPT_URL url; CURLOPT_RESOLVE resolv;
   CURLOPT_HTTPHEADER (header_list c); CURLOPT_FOLLOWLOCATION 0; CURLOPT_SSLVERSION CURL_SSLVERSION_TLSv1_2;
   CURLOPT_WRITEDATA p; CURLOPT_TIMEOUT (if 0 <? connections c then 5 else 10)] ⊆
  fetch_options c p url data datalen resolv vs.
Proof. clear. unfold fetch_options, transfer_options. set_solver. Qed.

Lemma transfers_wiring c ls p h id d os :
  transfers debug G c ls -> fetch_heap c !! p = None -> easy c !! h = None ->
  write_data os = Some p -> debug_data os = (if debug then Some p else None) -> G d ->
  transfers debug G (wiring c p h (FetchCtx (Some h) id d None 0 (fetches c)) os) (p :: ls).
Proof.
  intros [Hch Hdom Hw He Hg Hb Hl Hu Hm] Hp Hh Hwd Hdd Hd.
  assert (p ∉ ls) as Hpls.
  { intros Hin. apply not_elem_of_dom in Hp. rewrite Hdom in Hp. set_solver. }
  split; unfold wiring; cbn; try done.
  - econstructor; [apply lookup_insert_eq|]. by apply chain_insert_ne.
  - rewrite dom_insert_L, Hdom. set_solver.
  - apply map_Forall_insert_2.
    + exists h, os. cbn. by rewrite lookup_insert_eq.
    + intros q y Hq. destruct (Hw q y Hq) as (h' & os' & ? & Hos' & ?).
      exists h', os'. cbn. rewrite lookup_insert_ne; [done|]. intros <-. congruence.
  - intros h' [os' Hos']. apply lookup_insert_Some in Hos' as [[<- _]|[Hne Hos']].
    + exists p. eexists. by rewrite lookup_insert_eq.
    + destruct (He h') as (q & y & Hq & Hcy); [by eexists|]. exists q, y.
      rewrite lookup_insert_ne; [done|]. intros <-. congruence.
  - by apply map_Forall_insert_2.
  - apply map_Forall_insert_2; [|done]. exists []. split; [done|]. split; [done|]. by right.
Qed.

Lemma ids_wiring c ls p h id d os nx :
  p ∉ ls -> ids_of (wiring c p h (FetchCtx (Some h) id d None 0 nx) os) (p :: ls) = id :: ids_of c ls.
Proof.
  intros Hp. rewrite ids_cons. unfold wiring at 1. cbn. rewrite lookup_insert_eq. cbn. f_equal.
  induction ls as [|q ls IH]; [done|]. rewrite !ids_cons, IH by set_solver. cbn.
  by rewrite lookup_insert_ne by set_solver.
Qed.

(** The transfer is set up: the request is what libcurl is given. *)
Lemma setup_run ls p url data datalen resolv id d s Φ (k : ptr -> M W unit) :
  transfers debug G (part _ s) ls -> fetch_heap (part (https_client_t D) s) !! p = None -> J (world s) ->
  (forall s' h vs, let c := part (https_client_t D) s in
     easy c !! h = None -> version_only (use_http_version (opt c)) vs ->
     part _ s' = wiring c p h (FetchCtx (Some h) id d None 0 (fetches c))
                   (fetch_options c p url data datalen resolv vs) ->
     evs s' = evs s -> J (world s') -> wp (k (Some h)) s' Φ endings) ->
  wp (h ← curl_easy_init;
      c ← client;
      put (with_fetches (Some p) (<[p := FetchCtx h id d None 0 (fetches c)]> (fetch_heap c)) c) ;;
      ASSERT_CURL_EASY_SETOPT h (CURLOPT_RESOLVE resolv) ;;
      https_set_request_version h ;;
      assert_setopts h (debug_options debug p) ;;
      c ← client;
      assert_setopts h (transfer_options c p url data datalen) ;;
      assert_setopt_if h (curl_proxy (opt c)) "%04hX: Using curl proxy: %s" CURLOPT_PROXY ;;
      assert_setopt_if h (source_addr (opt c)) "%04hX: Using source address: %s" CURLOPT_INTERFACE ;;
      (match ca_info (opt c) with
       | Some path => ASSERT_CURL_EASY_SETOPT h (CURLOPT_CAINFO path)
       | None => mret tt
       end) ;; k h) s Φ endings.
Proof.
  intros Htr Hp HJ Hk. set (c0 := part (https_client_t D) s) in *. unfold curl_easy_init, client.
  apply wp_bind, wp_bind, wp_perform. intros [hint|] e _.
  2:{ apply wp_ret, wp_bind, wp_get, wp_bind, wp_put, wp_bind. unfold ASSERT_CURL_EASY_SETOPT, curl_easy_setopt.
      apply wp_bind, wp_bind, wp_bind, wp_get, wp_ret. apply wp_bind, wp_perform. intros code e' He'.
      apply wp_bind, wp_ret, wp_ret.
      pose proof (curl_setopt_null (CURLOPT_RESOLVE resolv) e) as Hn. cbn [environment] in He'. rewrite He' in Hn.
      replace (code =? CURLE_OK) with false by (symmetry; apply Z.eqb_neq; exact Hn). apply wp_flog. by left; left. }
  apply wp_bind, wp_get. set (h := place _ _).
  assert (easy c0 !! h = None) as Hh by apply place_fresh.
  apply wp_bind, wp_put, wp_ret, wp_bind, wp_get, wp_bind, wp_put.
  set (x := FetchCtx (Some h) id d None 0 (fetches c0)).
  set (s1 := Sys _ _ _).
  assert (part _ s1 = wiring c0 p h x []) as Hp1.
  { unfold s1, part. cbn [world]. rewrite !view_set. done. }
  assert (J (world s1)) as HJ1 by (by repeat apply ignores).
  apply wp_bind. eapply assert_setopt_run; [exact Hp1|done|]. intros s2 Hp2 Ht2 HJ2. rewrite app_nil_l in Hp2.
  apply wp_bind. eapply set_request_version_run; [exact Hp2|done|]. intros s3 vs Hp3 Hvs Ht3 HJ3.
  apply wp_bind. eapply assert_setopts_run; [exact Hp3|done|]. intros s4 Hp4 Ht4 HJ4.
  apply wp_bind, wp_get. rewrite Hp4.
  change (transfer_options (wiring c0 p h x _)) with (transfer_options c0).
  change (opt (wiring c0 p h x _)) with (opt c0).
  apply wp_bind. eapply assert_setopts_run; [exact Hp4|done|]. intros s5 Hp5 Ht5 HJ5.
  apply wp_bind. eapply assert_setopt_if_run; [exact Hp5|done|]. intros s6 Hp6 Ht6 HJ6.
  apply wp_bind. eapply assert_setopt_if_run; [exact Hp6|done|]. intros s7 Hp7 Ht7 HJ7.
  assert (evs s7 = evs s) as Ht by (rewrite Ht7, Ht6, Ht5, Ht4, Ht3, Ht2; done).
  apply wp_bind. destruct (ca_info (opt c0)) as [path|] eqn:Eca.
  - eapply assert_setopt_run; [exact Hp7|done|]. intros s8 Hp8 Ht8 HJ8.
    apply (Hk s8 h vs); try done; [|congruence].
    rewrite Hp8. unfold fetch_options. rewrite Eca. cbn [if_set]. by rewrite <-!app_assoc.
  - apply wp_ret. apply (Hk s7 h vs); try done.
    rewrite Hp7. unfold fetch_options. rewrite Eca. cbn [if_set]. rewrite app_nil_r. by rewrite <-!app_assoc.
Qed.

(** [resolv] is a list that exists, or [NULL]. *)
Definition list_ok c (l : ptr) : Prop := forall q, l = Some q -> is_Some (slists c !! q).

(** The request [data] is posted by the new transfer [p]. *)
Definition posted c p url data datalen resolv id (d : D) c' : Prop :=
  exists h x vs, fetch_heap c' !! p = Some x /\ curl x = Some h /\ ctx_id x = id /\ cb_data x = d /\
    version_only (use_http_version (opt c)) vs /\
    easy c' !! h = Some (fetch_options c p url data datalen resolv vs).

Lemma wired_lists_live c p h x url data datalen resolv v vs :
  version_only v vs -> lists_live c -> header_live c -> list_ok c resolv ->
  lists_live (wiring c p h x (fetch_options c p url data datalen resolv vs)).
Proof.
  intros Hvs Hl Hh Hr. unfold lists_live, wiring. cbn. apply map_Forall_insert_2; [|done].
  apply Forall_forall. intros l Hin.
  apply (fetch_options_wired c p url data datalen resolv v vs Hvs) in Hin as [?|?]; [by apply Hr|by apply Hh].
Qed.

(** The result of a call of libcurl is what libcurl answered. *)
Lemma curl_call_code op s :
  wp (curl_call op) s (fun _ code => exists e, fst (fst (answer (Curl op) e)) = code) (fun _ _ => True).
Proof.
  unfold curl_call. apply wp_bind. apply wp_mono with (Φ := fun _ _ => True) (Ψ := fun _ _ => True); [|intros s1 u _|done].
  { unfold wp. by destruct (_ : outcome W unit). }
  apply wp_bind, wp_perform. intros [code ks] e Ha. apply wp_bind. unfold wp at 1.
  destruct (run_callbacks ks _); [|done]. apply wp_ret. eexists. by rewrite Ha.
Qed.

(** libcurl did not take the transfer of the request [id], and the request was
    closed at once without a reply. *)
Definition declined (id : Z) s s' : Prop :=
  (exists h e, fst (fst (answer (Curl (Multi_add_handle (Some h))) e)) <> CURLM_OK) /\
  exists es, evs s' = evs s ++ (id, None) :: es /\ (id, Some None) ∈ es.

(** A fetch either leaves a transfer that posts the request, or has closed it
    because libcurl did not take it. *)
Lemma client_fetch_ok ls url data datalen resolv id d s :
  ok s ls -> lists_live (part _ s) -> header_live (part _ s) -> list_ok (part _ s) resolv -> G d ->
  wp (https_client_fetch cb debug url data datalen resolv id d) s
    (fun s' _ => slists (part _ s') = slists (part (https_client_t D) s) /\
       header_list (part _ s') = header_list (part (https_client_t D) s) /\ lists_live (part _ s') /\
       ((exists p, ok s' (p :: ls) /\ evs s' = evs s ++ [(id, None)] /\
           posted (part _ s) p url data datalen resolv id d (part _ s')) \/
        (declined id s s' /\ (ok s' ls \/ ok s' []))))
    endings.
Proof.
  intros (Htr & Hb & HJ) Hll Hhl Hr HGd. unfold https_client_fetch. apply wp_bind, wp_perform. intros [hint|] e _.
  2:{ apply wp_flog. by left; left. }
  apply wp_bind, wp_emit. apply wp_bind, wp_get. set (p := place _ _). set (s1 := Sys _ _ _).
  change (part (https_client_t D) s1) with (part (https_client_t D) s) in p.
  assert (fetch_heap (part (https_client_t D) s) !! p = None) as Hp by apply place_fresh.
  assert (evs s1 = evs s ++ [(id, None)]) as Ht1 by (unfold s1; cbn [trace]; apply transfer_events_app).
  unfold https_fetch_ctx_init. apply (setup_run ls p); [done|done|done|].
  change (part (https_client_t D) s1) with (part (https_client_t D) s). set (c0 := part (https_client_t D) s) in *.
  cbv zeta. intros s2 h vs Hh Hvs Hp2 Ht2 HJ2. set (os := fetch_options _ _ _ _ _ _ _) in *.
  set (x := FetchCtx _ _ _ _ _ _) in *.
  destruct (fetch_options_wired c0 p url data datalen resolv _ vs Hvs) as (Hwd & Hdd & _).
  assert (transfers debug G (part _ s2) (p :: ls)) as Htr2 by (rewrite Hp2; by apply transfers_wiring).
  assert (p ∉ ls) as Hpls.
  { intros Hin. apply not_elem_of_dom in Hp. rewrite (tr_dom _ _ _ _ Htr) in Hp. set_solver. }
  assert (ok s2 (p :: ls)) as Hok2.
  { split; [done|]. split; [|done]. unfold balanced in *. rewrite Hp2, Ht2, Ht1. unfold x. rewrite ids_wiring by done.
    unfold started, answered in *. rewrite !omap_app. cbn. rewrite app_nil_r, Hb.
    etrans; [apply Permutation_app_comm|]. cbn. apply Permutation_middle. }
  assert (lists_live (part _ s2)) as Hll2 by (rewrite Hp2; by eapply wired_lists_live).
  apply wp_bind. eapply wp_mono.
  { apply wp_and; [apply (calm_curl_call J debug G _ _ _ Htr2); [|done|done]|apply curl_call_code].
    exists h, os. split; [done|]. rewrite Hp2. apply lookup_insert_eq. }
  2:{ intros ?? [? _]. by left. }
  intros s3 code [(Hs3 & Ht3 & HJ3) [e3 Hcode]].
  assert (ok s3 (p :: ls)) as Hok3 by (by eapply steady_ok).
  assert (slists (part _ s3) = slists c0 /\ header_list (part _ s3) = header_list c0) as [Hsl3 Hh3]
    by (rewrite (st_slists _ _ Hs3), (st_header _ _ Hs3), Hp2; done).
  assert (lists_live (part _ s3)) as Hll3 by (by eapply fewer_lists_live; [by apply steady_fewer|]).
  assert (fetch_heap (part (https_client_t D) s2) !! p = Some x) as Hx by (rewrite Hp2; apply lookup_insert_eq).
  destruct (steady_lookup _ _ _ _ Hs3 Hx) as (x3 & Hx3 & Hc3 & Hi3 & Hd3 & _).
  destruct (code =? CURLM_OK) eqn:Eok; cbn [negb].
  { apply wp_ret. split; [done|]. split; [done|]. split; [done|]. left. exists p.
    split; [done|]. split; [by rewrite Ht3, Ht2, Ht1|].
    exists h, x3, vs. split; [done|]. split; [done|]. split; [done|]. split; [done|]. split; [done|].
    rewrite (st_easy _ _ Hs3), Hp2. apply lookup_insert_eq. }
  bool_facts. apply wp_bind, log_run. intros s4 Hw4 Ht4.
  assert (part (https_client_t D) s4 = part _ s3) as Hp4 by (unfold part; by rewrite Hw4).
  assert (forall s' es, evs s' = evs s4 ++ es -> (id, Some None) ∈ es -> declined id s s') as Hdecl.
  { intros s' es Hes Hin. split; [exists h, e3; by rewrite Hcode|]. exists es. split; [|done].
    by rewrite Hes, Ht4, Ht3, Ht2, Ht1, <-app_assoc. }
  assert (ok s4 (p :: ls)) as Hok4 by (apply (steady_ok s3); [by rewrite Hp4|done|by rewrite Hw4|done]).
  destruct (code =? CURLM_ABORTED_BY_CALLBACK).
  - apply wp_bind, log_run. intros s5 Hw5 Ht5.
    assert (part (https_client_t D) s5 = part _ s4) as Hp5 by (unfold part; by rewrite Hw5).
    eapply wp_mono; [apply (client_reset_ok (p :: ls))| |done].
    { apply (steady_ok s4); [by rewrite Hp5|done|by rewrite Hw5; apply Hok4|done]. }
    intros s6 _ (Hok6 & Hsl6 & Hh6 & _ & es & Ht6 & Hes). rewrite Hp5, Hp4 in Hsl6, Hh6, Hes.
    split; [congruence|]. split; [congruence|]. split; [apply idle_lists, transfers_idle, Hok6|].
    right. split; [|by right]. apply (Hdecl s6 es); [by rewrite Ht6, Ht5|]. rewrite Hes. apply list_elem_of_fmap.
    exists id. split; [done|]. rewrite ids_cons, Hx3. cbn. rewrite Hi3. by left.
  - apply wp_bind, wp_get. rewrite Hp4.
    assert (fetches (part (https_client_t D) s3) = Some p) as ->
      by (pose proof (tr_chain _ _ _ _ (proj1 Hok3)) as Hch; by inversion Hch).
    destruct (chain_lookup _ _ _ p (tr_chain _ _ _ _ (proj1 Hok4))) as [y Hy]; [set_solver|].
    eapply wp_mono; [apply (fetch_cleanup_ok [] p ls y (-1) s4); [lia|done|done]| |done].
    intros s5 _ (Hok5 & Hf5 & _ & Ht5). rewrite Hp4 in Hf5, Hy. split; [|split; [|split]].
    + destruct Hf5 as (_ & -> & _). done.
    + destruct Hf5 as (_ & _ & ->). done.
    + by eapply fewer_lists_live.
    + right. split; [|by left]. apply (Hdecl s5 [(ctx_id y, Some None)]); [apply Ht5; lia|].
      assert (y = x3) as -> by congruence. rewrite Hi3. by left.
Qed.

(** *** The event loop *)

Inductive https_event :=
| On_fetch (url : string) (data : list byte) (datalen : Z) (resolv : ptr) (id : Z) (d : D)
| On_socket (fd revents : Z)
| On_timer
| On_reset_timer
| On_reset.

(** A watcher's callback runs when the watcher is active; the program fetches
    with a list that exists. *)
Definition enabled c (ev : https_event) : Prop :=
  match ev with
  | On_fetch _ _ _ resolv _ d => list_ok c resolv /\ G d
  | On_socket fd _ => exists w, w ∈ c_io_events c /\ io_fd w = fd /\ io_active w = true
  | On_timer => c_timer c <> None
  | On_reset_timer => reset_timer c = true
  | On_reset => True
  end.

(** Timers fire once: libev stops them before it calls the callback. *)
Definition handle (ev : https_event) : M W unit :=
  match ev with
  | On_fetch url data datalen resolv id d => https_client_fetch cb debug url data datalen resolv id d
  | On_socket fd revents => sock_cb cb debug fd revents
  | On_timer => modify (with_timer (D:=D) None) ;; timer_cb cb debug
  | On_reset_timer => modify (with_reset (D:=D) false) ;; reset_timer_cb cb debug
  | On_reset => https_client_reset cb debug
  end.

Definition healthy s : Prop :=
  exists ls, ok s ls /\ lists_live (part (https_client_t D) s) /\ header_live (part (https_client_t D) s).

(** The client is healthy again and its string lists are as they were. *)
Definition same_lists c c' : Prop := slists c' = slists c /\ header_list c' = header_list c.
Definition still_healthy s s' : Prop := healthy s' /\ same_lists (part (https_client_t D) s) (part _ s').

Lemma still_healthy_trans s1 s2 s3 : still_healthy s1 s2 -> still_healthy s2 s3 -> still_healthy s1 s3.
Proof. intros (_ & ? & ?) (? & ? & ?). split; [done|]. split; congruence. Qed.

Lemma fewer_healthy s s' :
  (exists ls, ok s' ls) -> fewer (part _ s) (part _ s') ->
  lists_live (part (https_client_t D) s) -> header_live (part (https_client_t D) s) -> still_healthy s s'.
Proof.
  intros [ls Hok] Hf Hl Hh. pose proof Hf as (_ & Hs & Hhd). split; [|done].
  exists ls. split; [done|]. split; [by eapply fewer_lists_live|]. intros l. rewrite Hs, Hhd. apply Hh.
Qed.

Lemma reset_healthy s : healthy s -> wp (https_client_reset cb debug) s (fun s' _ => still_healthy s s') endings.
Proof.
  intros (ls & Hok & _ & Hh). eapply wp_mono; [by eapply client_reset_ok| |done].
  intros s' _ (Hok' & Hsl & Hhd & _). split; [|done].
  exists []. split; [done|]. split; [apply idle_lists, transfers_idle, Hok'|].
  intros l. rewrite Hsl, Hhd. apply Hh.
Qed.

Lemma steady_healthy s s' :
  steady (part _ s) (part _ s') -> evs s' = evs s -> J (world s') -> healthy s -> still_healthy s s'.
Proof.
  intros Hs Ht HJ (ls & Hok & Hl & Hh). eapply fewer_healthy; [|by apply steady_fewer|done|done].
  exists ls. by eapply steady_ok.
Qed.

Lemma check_multi_info_healthy s :
  aborted = false -> healthy s -> wp (check_multi_info cb debug) s (fun s' _ => still_healthy s s') endings.
Proof.
  intros Hab (ls & Hok & Hl & Hh). eapply wp_mono; [by eapply check_multi_info_ok| |done].
  intros s' _ [Hok' Hf]. by eapply fewer_healthy.
Qed.

Lemma action_run sock mask s (k : Z -> M W unit) :
  healthy s -> (forall code s', healthy s' -> wp (k code) s' (fun s2 _ => still_healthy s' s2) endings) ->
  wp (curl_call (Multi_socket_action sock mask) ≫= k) s (fun s' _ => still_healthy s s') endings.
Proof.
  intros Hs Hk. pose proof Hs as (ls & (Htr & _ & HJ) & Hl & _).
  eapply (wp_calm J debug stops (part _ s)); [by apply (calm_curl_call J debug G _ ls _ Htr)|done|done|].
  intros s1 code Hs1 Ht1 HJ1. pose proof (steady_healthy s s1 Hs1 Ht1 HJ1 Hs) as Hsh.
  eapply wp_mono; [apply Hk, Hsh| |done]. intros s2 u H2. by eapply still_healthy_trans.
Qed.

Lemma healthy_J s : healthy s -> J (world s).
Proof. by intros (ls & (_ & _ & ?) & _). Qed.

Lemma seen_healthy (f : https_client_t D -> https_client_t D) s (k : unit -> M W unit) :
  healthy s -> (forall c, steady c (f c)) ->
  (forall s', healthy s' -> wp (k tt) s' (fun s2 _ => still_healthy s' s2) endings) ->
  wp (modify f ≫= k) s (fun s2 _ => still_healthy s s2) endings.
Proof.
  intros Hs Hf Hk. apply wp_bind, seen_client. intros s1 Hp1 Ht1 HJ1.
  assert (still_healthy s s1) as Hsh.
  { apply steady_healthy; [rewrite Hp1; apply Hf|by rewrite Ht1|apply HJ1; by apply healthy_J|done]. }
  eapply wp_mono; [apply Hk, Hsh| |done]. intros s2 u H2. by eapply still_healthy_trans.
Qed.

Lemma log_healthy level fmt s (k : unit -> M W unit) :
  healthy s -> (forall s', healthy s' -> wp (k tt) s' (fun s2 _ => still_healthy s' s2) endings) ->
  wp (LOG level fmt ≫= k) s (fun s2 _ => still_healthy s s2) endings.
Proof.
  intros Hs Hk. apply wp_bind, log_run. intros s1 Hw1 Ht1.
  assert (still_healthy s s1) as Hsh.
  { apply steady_healthy; [unfold part; by rewrite Hw1|done|rewrite Hw1; by apply healthy_J|done]. }
  eapply wp_mono; [apply Hk, Hsh| |done]. intros s2 u H2. by eapply still_healthy_trans.
Qed.

(** A fetch works with a callback that is only called without a reply. *)
Lemma fetch_healthy url data datalen resolv id d s :
  healthy s -> list_ok (part _ s) resolv -> G d ->
  wp (https_client_fetch cb debug url data datalen resolv id d) s (fun s' _ => still_healthy s s') endings.
Proof.
  intros (ls & Hok & Hl & Hh) Hr Hd. eapply wp_mono; [by apply (client_fetch_ok ls)| |done].
  intros s' _ (Hsl & Hhd & Hl' & Hcase).
  assert (header_live (part (https_client_t D) s')) as Hh' by (intros l; rewrite Hsl, Hhd; apply Hh).
  split; [|done]. destruct Hcase as [(p & Hok' & _)|[_ [Hok'|Hok']]]; by eexists.
Qed.

Lemma https_handle_run ev s :
  aborted = false -> healthy s -> enabled (part _ s) ev -> wp (handle ev) s (fun s' _ => still_healthy s s') endings.
Proof.
  intros Hab Hs Hen. destruct ev as [url data datalen resolv id d|fd revents| | |]; cbn [handle].
  - destruct Hen. by apply fetch_healthy.
  - unfold sock_cb. apply action_run; [done|]. intros code s1 Hs1.
    destruct (code =? CURLM_OK); [by apply check_multi_info_healthy|]. apply wp_bind, wp_flog. by left; left.
  - apply seen_healthy; [done|intros; by apply steady_timer|]. intros s1 Hs1. unfold timer_cb.
    apply action_run; [done|]. intros code s2 Hs2. destruct (negb (code =? CURLM_OK)).
    + apply log_healthy; [done|]. intros s3 Hs3. by apply check_multi_info_healthy.
    + apply wp_bind, wp_ret. by apply check_multi_info_healthy.
  - apply seen_healthy; [done|intros; by apply steady_reset|]. intros s1 Hs1. unfold reset_timer_cb.
    apply log_healthy; [done|]. intros s2 Hs2. by apply reset_healthy.
  - by apply reset_healthy.
Qed.

(** A client over a memory without transfers. *)
Definition no_transfers c : Prop := fetch_heap c = ∅ /\ easy c = ∅.

Lemma slist_append_run l v s Φ :
  list_ok (part (https_client_t D) s) l ->
  (forall s' l' sl, part _ s' = with_slists sl (part (https_client_t D) s) -> trace s' = trace s ->
     (J (world s) -> J (world s')) -> (forall q, l' = Some q -> is_Some (sl !! q)) -> Φ s' l') ->
  wp (curl_slist_append (D:=D) l v) s Φ endings.
Proof.
  intros Hl HΦ. unfold curl_slist_append. apply wp_bind, wp_perform. intros [hint|] e _.
  2:{ apply wp_ret. eapply (HΦ _ _ (slists (part (https_client_t D) s))); [|done..]. unfold part. cbn [world].
      by destruct (view (world s)). }
  apply wp_bind, wp_get.
  change (part (https_client_t D) (Sys (world s) e (trace s))) with (part (https_client_t D) s).
  destruct l as [q|].
  - destruct (Hl q eq_refl) as [old ->]. apply wp_bind, wp_put, wp_ret. eapply HΦ.
    + unfold part at 1. cbn [world]. by rewrite view_set.
    + done.
    + by apply ignores.
    + intros ? [= <-]. rewrite lookup_insert_eq. by eexists.
  - apply wp_bind, wp_put, wp_ret. eapply HΦ.
    + unfold part at 1. cbn [world]. by rewrite view_set.
    + done.
    + by apply ignores.
    + intros ? [= <-]. rewrite lookup_insert_eq. by eexists.
Qed.

Lemma client_init_run o stat s :
  resolver_url o <> None -> no_transfers (part _ s) -> started (evs s) ≡ₚ answered (evs s) -> J (world s) ->
  wp (https_client_init (D:=D) o stat) s (fun s' _ => healthy s') endings.
Proof.
  intros Hu [Hh He] Hb HJ. unfold https_client_init. apply wp_bind, seen_client. intros s1 Hp1 Ht1 HJ1.
  apply wp_bind. apply slist_append_run; [done|]. intros s2 l2 sl2 Hp2 Ht2 HJ2 Hl2.
  apply wp_bind. apply slist_append_run; [intros q Hq; rewrite Hp2; by apply Hl2|].
  intros s3 l3 sl3 Hp3 Ht3 HJ3 Hl3. rewrite Hp1 in Hp2. rewrite Hp2 in Hp3.
  assert (idle (part (https_client_t D) s3)) as Hi by (rewrite Hp3; by split; cbn).
  eapply wp_mono; [by apply multi_init_run| |done]. intros s4 _ (Hp4 & Ht4 & HJ4).
  exists []. split; [split|split].
  - rewrite Hp4. by apply idle_transfers.
  - unfold balanced. split; [|auto]. rewrite Ht4, Ht3, Ht2, Ht1, Hp4. by rewrite app_nil_r.
  - apply idle_lists. rewrite Hp4. destruct Hi. by split.
  - intros l Hl. rewrite Hp4 in Hl |- *. cbn in Hl |- *. rewrite Hp3. cbn. by apply Hl3.
Qed.

(** The states of the client: after initialisation, between callbacks, and after
    other parts of the program have run, which may allocate and free string
    lists that no transfer uses. *)
Inductive reachable : sys W -> Prop :=
| reach_init o stat s s' :
    resolver_url o <> None -> no_transfers (part _ s) -> evs s = [] -> J (world s) ->
    https_client_init (D:=D) o stat s = Ok s' tt -> reachable s'
| reach_handle s ev s' :
    reachable s -> enabled (part _ s) ev -> handle ev s = Ok s' tt -> reachable s'
| reach_outside s s' sl :
    reachable s -> part _ s' = with_slists sl (part (https_client_t D) s) -> evs s' = evs s -> J (world s') ->
    lists_live (part (https_client_t D) s') -> header_live (part (https_client_t D) s') -> reachable s'.

Lemma reachable_healthy s : aborted = false -> reachable s -> healthy s.
Proof.
  intros Hab. induction 1 as [o stat s s' Hu Hn He HJ Hi|s ev s' _ IH Hen Hh|s s' sl _ IH Hp Ht HJ Hl Hh].
  - pose proof (client_init_run o stat s Hu Hn) as Hw. rewrite He in Hw. specialize (Hw (Permutation_refl _) HJ).
    unfold wp in Hw. by rewrite Hi in Hw.
  - pose proof (https_handle_run ev s Hab IH Hen) as Hw. unfold wp in Hw. rewrite Hh in Hw. apply Hw.
  - destruct IH as (ls & (Htr & Hb & _) & _ & _). exists ls. split; [|done]. split; [|split; [|done]].
    + rewrite Hp. by apply transfers_with_slists.
    + unfold balanced in *. by rewrite Ht, Hp.
Qed.

End Runs.

(** ** A run

    A resolver that answers a request over one connection: adding a transfer
    starts the timer, opens socket 3 and watches it; when the socket is ready
    the response arrives in two chunks and the transfer is done. *)

Definition sample_response1 : list byte := [x00; x07; x81; x80].
Definition sample_response2 : list byte := [x00; x01; x00; x01; x00; x00; x00; x00].

Definition resolver : Env :=
  {| env_state := unit;
     answer A c e :=
       match c in call A return A * unit with
       | Curl (Multi_add_handle _) =>
           ((0, [Cb_timer 0; Cb_opensocket true AF_INET true; Cb_socket (Some 1%positive) 3 1]), e)
       | Curl (Multi_socket_action _ _) =>
           ((0, [Cb_write 1 sample_response1 1 4; Cb_write 1 sample_response2 1 8; Cb_socket (Some 1%positive) 3 4]), e)
       | Curl_multi_info_read => ([Msg_done 1 0], e)
       | c => (generous_answer c, e)
       end |}.

(** The memory: the client, whose callbacks get a number, and the statistics. *)
Definition sample : Type := https_client_t Z * stat_t.
#[export] Instance sample_client : Lens sample (https_client_t Z) := lens_fst.
#[export] Instance sample_stat : Lens sample stat_t := lens_snd.
#[export] Instance sample_apart : Apart sample (https_client_t Z) stat_t.
Proof. by intros r [c t]. Defined.
#[export] Instance sample_ignores T `{!Lens sample T} : Ignores (fun _ : sample => True) T.
Proof. by intros t w. Defined.

Definition ignore_reply `{Env} {W D} (d : D) (b : option (list byte)) (n : Z) : M W unit := mret tt.

#[export] Instance ignore_reply_ok `{Env} aborted :
  RespCallback (D:=Z) (W:=sample) (fun _ => True) (fun _ => True) (fun _ => False) aborted ignore_reply.
Proof. intros d b n s _ _ _ _. by apply wp_ret. Defined.

#[export] Instance resolver_orderly : @OrderlyCurl resolver.
Proof.
  split.
  - intros [] e; cbn; repeat constructor; vm_compute; done.
  - intros o e. by vm_compute.
Defined.

#[export] Instance resolver_quiet : @QuietRemoval resolver.
Proof. intros h e. constructor. Defined.

#[export] Instance resolver_memory : @MemoryAvailable resolver.
Proof. split; intros; cbn; by eauto. Defined.

Definition state_after {W} `{Env} (o : outcome W unit) : sys W :=
  match o with Ok s _ => s | Stop s _ => s end.

Definition fresh_memory : @sys resolver sample :=
  @Sys resolver sample
    (Client Multi_null NULL NULL None [] 0 options_init false false ∅ ∅ ∅,
     Stat 0 false 0 0 0 0 0 0 0 0 0 0 0 0 0) tt [].
Definition ready : @sys resolver sample :=
  @state_after _ resolver (@https_client_init Z resolver sample _ options_init true fresh_memory).

Definition query : list byte := [x00; x07; x01; x00; x00; x01; x00; x00; x00; x00; x00; x00].

Definition fetching : @sys resolver sample :=
  @state_after _ resolver
    (@handle Z resolver sample _ _ false ignore_reply (On_fetch "https://dns.google/dns-query" query 12 NULL 7 1) ready).

Lemma ready_reachable : @reachable Z resolver sample _ _ (fun _ => True) false (fun _ => True) ignore_reply ready.
Proof.
  apply (@reach_init Z resolver sample _ _ (fun _ => True) false (fun _ => True) ignore_reply options_init true fresh_memory);
    [done|done|done|exact I|vm_compute; reflexivity].
Defined.

Lemma fetching_reachable : @reachable Z resolver sample _ _ (fun _ => True) false (fun _ => True) ignore_reply fetching.
Proof.
  eapply (@reach_handle Z resolver sample _ _ (fun _ => True) false (fun _ => True) ignore_reply ready
    (On_fetch "https://dns.google/dns-query" query 12 NULL 7 1)); [exact ready_reachable|by split|vm_compute; reflexivity].
Defined.

(** ** Theorems *)

Section Claims.
Context {D : Type} `{Env} {W : Type} `{!Lens W (https_client_t D)} `{!Lens W stat_t}.
Context `{!Apart W (https_client_t D) stat_t}.
Context (J : W -> Prop) `{!Ignores J (https_client_t D)} `{!Ignores J stat_t}.
Context (debug : bool) `{!OrderlyCurl} (G : D -> Prop) (stops : stop -> Prop) cb `{!RespCallback (D:=D) G J stops false cb}.
Implicit Types (s : sys W).

(** C16: every request is answered exactly once.  Whatever libcurl reports and
    however the event loop orders its callbacks, resets included, the requests
    taken so far are those answered (with a reply or without) and those whose
    transfer is still on the list, each counted once; the list holds exactly the
    live transfers, each wired to its own easy handle, every response collected
    fits its buffer, and at most twelve sockets are open. *)
Theorem https_requests_conserved s :
  reachable J debug G cb s ->
  exists ls, transfers debug G (part (https_client_t D) s) ls /\
    started (transfer_events (trace s)) ≡ₚ
      answered (transfer_events (trace s)) ++ ids_of (part (https_client_t D) s) ls.
Proof.
  intros Hr. destruct (reachable_healthy J debug G stops false cb s eq_refl Hr) as (ls & (Htr & Hb & _) & _). by exists ls.
Qed.

(** C17: the client is memory safe.  No callback of a reachable client uses a freed
    transfer, easy handle, multi handle or string list, writes outside a buffer
    or loops: it returns, or ends the process through a fatal log line or
    through the response callback; with debug logging on, reading libcurl's
    debug text past its end is the one exception. *)
Theorem https_client_safe s ev :
  reachable J debug G cb s -> enabled G (part (https_client_t D) s) ev ->
  wp (handle debug cb ev) s (fun _ _ => True)
    (fun _ r => r = Exited 1 \/ (debug = true /\ r = Fault OutOfBounds) \/ stops r).
Proof.
  intros Hr Hen. pose proof (reachable_healthy J debug G stops false cb s eq_refl Hr) as Hh.
  eapply wp_mono; [by apply (https_handle_run J debug G stops false cb ev s)|done|].
  intros _ r [[?|?]|?]; auto.
Qed.

(** C20: a fetch posts the request unchanged: libcurl is given the bytes and the
    length of the DNS request, the resolver's URL, the bootstrap addresses and
    the header list, redirects off and TLS 1.2 or later, in a new transfer at the
    head of the list; the timeout is five seconds when a connection is open and
    ten otherwise.  Only if libcurl refuses the transfer with an error there is
    none: then the request is taken and closed without a reply at once, and the
    open requests are those that were open, or none after a reset. *)
Theorem https_request_posted ls url data resolv id d s :
  ok J debug G s ls -> lists_live (part (https_client_t D) s) -> header_live (part (https_client_t D) s) ->
  list_ok (part (https_client_t D) s) resolv -> G d ->
  wp (https_client_fetch cb debug url data (zlen data) resolv id d) s
    (fun s' _ => let c := part (https_client_t D) s in let c' := part (https_client_t D) s' in
       (exists p h x os, fetches c' = Some p /\ fetch_heap c' !! p = Some x /\ curl x = Some h /\ ctx_id x = id /\
          cb_data x = d /\ easy c' !! h = Some os /\
          transfer_events (trace s') = transfer_events (trace s) ++ [(id, None)] /\
          [CURLOPT_POSTFIELDS data; CURLOPT_POSTFIELDSIZE (zlen data); CURLOPT_URL url; CURLOPT_RESOLVE resolv;
           CURLOPT_HTTPHEADER (header_list c); CURLOPT_FOLLOWLOCATION 0; CURLOPT_SSLVERSION CURL_SSLVERSION_TLSv1_2;
           CURLOPT_WRITEDATA p; CURLOPT_TIMEOUT (if 0 <? connections c then 5 else 10)] ⊆ os) \/
       (declined id s s' /\ (ok J debug G s' ls \/ ok J debug G s' [])))
    (fun _ r => ends debug stops r).
Proof.
  intros Hok Hl Hh Hr Hg. eapply wp_mono; [by apply (client_fetch_ok J debug G stops false cb ls)| |done].
  intros s' _ (_ & _ & _ & [(p & Hok' & Ht & h & x & vs & Hx & Hc & Hi & Hd & Hvs & Hos)|Hcase]); [|by right].
  left. exists p, h, x. eexists. split.
  { pose proof (tr_chain _ _ _ _ (proj1 Hok')) as Hch. by inversion Hch. }
  split; [done|]. split; [done|]. split; [done|]. split; [done|]. split; [exact Hos|]. split; [done|].
  apply fetch_options_has.
Qed.

(** C23: shutting the client down answers every request that is still open and
    frees everything: the transfers, their easy handles, the header list and the
    multi handle; the loop over the transfers ends. *)
Theorem https_cleanup_complete s :
  reachable J debug G cb s ->
  wp (https_client_cleanup cb debug) s
    (fun s' _ => let c := part (https_client_t D) s' in
       started (transfer_events (trace s')) ≡ₚ answered (transfer_events (trace s')) /\
       fetches c = None /\ fetch_heap c = ∅ /\ easy c = ∅ /\ curlm c = Multi_freed /\ reset_timer c = false /\
       slists c = match header_list (part (https_client_t D) s) with
                  | Some l => delete l (slists (part (https_client_t D) s))
                  | None => slists (part (https_client_t D) s)
                  end)
    (fun _ r => ends debug stops r).
Proof.
  intros Hr. destruct (reachable_healthy J debug G stops false cb s eq_refl Hr) as (ls & Hok & _ & Hh).
  eapply wp_mono; [by apply (client_cleanup_ok J debug G stops false cb ls)| |done].
  intros s' _ [(Hb & _ & [] & Hm & Hrt & Hsl) _]. done.
Qed.

End Claims.

Abbreviation part_of s := (@part resolver sample (https_client_t Z) sample_client s).
Abbreviation trivially := (fun _ : sample => True).
Abbreviation anything := (fun _ : Z => True).
Abbreviation never := (fun _ : stop => False).

Lemma fetching_healthy : @healthy Z resolver sample _ trivially false anything fetching.
Proof.
  apply (@reachable_healthy Z resolver sample _ _ _ trivially _ _ false _ anything never false ignore_reply); [apply _|done|].
  exact fetching_reachable.
Qed.

Lemma https_requests_conserved_witness :
  exists ls, transfers false anything (part_of fetching) ls /\
    [7] ≡ₚ [] ++ ids_of (part_of fetching) ls.
Proof.
  exact (@https_requests_conserved Z resolver sample _ _ _ trivially _ _ false _ anything never ignore_reply _ fetching
           fetching_reachable).
Defined.

Lemma https_client_safe_witness :
  @wp resolver sample unit (@handle Z resolver sample _ _ false ignore_reply (On_socket 3 1)) fetching
    (fun _ _ => True) (fun _ r => r = Exited 1 \/ (false = true /\ r = Fault OutOfBounds) \/ False).
Proof.
  apply (@https_client_safe Z resolver sample _ _ _ trivially _ _ false _ anything never ignore_reply _ fetching
           (On_socket 3 1) fetching_reachable).
  exists (EvIo 3 1 true). split; [|by vm_compute].
  replace (c_io_events (part_of fetching)) with (EvIo 3 1 true :: replicate 11 unused_io) by (vm_compute; reflexivity).
  apply elem_of_cons. by left.
Defined.

Lemma https_request_posted_witness :
  @wp resolver sample unit
    (@https_client_fetch Z resolver sample _ _ ignore_reply false "https://dns.google/dns-query" query 12 NULL 9 2) fetching
    (fun s' _ => (exists p h x os, fetches (part_of s') = Some p /\ fetch_heap (part_of s') !! p = Some x /\
         curl x = Some h /\ easy (part_of s') !! h = Some os /\
         [CURLOPT_POSTFIELDS query; CURLOPT_POSTFIELDSIZE 12; CURLOPT_TIMEOUT 5] ⊆ os) \/
       @declined resolver sample 9 fetching s')
    (fun _ r => ends false never r).
Proof.
  destruct fetching_healthy as (ls & Hok & Hl & Hh). eapply wp_mono.
  - apply (@https_request_posted Z resolver sample _ _ _ trivially _ _ false _ anything never ignore_reply _ ls
             "https://dns.google/dns-query" query NULL 9 2 fetching Hok Hl Hh); done.
  - intros s' a [(p & h & x & os & Hf & Hx & Hc & _ & _ & Hos & _ & Hsub)|[Hdecl _]]; [|by right].
    left. exists p, h, x, os. do 4 (split; [done|]). intros o Ho. apply Hsub.
    replace (0 <? connections (part_of fetching)) with true by (vm_compute; reflexivity).
    revert Ho. rewrite !elem_of_cons, elem_of_nil. change (zlen query) with 12. tauto.
  - done.
Defined.

Lemma https_cleanup_complete_witness :
  @wp resolver sample unit (@https_client_cleanup Z resolver sample _ _ ignore_reply false) fetching
    (fun s' _ => started (transfer_events (trace s')) ≡ₚ answered (transfer_events (trace s')) /\
                 fetch_heap (part_of s') = ∅ /\ easy (part_of s') = ∅)
    (fun _ r => ends false never r).
Proof.
  eapply wp_mono.
  - exact (@https_cleanup_complete Z resolver sample _ _ _ trivially _ _ false _ anything never ignore_reply _ fetching
             fetching_reachable).
  - intros s' a (Hb & _ & Hh & He & _). done.
  - done.
Defined.

