(* ===== verification/HttpsProperties.v ===== *)
(** * Properties of the HTTPS client

    What a reply is: the verdict on a response, the response collected from the
    data libcurl delivers, and the watchers that make it arrive. *)

From Stdlib Require Import ZArith Lia String Strings.Byte.
From stdpp Require Import base tactics list option gmap strings.
From S2P Require Import Prelude Effects HeapList Stat Options IoEvents HttpsClient HttpsTransfers.

Open Scope Z_scope.

(** ** The verdict on a response *)

(** What libcurl knows of the finished transfer of handle [h]. *)
Class TransferInfo `{Env} (h : loc) (status : Z) (ctype : option string) : Prop := {
  info_status : forall e, fst (answer (Curl_easy_getinfo (Some h) CURLINFO_RESPONSE_CODE) e) = (CURLE_OK, status);
  info_ctype : forall e, fst (answer (Curl_easy_getinfo_str (Some h) CURLINFO_CONTENT_TYPE) e) = (CURLE_OK, ctype)
}.

Definition genuine (result status : Z) (ctype : option string) : bool :=
  (result =? CURLE_OK) && (status =? 200) &&
  match ctype with Some t => String.prefix DOH_CONTENT_TYPE t | None => false end.

Section Verdict.
Context {D : Type} `{Env} {W : Type} `{!Lens W (https_client_t D)} `{!Lens W stat_t}.

(** What [m] returns when it returns. *)
Definition yields {A} (m : M W A) (P : A -> Prop) : Prop := forall s, wp m s (fun _ a => P a) (fun _ _ => True).

Lemma yields_ret {A} (a : A) (P : A -> Prop) : P a -> yields (mret a) P.
Proof. intros HP s. by apply wp_ret. Qed.

Lemma yields_after {A B} (m : M W A) (k : A -> M W B) P : (forall a, yields (k a) P) -> yields (m ≫= k) P.
Proof. intros Hk s. apply wp_bind. unfold wp at 1. destruct (m s); [apply Hk|done]. Qed.

Lemma yields_bind {A B} (m : M W A) (k : A -> M W B) Q P :
  yields m Q -> (forall a, Q a -> yields (k a) P) -> yields (m ≫= k) P.
Proof. intros Hm Hk s. apply wp_bind. eapply wp_mono; [apply Hm| |done]. intros s' a Ha. by apply Hk. Qed.

Lemma yields_flog {A} fmt (P : A -> Prop) : yields (FLOG fmt) P.
Proof. intros s. by apply wp_flog. Qed.

Lemma check_result_yields h code : yields (check_result (D:=D) h code) (fun f => f = negb (code =? CURLE_OK)).
Proof.
  unfold check_result. destruct (code =? CURLE_OK) eqn:E; [by apply yields_after; intros; apply yields_ret|].
  destruct (code =? CURLE_WRITE_ERROR); [by apply yields_after; intros; apply yields_ret|].
  do 4 (apply yields_after; intros). by apply yields_ret.
Qed.

Context (h : loc) (status : Z) (ctype : option string) `{!TransferInfo h status ctype}.

Lemma getinfo_status_yields :
  yields (curl_easy_getinfo (D:=D) (Some h) CURLINFO_RESPONSE_CODE) (fun r => r = (CURLE_OK, status)).
Proof.
  apply yields_after. intros _ s. apply wp_perform. intros a e He.
  pose proof (info_status (environment s)) as Hi. by rewrite He in Hi.
Qed.

Lemma getinfo_ctype_yields :
  yields (curl_easy_getinfo_str (D:=D) (Some h) CURLINFO_CONTENT_TYPE) (fun r => r = (CURLE_OK, ctype)).
Proof.
  apply yields_after. intros _ s. apply wp_perform. intros a e He.
  pose proof (info_ctype (environment s)) as Hi. by rewrite He in Hi.
Qed.

Lemma check_response_code_yields p faulty :
  yields (check_response_code (D:=D) p (Some h) faulty) (fun f => f = faulty || negb (status =? 200)).
Proof.
  unfold check_response_code. eapply yields_bind; [apply getinfo_status_yields|]. intros r ->.
  cbn [negb CURLE_OK Z.eqb]. destruct (status =? 200); [apply yields_ret; by rewrite orb_false_r|].
  destruct (status =? 0).
  - apply yields_after. intros [ures up]. apply yields_after. intros _. apply yields_ret. by rewrite orb_true_r.
  - do 3 (apply yields_after; intros). apply yields_ret. by rewrite orb_true_r.
Qed.

Lemma check_content_type_yields faulty :
  yields (check_content_type (D:=D) (Some h) faulty)
    (fun f => f = faulty || negb (match ctype with Some t => String.prefix DOH_CONTENT_TYPE t | None => false end)).
Proof.
  unfold check_content_type. destruct faulty; [by apply yields_ret|].
  eapply yields_bind; [apply getinfo_ctype_yields|]. intros r ->. cbn [negb CURLE_OK Z.eqb].
  destruct ctype as [t|]; [destruct (String.prefix DOH_CONTENT_TYPE t)|];
    repeat (apply yields_after; intros); by apply yields_ret.
Qed.

Lemma process_response_yields debug p code (s : sys W) x :
  fetch_heap (part (https_client_t D) s) !! p = Some x -> curl x = Some h ->
  wp (https_fetch_ctx_process_response (D:=D) debug p code) s
    (fun _ f => f = negb (genuine code status ctype)) (fun _ _ => True).
Proof.
  intros Hx Hh. unfold https_fetch_ctx_process_response. apply wp_bind. eapply wp_load_fetch; [done|]. rewrite Hh.
  match goal with |- wp ?m s _ _ => enough (yields m (fun f => f = negb (genuine code status ctype))) by auto end.
  eapply yields_bind; [apply check_result_yields|]. intros f1 ->.
  eapply yields_bind; [apply check_response_code_yields|]. intros f2 ->.
  eapply yields_bind; [apply check_content_type_yields|]. intros f3 ->.
  do 4 (apply yields_after; intros). apply yields_ret. unfold genuine. by rewrite !negb_andb.
Qed.

End Verdict.

(** ** Collecting a response *)

(** A chunk is taken when the response stays within the limit. *)
Definition collect (body chunk : list byte) : list byte :=
  if zlen (body ++ chunk) <=? DOH_MAX_RESPONSE_SIZE then body ++ chunk else body.

(** The chunks libcurl delivers for handle [h]. *)
Definition chunks (h : loc) (ks : list curl_callback) : list (list byte) :=
  omap (fun k => match k with Cb_write h' data _ _ => if decide (h' = h) then Some data else None | _ => None end) ks.

Section Collecting.
Context {D : Type} `{Env} {W : Type} `{!Lens W (https_client_t D)} `{!Lens W stat_t}.
Context `{!Apart W (https_client_t D) stat_t} `{!MemoryAvailable} (debug : bool) (G : D -> Prop).
Implicit Types (s : sys W).

#[local] Instance ignores_true T `{!Lens W T} : Ignores (fun _ : W => True) T.
Proof. done. Qed.

Lemma holds_det {x : https_fetch_ctx D} {b b'} : holds x b -> holds x b' -> b = b'.
Proof.
  intros (H1 & _ & [H2|[H2 H3]]) (H1' & _ & [H2'|[H2' H3']]); try congruence.
  rewrite H2 in H2'. injection H2' as H2'. by apply app_inj_tail in H2' as [? _].
Qed.

Definition collected (p h : loc) body s : Prop :=
  exists x, fetch_heap (part (https_client_t D) s) !! p = Some x /\ curl x = Some h /\ holds x body.

Lemma run_callback_collects k p h body ls s :
  transfers debug G (part (https_client_t D) s) ls -> write_ok k -> collected p h body s ->
  wp (run_callback (D:=D) k) s
    (fun s' _ => transfers debug G (part (https_client_t D) s') ls /\ collected p h (foldl collect body (chunks h [k])) s')
    (fun _ r => may_stop debug r).
Proof.
  intros Htr Hk (x & Hx & Hh & Hb).
  eapply wp_mono; [apply wp_and|intros s' a HA; exact HA|intros s' r [Hr _]; exact Hr].
  { eapply wp_mono; [eapply (calm_run_callback (fun _ => True) debug G _ ls k Htr Hk); done| |done].
    intros s' a (Hs & _). by eapply transfers_steady. }
  destruct (tr_wired _ _ _ _ Htr p x Hx) as (h0 & os & Hh0 & Hos & Hwd & _). simplify_eq.
  destruct (decide (no_write k)) as [Hn|Hn].
  { eapply wp_mono; [by apply (keeps_run_callback p k Hn)| |done]. intros s' a Hs'.
    exists x. rewrite Hs'. by destruct k. }
  destruct k as [h' data size nmemb| | | | |]; try done. destruct Hk as [Hd Hlt].
  unfold run_callback. apply wp_bind, wp_get.
  destruct (easy (part (https_client_t D) s) !! h') as [os'|] eqn:Eh'.
  2:{ apply wp_ret. exists x. cbn. rewrite decide_False by congruence. done. }
  destruct (tr_easy _ _ _ _ Htr h') as (q & y & Hy & Hcy); [by eexists|].
  destruct (tr_wired _ _ _ _ Htr q y Hy) as (h0 & os0 & Hh0 & Hos0 & Hwd0 & _).
  assert (h0 = h') as -> by congruence. assert (os0 = os') as -> by congruence.
  change (Some os' ≫= write_data) with (write_data os'). rewrite Hwd0.
  destruct (tr_bodies _ _ _ _ Htr q y Hy) as [yb Hyb].
  eapply wp_mono; [by apply (write_buffer_run q y yb data size nmemb)| |done].
  intros s' n Hcase. cbn [chunks omap list_omap].
  destruct (decide (h' = h)) as [->|Hne].
  - assert (q = p) as -> by congruence. assert (y = x) as -> by congruence.
    assert (yb = body) as -> by (by eapply holds_det).
    cbn [foldl]. unfold collect. unfold DOH_MAX_RESPONSE_SIZE in *.
    destruct Hcase as [(_ & Hle & Hw & _)|(_ & Hw & [[Hgt _]|[Hnone _]])].
    + rewrite (proj2 (Z.leb_le _ _)) by lia. exists (with_buf (Some ((body ++ data) ++ [x00])) (zlen (body ++ data)) x).
      split; [|split; [exact Hh|]].
      * unfold part. rewrite Hw, view_set. apply lookup_insert_eq.
      * split; [done|]. split; [done|]. by left.
    + rewrite (proj2 (Z.leb_gt _ _)) by lia. exists x. unfold part. rewrite Hw. done.
    + destruct (realloc_ok (zlen (body ++ data) + 1) (environment s)) as [? Hsome]. congruence.
  - exists x. split; [|done]. destruct Hcase as [(_ & _ & Hw & _)|(_ & Hw & _)]; unfold part; rewrite Hw; [|done].
    rewrite view_set. cbn. rewrite lookup_insert_ne; [done|]. intros ->. congruence.
Qed.

End Collecting.

(** ** Sockets *)

(** The events of a socket libcurl waits for, as libev's mask. *)
Definition wanted (what : Z) : Z :=
  Z.lor (if Z.land what CURL_POLL_IN =? 0 then 0 else EV_READ)
        (if Z.land what CURL_POLL_OUT =? 0 then 0 else EV_WRITE).

Section Sockets.
Context {D : Type} `{Env} {W : Type} `{!Lens W (https_client_t D)}.
Implicit Types (s : sys W).

Lemma dump_io_events_run ws s Φ Ψ :
  (forall s', world s' = world s -> Φ s' tt) -> wp (dump_io_events ws) s Φ Ψ.
Proof.
  revert s Φ. induction ws as [|w ws IH]; intros s Φ HΦ; cbn [dump_io_events]; [by apply wp_ret, HΦ|].
  apply wp_bind, wp_log, IH. intros s' Hw. by apply HΦ.
Qed.

(** The slot of the socket after the first half of [multi_sock_cb]. *)
Definition released_slots (ws : list ev_io) (sock : Z) : list ev_io :=
  match get_io_event ws sock with Some i => release_io ws i | None => ws end.

Lemma released_slots_spec ws sock :
  slots_ok ws -> sock <> 0 ->
  slots_ok (released_slots ws sock) /\ watched (released_slots ws sock) = delete sock (watched ws) /\
  length (released_slots ws sock) = length ws.
Proof.
  intros Hok Hne. unfold released_slots. destruct (get_io_event ws sock) as [i|] eqn:E; [by eapply release_spec|].
  split; [done|]. split; [|done]. symmetry. apply delete_id, watched_None. right. by apply get_io_event_None.
Qed.

Lemma release_run sock s (k : unit -> M W Z) Φ Ψ :
  (forall s', part _ s' = with_slots (released_slots (c_io_events (part _ s)) sock) (part (https_client_t D) s) ->
     wp (k tt) s' Φ Ψ) ->
  wp ((match get_io_event (c_io_events (part (https_client_t D) s)) sock with
       | Some i =>
           modify (fun c : https_client_t D => with_slots (release_io (c_io_events c) i) c) ;;
           DLOG "Released used io event: %p"
       | None => mret tt
       end) ≫= k) s Φ Ψ.
Proof.
  intros Hk. apply wp_bind. unfold released_slots in Hk. destruct (get_io_event _ sock) as [i|].
  - apply wp_bind, wp_modify, wp_log, Hk. unfold part. cbn [world]. by rewrite view_set.
  - apply wp_ret, Hk. by destruct (part (https_client_t D) s).
Qed.

End Sockets.

(** ** Theorems *)

Section Claims.
Context {D : Type} `{Env} {W : Type} `{!Lens W (https_client_t D)} `{!Lens W stat_t}.
Context `{!Apart W (https_client_t D) stat_t}.
Context (J : W -> Prop) `{!Ignores J (https_client_t D)} `{!Ignores J stat_t}.
Context (debug : bool) `{!OrderlyCurl} (G : D -> Prop) (stops : stop -> Prop) cb `{!RespCallback (D:=D) G J stops false cb}.
Implicit Types (s : sys W).

(** C18: a reply is exactly the response, and only a genuine one.  When libcurl
    reports the end of a transfer, its callback gets the bytes collected if the
    transfer succeeded with status 200 and a content type that starts with
    application/dns-message, and no reply otherwise. *)
Theorem https_reply_exact `{!QuietRemoval} h status ctype `{!TransferInfo h status ctype} s ls p x result :
  ok J debug G s ls -> fetch_heap (part (https_client_t D) s) !! p = Some x -> curl x = Some h -> 0 <= result ->
  wp (check_msg cb debug (Msg_done h result)) s
    (fun s' _ => transfer_events (trace s') = transfer_events (trace s) ++
       [(ctx_id x, Some (if genuine result status ctype then reply_of x else None))])
    (fun _ r => ends debug stops r).
Proof.
  intros (Htr & Hb & HJ) Hx Hh Hres. cbn [check_msg]. apply wp_bind, wp_get.
  assert (length ls < S (size (fetch_heap (part (https_client_t D) s))))%nat as Hf.
  { rewrite <-size_dom, (tr_dom _ _ _ _ Htr), size_list_to_set; [lia|]. by eapply chain_NoDup, Htr. }
  pose proof (find_node_spec _ NULL _ ls (fun x => bool_decide (curl x = Some h)) _ (tr_chain _ _ _ _ Htr) Hf) as Hfind.
  assert (p ∈ ls) as Hpls by (apply elem_of_dom_2 in Hx; rewrite (tr_dom _ _ _ _ Htr) in Hx; set_solver).
  destruct (find_node _ _ _ _ _) as [|[[prev cur]|]]; [done| |].
  2:{ specialize (Hfind p x Hpls Hx). cbn in Hfind. by rewrite bool_decide_true in Hfind. }
  destruct Hfind as (ls1 & ls2 & y & -> & Hy & Hcy & Hprev & _). apply bool_decide_eq_true in Hcy.
  assert (prev = last ls1) as -> by (rewrite Hprev; by destruct (last ls1)).
  assert (cur = p) as ->.
  { destruct (tr_wired _ _ _ _ Htr p x Hx) as (h1 & os1 & ? & ? & ? & _).
    destruct (tr_wired _ _ _ _ Htr cur y Hy) as (h2 & os2 & ? & ? & ? & _). congruence. }
  assert (y = x) as -> by congruence.
  eapply wp_mono; [apply (fetch_cleanup_run J debug G stops false cb ls1 p ls2 x result
    (fun f => f = negb (genuine result status ctype))); try done| |done].
  { intros s0 Hs0. destruct (steady_lookup _ _ _ _ Hs0 Hx) as (x0 & Hx0 & Hc0 & _).
    eapply (process_response_yields h status ctype); [done|congruence]. }
  intros s' _ (_ & _ & _ & _ & r & Ht & Hr). rewrite Ht. do 3 f_equal.
  destruct Hr as [[Hr ->]|(_ & Hg & Hr)].
  - destruct Hr as [Hr|Hr]; [lia|]. by destruct (genuine result status ctype).
  - destruct (genuine result status ctype); [|done]. rewrite Hr; [done|]. apply keeps_remove.
Qed.

End Claims.

(** C19: a response is collected completely.  Whatever callbacks libcurl makes, the
    response of a transfer is what it was plus the chunks delivered for it, in
    order, each taken as long as the total is at most 65535 bytes, and none of
    those delivered for other transfers (there is memory for the buffers:
    [MemoryAvailable]). *)
Theorem https_response_collected {D} `{Env} {W} `{!Lens W (https_client_t D)} `{!Lens W stat_t}
    `{!Apart W (https_client_t D) stat_t} `{!MemoryAvailable} (debug : bool) (G : D -> Prop) ks (p h : loc) ls body (s : sys W) :
  transfers debug G (part (https_client_t D) s) ls -> Forall write_ok ks -> collected (D:=D) p h body s ->
  wp (run_callbacks (D:=D) ks) s (fun s' _ => collected (D:=D) p h (foldl collect body (chunks h ks)) s')
    (fun _ r => may_stop debug r).
Proof.
  revert body s. induction ks as [|k ks IH]; intros body s Htr Hks Hc; cbn [run_callbacks]; [by apply wp_ret|].
  apply Forall_cons in Hks as [Hk Hks]. apply wp_bind.
  eapply wp_mono; [by eapply run_callback_collects| |done]. intros s1 _ [Htr1 Hc1].
  change (k :: ks) with ([k] ++ ks). unfold chunks. rewrite omap_app, foldl_app. by apply IH.
Qed.

(** C24: the watchers follow libcurl.  After libcurl has said what it waits for on a
    socket, the sockets watched are those watched before with that one removed,
    or watched for exactly the events named; if all slots are taken by other
    sockets nothing changes and libcurl is told of the failure. *)
Theorem https_watchers_follow {D} `{Env} {W} `{!Lens W (https_client_t D)} (h : loc) sock what (s : sys W) :
  slots_ok (c_io_events (part (https_client_t D) s)) -> sock <> 0 ->
  wp (multi_sock_cb (D:=D) (Some h) sock what) s
    (fun s' r => let ws := c_io_events (part (https_client_t D) s) in
       let ws' := c_io_events (part (https_client_t D) s') in
       slots_ok ws' /\ length ws' = length ws /\
       (r = 0 /\ watched ws' = (if what =? CURL_POLL_REMOVE then delete sock (watched ws)
                                else <[sock := wanted what]> (watched ws)) \/
        r = -1 /\ what <> CURL_POLL_REMOVE /\ exhausted sock ws /\ ws' = ws))
    (fun _ _ => False).
Proof.
  intros Hok Hne. unfold multi_sock_cb. apply wp_bind, wp_get. apply release_run. intros s1 Hp1.
  set (ws := c_io_events (part (https_client_t D) s)) in *.
  destruct (released_slots_spec ws sock Hok Hne) as (Hok1 & Hw1 & Hl1).
  destruct (what =? CURL_POLL_REMOVE) eqn:E; bool_facts.
  { apply wp_ret. rewrite Hp1. cbn. split; [done|]. split; [done|]. by left. }
  apply wp_bind, wp_get. rewrite Hp1. cbn [c_io_events with_slots].
  destruct (get_io_event (released_slots ws sock) 0) as [i|] eqn:E0.
  - apply wp_bind, wp_log, wp_bind, wp_modify, wp_ret. unfold part. cbn [world]. rewrite view_set.
    change (view (world s1)) with (part (https_client_t D) s1). rewrite Hp1. cbn [c_io_events with_slots].
    destruct (reserve_spec _ sock (wanted what) i Hok1 Hne) as (Hok2 & Hw2 & Hl2); [by rewrite Hw1, lookup_delete_eq|done|].
    split; [exact Hok2|]. split; [by rewrite <-Hl1|]. left. split; [done|].
    change (watched (reserve_io (released_slots ws sock) i sock (wanted what)) = <[sock := wanted what]> (watched ws)).
    by rewrite Hw2, Hw1, insert_delete_eq.
  - assert (get_io_event ws sock = None) as Hn.
    { unfold released_slots in E0. destruct (get_io_event ws sock) as [i|] eqn:Ei; [|done].
      by destruct (release_frees ws sock i Ei). }
    assert (released_slots ws sock = ws) as Heq by (unfold released_slots; by rewrite Hn).
    rewrite Heq in *. apply wp_bind, wp_log, wp_bind, dump_io_events_run. intros s2 Hw2.
    apply wp_bind, wp_emit, wp_ret. cbn [world] in *. unfold part. cbn [world]. rewrite Hw2.
    change (view (world s1)) with (part (https_client_t D) s1). rewrite Hp1. cbn.
    split; [done|]. split; [done|]. right. split; [done|]. split; [done|]. split; [|done].
    by apply exhausted_spec.
Qed.

(** ** The sample run *)

#[export] Instance resolver_info :
  @TransferInfo resolver 1 200 (Some "application/dns-message"%string).
Proof. split; intros e; reflexivity. Defined.

Definition arriving : list curl_callback :=
  [Cb_write 1 sample_response1 1 4; Cb_write 1 sample_response2 1 8].

Definition received_all : @sys resolver sample :=
  @state_after _ resolver (@run_callbacks Z resolver sample _ _ arriving fetching).

Lemma received_all_ok : exists ls, @ok Z resolver sample _ trivially false anything received_all ls.
Proof.
  destruct fetching_healthy as (ls & Hok & _). exists ls. destruct Hok as (Htr & Hb & _).
  pose proof (@calm_run_callbacks Z resolver sample _ _ _ trivially _ _ false anything _ ls arriving Htr) as Hc.
  assert (Forall write_ok arriving) as Hw by (repeat constructor; vm_compute; done).
  specialize (Hc Hw fetching ltac:(done) I). unfold wp in Hc.
  assert (@run_callbacks Z resolver sample _ _ arriving fetching = @Ok resolver _ _ received_all tt) as Heq
    by (vm_compute; reflexivity).
  rewrite Heq in Hc. destruct Hc as (Hs & Ht & _).
  apply (@steady_ok Z resolver sample _ trivially false anything fetching received_all ls);
    [exact Hs|exact Ht|exact I|]. split; [exact Htr|]. split; [exact Hb|exact I].
Qed.

Definition full_transfer : https_fetch_ctx Z :=
  FetchCtx (Some 1%positive) 7 1 (Some (sample_response1 ++ sample_response2 ++ [x00])) 12 NULL.

Lemma https_reply_exact_witness :
  @wp resolver sample unit (@check_msg Z resolver sample _ _ ignore_reply false (Msg_done 1 0)) received_all
    (fun s' _ => transfer_events (trace s') =
       [(7, None); (7, Some (Some (sample_response1 ++ sample_response2)))])
    (fun _ r => ends false never r).
Proof.
  destruct received_all_ok as [ls Hok].
  eapply wp_mono.
  - apply (@https_reply_exact Z resolver sample _ _ _ trivially _ _ false _ anything never ignore_reply _ _ 1 200
           (Some "application/dns-message"%string) _ received_all ls 1 full_transfer 0 Hok);
      [vm_compute; reflexivity|reflexivity|lia].
  - intros s' a ->. vm_compute. reflexivity.
  - done.
Defined.

Lemma https_response_collected_witness :
  exists ls, transfers false anything (part_of fetching) ls /\
  @wp resolver sample unit (@run_callbacks Z resolver sample _ _ arriving) fetching
    (fun s' _ => @collected Z resolver sample _ 1 1 (sample_response1 ++ sample_response2) s')
    (fun _ r => may_stop false r).
Proof.
  destruct fetching_healthy as (ls & (Htr & _) & _). exists ls. split; [done|].
  apply (@https_response_collected Z resolver sample _ _ _ _ false anything arriving 1 1 ls [] fetching Htr).
  - repeat constructor; vm_compute; done.
  - exists (FetchCtx (Some 1%positive) 7 1 None 0 NULL). split; [vm_compute; reflexivity|]. split; [done|].
    split; [done|]. split; [vm_compute; done|]. by right.
Defined.

Lemma https_watchers_follow_witness :
  slots_ok (replicate 12 unused_io) /\
  @wp resolver sample Z (@multi_sock_cb Z resolver sample _ (Some 1%positive) 3 1) ready
    (fun s' r => r = 0 /\ watched (c_io_events (part_of s')) = {[3 := 1]} \/ r = -1)
    (fun _ _ => False).
Proof.
  assert (slots_ok (replicate 12 unused_io)) as Hok.
  { split; [by repeat constructor|]. apply NoDup_nil_2. }
  split; [done|]. eapply wp_mono.
  - apply (@https_watchers_follow Z resolver sample _ 1 3 1 ready).
    + replace (c_io_events (part_of ready)) with (replicate 12 unused_io) by (vm_compute; reflexivity). done.
    + done.
  - intros s' r (_ & _ & [[-> Hw]|[-> _]]); [left|by right]. split; [done|]. rewrite Hw. reflexivity.
  - done.
Defined.

