(* ===== verification/HttpsText.v ===== *)
(** * Debug output of the HTTPS client

    The hex dump of [https_log_data] and the line splitting of
    [https_curl_debug] (src/https_client.c): the dump can be read back, and
    libcurl's text is logged line by line. *)

From Stdlib Require Import ZArith Lia String Strings.Byte.
From stdpp Require Import base tactics list option gmap strings.
From S2P Require Import Prelude Effects HttpsClient.

Open Scope Z_scope.

(** ** Reading a hex dump *)

(** The value of a hexadecimal digit as [%02x] prints it. *)
Definition digit_value (b : byte) : option Z :=
  let v := byte_val b in
  if (48 <=? v) && (v <=? 57) then Some (v - 48)
  else if (97 <=? v) && (v <=? 102) then Some (v - 87)
  else None.

(** The bytes of a hex column: cells of two digits and a space; blank cells end
    the data. *)
Fixpoint undump (hex : list byte) : list byte :=
  match hex with
  | hi :: lo :: _ :: rest =>
      match digit_value hi, digit_value lo with
      | Some h, Some l => byte_of (h * 16 + l) :: undump rest
      | _, _ => []
      end
  | _ => []
  end.

Definition hex_cell (b : byte) : list byte := [hex_digit (byte_val b / 16); hex_digit (byte_val b mod 16); x20].
Definition blank_cell : list byte := [x20; x20; x20].
Definition shown (b : byte) : byte := if isprint b then b else x2e.

Lemma digit_roundtrip n : 0 <= n < 16 -> digit_value (hex_digit n) = Some n.
Proof.
  intros Hn. destruct n as [|p|p]; [done| |lia].
  do 4 (destruct p as [p|p|]; [| |reflexivity]); lia.
Qed.

Lemma undump_cells bs rest :
  undump rest = [] -> undump (concat (hex_cell <$> bs) ++ rest) = bs.
Proof.
  intros Hr. induction bs as [|b bs IH]; [done|]. cbn -[hex_digit digit_value].
  pose proof (byte_val_range b).
  rewrite !digit_roundtrip by first [apply Z.mod_pos_bound; lia|split; [apply Z.div_pos|apply Z.div_lt_upper_bound]; lia].
  rewrite IH. f_equal. rewrite <-(byte_of_val b) at 3. f_equal.
  rewrite (Z.div_mod (byte_val b) 16) at 3 by lia. lia.
Qed.

(** ** The rows *)

Lemma concat_replicate_last {A} n (l : list A) : concat (replicate (S n) l) = concat (replicate n l) ++ l.
Proof. rewrite replicate_S_end, concat_app. cbn. by rewrite app_nil_r. Qed.

(** The columns after [n] cells: nothing is cut off by the buffer sizes. *)
Lemma dump_cells_run data i n :
  0 <= i -> (n <= 16)%nat ->
  foldl (dump_cell data i) (([], 0), ([], 0)) (seq 0 n) =
  let w := take n (zdrop i data) in
  ((concat (hex_cell <$> w) ++ concat (replicate (n - length w) blank_cell), 3 * Z.of_nat n), (shown <$> w, zlen w)).
Proof.
  intros Hi. induction n as [|n IH]; intros Hn; [done|].
  rewrite seq_S, foldl_app, IH by lia. cbn [foldl Nat.add]. unfold dump_cell.
  assert (znth data (i + Z.of_nat n) = zdrop i data !! n) as ->.
  { unfold znth, zdrop. rewrite (proj2 (Z.leb_le _ _)), lookup_drop by lia. f_equal. lia. }
  set (l := zdrop i data). unfold snprintf_at. cbv zeta.
  assert (zlen (take n l) <= Z.of_nat n) as Hlen by (unfold zlen; rewrite length_take; lia).
  destruct (l !! n) as [b|] eqn:E.
  - pose proof (lookup_lt_Some _ _ _ E) as Hlt. rewrite (take_S_r l n b E).
    rewrite !ztake_all by (unfold zlen in *; cbn [length]; lia).
    rewrite !length_app, length_take, Nat.min_l by lia. cbn [length].
    replace (n - n)%nat with 0%nat by lia. replace (S n - (n + 1))%nat with 0%nat by lia. cbn [replicate concat].
    rewrite !app_nil_r, fmap_app, concat_app, fmap_app, zlen_app. cbn [fmap list_fmap concat]. rewrite app_nil_r.
    unfold zlen. cbn [length]. repeat f_equal; lia.
  - apply lookup_ge_None in E. rewrite (take_ge l (S n)), (take_ge l n) by lia.
    rewrite !ztake_all by (unfold zlen in *; cbn [length]; lia).
    replace (S n - length l)%nat with (S (n - length l)) by lia. rewrite concat_replicate_last, app_assoc.
    unfold zlen. cbn [length]. repeat f_equal; lia.
Qed.

Lemma undump_blanks n : undump (concat (replicate n blank_cell)) = [].
Proof. by destruct n. Qed.

Lemma dump_row_run data i :
  0 <= i -> undump (fst (dump_row data i)) = ztake 16 (zdrop i data) /\
    snd (dump_row data i) = shown <$> ztake 16 (zdrop i data) /\ zlen (fst (dump_row data i)) = 48.
Proof.
  intros Hi. unfold dump_row. rewrite (dump_cells_run data i 16) by (done || lia). cbv zeta. cbn [fst snd].
  change (ztake 16 (zdrop i data)) with (take 16 (zdrop i data)). set (w := take 16 (zdrop i data)).
  split; [apply undump_cells, undump_blanks|]. split; [done|].
  assert (length w <= 16)%nat by (unfold w; rewrite length_take; lia).
  assert (forall bs, zlen (concat (hex_cell <$> bs)) = 3 * zlen bs) as Hc.
  { induction bs as [|b bs IH]; [done|]. cbn [fmap list_fmap concat]. rewrite zlen_app, zlen_cons, IH.
    change (zlen (hex_cell b)) with 3. lia. }
  assert (forall n, zlen (concat (replicate n blank_cell)) = 3 * Z.of_nat n) as Hb.
  { induction n as [|n IH]; [done|]. cbn [replicate concat]. rewrite zlen_app, IH. change (zlen blank_cell) with 3. lia. }
  rewrite zlen_app, Hc, Hb. unfold zlen. lia.
Qed.

(** What a row of the dump shows, and that its columns fit their buffers of 49
    and 17 bytes. *)
Definition row_bytes (ev : event) : option (list byte) :=
  match ev with Dumped _ _ _ hex _ => Some (undump hex) | _ => None end.
Definition row_ok (level : LogSeverity) (prefix : string) (ev : event) : Prop :=
  exists offset hex str, ev = Dumped level prefix offset hex str /\ zlen hex = 48 /\ zlen str <= 16 /\
    str = shown <$> undump hex.

Lemma log_rows_run `{Env} {W} rows level prefix data : forall i (s : sys W),
  0 <= i -> zlen data <= i + 16 * Z.of_nat rows ->
  wp (https_log_data rows level prefix data i) s
    (fun s' _ => world s' = world s /\ exists evs, trace s' = trace s ++ evs /\
       Forall (row_ok level prefix) evs /\ concat (omap row_bytes evs) = zdrop i data)
    (fun _ _ => False).
Proof.
  induction rows as [|rows IH]; intros i s Hi Hr; cbn [https_log_data].
  - apply wp_ret. split; [done|]. exists []. rewrite app_nil_r, zdrop_all by lia. by repeat constructor.
  - destruct (i <? zlen data) eqn:E; bool_facts.
    2:{ apply wp_ret. split; [done|]. exists []. rewrite app_nil_r, zdrop_all by lia. by repeat constructor. }
    apply wp_bind, wp_emit. eapply wp_mono; [apply IH; lia| |done].
    intros s' _ (Hw & evs & Ht & Hok & Hc). split; [done|]. eexists (_ :: evs).
    split; [rewrite Ht; cbn [trace]; by rewrite <-app_assoc|].
    destruct (dump_row_run data i Hi) as (Hu & Hs & Hl). split.
    + constructor; [|done]. eexists _, _, _. split; [done|]. split; [done|]. rewrite Hs, Hu. split; [|done].
      unfold zlen. rewrite length_fmap. pose proof (zlen_ztake 16 (zdrop i data)) as Hz. unfold zlen in Hz. lia.
    + cbn [omap list_omap row_bytes]. cbn [concat]. rewrite Hc, Hu.
      rewrite <-(ztake_zdrop 16 (zdrop i data)) at 2. by rewrite zdrop_zdrop by lia.
Qed.

(** ** Lines *)

Definition eol (b : byte) : bool := bool_decide (b = x0d) || bool_decide (b = x0a).

(** The text between line ends. *)
Fixpoint fields (data : list byte) : list (list byte) :=
  match data with
  | [] => [[]]
  | b :: rest =>
      if eol b then [] :: fields rest
      else match fields rest with l :: ls => (b :: l) :: ls | [] => [[b]] end
  end.

(** [cur] is the beginning of the first field. *)
Definition extend (cur : list byte) (fs : list (list byte)) : list (list byte) :=
  match fs with l :: ls => (cur ++ l) :: ls | [] => [] end.

Lemma fields_cons data : exists l ls, fields data = l :: ls.
Proof. destruct data as [|b data]; cbn; [eauto|]. destruct (eol b); [eauto|]. destruct (fields data); eauto. Qed.

Definition expire : list byte := to_bytes "Expire".

(** The pieces before the first one that begins with [Expire]. *)
Fixpoint before_expire (fs : list (list byte)) : list (list byte) :=
  match fs with
  | [] => []
  | l :: ls => if decide (expire `prefix_of` l) then [] else l :: before_expire ls
  end.

(** What is logged of a text: its pieces between line ends that are not empty,
    up to the first one that begins with [Expire]. *)
Definition lines_of (fs : list (list byte)) : list (list byte) := filter (fun l => l <> []) (before_expire fs).
Definition text_lines (data : list byte) : list (list byte) := lines_of (fields data).

(** The text ends in the middle of the word [Expire], with no line end after it
    and no piece before it that begins with that word. *)
Definition cut_expire (fs : list (list byte)) : Prop :=
  Forall (fun l => ~ expire `prefix_of` l) fs /\ exists l, last fs = Some l /\ l <> [] /\ l `prefix_of` expire.

Lemma lines_of_expire l ls : expire `prefix_of` l -> lines_of (l :: ls) = [].
Proof. intros Hp. unfold lines_of. cbn [before_expire]. by rewrite decide_True. Qed.

Lemma lines_of_line l ls : l <> [] -> ~ expire `prefix_of` l -> lines_of (l :: ls) = l :: lines_of ls.
Proof. intros Hl Hp. unfold lines_of. cbn [before_expire]. by rewrite decide_False, filter_cons_True. Qed.

Lemma lines_of_empty ls : lines_of ([] :: ls) = lines_of ls.
Proof. unfold lines_of. cbn [before_expire]. rewrite decide_False, filter_cons_False by (naive_solver || by intros [? ?]). done. Qed.

Lemma cut_expire_cons l ls : ls <> [] -> ~ expire `prefix_of` l -> cut_expire (l :: ls) <-> cut_expire ls.
Proof.
  intros Hne Hp. unfold cut_expire. rewrite Forall_cons, last_cons.
  destruct (last ls) eqn:E; [naive_solver|]. by apply last_None in E.
Qed.

Lemma strncmp_differs w : forall l r, ~ w `prefix_of` l -> ~ l `prefix_of` w -> strncmp_eq (l ++ r) w = Some false.
Proof.
  induction w as [|x w IH]; intros l r Hw Hl; [by destruct Hw; apply prefix_nil|].
  destruct l as [|y l]; [by destruct Hl; apply prefix_nil|]. cbn [app strncmp_eq].
  destruct (decide (y = x)) as [->|]; [|done].
  apply IH; intros Hp; [apply Hw|apply Hl]; by apply prefix_cons.
Qed.

Lemma strncmp_ended w : forall l b r,
  Forall (fun c => eol c = false) w -> eol b = true -> ~ w `prefix_of` l -> strncmp_eq (l ++ b :: r) w = Some false.
Proof.
  induction w as [|x w IH]; intros l b r Hw Hb Hp; [by destruct Hp; apply prefix_nil|].
  apply Forall_cons in Hw as [Hx Hw]. destruct l as [|y l]; cbn [app strncmp_eq].
  - rewrite decide_False; [done|]. congruence.
  - destruct (decide (y = x)) as [->|]; [|done]. apply IH; [done|done|].
    intros Hp'. apply Hp. by apply prefix_cons.
Qed.

Lemma strncmp_short w : forall l, ~ w `prefix_of` l -> l `prefix_of` w -> strncmp_eq l w = None.
Proof.
  induction w as [|x w IH]; intros l Hw Hl; [by destruct Hw; apply prefix_nil|].
  destruct l as [|y l]; [done|]. cbn [strncmp_eq]. pose proof (prefix_cons_inv_1 _ _ _ _ Hl) as ->.
  rewrite decide_True by done. apply IH; [|by eapply prefix_cons_inv_2].
  intros Hp. apply Hw. by apply prefix_cons.
Qed.

Lemma strncmp_match w l r : w `prefix_of` l -> strncmp_eq (l ++ r) w = Some true.
Proof.
  intros [k ->]. rewrite <-app_assoc. induction w as [|x w IH]; [done|]. cbn [app strncmp_eq].
  by rewrite decide_True.
Qed.

Section Lines.
Context `{Env} {W : Type}.
Implicit Types (s : sys W).

(** Where the current line starts. *)
Definition start_of (pos : Z) (cur : list byte) : option Z :=
  match cur with [] => None | _ => Some (pos - zlen cur) end.

Definition logs (prefix : string) (ls : list (list byte)) s s' : Prop :=
  world s' = world s /\ trace s' = trace s ++ (CurlText prefix <$> ls).

(** Once a line starts with [Expire] the rest is skipped. *)
Lemma skip_run prefix data st rest : forall pos s,
  expire `prefix_of` zdrop st data -> wp (debug_lines prefix data rest pos (Some st)) s (fun s' _ => s' = s) (fun _ _ => False).
Proof.
  intros pos s Hp. revert pos s.
  assert (strncmp_eq (zdrop st data) (to_bytes "Expire") = Some true) as Hs.
  { rewrite <-(app_nil_r (zdrop st data)). by apply strncmp_match. }
  induction rest as [|b rest IH]; intros pos s; cbn [debug_lines]; rewrite Hs.
  - by destruct (0 <? pos - st); apply wp_ret.
  - destruct (_ || _); [destruct (0 <? pos - st)|]; apply IH.
Qed.

(** What the loop makes of the pieces [fs]. *)
Definition split_result (prefix : string) (fs : list (list byte)) s : sys W -> unit -> Prop :=
  fun s' _ => ~ cut_expire fs /\ logs prefix (lines_of fs) s s'.
Definition split_stop (fs : list (list byte)) : sys W -> stop -> Prop :=
  fun _ o => cut_expire fs /\ o = Fault OutOfBounds.

Lemma current_piece (pre cur rest : list byte) : cur <> [] ->
  start_of (zlen (pre ++ cur)) cur = Some (zlen pre) /\ 0 < zlen (pre ++ cur) - zlen pre /\
  zdrop (zlen pre) (pre ++ cur ++ rest) = cur ++ rest /\
  ztake (zlen (pre ++ cur) - zlen pre) (cur ++ rest) = cur.
Proof.
  intros Hc. assert (0 < zlen cur) by (destruct cur; [done|]; zlen_lia).
  rewrite zlen_app, zdrop_app_exact by done. split; [|split; [lia|split; [done|apply ztake_app_exact; lia]]].
  destruct cur; [done|]. cbn. f_equal. lia.
Qed.

(** The end of the text, in the middle of the piece [cur]. *)
Lemma debug_lines_end prefix pre cur s :
  let pos := zlen (pre ++ cur) in
  wp (debug_lines prefix (pre ++ cur) [] pos (start_of pos cur)) s (split_result prefix [cur] s) (split_stop [cur]).
Proof.
  intros pos. cbn [debug_lines]. destruct (decide (cur = [])) as [->|Hc].
  { cbn [start_of]. apply wp_ret. split; [|split; [done|cbn; by rewrite app_nil_r]]. intros [_ (l & [= <-] & ? & _)]. done. }
  destruct (current_piece pre cur [] Hc) as (Hst & Hpos & Hdrop & Htake). subst pos. rewrite Hst.
  rewrite (proj2 (Z.ltb_lt _ _)) by exact Hpos. rewrite app_nil_r in Hdrop, Htake. rewrite Hdrop.
  change (to_bytes "Expire") with expire.
  destruct (decide (expire `prefix_of` cur)) as [He|He].
  { rewrite <-(app_nil_r cur), strncmp_match by done. apply wp_ret. rewrite app_nil_r. unfold split_result, logs.
    rewrite lines_of_expire by done. split; [|cbn; by rewrite app_nil_r]. intros [Hf _]. by inversion Hf. }
  destruct (decide (cur `prefix_of` expire)) as [Hp|Hp].
  { rewrite strncmp_short by done. apply wp_halt. split; [|done]. split; [by repeat constructor|]. by exists cur. }
  pose proof (strncmp_differs expire cur [] He Hp) as Hs. rewrite app_nil_r in Hs. rewrite Hs.
  apply wp_bind, wp_emit, wp_ret. unfold split_result, logs. rewrite lines_of_line by done.
  split; [|split; [done|]]; [|cbn [trace]; by rewrite Htake]. intros [_ (l & [= <-] & _ & ?)]. done.
Qed.

Lemma debug_lines_run prefix rest : forall pre cur s,
  let pos := zlen (pre ++ cur) in
  let fs := extend cur (fields rest) in
  wp (debug_lines prefix (pre ++ cur ++ rest) rest pos (start_of pos cur)) s (split_result prefix fs s) (split_stop fs).
Proof.
  assert (Forall (fun c => eol c = false) expire) as Hexp by (vm_compute; repeat constructor).
  induction rest as [|b rest IH]; intros pre cur s pos fs.
  { subst fs. cbn [fields extend]. rewrite app_nil_r. apply debug_lines_end. }
  subst fs. cbn [debug_lines fields]. fold (eol b). destruct (fields_cons rest) as (l & ls & Hl). destruct (eol b) eqn:Eb.
  - cbn [extend]. rewrite app_nil_r.
    assert (forall s1, wp (debug_lines prefix (pre ++ cur ++ b :: rest) rest (pos + 1) None) s1
              (split_result prefix (fields rest) s1) (split_stop (fields rest))) as Hgo.
    { intros s1. specialize (IH (pre ++ cur ++ [b]) [] s1). cbn zeta in IH.
      rewrite app_nil_r, <-!app_assoc in IH. cbn [app] in IH.
      replace (zlen (pre ++ cur ++ [b])) with (pos + 1) in IH by (unfold pos; zlen_lia).
      replace (extend [] (fields rest)) with (fields rest) in IH by (by destruct (fields rest)). exact IH. }
    assert (fields rest <> []) as Hne by (by rewrite Hl).
    destruct (decide (cur = [])) as [->|Hc].
    { assert (~ expire `prefix_of` []) by (by intros [? ?]).
      unfold split_result, split_stop. rewrite lines_of_empty. cbn [start_of].
      eapply wp_mono; [apply Hgo|intros s' u Hr; cbn|intros s' o Ho; cbn]; by rewrite cut_expire_cons. }
    destruct (current_piece pre cur (b :: rest) Hc) as (Hst & Hpos & Hdrop & Htake). fold pos in Hst, Hpos, Htake.
    rewrite Hst, (proj2 (Z.ltb_lt _ _)), Hdrop by exact Hpos. change (to_bytes "Expire") with expire.
    destruct (decide (expire `prefix_of` cur)) as [He|He].
    { rewrite strncmp_match by done. eapply wp_mono; [apply skip_run; rewrite Hdrop; by apply prefix_app_r| |done].
      intros s' u ->. unfold split_result, logs. rewrite lines_of_expire by done.
      split; [|cbn; by rewrite app_nil_r]. intros [Hf _]. by inversion Hf. }
    rewrite strncmp_ended by done. apply wp_bind, wp_emit.
    unfold split_result, split_stop. rewrite lines_of_line by done.
    eapply wp_mono; [apply Hgo| |intros s' o Ho; cbn; by rewrite cut_expire_cons].
    intros s' u (Hcut & Hw & Ht). split; [by rewrite cut_expire_cons|]. split; [done|]. rewrite Ht. cbn [trace]. by rewrite Htake, <-app_assoc.
  - rewrite Hl in *. cbn [extend] in *. specialize (IH pre (cur ++ [b]) s). cbn zeta in IH.
    rewrite <-!app_assoc in IH. cbn [app] in IH.
    replace (zlen (pre ++ cur ++ [b])) with (pos + 1) in IH by (unfold pos; zlen_lia).
    assert (start_of (pos + 1) (cur ++ [b]) = match start_of pos cur with Some _ => start_of pos cur | None => Some pos end)
      as Hst; [|rewrite Hst in IH; exact IH].
    unfold start_of. destruct cur as [|c cur]; cbn [app]; f_equal; zlen_lia.
Qed.

End Lines.

(** ** Theorems *)

(** C21: a hex dump can be read back.  The rows logged for a buffer show, read in
    order, exactly its bytes; every row's hex column fills its buffer without
    being cut and its text column shows the same bytes, printable or as a dot. *)
Theorem https_dump_roundtrip `{Env} {W} level prefix (data : list byte) (s : sys W) :
  wp (log_data level prefix data) s
    (fun s' _ => exists rows, trace s' = trace s ++ rows /\ Forall (row_ok level prefix) rows /\
       concat (omap row_bytes rows) = data)
    (fun _ _ => False).
Proof.
  unfold log_data. eapply wp_mono; [apply log_rows_run; unfold zlen; lia| |done].
  intros s' _ (_ & rows & Ht & Hok & Hc). by exists rows.
Qed.

(** C22: what [https_curl_debug] makes of the text and the headers libcurl
    reports, for every text: it is split at carriage returns and line feeds, and
    the pieces that are not empty are logged in order, up to the first piece
    that begins with Expire; that piece and everything after it is not logged.
    The one exception is a text without such a piece that ends, with no line end,
    in a beginning of the word Expire: the comparison then reads past the text. *)
Theorem debug_text_lines {D} `{Env} {W} `{!Lens W (https_client_t D)} type prefix (data : list byte) p (s : sys W) :
  (type, prefix) ∈ [(CURLINFO_TEXT, "* "); (CURLINFO_HEADER_OUT, "> "); (CURLINFO_HEADER_IN, "< ")] ->
  is_Some (fetch_heap (part (https_client_t D) s) !! p) ->
  wp (https_curl_debug (D:=D) type data p) s
    (fun s' r => r = 0 /\ ~ cut_expire (fields data) /\ logs prefix (text_lines data) s s')
    (fun _ o => cut_expire (fields data) /\ o = Fault OutOfBounds).
Proof.
  intros Ht [x Hx]. unfold https_curl_debug, load, client. apply wp_bind, wp_bind, wp_get. rewrite Hx.
  apply wp_ret, wp_bind. pose proof (debug_lines_run prefix data [] [] s) as Hrun. cbn zeta in Hrun.
  replace (extend [] (fields data)) with (fields data) in Hrun by (by destruct (fields data)).
  eapply wp_mono; [| |intros s' o Ho; exact Ho].
  - rewrite !elem_of_cons, elem_of_nil in Ht.
    destruct Ht as [[= -> ->]|[[= -> ->]|[[= -> ->]|[]]]]; exact Hrun.
  - intros s' u [Hcut Hl]. by apply wp_ret.
Qed.

(** Two pieces are logged, the one after them that begins with Expire ends the
    output; and a text that ends in a beginning of that word is read too far. *)
Lemma debug_text_lines_witness :
  let text := to_bytes "Trying 8.8.8.8:443...

Connected
Expire in 1 ms
Done
" in
  let c := Client Multi_live NULL (Some 1%positive) None [] 0 Options.options_init false false
             {[1%positive := FetchCtx None 7 tt None 0 NULL]} ∅ ∅ in
  let s := @Sys generous _ c tt [] in
  @wp generous (https_client_t unit) Z (@https_curl_debug unit generous _ _ CURLINFO_TEXT text 1) s
    (fun s' r => r = 0 /\ trace s' = [CurlText "* " (to_bytes "Trying 8.8.8.8:443..."); CurlText "* " (to_bytes "Connected")])
    (fun _ _ => False) /\
  @wp generous (https_client_t unit) Z (@https_curl_debug unit generous _ _ CURLINFO_HEADER_IN (to_bytes "Exp") 1) s
    (fun _ _ => False) (fun _ o => o = Fault OutOfBounds).
Proof.
  intros text c s. split; (eapply wp_mono;
    [eapply (@debug_text_lines unit generous _ _ _ _ _ 1 s); [by repeat constructor|by eexists]| |]).
  - intros s' r (-> & _ & _ & Ht). split; [done|]. rewrite Ht. vm_compute. reflexivity.
  - intros s' o [[_ (l & Hl & Hne & _)] _]. vm_compute in Hl. injection Hl as <-. done.
  - intros s' r (_ & Hcut & _). destruct Hcut. split; [evaluate|]. eexists. split; [reflexivity|]. split; [done|].
    by exists (to_bytes "ire").
  - by intros s' o [_ ->].
Defined.
