(* ===== verification/Main.v ===== *)
(** * The proxy (src/main.c)

    [main] creates the parts and connects them by callbacks: [dns_server_cb]
    turns a DNS request of either server into a request of the HTTPS client,
    [https_resp_cb] sends the reply to the client that asked, [dns_poll_cb]
    tells the HTTPS client the addresses of the resolver.  Between the calls of
    [ev_run] the event loop runs the watchers' callbacks, so [main] is three
    computations: up to the first [ev_run], between the two, and after the
    second. *)

From Stdlib Require Import ZArith Lia String Strings.Byte.
From stdpp Require Import base tactics list option gmap strings.
From S2P Require Import Prelude Effects HeapList Stat Logging Options DnsServer DnsServerTcp TcpClients.
From S2P Require Import IoEvents DnsPoller AddrList HttpsClient HttpsTransfers.

Open Scope Z_scope.

(** ** State *)

(** [request_t]; [req_stat] is whether the pointer to the statistics is set.
    [dns_server] is the server that [is_tcp] names: there is one of each. *)
Record request_t := Request {
  is_tcp : bool;
  req_data : list byte;
  dns_req_len : Z;
  req_stat : bool;
  start_tstamp : double;
  tx_id : Z;
  req_raddr : sockaddr
}.

(** [app_state_t], with the pointers to the HTTPS client and the statistics
    resolved: [app_stat] is whether the latter is set.  [app_tcp] is whether
    [dns_server_tcp] is not [NULL], [called_once] the static variable of
    [systemd_notify_ready]. *)
Record app_state_t := AppState {
  resolv : ptr;
  app_url : string;
  app_stat : bool;
  using_dns_poller : bool;
  app_addrlen : Z;
  app_tcp : bool;
  called_once : bool
}.

(** The signal watchers of [main], and whether the loop was told to end. *)
Record loop_t := Loop {
  sigpipe : bool;
  sigint : bool;
  sigterm : bool;
  breaking : bool
}.

(** The memory of the process. *)
Record proxy_t := Proxy {
  p_logging : logging_t;
  p_stat : stat_t;
  p_https : https_client_t (option request_t);
  p_udp : dns_server_s;
  p_tcp : dns_server_tcp_s;
  p_poller : dns_poller_t;
  p_app : app_state_t;
  p_loop : loop_t
}.

(** The laws of a lens for one field. *)
Ltac lens_laws := intros; repeat match goal with w : proxy_t |- _ => destruct w end; reflexivity.

#[export] Instance proxy_logging : Lens proxy_t logging_t.
Proof.
  refine {| view := p_logging;
    set_view x w := Proxy x (p_stat w) (p_https w) (p_udp w) (p_tcp w) (p_poller w) (p_app w) (p_loop w) |}; lens_laws.
Defined.
#[export] Instance proxy_stat : Lens proxy_t stat_t.
Proof.
  refine {| view := p_stat;
    set_view x w := Proxy (p_logging w) x (p_https w) (p_udp w) (p_tcp w) (p_poller w) (p_app w) (p_loop w) |}; lens_laws.
Defined.
#[export] Instance proxy_https : Lens proxy_t (https_client_t (option request_t)).
Proof.
  refine {| view := p_https;
    set_view x w := Proxy (p_logging w) (p_stat w) x (p_udp w) (p_tcp w) (p_poller w) (p_app w) (p_loop w) |}; lens_laws.
Defined.
#[export] Instance proxy_udp : Lens proxy_t dns_server_s.
Proof.
  refine {| view := p_udp;
    set_view x w := Proxy (p_logging w) (p_stat w) (p_https w) x (p_tcp w) (p_poller w) (p_app w) (p_loop w) |}; lens_laws.
Defined.
#[export] Instance proxy_tcp : Lens proxy_t dns_server_tcp_s.
Proof.
  refine {| view := p_tcp;
    set_view x w := Proxy (p_logging w) (p_stat w) (p_https w) (p_udp w) x (p_poller w) (p_app w) (p_loop w) |}; lens_laws.
Defined.
#[export] Instance proxy_poller : Lens proxy_t dns_poller_t.
Proof.
  refine {| view := p_poller;
    set_view x w := Proxy (p_logging w) (p_stat w) (p_https w) (p_udp w) (p_tcp w) x (p_app w) (p_loop w) |}; lens_laws.
Defined.
#[export] Instance proxy_app : Lens proxy_t app_state_t.
Proof.
  refine {| view := p_app;
    set_view x w := Proxy (p_logging w) (p_stat w) (p_https w) (p_udp w) (p_tcp w) (p_poller w) x (p_loop w) |}; lens_laws.
Defined.
#[export] Instance proxy_loop : Lens proxy_t loop_t.
Proof.
  refine {| view := p_loop;
    set_view x w := Proxy (p_logging w) (p_stat w) (p_https w) (p_udp w) (p_tcp w) (p_poller w) (p_app w) x |}; lens_laws.
Defined.

#[export] Instance proxy_apart : Apart proxy_t (https_client_t (option request_t)) stat_t.
Proof. done. Qed.

Definition with_resolv (l : ptr) (a : app_state_t) : app_state_t :=
  AppState l (app_url a) (app_stat a) (using_dns_poller a) (app_addrlen a) (app_tcp a) (called_once a).
Definition with_poller (b : bool) (a : app_state_t) : app_state_t :=
  AppState (resolv a) (app_url a) (app_stat a) b (app_addrlen a) (app_tcp a) (called_once a).
Definition with_called_once (b : bool) (a : app_state_t) : app_state_t :=
  AppState (resolv a) (app_url a) (app_stat a) (using_dns_poller a) (app_addrlen a) (app_tcp a) b.

(** ** Text *)

(** [strncasecmp(s, prefix, strlen(prefix)) == 0] *)
Definition has_prefix_nocase (s prefix : string) : bool :=
  bool_decide (tolower <$> take (String.length prefix) (to_bytes s) = tolower <$> to_bytes prefix).

Definition ptypes : list string := ["http:"; "https:"; "socks4a:"; "socks5h:"]%string.

Definition proxy_supports_name_resolution (proxy : option string) : bool :=
  match proxy with
  | None => false
  | Some proxy => existsb (has_prefix_nocase proxy) ptypes
  end.

Definition HOSTNAME_SIZE : Z := 255.
Definition PORT_MARK : list byte := to_bytes ":443:".
(** [sizeof(buf)] in [dns_poll_cb] *)
Definition RESOLV_SIZE : Z := 255 + zlen PORT_MARK + POLLER_ADDR_LIST_SIZE.

(** The two [snprintf] of [dns_poll_cb] into [buf]. *)
Definition resolv_text (hostname addr_list : list byte) : list byte :=
  let prefix := hostname ++ PORT_MARK in
  let ip_start := zlen prefix in
  snprintf_text (RESOLV_SIZE - 1) prefix ++ snprintf_text (RESOLV_SIZE - 1 - ip_start) addr_list.

(** The features of libcurl that [main] looks for. *)
Definition CURL_VERSION_IPV6 : Z := 2 ^ 0.
Definition CURL_VERSION_HTTP2 : Z := 2 ^ 16.
Definition CURL_VERSION_HTTP3 : Z := 2 ^ 25.

(** The port is stored at the same place in [sockaddr_in] and [sockaddr_in6]. *)
Definition with_port (port : Z) (a : addrinfo) : addrinfo :=
  match ai_family a with
  | AF_INET | AF_INET6 =>
      Addrinfo (ai_family a) (ztake 2 (ai_addr a) ++ htons (u16 port) ++ zdrop 4 (ai_addr a)) (ai_addrlen a)
  | AF_other _ => a
  end.

Section Operations.
Context `{Env} `{!AresDns} `{!AresNtop}.
(** [logging_debug_enabled()]: the level is set once, before the parts run. *)
Variable debug : bool.
(** Whether the program is compiled with [DEBUG], and with libsystemd. *)
Variable DEBUG HAS_LIBSYSTEMD : bool.

Abbreviation M := (M proxy_t).

Definition is_ipv4_address (str : string) : M bool := perform (Inet_pton false str).

(** The host name of the URL when it has one that must be resolved. *)
Definition hostname_from_url (url_in : option string) (hostname_len : Z) : M (option (list byte)) :=
  url ← perform Curl_url;
  if negb url then mret None
  else
    rc ← perform (Curl_url_set url_in);
    if negb (rc =? CURLE_OK) then mret None
    else
      r ← perform Curl_url_get_host;
      match (r : Z * option string) with
      | (rc, Some host) =>
          let bytes := to_bytes host in
          let host_len := zlen bytes in
          if (rc =? CURLE_OK) && (0 <? hostname_len) && (host_len <? hostname_len) then
            if bool_decide (znth bytes 0 = Some x5b) then mret None
            else if host_len =? 0 then halt (Fault OutOfBounds)
            else if bool_decide (znth bytes (host_len - 1) = Some x5d) then mret None
            else
              ip ← is_ipv4_address host;
              if (ip : bool) then mret None else mret (Some (ztake (hostname_len - 1) bytes))
          else mret None
      | (_, None) => mret None
      end.

Definition signal_shutdown_cb : M unit :=
  ILOG "Shutting down gracefully. To force exit, send signal again." ;;
  modify (fun l : loop_t => Loop (sigpipe l) (sigint l) (sigterm l) true).

Definition sigpipe_cb : M unit := ELOG "Received SIGPIPE. Ignoring.".

Definition https_resp_cb (data : option request_t) (buf : option (list byte)) (buflen : Z) : M unit :=
  match data with
  | None => FLOG "Request data is NULL (buflen: %zu)"
  | Some req =>
      DLOG "Received response for id: %hX, len: %zu" ;;
      (match buf with
       | None => mret tt
       | Some b =>
           if buflen <? DNS_HEADER_LENGTH then WLOG "%04hX: Malformed response received, too short: %u"
           else
             match znth b 0, znth b 1 with
             | Some hi, Some lo =>
                 let response_id := ntohs hi lo in
                 if negb (tx_id req =? response_id) then
                   WLOG "DNS request and response IDs are not matching: %hX != %hX"
                 else
                   (if is_tcp req then dns_server_tcp_respond (req_raddr req) (ztake buflen b)
                    else dns_server_respond (req_raddr req) (ztake (dns_req_len req) (req_data req)) (ztake buflen b)) ;;
                   if req_stat req then
                     now ← perform Ev_now;
                     stat_request_end buflen (dsub now (start_tstamp req)) (is_tcp req)
                   else mret tt
             | _, _ => halt (Fault OutOfBounds)
             end
       end) ;;
      emit (Freed (req_data req))
  end.

(** [app->resolv->data], [None] when [app->resolv] is [NULL]. *)
Definition resolv_data (l : ptr) : M (option (list byte)) :=
  match l with
  | None => mret None
  | Some l =>
      c ← client (D := option request_t);
      match slists c !! l with
      | Some data => mret (head data)
      | None => halt (Fault UseAfterFree)
      end
  end.

(** The address is in a [sockaddr_storage], of which [addrlen] bytes are copied
    to one that [calloc] has cleared. *)
Definition dns_server_cb (tcp : bool) (tmp_remote_addr : sockaddr) (dns_req : list byte) : M unit :=
  app ← get;
  match znth dns_req 0, znth dns_req 1 with
  | Some hi, Some lo =>
      let tx_id := ntohs hi lo in
      DLOG "Received request for id: %hX, len: %d" ;;
      data ← (if using_dns_poller app then resolv_data (resolv app) else mret None);
      if using_dns_poller app && bool_decide (data = None) then
        WLOG "%04hX: Query received before bootstrapping is completed, discarding." ;;
        emit (Freed dns_req)
      else
        block ← perform (Calloc 184);
        match block with
        | None => FLOG "%04hX: Out of mem"
        | Some _ =>
            now ← (if app_stat app then perform Ev_now else mret (double_of_Z 0));
            (if app_stat app then stat_request_begin (zlen dns_req) tcp else mret tt) ;;
            https_client_fetch https_resp_cb debug (app_url app) dns_req (zlen dns_req) (resolv app) tx_id
              (Some (Request tcp dns_req (zlen dns_req) (app_stat app) now tx_id
                       (sockaddr_storage (ztake (app_addrlen app) tmp_remote_addr))))
        end
  | _, _ => halt (Fault OutOfBounds)
  end.

Definition systemd_notify_ready : M unit :=
  if HAS_LIBSYSTEMD then
    app ← get;
    if called_once app then DLOG "Systemd notify already called once!"
    else
      modify (with_called_once true) ;;
      result ← perform Sd_notify;
      if 0 <? result then DLOG "Systemd notify succeeded, service is ready!"
      else if result =? 0 then WLOG "Systemd notify called, but NOTIFY_SOCKET not set. Running manually?"
      else ELOG "Systemd notify failed with: %s"
  else DLOG "Systemd notify skipped, not compiled with libsystemd!".

(** Whether every address of the list in use is in the new one. *)
Definition addresses_kept (data : option (list byte)) (addr_list : list byte) : M bool :=
  match data with
  | None => mret false
  | Some data =>
      match strstr data PORT_MARK with
      | None => mret false
      | Some i =>
          reduced ← addr_list_reduced addr_list (drop (i + length PORT_MARK) data);
          mret (negb reduced)
      end
  end.

Definition dns_poll_cb (hostname : list byte) (addr_list : option (list byte)) : M unit :=
  app ← get;
  (if 254 <? zlen hostname then FLOG "Hostname too long." else mret tt) ;;
  match addr_list with
  | None => halt (Fault NullString)
  | Some addr_list =>
      let buf := resolv_text hostname addr_list in
      (if bool_decide (resolv app = NULL) then systemd_notify_ready else mret tt) ;;
      data ← resolv_data (resolv app);
      kept ← addresses_kept data addr_list;
      if (kept : bool) then
        DLOG "DNS server IP address unchanged (%s)." ;;
        emit (Freed addr_list)
      else
        emit (Freed addr_list) ;;
        DLOG "Received new DNS server IP '%s'" ;;
        curl_slist_free_all (D := option request_t) (resolv app) ;;
        l ← curl_slist_append (D := option request_t) NULL buf;
        modify (with_resolv l) ;;
        https_client_reset https_resp_cb debug
  end.

Definition get_listen_address (listen_addr : string) : M addrinfo :=
  r ← perform (Getaddrinfo listen_addr);
  match r with
  | None => FLOG "Error parsing listen address %s, getaddrinfo error: %s"
  | Some ai => mret ai
  end.

(** The [switch] on the result of parsing the command line: the options, unless
    the process has exited. *)
Definition main_options (args : list string) : M Options :=
  r ← options_parse_args options_init args;
  let '(result, o) := (r : OptionsParseResult * Options) in
  match result with
  | OPR_SUCCESS => mret o
  | OPR_HELP => options_show_usage ;; halt (Exited 0)
  | OPR_VERSION =>
      emit (Stdout "%s") ;;
      curl_ver ← perform Curl_version_info;
      match curl_ver with
      | Some _ =>
          emit (Stdout "Using: ev/%d.%d c-ares/%s %s") ;;
          emit (Stdout "Features: %s%s%s%s") ;;
          halt (Exited 0)
      | None => emit (Stdout "Failed to get curl version info!") ;; halt (Exited 1)
      end
  | OPR_PARSING_ERROR =>
      emit (Stdout "Failed to parse options!") ;; emit (Stdout "") ;; options_show_usage ;; halt (Exited 1)
  | OPR_OPTION_ERROR =>
      emit (Stdout "") ;; options_show_usage ;; halt (Exited 1)
  end.

(** libcurl is initialised and its features are checked. *)
Definition init_curl : M unit :=
  code ← perform Curl_global_init;
  (if negb (code =? CURLE_OK) then FLOG "Failed to initialize curl, error code %d: %s" else mret tt) ;;
  curl_ver ← perform Curl_version_info;
  match curl_ver with
  | None => FLOG "Failed to get curl version info!"
  | Some features =>
      (if Z.land features CURL_VERSION_HTTP2 =? 0 then WLOG "HTTP/2 is not supported by current libcurl" else mret tt) ;;
      (if Z.land features CURL_VERSION_HTTP3 =? 0 then WLOG "HTTP/3 is not supported by current libcurl" else mret tt) ;;
      (if Z.land features CURL_VERSION_IPV6 =? 0 then WLOG "IPv6 is not supported by current libcurl" else mret tt)
  end.

Definition drop_privileges (o : Options) : M unit :=
  (if negb (gid o =? NO_ID) then
     r ← perform (Setgroups (gid o));
     if negb (r =? 0) then FLOG "Failed to set groups" else mret tt
   else mret tt) ;;
  (if negb (gid o =? NO_ID) then
     r ← perform (Setgid (gid o));
     if negb (r =? 0) then FLOG "Failed to set gid" else mret tt
   else mret tt) ;;
  (if negb (uid o =? NO_ID) then
     r ← perform (Setuid (uid o));
     if negb (r =? 0) then FLOG "Failed to set uid" else mret tt
   else mret tt).

(** The poller, unless the HTTPS proxy resolves names or the URL has none. *)
Definition start_poller (o : Options) : M unit :=
  if negb (proxy_supports_name_resolution (curl_proxy o)) then
    hostname ← hostname_from_url (resolver_url o) HOSTNAME_SIZE;
    match hostname with
    | Some hostname =>
        modify (with_poller true) ;;
        dns_poller_init (to_bytes (bootstrap_dns o)) (bootstrap_dns_polling_interval o) (source_addr o)
          hostname (if ipv4 o =? 0 then AF_UNSPEC else AF_INET) ;;
        ILOG "DNS polling initialized for '%s'"
    | None =>
        ILOG "Resolver prefix '%s' doesn't appear to contain a hostname. DNS polling disabled." ;;
        systemd_notify_ready
    end
  else mret tt.

(** The part of [main] from [struct ev_loop *loop = EV_DEFAULT] to the first
    [ev_run]; the URL of valid options is not [NULL]. *)
Definition main_start (o : Options) : M unit :=
  let stats := negb (Options.stats_interval o =? 0) in
  stat_init (Options.stats_interval o) ;;
  https_client_init (D := option request_t) o stats ;;
  ai ← get_listen_address (listen_addr o);
  let ai := with_port (listen_port o) ai in
  match resolver_url o with
  | None => halt (Fault NullString)
  | Some url =>
      put (AppState NULL url stats false (ai_addrlen ai) (0 <? tcp_client_limit o) false) ;;
      dns_server_init ai ;;
      (if 0 <? tcp_client_limit o then dns_server_tcp_create ai (u16 (tcp_client_limit o)) else mret tt) ;;
      drop_privileges o ;;
      (if negb (daemonize o =? 0) then
         r ← perform Daemon;
         if r =? -1 then FLOG "daemon failed: %s" else mret tt
       else mret tt) ;;
      put (Loop true true true false) ;;
      logging_events_init DEBUG ;;
      start_poller o
  end.

Definition main_init (args : list string) : M Options :=
  o ← main_options args;
  logging_init (logfd o) (Options.loglevel o) (u32 (flight_recorder_size o)) ;;
  ILOG "Version: %s" ;;
  ILOG "Built: " ;;
  ILOG "System ev library: %d.%d" ;;
  ILOG "System c-ares library: %s" ;;
  ILOG "System curl library: %s" ;;
  init_curl ;;
  main_start o ;;
  mret o.

(** Between the two calls of [ev_run]. *)
Definition main_stop : M unit :=
  DLOG "loop breaked" ;;
  app ← get;
  (if using_dns_poller app then dns_poller_cleanup dns_poll_cb else mret tt) ;;
  app ← get;
  curl_slist_free_all (D := option request_t) (resolv app) ;;
  logging_events_cleanup ;;
  put (Loop false false false false) ;;
  dns_server_stop ;;
  (if app_tcp app then dns_server_tcp_stop else mret tt) ;;
  stat_stop ;;
  DLOG "re-entering loop".

(** After the second [ev_run]. *)
Definition main_end (o : Options) : M unit :=
  DLOG "loop finished all events" ;;
  app ← get;
  dns_server_cleanup ;;
  (if app_tcp app then dns_server_tcp_cleanup else mret tt) ;;
  https_client_cleanup https_resp_cb debug ;;
  stat_cleanup ;;
  DLOG "loop destroyed" ;;
  logging_cleanup ;;
  options_cleanup o.

End Operations.

(** ** Theorems *)

(** C29: a host name taken from the URL is one the poller can use: it is the host
    that libcurl finds, whole, of 1 to 254 bytes, so neither the copy cuts it off
    nor [dns_poll_cb] calls it too long, and it is no bracketed IPv6 address.
    Finding it changes nothing; only an empty host would be read before its
    first byte. *)
Theorem hostname_fits `{Env} url (s : sys proxy_t) :
  wp (hostname_from_url url HOSTNAME_SIZE) s
    (fun s' r => world s' = world s /\ trace s' = trace s /\
       forall h, r = Some h ->
         0 < zlen h <= 254 /\ znth h 0 <> Some x5b /\ znth h (zlen h - 1) <> Some x5d /\
         exists host e, fst (answer Curl_url_get_host e) = (CURLE_OK, Some host) /\ h = to_bytes host)
    (fun _ r => r = Fault OutOfBounds /\ exists rc e, fst (answer Curl_url_get_host e) = (rc, Some ""%string)).
Proof.
  unfold hostname_from_url, is_ipv4_address, HOSTNAME_SIZE.
  apply wp_bind, wp_perform. intros ok e1 _. destruct (negb ok); [by apply wp_ret|].
  apply wp_bind, wp_perform. intros rc e2 _. destruct (negb (rc =? CURLE_OK)); [by apply wp_ret|].
  apply wp_bind, wp_perform. intros [rc' [host|]] e3 Ha; [|by apply wp_ret].
  destruct (_ && _) eqn:Efit; [|by apply wp_ret]. bool_facts.
  destruct (bool_decide (znth (to_bytes host) 0 = _)) eqn:E0; [by apply wp_ret|].
  destruct (zlen (to_bytes host) =? 0) eqn:Ez; bool_facts.
  { apply wp_halt. split; [done|]. exists rc'. eexists. rewrite Ha. cbn [fst]. do 2 f_equal.
    destruct host; [done|]. done. }
  destruct (bool_decide (znth (to_bytes host) (zlen (to_bytes host) - 1) = Some x5d)) eqn:E1; [by apply wp_ret|].
  apply wp_bind, wp_perform. intros [] e4 _; [by apply wp_ret|]. apply wp_ret. split; [done|]. split; [done|].
  intros h [= <-]. rewrite ztake_all by lia. apply bool_decide_eq_false in E0, E1.
  pose proof (zlen_nonneg (to_bytes host)). split; [lia|]. split; [done|]. split; [done|].
  exists host. eexists. split; [|done]. rewrite Ha. cbn. f_equal. lia.
Qed.
