(* ===== verification/Callbacks.v ===== *)
(** * The callbacks of the proxy

    What [https_resp_cb], [dns_server_cb] and [dns_poll_cb] of [Main] do, and
    that they keep what the components that call them rely on: the classes
    [RespCallback], [ReqCallback] and [PollCallback] are discharged here. *)

From Stdlib Require Import ZArith Lia String Strings.Byte.
From stdpp Require Import base tactics list option gmap strings.
From S2P Require Import Prelude Effects HeapList Stat Logging Options DnsServer DnsServerTcp TcpClients.
From S2P Require Import IoEvents DnsPoller AddrList HttpsClient HttpsTransfers Main.

Open Scope Z_scope.

Abbreviation https_t := (https_client_t (option request_t)).

(** ** What the callbacks leave alone *)

(** The parts that belong neither to the HTTPS client nor to a server's clients
    nor to the statistics. *)
Definition rest (w : proxy_t) : logging_t * dns_server_s * dns_poller_t * app_state_t * loop_t :=
  (p_logging w, p_udp w, p_poller w, p_app w, p_loop w).

Definition tcp_ok (w : proxy_t) : Prop := exists ls, serves (p_tcp w) ls.

(** The rest is [r] and the TCP server, if it is [on], is consistent, or is [d]. *)
Definition steady_tcp r (on : bool) (w : proxy_t) : Prop := rest w = r /\ (on = true -> tcp_ok w).
Definition same_tcp r (d : dns_server_tcp_s) (w : proxy_t) : Prop := rest w = r /\ p_tcp w = d.

#[export] Instance steady_tcp_https r on : Ignores (steady_tcp r on) https_t.
Proof. by intros t w [? ?]; split. Qed.
#[export] Instance steady_tcp_stat r on : Ignores (steady_tcp r on) stat_t.
Proof. by intros t w [? ?]; split. Qed.
#[export] Instance same_tcp_https r d : Ignores (same_tcp r d) https_t.
Proof. by intros t w [? ?]; split. Qed.
#[export] Instance same_tcp_stat r d : Ignores (same_tcp r d) stat_t.
Proof. by intros t w [? ?]; split. Qed.

#[export] Instance any_proxy T `{!Lens proxy_t T} : Ignores (fun _ : proxy_t => True) T.
Proof. by intros t w. Qed.

(** The identifier of a DNS message. *)
Definition dns_id (msg : list byte) : option Z :=
  match znth msg 0, znth msg 1 with
  | Some hi, Some lo => Some (ntohs hi lo)
  | _, _ => None
  end.

Lemma dns_id_Some msg : DNS_HEADER_LENGTH <= zlen msg ->
  exists hi lo, znth msg 0 = Some hi /\ znth msg 1 = Some lo /\ dns_id msg = Some (ntohs hi lo).
Proof.
  unfold DNS_HEADER_LENGTH. intros Hl.
  destruct (znth_is_Some msg 0 ltac:(lia)) as [hi Hhi]. destruct (znth_is_Some msg 1 ltac:(lia)) as [lo Hlo].
  exists hi, lo. unfold dns_id. by rewrite Hhi, Hlo.
Qed.

Lemma znth_app_l {A} (l k : list A) i : i < zlen l -> znth (l ++ k) i = znth l i.
Proof. intros Hi. unfold znth, zlen in *. destruct (0 <=? i) eqn:E; [|done]. bool_facts. apply lookup_app_l. lia. Qed.

(** The data of a request: the message that was received and its identifier; it
    came over TCP only if that server is [on]. *)
Definition request_ok (stats on : bool) (d : option request_t) : Prop :=
  exists req, d = Some req /\ req_stat req = stats /\ dns_req_len req = zlen (req_data req) /\
    DNS_HEADER_LENGTH <= zlen (req_data req) /\ dns_id (req_data req) = Some (tx_id req) /\
    (is_tcp req = true -> on = true).

(** A reply that answers the request: a whole header with the same identifier. *)
Definition answers (req : request_t) (reply : list byte) : bool :=
  (DNS_HEADER_LENGTH <=? zlen reply) && bool_decide (dns_id reply = Some (tx_id req)).

Section Responses.
Context `{Env} `{!AresDns} `{!AresLaws} `{!SaneSend}.
Implicit Types (s : sys proxy_t).

(** [s'] differs from [s] in the environment and in events that are not about
    transfers or clients. *)
Definition hushed s s' : Prop :=
  world s' = world s /\ transfer_events (trace s') = transfer_events (trace s) /\
  datagrams (trace s') = datagrams (trace s) /\ forall fd, sent_on fd (trace s') = sent_on fd (trace s).

#[export] Instance hushed_preorder : PreOrder hushed.
Proof.
  split; [done|]. intros s1 s2 s3 (? & ? & ? & Hs1) (? & ? & ? & Hs2).
  split; [congruence|]. split; [congruence|]. split; [congruence|]. intros fd. by rewrite Hs2, Hs1.
Qed.

Lemma hushed_log level fmt s : hushed s (Sys (world s) (environment s) (trace s ++ [Logged level fmt])).
Proof.
  split; [done|]. cbn [trace]. rewrite transfer_events_app, datagrams_app.
  split; [apply app_nil_r|]. split; [apply app_nil_r|]. intros fd. rewrite sent_on_app. apply app_nil_r.
Qed.

Lemma hushed_freed bs s : hushed s (Sys (world s) (environment s) (trace s ++ [Freed bs])).
Proof.
  split; [done|]. cbn [trace]. rewrite transfer_events_app, datagrams_app.
  split; [apply app_nil_r|]. split; [apply app_nil_r|]. intros fd. rewrite sent_on_app. apply app_nil_r.
Qed.

(** The end of [https_resp_cb]. *)
Lemma freed_run bs s Φ Ψ :
  (forall s', hushed s s' -> last (trace s') = Some (Freed bs) -> Φ s' tt) -> wp (emit (Freed bs)) s Φ Ψ.
Proof. intros HΦ. apply wp_emit, HΦ; [apply hushed_freed|]. cbn [trace]. by rewrite last_snoc. Qed.

(** A reply that is not for the request goes nowhere. *)
Lemma resp_cb_dropped req b n s Ψ :
  reply_shape b n -> (forall body, b = Some (body ++ [x00]) -> answers req body = false) ->
  wp (https_resp_cb (Some req) b n) s
    (fun s' _ => hushed s s' /\ last (trace s') = Some (Freed (req_data req))) Ψ.
Proof.
  intros Hshape Hno. unfold https_resp_cb. apply wp_bind, wp_log. set (s1 := Sys _ _ _).
  assert (hushed s s1) as Hh1 by apply hushed_log.
  assert (forall fmt, wp (WLOG fmt ;; emit (Freed (req_data req))) s1
            (fun s' _ => hushed s s' /\ last (trace s') = Some (Freed (req_data req))) Ψ) as Hwarn.
  { intros fmt. apply wp_bind, wp_log, freed_run. intros s3 Hh3 Hl. split; [|done].
    trans s1; [done|]. etrans; [|exact Hh3]. apply hushed_log. }
  destruct b as [b|].
  2:{ apply wp_bind, wp_ret, freed_run. intros s3 Hh3 Hl. split; [by trans s1|done]. }
  destruct Hshape as [[? _]|(body & Hb & -> & Hmax)]; [done|]. injection Hb as ->.
  specialize (Hno body eq_refl). unfold answers in Hno.
  destruct (zlen body <? DNS_HEADER_LENGTH) eqn:E; bool_facts; [apply Hwarn|].
  replace (DNS_HEADER_LENGTH <=? zlen body) with true in Hno by lia. cbn [andb] in Hno.
  destruct (dns_id_Some body E) as (hi & lo & Hhi & Hlo & Hid). unfold DNS_HEADER_LENGTH in *.
  rewrite !znth_app_l, Hhi, Hlo by lia. cbn iota. rewrite Hid in Hno.
  destruct (tx_id req =? ntohs hi lo) eqn:Eid; bool_facts; cbn [negb]; [|apply Hwarn].
  exfalso. apply bool_decide_eq_false in Hno. congruence.
Qed.

(** The statistics may have counted, nothing was sent. *)
Definition tallied s s' : Prop :=
  own stat_t s s' /\ datagrams (trace s') = datagrams (trace s) /\
  forall fd, sent_on fd (trace s') = sent_on fd (trace s).

Lemma hushed_tallied s s' : hushed s s' -> tallied s s'.
Proof.
  intros (Hw & Ht & Hd & Hs). split; [|done]. split; [|done]. unfold part. rewrite Hw. by destruct (world s).
Qed.

#[export] Instance tallied_preorder : PreOrder tallied.
Proof.
  split; [done|]. intros s1 s2 s3 (? & ? & Hs1) (? & ? & Hs2).
  split; [by trans s2|]. split; [congruence|]. intros fd. by rewrite Hs2, Hs1.
Qed.

(** Counting the response; the latency may be none that can be counted. *)
Lemma stat_end_run (stats : bool) n start tcp s :
  wp (if stats then now ← perform Ev_now; stat_request_end n (dsub now start) tcp else mret tt) s
    (fun s' _ => tallied s s') (fun _ r => stats = true /\ r = Fault BadConversion).
Proof.
  destruct stats; [|by apply wp_ret]. apply wp_bind, wp_perform. intros now e _. unfold stat_request_end.
  destruct (n =? 0).
  { apply wp_ret. split; [by apply own_world|done]. }
  destruct (latency_ms _); [|by apply wp_halt]. apply wp_modify.
  split; [by apply (own_seen stat_t s)|done].
Qed.

(** A reply to the request is handed to its server and counted. *)
Lemma resp_cb_delivered req body s (P : sys proxy_t -> Prop) :
  answers req body = true ->
  (forall s1, hushed s s1 ->
     wp (if is_tcp req then dns_server_tcp_respond (req_raddr req) body
         else dns_server_respond (req_raddr req) (ztake (dns_req_len req) (req_data req)) body) s1
       (fun s2 _ => P s2) (fun _ _ => False)) ->
  wp (https_resp_cb (Some req) (Some (body ++ [x00])) (zlen body)) s
    (fun s' _ => last (trace s') = Some (Freed (req_data req)) /\ exists s2, P s2 /\ tallied s2 s')
    (fun _ r => req_stat req = true /\ r = Fault BadConversion).
Proof.
  intros Hans Hresp. unfold answers in Hans. apply andb_true_iff in Hans as [Hlen Hid%bool_decide_eq_true]. bool_facts.
  destruct (dns_id_Some body Hlen) as (hi & lo & Hhi & Hlo & Hid'). unfold DNS_HEADER_LENGTH in *.
  unfold https_resp_cb. apply wp_bind, wp_log. set (s1 := Sys _ _ _).
  replace (zlen body <? DNS_HEADER_LENGTH) with false by (unfold DNS_HEADER_LENGTH; lia).
  rewrite !znth_app_l, Hhi, Hlo by lia. cbn iota.
  replace (tx_id req =? ntohs hi lo) with true by (symmetry; apply Z.eqb_eq; congruence). cbn [negb].
  apply wp_bind, wp_bind. rewrite ztake_app_exact by done.
  eapply wp_mono; [apply Hresp, hushed_log| |done]. intros s2 u HP.
  eapply wp_mono; [apply stat_end_run| |done]. intros s3 [] Ht3. apply freed_run. intros s4 Hh4 Hl.
  split; [done|]. exists s2. split; [done|]. trans s3; [done|by apply hushed_tallied].
Qed.

(** The TCP response as seen after more has been counted. *)
Definition written_to p c ls (body : list byte) s s' : Prop :=
  (serves (p_tcp (world s')) ls /\ writes (client_sock c) (frame body) (trace s) (trace s')) \/
  (serves (p_tcp (world s')) (without p ls) /\
   exists k, writes (client_sock c) (ztake k (frame body)) (trace s) (trace s')).

Definition tcp_delivery req body ls s s' : Prop :=
  (p_tcp (world s') = p_tcp (world s) /\ (forall fd, sent_on fd (trace s') = sent_on fd (trace s)) /\
   (TCP_DNS_MAX_PAYLOAD < zlen body \/
    forall l c, client_heap (p_tcp (world s)) !! l = Some c -> same_addr (req_raddr req) c = false)) \/
  exists p c, first_match (req_raddr req) (p_tcp (world s)) ls p c /\ written_to p c ls body s s'.

Definition udp_delivery req body s s' : Prop :=
  p_tcp (world s') = p_tcp (world s) /\
  exists dgram, fair_datagram (req_data req) body dgram /\
    attempted (sock (p_udp (world s))) dgram (ztake (addrlen (p_udp (world s))) (req_raddr req)) (trace s) (trace s').

Lemma writes_hushed fd bs s s1 s2 : hushed s s1 -> writes fd bs (trace s1) (trace s2) -> writes fd bs (trace s) (trace s2).
Proof. intros (_ & _ & _ & Hs) [Ha Hb]. split; [by rewrite Ha, Hs|]. intros fd' Hne. by rewrite Hb, Hs. Qed.

Lemma writes_tallied fd bs s s1 s2 : writes fd bs (trace s) (trace s1) -> tallied s1 s2 -> writes fd bs (trace s) (trace s2).
Proof. intros [Ha Hb] (_ & _ & Hs). split; [by rewrite Hs, Ha|]. intros fd' Hne. by rewrite Hs, Hb. Qed.

Lemma tallied_world s s' : tallied s s' -> p_tcp (world s') = p_tcp (world s) /\
  p_https (world s') = p_https (world s) /\ rest (world s') = rest (world s) /\
  transfer_events (trace s') = transfer_events (trace s).
Proof. intros ([-> ?] & _). done. Qed.

(** The TCP server's response, seen from the proxy. *)
Lemma tcp_respond_run req body ls s s1 :
  serves (p_tcp (world s)) ls -> DNS_HEADER_LENGTH <= zlen body -> hushed s s1 ->
  wp (dns_server_tcp_respond (req_raddr req) body) s1
    (fun s2 _ => tcp_delivery req body ls s s2 /\ own dns_server_tcp_s s1 s2 /\ tcp_ok (world s2)) (fun _ _ => False).
Proof.
  intros Hs Hlen Hh. pose proof Hh as (Hw & _ & Hd & Hso).
  assert (part dns_server_tcp_s s1 = p_tcp (world s)) as Hp by (unfold part; cbn; by rewrite Hw).
  eapply wp_mono; [apply (wp_and _ _ _ _ _ _ (respond_stays _ _ s1) (respond_run _ _ ls s1 ltac:(by rewrite Hp)))| |by intros ?? [_ ?]].
  intros s2 u [Hown Hrun]. rewrite Hp in Hrun. change (part dns_server_tcp_s s2) with (p_tcp (world s2)) in Hrun.
  destruct Hrun as [(Hsame & Hsent & Hwhy)|(p & c & Hm & Hans)].
  - split; [|split; [done|exists ls; by rewrite Hsame]]. left. split; [done|].
    split; [intros fd; by rewrite Hsent|]. destruct Hwhy as [[?|?]|?]; [lia|by left|by right].
  - change (part dns_server_tcp_s s2) with (p_tcp (world s2)) in Hans.
    assert (written_to p c ls body s s2 /\ tcp_ok (world s2)) as [Hwr Hok].
    { destruct Hans as [(Hsv & Hwr & _)|[[Hsv _] [k Hwr]]].
      - split; [left; split; [done|by eapply writes_hushed]|by eexists].
      - split; [right; split; [done|exists k; by eapply writes_hushed]|by eexists]. }
    split; [|by split]. right. by exists p, c.
Qed.

Lemma tcp_delivery_tallied req body ls s s2 s' :
  tcp_delivery req body ls s s2 -> tallied s2 s' -> tcp_delivery req body ls s s'.
Proof.
  intros Hd Ht. pose proof (tallied_world _ _ Ht) as (Hp & _). pose proof Ht as (_ & _ & Hs).
  destruct Hd as [(Ha & Hb & Hc)|(p & c & Hm & Hw)].
  - left. split; [congruence|]. split; [intros fd; by rewrite Hs, Hb|done].
  - right. exists p, c. split; [done|]. unfold written_to. rewrite Hp.
    destruct Hw as [[? ?]|[? [k ?]]]; [left|right]; (split; [done|]); [|exists k]; by eapply writes_tallied.
Qed.

Lemma udp_respond_run req body s s1 :
  dns_req_len req = zlen (req_data req) -> DNS_HEADER_LENGTH <= zlen body <= DOH_MAX_RESPONSE_SIZE -> hushed s s1 ->
  wp (dns_server_respond (req_raddr req) (ztake (dns_req_len req) (req_data req)) body) s1
    (fun s2 _ => udp_delivery req body s s2 /\ world s2 = world s1 /\
       transfer_events (trace s2) = transfer_events (trace s1)) (fun _ _ => False).
Proof.
  intros Hlr Hlen Hh. pose proof Hh as (Hw & _ & Hd & _). unfold DOH_MAX_RESPONSE_SIZE in *.
  rewrite Hlr, ztake_all by done.
  assert (DNS_HEADER_LENGTH <= zlen body < 2 ^ 32) as Hl32 by lia.
  eapply wp_mono; [apply (wp_and _ _ _ _ _ _ (udp_respond_stays (req_raddr req) (req_data req) body s1) (respond_fair _ _ _ s1 Hl32))
    | |by intros ?? [_ ?]].
  intros s2 u [Hown (dgram & Hf & Hw2 & Hsend)]. split; [|by split; [|apply Hown]].
  split; [by rewrite Hw2, Hw|]. exists dgram. split; [done|].
  change (part dns_server_s s1) with (p_udp (world s1)) in Hsend. rewrite Hw in Hsend.
  destruct Hsend as [e Hsend]. exists e. by rewrite <-Hd.
Qed.

End Responses.

(** ** The response callback keeps its promises *)

Section RespContract.
Context `{Env} `{!AresDns} `{!AresLaws} `{!SaneSend}.
Implicit Types (s : sys proxy_t).

(** How the response callback may end the process: the latency of a request is
    no unsigned number, with the statistics on. *)
Definition clock_stops (stats : bool) (r : stop) : Prop := stats = true /\ r = Fault BadConversion.

Lemma hushed_keeps (J : proxy_t -> Prop) s s' :
  hushed s s' -> J (world s) ->
  part https_t s' = part https_t s /\ transfer_events (trace s') = transfer_events (trace s) /\ J (world s').
Proof. intros (Hw & Ht & _) HJ. unfold part. by rewrite Hw. Qed.

#[export] Instance resp_cb_contract r stats on :
  RespCallback (request_ok stats on) (steady_tcp r on) (clock_stops stats) false https_resp_cb.
Proof.
  intros d b n s (req & -> & Hst & Hlr & Hl & Hid & Hon) HJ Hshape _.
  assert ((exists body, b = Some (body ++ [x00]) /\ n = zlen body /\ zlen body <= DOH_MAX_RESPONSE_SIZE /\
            answers req body = true) \/
          (forall body, b = Some (body ++ [x00]) -> answers req body = false)) as Hcase.
  { destruct Hshape as [[-> _]|(body & -> & -> & Hmax)]; [by right|].
    destruct (answers req body) eqn:E; [left; by exists body|right].
    intros body' [= Hb]. apply app_inj_tail in Hb as [<- _]. done. }
  destruct Hcase as [(body & -> & -> & Hmax & Hans)|Hno].
  2:{ eapply wp_mono; [by apply (resp_cb_dropped req b n s (fun _ _ => False))| |done].
      intros s' u [Hh _]. by eapply hushed_keeps. }
  pose proof HJ as [Hr Hs].
  assert (DNS_HEADER_LENGTH <= zlen body) as Hlb by (unfold answers in Hans; bool_facts; done).
  eapply wp_mono; [apply (resp_cb_delivered req body s (fun s2 =>
    part https_t s2 = part https_t s /\ transfer_events (trace s2) = transfer_events (trace s) /\ steady_tcp r on (world s2)))
    | |intros ?? [? ?]; split; [congruence|done]].
  - done.
  - intros s1 Hh. pose proof Hh as (Hw & Ht & _). destruct (is_tcp req).
    + destruct (Hs (Hon eq_refl)) as [ls Hls]. eapply wp_mono; [by eapply tcp_respond_run| |done]. intros s2 u (_ & [Hw2 Ht2] & Hok).
      unfold part, steady_tcp in *. rewrite Hw2 in *. rewrite Ht2, Ht, Hw. done.
    + eapply wp_mono; [by eapply (udp_respond_run req body s s1)| |done]. intros s2 u (_ & Hw2 & Ht2).
      unfold part. rewrite Hw2, Hw, Ht2, Ht. done.
  - intros s' u (_ & s2 & (Hp & Ht & [Hr2 Hok]) & Htal). destruct (tallied_world _ _ Htal) as (Hp1 & Hp2 & Hp3 & Ht').
    unfold part in *. cbn in *. split; [congruence|]. split; [congruence|]. split; [congruence|].
    unfold tcp_ok in *. by rewrite Hp1.
Qed.

(** Without a reply nothing happens to the servers. *)
#[export] Instance resp_cb_aborted r d stats on :
  RespCallback (request_ok stats on) (same_tcp r d) (fun _ => False) true https_resp_cb.
Proof.
  intros x b n s (req & -> & _) HJ Hshape Hb. specialize (Hb eq_refl). subst b.
  eapply wp_mono; [apply (resp_cb_dropped req None n s (fun _ _ => False) Hshape); done| |done].
  intros s' u [Hh _]. by eapply hushed_keeps.
Qed.

(** A reply is handed to its server, or dropped when it answers something else. *)
Lemma reply_run req body ls s :
  (is_tcp req = true -> serves (p_tcp (world s)) ls) -> dns_req_len req = zlen (req_data req) -> zlen body <= DOH_MAX_RESPONSE_SIZE ->
  wp (https_resp_cb (Some req) (Some (body ++ [x00])) (zlen body)) s
    (fun s' _ => last (trace s') = Some (Freed (req_data req)) /\
       if answers req body then
         if is_tcp req then tcp_delivery req body ls s s' else udp_delivery req body s s'
       else hushed s s')
    (fun _ r => req_stat req = true /\ r = Fault BadConversion).
Proof.
  intros Hs Hlr Hmax. destruct (answers req body) eqn:Hans.
  - assert (DNS_HEADER_LENGTH <= zlen body) as Hlb by (unfold answers in Hans; bool_facts; done).
    eapply wp_mono; [apply (resp_cb_delivered req body s (fun s2 =>
      if is_tcp req then tcp_delivery req body ls s s2 else udp_delivery req body s s2) Hans)| |done].
    + intros s1 Hh. destruct (is_tcp req).
      * eapply wp_mono; [by eapply tcp_respond_run; [apply Hs|..]| |done]. by intros s2 u [? _].
      * eapply wp_mono; [by eapply (udp_respond_run req body s s1)| |done]. by intros s2 u [? _].
    + intros s' u (Hl & s2 & HP & Htal). split; [done|]. destruct (is_tcp req); [by eapply tcp_delivery_tallied|].
      destruct (tallied_world _ _ Htal) as (Hp & _). destruct HP as (Hp2 & dgram & Hf & Hd).
      split; [congruence|]. exists dgram. split; [done|].
      destruct Hd as [e Hd]. exists e. destruct Htal as (_ & -> & _). done.
  - eapply wp_mono; [apply (resp_cb_dropped req _ _ s (fun _ _ => False))| |done].
    + right. by exists body.
    + intros body' [= Hb]. apply app_inj_tail in Hb as [<- _]. done.
    + by intros s' u [Hh Hl].
Qed.

(** C4: the reply of the resolver reaches the client that asked, and only as an
    answer to its question.  A reply shorter than a DNS header or with another
    identifier is dropped: nothing is sent and no other part of the program
    changes.  Otherwise one datagram with the reply, or a truncated form of it, is
    handed to [sendto] for a UDP client, at the address of its request, and is
    sent exactly when the kernel takes it; a TCP client gets the reply framed on
    its connection, or is disconnected, or is gone.  In every case the copy of
    the request is freed last. *)
Theorem reply_routed req body ls s :
  serves (p_tcp (world s)) ls -> dns_req_len req = zlen (req_data req) -> zlen body <= DOH_MAX_RESPONSE_SIZE ->
  wp (https_resp_cb (Some req) (Some (body ++ [x00])) (zlen body)) s
    (fun s' _ => last (trace s') = Some (Freed (req_data req)) /\
       if answers req body then
         if is_tcp req then tcp_delivery req body ls s s' else udp_delivery req body s s'
       else hushed s s')
    (fun _ r => req_stat req = true /\ r = Fault BadConversion).
Proof. intros Hs. by apply reply_run. Qed.

End RespContract.

(** ** Requests *)

(** A client seen from a program that has moved on without touching it. *)
Lemma healthy_with {D} `{Env} {W} `{!Lens W (https_client_t D)} (J J' : W -> Prop) debug G (s s' : sys W) :
  part (https_client_t D) s' = part _ s -> transfer_events (trace s') = transfer_events (trace s) ->
  J' (world s') -> healthy J debug G s -> healthy J' debug G s'.
Proof.
  intros Hp Ht HJ (ls & (Htr & Hb & _) & Hl & Hh). exists ls. rewrite Hp. split; [|done].
  split; [by rewrite Hp|]. split; [|done]. unfold balanced in *. by rewrite Ht, Hp.
Qed.

Section Requests.
Context `{Env} `{!OrderlyCurl} (debug stats on : bool).
Implicit Types (s : sys proxy_t).

(** The way to the resolver works: the client is consistent, its requests are
    the proxy's, and the list of addresses exists and is not the header list. *)
Record upstream s : Prop := {
  up_client : healthy (fun _ => True) debug (request_ok stats on) s;
  up_list : list_ok (p_https (world s)) (resolv (p_app (world s)));
  up_apart : forall l, resolv (p_app (world s)) = Some l -> header_list (p_https (world s)) <> Some l;
  up_stat : app_stat (p_app (world s)) = stats;
  up_tcp : app_tcp (p_app (world s)) = on
}.

Lemma upstream_frame s s' :
  p_https (world s') = p_https (world s) -> p_app (world s') = p_app (world s) ->
  transfer_events (trace s') = transfer_events (trace s) -> upstream s -> upstream s'.
Proof.
  intros Hh Ha Ht []. split; rewrite ?Hh, ?Ha; [|done..]. by eapply healthy_with; [exact Hh| | |].
Qed.

(** The client has run; the proxy's state is the same. *)
Lemma upstream_client J s s' :
  still_healthy J debug (request_ok stats on) s s' -> p_app (world s') = p_app (world s) -> upstream s -> upstream s'.
Proof.
  intros [Hh [Hsl Hhd]] Ha []. change (part https_t s') with (p_https (world s')) in Hsl, Hhd.
  split; [by eapply healthy_with| | |by rewrite Ha..]; unfold list_ok; rewrite Ha, ?Hsl, ?Hhd; done.
Qed.

(** An [upstream] with the parts around it. *)
Definition upstream_in r s : Prop := upstream s /\ rest (world s) = r.

#[export] Instance upstream_tcp r : Framed dns_server_tcp_s (upstream_in r).
Proof.
  intros s s' [Hw Ht] [Hu Hr]. split; [|by rewrite Hw].
  eapply upstream_frame; [| |exact Ht|exact Hu]; by rewrite Hw.
Qed.

#[export] Instance upstream_stat r : Framed stat_t (upstream_in r).
Proof.
  intros s s' [Hw Ht] [Hu Hr]. split; [|by rewrite Hw].
  eapply upstream_frame; [| |exact Ht|exact Hu]; by rewrite Hw.
Qed.

(** Whether a request is taken: the address of the resolver is known or is not
    for the proxy to find. *)
Definition bootstrapped (w : proxy_t) : Prop :=
  using_dns_poller (p_app w) = true -> exists l a rest, resolv (p_app w) = Some l /\ slists (p_https w) !! l = Some (a :: rest).

#[export] Instance bootstrapped_dec w : Decision (bootstrapped w).
Proof.
  unfold bootstrapped. destruct (using_dns_poller (p_app w)); [|by left].
  destruct (resolv (p_app w)) as [l|]; [|right; intros Hb; by destruct (Hb eq_refl) as (? & ? & ? & ? & _)].
  destruct (slists (p_https w) !! l) as [[|a k]|] eqn:E.
  - right. intros Hb. destruct (Hb eq_refl) as (? & ? & ? & [= <-] & ?). congruence.
  - left. intros _. by exists l, a, k.
  - right. intros Hb. destruct (Hb eq_refl) as (? & ? & ? & [= <-] & ?). congruence.
Defined.

(** The address of the resolver is looked up without effect. *)
Lemma resolv_lookup s (k : option (list byte) -> M proxy_t unit) Φ Ψ :
  upstream s ->
  (forall data, bool_decide (bootstrapped (world s)) = negb (using_dns_poller (p_app (world s)) && bool_decide (data = None)) ->
     wp (k data) s Φ Ψ) ->
  wp ((if using_dns_poller (p_app (world s)) then resolv_data (resolv (p_app (world s))) else mret None) ≫= k) s Φ Ψ.
Proof.
  intros Hu Hk. apply wp_bind. destruct (using_dns_poller _) eqn:Eu.
  2:{ apply wp_ret, Hk, bool_decide_eq_true. intros ?. congruence. }
  pose proof (up_list _ Hu) as Hl. unfold resolv_data. destruct (resolv (p_app (world s))) as [l|] eqn:Er.
  2:{ apply wp_ret, Hk. rewrite (bool_decide_eq_true_2 (None = None)) by done. apply bool_decide_eq_false. intros Hb.
      destruct (Hb Eu) as (? & ? & ? & ? & _). congruence. }
  apply wp_bind, wp_get. destruct (Hl l eq_refl) as [v Hv].
  assert (slists (part https_t s) !! l = Some v) as -> by exact Hv. apply wp_ret, Hk. destruct v as [|a v]; cbn [head].
  - rewrite (bool_decide_eq_true_2 (None = None)) by done. apply bool_decide_eq_false. intros Hb.
    destruct (Hb Eu) as (? & ? & ? & ? & ?). congruence.
  - rewrite (bool_decide_eq_false_2 (Some a = None)) by done. apply bool_decide_eq_true. intros _. by exists l, a, v.
Qed.

Context `{!AresDns}.

(** The proxy's record of a request. *)
Definition request_of (w : proxy_t) tcp (addr : sockaddr) (q : list byte) now id : request_t :=
  Request tcp q (zlen q) stats now id (sockaddr_storage (ztake (app_addrlen (p_app w)) addr)).

Lemma request_of_ok w tcp addr q now id :
  DNS_HEADER_LENGTH <= zlen q -> dns_id q = Some id -> (tcp = true -> on = true) -> request_ok stats on (Some (request_of w tcp addr q now id)).
Proof. intros Hl Hid Hon. by eexists. Qed.

Lemma query_refused tcp addr q id s :
  upstream s -> ~ bootstrapped (world s) -> dns_id q = Some id ->
  dns_server_cb debug tcp addr q s =
    Ok (Sys (world s) (environment s)
         (((trace s ++ [Logged LOG_DEBUG "Received request for id: %hX, len: %d"]) ++
           [Logged LOG_WARNING "%04hX: Query received before bootstrapping is completed, discarding."]) ++ [Freed q])) tt.
Proof.
  intros Hu Hb Hid.
  assert (wp (dns_server_cb debug tcp addr q) s (fun s' _ => s' = Sys (world s) (environment s)
         (((trace s ++ [Logged LOG_DEBUG "Received request for id: %hX, len: %d"]) ++
           [Logged LOG_WARNING "%04hX: Query received before bootstrapping is completed, discarding."]) ++ [Freed q]))
         (fun _ _ => False)) as Hw.
  2:{ unfold wp in Hw. destruct (dns_server_cb debug tcp addr q s) as [s' []|]; [by rewrite Hw|done]. }
  unfold dns_server_cb. apply wp_bind, wp_get. unfold dns_id in Hid.
  destruct (znth q 0) as [hi|], (znth q 1) as [lo|]; try done. injection Hid as <-.
  apply wp_bind, wp_log. set (s1 := Sys _ _ _). apply (resolv_lookup s1).
  { apply (upstream_frame s); [done|done| |exact Hu]. unfold s1. cbn [trace]. rewrite transfer_events_app. apply app_nil_r. }
  intros data Hd. change (world s1) with (world s) in Hd. rewrite (bool_decide_eq_false_2 _ Hb) in Hd.
  symmetry in Hd. apply negb_false_iff in Hd.
  change (part app_state_t s) with (p_app (world s)). rewrite Hd. by apply wp_bind, wp_log, wp_emit.
Qed.

Lemma query_taken tcp addr q id s Φ :
  upstream s -> bootstrapped (world s) -> dns_id q = Some id ->
  (forall s1 now, tallied s s1 ->
     wp (https_client_fetch https_resp_cb debug (app_url (p_app (world s))) q (zlen q) (resolv (p_app (world s))) id
           (Some (request_of (world s) tcp addr q now id))) s1 Φ (fun _ r => may_stop debug r)) ->
  wp (dns_server_cb debug tcp addr q) s Φ (fun _ r => may_stop debug r).
Proof.
  intros Hu Hb Hid Hk. unfold dns_server_cb. apply wp_bind, wp_get. unfold dns_id in Hid.
  destruct (znth q 0) as [hi|], (znth q 1) as [lo|]; try done. injection Hid as Hid. rewrite Hid.
  apply wp_bind, wp_log. set (s1 := Sys _ _ _). assert (hushed s s1) as Hh1 by apply hushed_log.
  apply (resolv_lookup s1).
  { apply (upstream_frame s); [done|done|apply Hh1|exact Hu]. }
  intros data Hd. change (world s1) with (world s) in Hd. rewrite (bool_decide_eq_true_2 _ Hb) in Hd.
  symmetry in Hd. apply negb_true_iff in Hd. change (part app_state_t s) with (p_app (world s)). rewrite Hd.
  apply wp_bind, wp_perform. intros [hint|] e _; [|apply wp_flog; by left].
  rewrite (up_stat _ Hu). set (s2 := Sys _ e _).
  assert (tallied s s2) as Ht2 by (apply hushed_tallied; by destruct Hh1 as (? & ? & ? & ?)).
  unfold request_of in Hk. destruct stats.
  - apply wp_bind, wp_perform. intros now e' _. apply wp_bind. unfold stat_request_begin. apply wp_modify.
    apply Hk. trans s2; [done|]. split; [|done]. by apply (own_seen stat_t s2).
  - apply wp_bind, wp_ret, wp_bind, wp_ret, Hk, Ht2.
Qed.

(** A request keeps the client consistent and changes nothing but the client and
    the statistics. *)
Lemma query_run tcp addr q r s :
  upstream_in r s -> DNS_HEADER_LENGTH <= zlen q -> (tcp = true -> on = true) ->
  wp (dns_server_cb debug tcp addr q) s
    (fun s' _ => p_tcp (world s') = p_tcp (world s) /\ upstream_in r s') (fun _ r => may_stop debug r).
Proof.
  intros [Hu Hr] Hl Hon. destruct (dns_id_Some q Hl) as (hi & lo & _ & _ & Hid).
  destruct (decide (bootstrapped (world s))) as [Hb|Hb].
  2:{ unfold wp. rewrite (query_refused tcp addr q _ s Hu Hb Hid). split; [done|]. split; [|done].
      apply (upstream_frame s); [done|done| |exact Hu]. cbn [trace]. rewrite !transfer_events_app. by rewrite !app_nil_r. }
  apply (query_taken tcp addr q _ s _ Hu Hb Hid). intros s1 now Ht.
  destruct (tallied_world _ _ Ht) as (Hp1 & Hh1 & Hr1 & He1).
  assert (upstream s1) as Hu1.
  { apply (upstream_frame s); [done| |done|done]. unfold rest in Hr1. congruence. }
  assert (resolv (p_app (world s1)) = resolv (p_app (world s))) as Hres by (unfold rest in Hr1; congruence).
  eapply wp_mono; [apply (fetch_healthy (same_tcp r (p_tcp (world s))) debug (request_ok stats on) (fun _ => False) true https_resp_cb)
    | |by intros ?? [?|[]]].
  - apply (healthy_with (fun _ => True) _ debug _ s1 s1); [done|done| |apply Hu1]. split; congruence.
  - rewrite <-Hres. apply Hu1.
  - by apply request_of_ok.
  - intros s' u Hst. pose proof (healthy_J _ _ _ _ (proj1 Hst)) as [Hr' Hd']. split; [done|]. split; [|done].
    eapply upstream_client; [exact Hst| |exact Hu1]. unfold rest in *. congruence.
Qed.

(** C6: nothing is asked before the address of the resolver is known.  With a
    bootstrap resolver in use and no addresses from it yet, a request is dropped:
    the run writes two log lines and frees the request, libcurl is not called
    and no part of the program changes. *)
Theorem query_before_bootstrap tcp addr q s :
  upstream s -> DNS_HEADER_LENGTH <= zlen q ->
  using_dns_poller (p_app (world s)) = true -> resolv (p_app (world s)) = NULL ->
  dns_server_cb debug tcp addr q s =
    Ok (Sys (world s) (environment s) (trace s ++
          [Logged LOG_DEBUG "Received request for id: %hX, len: %d";
           Logged LOG_WARNING "%04hX: Query received before bootstrapping is completed, discarding."; Freed q])) tt.
Proof.
  intros Hu Hl Hd Hn. destruct (dns_id_Some q Hl) as (hi & lo & _ & _ & Hid).
  rewrite (query_refused tcp addr q (ntohs hi lo) s Hu); [by rewrite <-!app_assoc| |exact Hid].
  intros Hb. destruct (Hb Hd) as (? & ? & ? & ? & _). congruence.
Qed.

(** A request becomes a transfer, unless libcurl declines it. *)
Lemma query_posts tcp addr q s :
  upstream s -> bootstrapped (world s) -> DNS_HEADER_LENGTH <= zlen q -> (tcp = true -> on = true) ->
  wp (dns_server_cb debug tcp addr q) s
    (fun s' _ => exists id, dns_id q = Some id /\
       let c' := p_https (world s') in
       ((exists p h x os now, fetches c' = Some p /\ fetch_heap c' !! p = Some x /\ curl x = Some h /\
          cb_data x = Some (request_of (world s) tcp addr q now id) /\ easy c' !! h = Some os /\
          transfer_events (trace s') = transfer_events (trace s) ++ [(id, None)] /\
          [CURLOPT_POSTFIELDS q; CURLOPT_POSTFIELDSIZE (zlen q); CURLOPT_URL (app_url (p_app (world s)));
           CURLOPT_RESOLVE (resolv (p_app (world s)))] ⊆ os) \/
        declined id s s'))
    (fun _ r => may_stop debug r).
Proof.
  intros Hu Hb Hl Hon. destruct (dns_id_Some q Hl) as (hi & lo & _ & _ & Hid).
  apply (query_taken tcp addr q _ s _ Hu Hb Hid). intros s1 now Ht.
  destruct (tallied_world _ _ Ht) as (Hp1 & Hh1 & Hr1 & He1).
  destruct (up_client _ Hu) as (ls & (Htr & Hbal & _) & Hll & Hhl).
  eapply wp_mono; [apply (client_fetch_ok (same_tcp (rest (world s)) (p_tcp (world s))) debug (request_ok stats on)
      (fun _ => False) true https_resp_cb ls) | |by intros ?? [?|[]]].
  - change (part https_t s) with (p_https (world s)) in Htr.
    split; [by rewrite <-Hh1 in Htr|]. split; [|done]. unfold balanced in *. rewrite He1.
    change (part https_t s1) with (p_https (world s1)). rewrite Hh1. exact Hbal.
  - change (part https_t s1) with (p_https (world s1)). by rewrite Hh1.
  - change (part https_t s1) with (p_https (world s1)). by rewrite Hh1.
  - change (part https_t s1) with (p_https (world s1)). rewrite Hh1. apply Hu.
  - by apply request_of_ok.
  - intros s' u (_ & _ & _ & Hcase). eexists. split; [exact Hid|]. cbv zeta. destruct Hcase as [Hp|[Hdecl _]].
    + left. destruct Hp as (p & Hok' & Ht' & h & x & vs & Hx & Hc & Hi & Hd & Hvs & Hos).
      exists p, h, x. eexists. exists now. split.
      { pose proof (tr_chain _ _ _ _ (proj1 Hok')) as Hch. by inversion Hch. }
      split; [done|]. split; [done|]. split; [done|]. split; [exact Hos|]. split; [by rewrite Ht', He1|].
      etrans; [|apply fetch_options_has]. intros o. rewrite !elem_of_cons. tauto.
    + right. destruct Hdecl as [? (es & Hes & Hin)]. split; [done|]. exists es. by rewrite Hes, He1.
Qed.

(** C3: a request reaches the resolver as it came.  Once bootstrapped, a DNS message
    of either server is posted unchanged to the configured URL with the known
    addresses in a new transfer, which remembers whom to answer: the server, the
    client's address and the identifier of the message.  The one alternative is
    that libcurl refuses the new transfer with an error: then the request has
    been taken and closed at once without a reply. *)
Theorem query_posted tcp addr q s :
  upstream s -> bootstrapped (world s) -> DNS_HEADER_LENGTH <= zlen q -> (tcp = true -> on = true) ->
  wp (dns_server_cb debug tcp addr q) s
    (fun s' _ => exists id, dns_id q = Some id /\
       let c' := p_https (world s') in
       ((exists p h x os now, fetches c' = Some p /\ fetch_heap c' !! p = Some x /\ curl x = Some h /\
          cb_data x = Some (request_of (world s) tcp addr q now id) /\ easy c' !! h = Some os /\
          transfer_events (trace s') = transfer_events (trace s) ++ [(id, None)] /\
          [CURLOPT_POSTFIELDS q; CURLOPT_POSTFIELDSIZE (zlen q); CURLOPT_URL (app_url (p_app (world s)));
           CURLOPT_RESOLVE (resolv (p_app (world s)))] ⊆ os) \/
        declined id s s'))
    (fun _ r => may_stop debug r).
Proof. apply query_posts. Qed.

End Requests.

(** The request callback keeps its promise to the TCP server. *)
#[export] Instance dns_server_cb_contract `{Env} `{!OrderlyCurl} `{!AresDns} debug stats r :
  ReqCallback (may_stop debug) (upstream_in debug stats true r) (dns_server_cb debug).
Proof. intros tcp addr q s Hu Hl. by apply query_run. Qed.

(** The address of a request, as it comes back. *)
Lemma storage_roundtrip (addr : sockaddr) n :
  zlen addr = n -> n <= 128 -> ztake n (sockaddr_storage (ztake n addr)) = addr.
Proof.
  intros Hn Hle. rewrite (ztake_all n addr) by lia. unfold sockaddr_storage.
  pose proof (zlen_nonneg addr). rewrite ztake_ztake by lia. by rewrite ztake_app_exact.
Qed.

(** C7: the way back leads to the sender.  When a UDP request is posted, what the
    transfer keeps for its callback is enough to answer it: whenever the callback
    is then called with a reply that has the identifier of the request, exactly
    one datagram with the reply or its truncated form is handed to the kernel,
    for the very address the request came from, be it IPv4 or IPv6, and it is
    sent if the kernel takes it. *)
Theorem reply_to_sender `{Env} `{!OrderlyCurl} `{!AresDns} `{!AresLaws} `{!SaneSend} debug stats on (addr : sockaddr) q
    (s : sys proxy_t) :
  upstream debug stats on s -> bootstrapped (world s) -> DNS_HEADER_LENGTH <= zlen q ->
  zlen addr = app_addrlen (p_app (world s)) -> zlen addr <= 128 ->
  wp (dns_server_cb debug false addr q) s
    (fun s1 _ => exists id, dns_id q = Some id /\
       ((exists p x, fetches (p_https (world s1)) = Some p /\ fetch_heap (p_https (world s1)) !! p = Some x /\
          forall s2 body, zlen addr = addrlen (p_udp (world s2)) ->
            DNS_HEADER_LENGTH <= zlen body <= DOH_MAX_RESPONSE_SIZE -> dns_id body = Some id ->
            wp (https_resp_cb (cb_data x) (Some (body ++ [x00])) (zlen body)) s2
              (fun s3 _ => exists dgram, fair_datagram q body dgram /\
                 attempted (sock (p_udp (world s2))) dgram addr (trace s2) (trace s3))
              (fun _ r => stats = true /\ r = Fault BadConversion)) \/
        declined id s s1))
    (fun _ r => may_stop debug r).
Proof.
  intros Hu Hb Hl Hw H128. eapply wp_mono; [by apply (query_posts debug stats on false addr q s Hu Hb Hl)| |done].
  intros s1 u (id & Hid & Hcase). exists id. split; [done|]. destruct Hcase as [Hp|Hd]; [left|by right].
  destruct Hp as (p & h & x & os & now & Hf & Hx & _ & Hd & _). exists p, x. split; [done|]. split; [done|].
  intros s2 body Hua Hmax Hbid. rewrite Hd.
  assert (answers (request_of stats (world s) false addr q now id) body = true) as Hans
    by (apply andb_true_iff; split; [lia|by apply bool_decide_eq_true]).
  eapply wp_mono; [apply (reply_run _ body []); [done|done|lia]| |done].
  intros s3 u3 [_ Hdel]. rewrite Hans in Hdel. destruct Hdel as (_ & dgram & Hfair & Hs). exists dgram. split; [exact Hfair|].
  cbn [req_raddr request_of] in Hs. by rewrite <-Hua, <-Hw, storage_roundtrip in Hs.
Qed.

(** ** New addresses *)

(** The text in use for the resolver, and the addresses in such a text. *)
Definition known_list (w : proxy_t) : option (list byte) :=
  l ← resolv (p_app w); v ← slists (p_https w) !! l; head v.
Definition addresses_of (text : list byte) : option (list byte) :=
  (fun i => drop (i + length PORT_MARK) text) <$> strstr text PORT_MARK.

(** Every address in use is in the new list. *)
Definition unchanged (known : option (list byte)) (addr_list : list byte) : bool :=
  match known ≫= addresses_of with
  | Some old => bool_decide (missing (S (length old)) addr_list old = None)
  | None => false
  end.

Lemma resolv_text_whole host l :
  zlen host <= 254 -> zlen l < POLLER_ADDR_LIST_SIZE -> resolv_text host l = host ++ PORT_MARK ++ l.
Proof.
  intros Hh Hl. unfold resolv_text, snprintf_text, RESOLV_SIZE, POLLER_ADDR_LIST_SIZE in *.
  assert (zlen PORT_MARK = 5) as Hm by done. rewrite zlen_app, Hm.
  rewrite !ztake_all by (rewrite ?zlen_app; lia). by rewrite app_assoc.
Qed.

(** What is remembered is what was given. *)
Lemma addresses_of_text host l : x3a ∉ host -> addresses_of (host ++ PORT_MARK ++ l) = Some l.
Proof.
  intros Hc. assert (strstr (host ++ PORT_MARK ++ l) PORT_MARK = Some (length host)) as Hs.
  { induction host as [|b host IH]; [by destruct l|]. apply not_elem_of_cons in Hc as [Hb Hc].
    cbn [app strstr]. replace (starts_with PORT_MARK (b :: host ++ PORT_MARK ++ l)) with false.
    - by rewrite IH.
    - symmetry. apply andb_false_iff. left. apply bool_decide_eq_false. done. }
  unfold addresses_of. rewrite Hs. cbn [fmap option_fmap option_map]. f_equal.
  rewrite app_assoc, drop_app_ge by (rewrite length_app; lia). rewrite length_app.
  by replace (_ - _)%nat with 0%nat by lia.
Qed.

(** The parts that a new address leaves alone. *)
Definition around (w : proxy_t) :=
  (p_logging w, p_udp w, p_tcp w, p_loop w, with_called_once false (with_resolv NULL (p_app w))).

Section Addresses.
Context `{Env} `{!OrderlyCurl} `{!AresDns} (debug stats on HAS_LIBSYSTEMD : bool).
Implicit Types (s : sys proxy_t).

(** The service manager is told; only that is remembered. *)
Definition notified s s' : Prop :=
  (exists b, world s' = set_view (with_called_once b (p_app (world s))) (world s)) /\
  transfer_events (trace s') = transfer_events (trace s).

Lemma notified_refl s : notified s s.
Proof. split; [|done]. exists (called_once (p_app (world s))). by destruct (world s) as [?????? [] ?]. Qed.

Lemma notified_log s s' level fmt :
  notified s s' -> notified s (Sys (world s') (environment s') (trace s' ++ [Logged level fmt])).
Proof. intros [Hw Ht]. split; [done|]. cbn [trace]. by rewrite transfer_events_app, app_nil_r. Qed.

Lemma systemd_notify_run s : wp (systemd_notify_ready HAS_LIBSYSTEMD) s (fun s' _ => notified s s') (fun _ _ => False).
Proof.
  unfold systemd_notify_ready. destruct HAS_LIBSYSTEMD; [|apply wp_log, notified_log, notified_refl].
  apply wp_bind, wp_get. destruct (called_once (part app_state_t s)); [apply wp_log, notified_log, notified_refl|].
  apply wp_bind, wp_modify. apply wp_bind, wp_perform. intros r e _.
  assert (notified s (Sys (set_view (with_called_once true (part app_state_t s)) (world s)) e (trace s))) as Hn
    by (split; [by exists true|done]).
  destruct (0 <? r); [by apply wp_log, (notified_log _ _ _ _ Hn)|]. destruct (r =? 0); by apply wp_log, (notified_log _ _ _ _ Hn).
Qed.

Lemma addresses_kept_run known l s :
  wp (addresses_kept known l) s (fun s' b => b = unchanged known l /\ hushed s s') (fun _ _ => False).
Proof.
  unfold addresses_kept, unchanged, addresses_of. destruct known as [text|]; [|by apply wp_ret].
  cbn [mbind option_bind]. destruct (strstr text PORT_MARK) as [i|]; [|by apply wp_ret]. cbn [fmap option_fmap option_map].
  apply wp_bind. unfold addr_list_reduced. destruct (missing _ _ _) as [msg|] eqn:E.
  - apply wp_bind, wp_log, wp_ret, wp_ret. split; [done|]. apply hushed_log.
  - apply wp_ret, wp_ret. by rewrite bool_decide_eq_true_2.
Qed.

(** libcurl reports that it has no memory for a list. *)
Definition no_list_memory : Prop := exists e, fst (answer Curl_slist_append e) = None.

(** A new list of strings, unless there is no memory. *)
Lemma slist_new_run v s Φ Ψ :
  (forall e l sl, (l = NULL /\ sl = slists (p_https (world s))) \/
     (exists q, l = Some q /\ slists (p_https (world s)) !! q = None /\ sl = <[q := [v]]> (slists (p_https (world s)))) ->
     (l = NULL -> no_list_memory) ->
     Φ (Sys (set_view (with_slists sl (p_https (world s))) (world s)) e (trace s)) l) ->
  wp (curl_slist_append (D := option request_t) NULL v) s Φ Ψ.
Proof.
  intros HΦ. unfold curl_slist_append. apply wp_bind, wp_perform. intros [hint|] e Ha.
  - apply wp_bind, wp_get, wp_bind, wp_put, wp_ret. apply HΦ; [|done]. right. eexists. split; [done|]. split; [|done].
    apply place_fresh.
  - assert no_list_memory as Hno by (eexists; by rewrite Ha).
    apply wp_ret. specialize (HΦ e NULL _ (or_introl (conj eq_refl eq_refl)) (fun _ => Hno)).
    by destruct s as [[?? [] ?????] ? ?].
Qed.

Lemma resolv_data_run l s (k : option (list byte) -> M proxy_t unit) Φ Ψ :
  list_ok (p_https (world s)) l ->
  wp (k (q ← l; v ← slists (p_https (world s)) !! q; head v)) s Φ Ψ -> wp (resolv_data l ≫= k) s Φ Ψ.
Proof.
  intros Hl Hk. apply wp_bind. unfold resolv_data. destruct l as [l|]; [|by apply wp_ret].
  apply wp_bind, wp_get. change (part https_t s) with (p_https (world s)). cbn [mbind option_bind] in Hk.
  destruct (Hl l eq_refl) as [v Hv]. rewrite Hv in Hk |- *. by apply wp_ret.
Qed.

(** The list [old] is replaced by a new one. *)
Definition without_list (old : ptr) (c : https_t) := match old with Some q => delete q (slists c) | None => slists c end.

Lemma relisted (c : https_t) old l sl v :
  header_live c -> (forall q, old = Some q -> header_list c <> Some q) ->
  (l = NULL /\ sl = without_list old c) \/
  (exists q, l = Some q /\ without_list old c !! q = None /\ sl = <[q := [v]]> (without_list old c)) ->
  (forall q, header_list c = Some q -> is_Some (sl !! q)) /\ (forall q, l = Some q -> sl !! q = Some [v]) /\
  (forall q, l = Some q -> header_list c <> Some q).
Proof.
  intros Hh Ha Hl.
  assert (forall q, header_list c = Some q -> is_Some (without_list old c !! q)) as Hd.
  { intros q Hq. unfold without_list. destruct old as [o|]; [|by apply Hh].
    rewrite lookup_delete_ne; [by apply Hh|]. intros ->. by apply (Ha q). }
  destruct Hl as [[-> ->]|(q & -> & Hq & ->)]; [done|]. split; [|split].
  - intros q' Hq'. destruct (decide (q' = q)) as [->|]; [rewrite lookup_insert_eq; by eexists|].
    rewrite lookup_insert_ne by done. by apply Hd.
  - intros ? [= <-]. by rewrite lookup_insert_eq.
  - intros ? [= <-] Hq'. apply Hd in Hq'. rewrite Hq in Hq'. by destruct Hq'.
Qed.

(** The client starts again with the new addresses. *)
Definition readdressed (text : list byte) s' : Prop :=
  ok (fun _ => True) debug (request_ok stats on) s' [] /\
  match resolv (p_app (world s')) with
  | Some q => slists (p_https (world s')) !! q = Some [text]
  | None => no_list_memory
  end.

Lemma replace_list_run text s :
  upstream debug stats on s ->
  wp (curl_slist_free_all (D := option request_t) (resolv (p_app (world s))) ;;
      l ← curl_slist_append (D := option request_t) NULL text;
      modify (with_resolv l) ;;
      https_client_reset https_resp_cb debug) s
    (fun s' _ => upstream debug stats on s' /\ around (world s') = around (world s) /\
       p_poller (world s') = p_poller (world s) /\ readdressed text s') (fun _ r => may_stop debug r).
Proof.
  intros [(ls & (Htr & Hb & _) & _ & Hh) Hl Ha Hst Hon].
  apply wp_bind, (free_all_run (same_tcp (rest (world s)) (p_tcp (world s)))); [exact Hl|].
  intros s1 Hp1 Ht1 HJ1. destruct (HJ1 ltac:(done)) as [Hr1 Hd1]. change (part https_t s1) with (p_https (world s1)) in Hp1.
  change (part https_t s) with (p_https (world s)) in Hp1. fold (without_list (resolv (p_app (world s))) (p_https (world s))) in Hp1.
  apply wp_bind, slist_new_run. rewrite Hp1. cbn [slists with_slists]. intros e l sl Hnew Hno.
  destruct (relisted (p_https (world s)) _ l sl text Hh Ha Hnew) as (Hh2 & Hl2 & Ha2).
  apply wp_bind, wp_modify. unfold part. cbn [world trace environment]. set (s2 := Sys _ e (trace s1)).
  assert (p_https (world s2) = with_slists sl (p_https (world s))) as Hp2 by done.
  assert (p_app (world s2) = with_resolv l (p_app (world s))) as Ha2'
    by (change (p_app (world s2)) with (with_resolv l (p_app (world s1))); f_equal; unfold rest in Hr1; congruence).
  assert (around (world s2) = around (world s) /\ p_poller (world s2) = p_poller (world s)) as [Har2 Hpo2].
  { injection Hr1 as Hlo Hud Hpo Hap Hlp. split; [|exact Hpo].
    unfold around. rewrite Ha2', <-Hd1, <-Hlo, <-Hud, <-Hlp. done. }
  eapply wp_mono; [apply (client_reset_ok (same_tcp (rest (world s2)) (p_tcp (world s2))) debug (request_ok stats on)
      (fun _ => False) true https_resp_cb ls) | |by intros ?? [?|[]]].
  { split; [by apply (transfers_with_slists debug (request_ok stats on) (p_https (world s)))|].
    split; [|done]. unfold balanced in *. change (trace s2) with (trace s1). by rewrite Ht1. }
  intros s3 u ((Htr3 & Hb3 & Hr3 & Hd3) & Hsl3 & Hhd3 & _).
  change (part https_t s3) with (p_https (world s3)) in *. change (part https_t s2) with (p_https (world s2)) in *.
  rewrite Hp2 in Hsl3, Hhd3. cbn in Hsl3, Hhd3.
  assert (p_app (world s3) = with_resolv l (p_app (world s))) as Ha3 by (unfold rest in Hr3; congruence).
  split; [split|split; [|split; [|split]]].
  - exists []. split; [by split|]. split; [by eapply idle_lists, transfers_idle|].
    intros q. change (part https_t s3) with (p_https (world s3)). rewrite Hhd3, Hsl3. apply Hh2.
  - rewrite Ha3. intros q Hq. rewrite Hsl3. by rewrite (Hl2 q Hq).
  - rewrite Ha3, Hhd3. exact Ha2.
  - by rewrite Ha3.
  - by rewrite Ha3.
  - rewrite <-Har2. unfold around, rest in *. congruence.
  - rewrite <-Hpo2. unfold rest in Hr3. congruence.
  - by split.
  - rewrite Ha3, Hsl3. cbn [resolv with_resolv]. destruct l as [q|]; [by apply Hl2|by apply Hno].
Qed.

Lemma notified_upstream s s' : notified s s' -> upstream debug stats on s ->
  upstream debug stats on s' /\ around (world s') = around (world s) /\ p_poller (world s') = p_poller (world s) /\
  p_https (world s') = p_https (world s) /\ resolv (p_app (world s')) = resolv (p_app (world s)).
Proof.
  intros [[b Hw] Ht] Hu. rewrite Hw. split; [|done]. destruct Hu.
  split; [by eapply healthy_with; [unfold part; by rewrite Hw| | |]|by rewrite Hw..].
Qed.

Lemma hushed_notified s s' s2 : notified s s' -> hushed s' s2 -> notified s s2.
Proof. intros [Hw Ht] (Hw' & Ht' & _). split; [by rewrite Hw'|congruence]. Qed.

(** What a new answer of the bootstrap resolver does: the client goes on as it is
    or starts again with the new addresses. *)
Lemma poll_run host addr_list s :
  upstream debug stats on s ->
  wp (dns_poll_cb debug HAS_LIBSYSTEMD host (Some addr_list)) s
    (fun s' _ => upstream debug stats on s' /\ around (world s') = around (world s) /\
       p_poller (world s') = p_poller (world s) /\
       if unchanged (known_list (world s)) addr_list
       then p_https (world s') = p_https (world s) /\ resolv (p_app (world s')) = resolv (p_app (world s))
       else zlen host <= 254 /\ readdressed (resolv_text host addr_list) s')
    (fun _ r => may_stop debug r).
Proof.
  intros Hu. unfold dns_poll_cb. apply wp_bind, wp_get. apply wp_bind.
  destruct (254 <? zlen host) eqn:Eh; bool_facts; [apply wp_flog; by left|]. apply wp_ret, wp_bind.
  change (part app_state_t s) with (p_app (world s)).
  apply wp_mono with (Φ := fun s1 _ => notified s s1) (Ψ := fun _ _ => False); [| |done].
  { destruct (bool_decide _); [apply systemd_notify_run|apply wp_ret, notified_refl]. }
  intros s1 _ Hn1. destruct (notified_upstream _ _ Hn1 Hu) as (Hu1 & _ & _ & Hh1 & Hr1).
  rewrite <-Hr1. apply resolv_data_run; [apply Hu1|]. fold (known_list (world s1)).
  replace (known_list (world s1)) with (known_list (world s)) by (unfold known_list; by rewrite Hh1, Hr1).
  apply wp_bind. eapply wp_mono; [apply addresses_kept_run| |done]. intros s2 b [-> Hh2].
  pose proof (hushed_notified _ _ _ Hn1 Hh2) as Hn2.
  destruct (unchanged _ _).
  { apply wp_bind, wp_log, wp_emit.
    pose proof (hushed_notified _ _ _ Hn2 (hushed_log LOG_DEBUG "DNS server IP address unchanged (%s)." s2)) as Hn3.
    pose proof (hushed_notified _ _ _ Hn3 (hushed_freed addr_list _)) as Hn4.
    destruct (notified_upstream _ _ Hn4 Hu) as (? & ? & ? & ? & ?). do 4 (split; [done|]). by rewrite Hr1. }
  apply wp_bind, wp_emit, wp_bind, wp_log. set (s4 := Sys _ _ _).
  assert (notified s s4) as Hn4.
  { eapply hushed_notified; [eapply hushed_notified; [exact Hn2|apply hushed_freed]|apply hushed_log]. }
  destruct (notified_upstream _ _ Hn4 Hu) as (Hu4 & Har4 & Hpo4 & _ & Hr4).
  replace (resolv (p_app (world s1))) with (resolv (p_app (world s4))) by congruence.
  eapply wp_mono; [by apply replace_list_run| |done]. intros s5 u (? & Har & Hpo & Hnew).
  split; [done|]. split; [congruence|]. split; [congruence|]. done.
Qed.

(** The way to the resolver, with all that a new address leaves alone. *)
Definition addressing r s : Prop := upstream debug stats on s /\ around (world s) = r.

#[export] Instance addressing_poller r : Framed dns_poller_t (addressing r).
Proof.
  intros s s' [Hw Ht] [Hu Hr]. split; [|by rewrite Hw].
  eapply upstream_frame; [| |exact Ht|exact Hu]; by rewrite Hw.
Qed.

(** The poll callback keeps its promise to the poller. *)
#[export] Instance dns_poll_cb_contract r :
  PollCallback (may_stop debug) (addressing r) (dns_poll_cb debug HAS_LIBSYSTEMD).
Proof.
  intros host l s [Hu Hr]. eapply wp_mono; [by apply poll_run| |done].
  intros s' u (Hu' & Har & Hpo & _). split; [exact Hpo|]. split; [done|congruence].
Qed.

(** The addresses in use: none yet, or those of an entry made from a host name
    and a list of addresses. *)
Definition in_use (w : proxy_t) (ots : option (list (list byte))) : Prop :=
  match ots with
  | None => known_list w = None
  | Some ts => exists host, known_list w = Some (host ++ PORT_MARK ++ join ts) /\ (x3a ∉ host) /\ Forall address ts
  end.

(** The code's comparison, in terms of the addresses. *)
Lemma unchanged_spec w ots ts :
  in_use w ots -> ts <> [] -> Forall address ts ->
  if unchanged (known_list w) (join ts)
  then exists old, ots = Some old /\ Forall (fun t => t ∈ ts) old
  else forall old, ots = Some old -> ~ Forall (confirmed ts) old.
Proof.
  intros Hin Hne Hts. unfold unchanged.
  assert (entries (join ts) = ts) as He by (apply entries_join; [done|]; eapply Forall_impl; [exact Hts|by intros t (_ & ? & _)]).
  destruct ots as [old|]; cbn [in_use] in Hin; [|by rewrite Hin].
  destruct Hin as (host & -> & Hc & Hold). cbn [mbind option_bind]. rewrite addresses_of_text by done.
  destruct (bool_decide _) eqn:E; [apply bool_decide_eq_true in E|apply bool_decide_eq_false in E].
  - exists old. split; [done|]. rewrite <-He. eapply missing_sound; [done| |exact E]. lia.
  - intros ? [= <-] Hall. apply E, missing_complete; [done|lia|]. by rewrite He.
Qed.

(** C5: new addresses of the resolver take effect whole, and only when needed.
    The client goes on undisturbed only if every address in use is in the new
    list, and it does so whenever each of them is there and is not also part of a
    longer one (the comparison may take an address inside another for it, and
    then starts again needlessly).  In all other cases, the first answer
    included, every transfer is closed, and the entry libcurl gets from now on is
    "host:443:addresses" with no byte cut off, so that the new addresses are the
    ones in use for the next comparison; only if libcurl has no memory for the
    entry there is none, and requests are refused again.  No other part of the
    program is touched. *)
Theorem poll_update host ots ts s :
  upstream debug stats on s -> in_use (world s) ots -> zlen host <= 254 -> (x3a ∉ host) ->
  ts <> [] -> Forall address ts -> zlen (join ts) < POLLER_ADDR_LIST_SIZE ->
  wp (dns_poll_cb debug HAS_LIBSYSTEMD host (Some (join ts))) s
    (fun s' _ => upstream debug stats on s' /\ around (world s') = around (world s) /\
       p_poller (world s') = p_poller (world s) /\
       ((exists old, ots = Some old /\ Forall (fun t => t ∈ ts) old /\
           p_https (world s') = p_https (world s) /\ resolv (p_app (world s')) = resolv (p_app (world s))) \/
        ((forall old, ots = Some old -> ~ Forall (confirmed ts) old) /\ fetch_heap (p_https (world s')) = ∅ /\
         ((known_list (world s') = Some (host ++ PORT_MARK ++ join ts) /\ in_use (world s') (Some ts)) \/
          (resolv (p_app (world s')) = NULL /\ no_list_memory)))))
    (fun _ r => may_stop debug r).
Proof.
  intros Hu Hin Hh Hc Hne Hts Hl. eapply wp_mono; [by apply poll_run| |done].
  pose proof (unchanged_spec (world s) ots ts Hin Hne Hts) as Hsp.
  intros s' u (Hu' & Har & Hpo & Hcase). do 3 (split; [done|]). destruct (unchanged _ _).
  { left. destruct Hsp as (old & -> & Hold). by exists old. }
  right. destruct Hcase as (_ & (Htr & _) & Hq). rewrite resolv_text_whole in Hq by done.
  split; [done|]. split; [by eapply idle_heap, transfers_idle|].
  destruct (resolv (p_app (world s'))) as [q|] eqn:Er; [left|by right].
  assert (known_list (world s') = Some (host ++ PORT_MARK ++ join ts)) as Hk.
  { unfold known_list. rewrite Er. cbn [mbind option_bind]. by rewrite Hq. }
  split; [done|]. by exists host.
Qed.

End Addresses.

(** ** A run

    The proxy over the resolver of [HttpsTransfers], with UDP only; [booting]
    waits for the bootstrap resolver, [booted] knows an address. *)

Definition lab_tcp : dns_server_tcp_s := TcpServer 5 16 true 0 0 20 NULL ∅.
Definition lab_memory (poller : bool) : proxy_t :=
  Proxy initial_logging (Stat 0 false 0 0 0 0 0 0 0 0 0 0 0 0 0)
    (Client Multi_null NULL NULL None [] 0 options_init false false ∅ ∅ ∅)
    (DnsServer 4 16 true) lab_tcp
    (Poller (to_bytes "dns.google") AF_UNSPEC 120 false None None)
    (AppState NULL "https://dns.google/dns-query" false poller 16 false false) (Loop true true true false).

Lemma lab_serves : serves lab_tcp [].
Proof. by split; cbn; [apply chain_nil| | | | | |]. Qed.

Abbreviation lab_sys := (@sys resolver proxy_t).
Definition booting (poller : bool) : lab_sys :=
  @state_after proxy_t resolver
    (@https_client_init (option request_t) resolver proxy_t _ options_init false (@Sys resolver proxy_t (lab_memory poller) tt [])).

Lemma lab_send : @SaneSend resolver.
Proof. intros fd data e n [= <-]. split; [apply zlen_nonneg|done]. Defined.

Lemma booting_upstream poller : @upstream resolver false false false (booting poller).
Proof.
  pose proof (@client_init_run (option request_t) resolver proxy_t _ (fun _ => True) _ false (request_ok false false)
    (fun _ => False) options_init false (@Sys resolver proxy_t (lab_memory poller) tt [])) as Hw.
  unfold wp in Hw. split; [|destruct poller; vm_compute; done..].
  assert (exists s', @https_client_init (option request_t) resolver proxy_t _ options_init false
            (@Sys resolver proxy_t (lab_memory poller) tt []) = Ok s' tt) as [s' Hs]
    by (eexists; vm_compute; reflexivity).
  unfold booting. rewrite Hs in Hw |- *. apply Hw; [discriminate|by split|constructor|exact I].
Qed.

Definition lab_request : request_t := Request false query 12 false (double_of_Z 0) 7 [x02].
Definition lab_reply : list byte := sample_response1 ++ sample_response2.

Lemma reply_routed_witness :
  answers lab_request lab_reply = true /\
  @wp resolver proxy_t unit (@https_resp_cb resolver toy_ares (Some lab_request) (Some (lab_reply ++ [x00])) 12) (booting false)
    (fun s' _ => @udp_delivery resolver toy_ares lab_request lab_reply (booting false) s') (fun _ r => false = true /\ r = Fault BadConversion).
Proof.
  split; [vm_compute; reflexivity|]. eapply wp_mono.
  - apply (@reply_routed resolver toy_ares toy_laws lab_send lab_request lab_reply [] (booting false));
      [exact lab_serves|reflexivity|discriminate].
  - intros s' u [_ Hd]. exact Hd.
  - done.
Defined.

Lemma query_before_bootstrap_witness :
  @dns_server_cb resolver toy_ares false false [x02] query (booting true) =
    @Ok resolver proxy_t unit (@Sys resolver proxy_t (@world resolver proxy_t (booting true)) tt
      (@trace resolver proxy_t (booting true) ++
        [Logged LOG_DEBUG "Received request for id: %hX, len: %d";
         Logged LOG_WARNING "%04hX: Query received before bootstrapping is completed, discarding."; Freed query])) tt.
Proof.
  apply (@query_before_bootstrap resolver false false false toy_ares false [x02] query (booting true) (booting_upstream true));
    vm_compute; try reflexivity; discriminate.
Defined.

Lemma query_posted_witness :
  @wp resolver proxy_t unit (@dns_server_cb resolver toy_ares false false [x02] query) (booting false)
    (fun s' _ => (exists p h x os now, fetch_heap (p_https (@world resolver proxy_t s')) !! p = Some x /\ curl x = Some h /\
         cb_data x = Some (request_of false (@world resolver proxy_t (booting false)) false [x02] query now 7) /\
         easy (p_https (@world resolver proxy_t s')) !! h = Some os /\ CURLOPT_POSTFIELDS query ∈ os) \/
       @declined resolver proxy_t 7 (booting false) s')
    (fun _ r => may_stop false r).
Proof.
  eapply wp_mono.
  - apply (@query_posted resolver _ false false false toy_ares false [x02] query (booting false)
      (booting_upstream false)); [|discriminate|discriminate].
    intros Hd. vm_compute in Hd. discriminate Hd.
  - intros s' u (id & [= <-] & [(p & h & x & os & now & _ & Hx & Hc & Hd & He & _ & Hsub)|Hcase]); [|by right].
    left. exists p, h, x, os, now. do 4 (split; [done|]). apply Hsub, elem_of_cons. by left.
  - done.
Defined.

Lemma poll_update_witness :
  @wp resolver proxy_t unit (@dns_poll_cb resolver toy_ares false true (to_bytes "dns.google") (Some (join [ip_a; ip_b])))
    (booting true)
    (fun s' _ => known_list (@world resolver proxy_t s') = Some (to_bytes "dns.google" ++ PORT_MARK ++ join [ip_a; ip_b]) \/
       @no_list_memory resolver) (fun _ r => may_stop false r).
Proof.
  eapply wp_mono.
  - apply (@poll_update resolver _ toy_ares false false false true (to_bytes "dns.google") None [ip_a; ip_b] (booting true)
      (booting_upstream true)); [vm_compute; reflexivity|discriminate| |discriminate| |reflexivity].
    + apply (bool_decide_unpack _). vm_compute. exact I.
    + repeat constructor; try discriminate; try (vm_compute; reflexivity); apply (bool_decide_unpack _); vm_compute; exact I.
  - intros s' u (_ & _ & _ & [(old & Hold & _)|(_ & _ & [[Hk _]|[_ Hno]])]); [discriminate Hold|by left|by right].
  - done.
Defined.

Definition client_addr : list byte := x02 :: replicate 15 x07.

Lemma reply_to_sender_witness :
  @wp resolver proxy_t unit (@dns_server_cb resolver toy_ares false false client_addr query) (booting false)
    (fun s1 _ => exists id, dns_id query = Some id /\
       ((exists p x, fetches (p_https (@world resolver proxy_t s1)) = Some p /\
          fetch_heap (p_https (@world resolver proxy_t s1)) !! p = Some x /\
          forall s2 body, zlen client_addr = addrlen (p_udp (@world resolver proxy_t s2)) ->
            DNS_HEADER_LENGTH <= zlen body <= DOH_MAX_RESPONSE_SIZE -> dns_id body = Some id ->
            @wp resolver proxy_t unit (@https_resp_cb resolver toy_ares (cb_data x) (Some (body ++ [x00])) (zlen body)) s2
              (fun s3 _ => exists dgram, @fair_datagram toy_ares query body dgram /\
                 @attempted resolver (sock (p_udp (@world resolver proxy_t s2))) dgram client_addr
                   (@trace resolver proxy_t s2) (@trace resolver proxy_t s3))
              (fun _ r => false = true /\ r = Fault BadConversion)) \/
        @declined resolver proxy_t id (booting false) s1))
    (fun _ r => may_stop false r).
Proof.
  apply (@reply_to_sender resolver _ toy_ares toy_laws lab_send false false false client_addr query (booting false)
    (booting_upstream false)); [intros Hd; vm_compute in Hd; discriminate Hd|vm_compute; try reflexivity; discriminate..].
Defined.
