(* ===== verification/System.v ===== *)
(** * The running proxy

    [main] puts the parts together and the event loop runs the callbacks of
    their watchers.  The states the proxy goes through keep every part
    consistent ([running]), whatever libcurl, c-ares, the clients and the kernel
    do and in whatever order the loop runs the callbacks: the invariants of the
    parts hold together, because the callbacks between the parts keep the
    promises of [ReqCallback], [RespCallback] and [PollCallback]. *)

From Stdlib Require Import ZArith Lia String Strings.Byte.
From stdpp Require Import base tactics list option gmap strings.
From S2P Require Import Prelude Effects HeapList RingBuffer Stat Logging Options DnsServer DnsServerTcp TcpClients.
From S2P Require Import IoEvents DnsPoller AddrList HttpsClient HttpsTransfers Main Callbacks.

Open Scope Z_scope.

(** ** The invariant *)

Section Invariant.
Context `{Env} (debug stats on : bool).
Implicit Types (s : sys proxy_t).

(** The servers and the client work together. *)
Record serving s : Prop := {
  srv_upstream : upstream debug stats on s;
  srv_tcp : on = true -> tcp_ok (world s)
}.

(** A poller in use watches its sockets and will run again. *)
Definition poller_ok (w : proxy_t) : Prop :=
  using_dns_poller (p_app w) = true -> watching (p_poller w) /\ is_Some (timer (p_poller w)).

Definition running s : Prop := serving s /\ poller_ok (world s).

Lemma serving_frame s s' :
  p_https (world s') = p_https (world s) -> p_app (world s') = p_app (world s) -> p_tcp (world s') = p_tcp (world s) ->
  transfer_events (trace s') = transfer_events (trace s) -> serving s -> serving s'.
Proof.
  intros Hh Ha Ht He [Hu Hs]. split; [by eapply upstream_frame|]. intros Hon. unfold tcp_ok. rewrite Ht. by apply Hs.
Qed.

Lemma running_frame s s' :
  p_https (world s') = p_https (world s) -> p_app (world s') = p_app (world s) -> p_tcp (world s') = p_tcp (world s) ->
  p_poller (world s') = p_poller (world s) ->
  transfer_events (trace s') = transfer_events (trace s) -> running s -> running s'.
Proof.
  intros Hh Ha Ht Hp He [Hs Hpo]. split; [by eapply serving_frame|]. unfold poller_ok. by rewrite Ha, Hp.
Qed.

(** Steps within the other parts. *)
#[export] Instance serving_poller : Framed dns_poller_t serving.
Proof. intros s s' [Hw Ht]. apply serving_frame; [by rewrite Hw..|done]. Qed.
#[export] Instance running_stat : Framed stat_t running.
Proof. intros s s' [Hw Ht]. apply running_frame; [by rewrite Hw..|done]. Qed.
#[export] Instance running_udp : Framed dns_server_s running.
Proof. intros s s' [Hw Ht]. apply running_frame; [by rewrite Hw..|done]. Qed.
#[export] Instance running_loop : Framed loop_t running.
Proof. intros s s' [Hw Ht]. apply running_frame; [by rewrite Hw..|done]. Qed.
#[export] Instance running_logging : Framed logging_t running.
Proof. intros s s' [Hw Ht]. apply running_frame; [by rewrite Hw..|done]. Qed.

End Invariant.

(** Computations that stay in one part. *)
Section Within.
Context `{Env}.

Lemma stat_init_stays n : stays (W:=proxy_t) stat_t (stat_init n).
Proof. unfold stat_init. stay stat_t. Qed.
Lemma stat_timer_stays : stays (W:=proxy_t) stat_t stat_timer_cb.
Proof. unfold stat_timer_cb, stat_print. stay stat_t. Qed.
Lemma drop_privileges_stays o : stays (W:=proxy_t) loop_t (drop_privileges o).
Proof. unfold drop_privileges. stay loop_t. Qed.
Lemma get_listen_address_stays a : stays (W:=proxy_t) stat_t (get_listen_address a).
Proof. unfold get_listen_address. stay stat_t. Qed.
Lemma hostname_from_url_stays url n : stays (W:=proxy_t) stat_t (hostname_from_url url n).
Proof. unfold hostname_from_url, is_ipv4_address. stay stat_t. Qed.

Lemma push_back_stays rb data n : stays (W:=proxy_t) logging_t (ring_buffer_push_back rb data n).
Proof. unfold ring_buffer_push_back. stay logging_t. Qed.
Lemma dump_loop_stays fuel : forall rb st i, stays (W:=proxy_t) logging_t (dump_loop fuel rb st i).
Proof. induction fuel as [|fuel IH]; intros rb st i; cbn [dump_loop]; stay logging_t; apply IH. Qed.
Lemma dump_stays rb : stays (W:=proxy_t) logging_t (ring_buffer_dump rb).
Proof. unfold ring_buffer_dump. stay logging_t; apply dump_loop_stays. Qed.
Lemma log_at_stays DEBUG depth : forall file line severity msg, stays (W:=proxy_t) logging_t (log_at DEBUG depth file line severity msg).
Proof.
  induction depth as [|depth IH]; intros file line severity msg; cbn [log_at]; unfold log_deliver;
    stay logging_t; auto using push_back_stays, dump_stays.
Qed.
Lemma logging_events_init_stays DEBUG : stays (W:=proxy_t) logging_t (logging_events_init DEBUG).
Proof. unfold logging_events_init, _log. stay logging_t; apply log_at_stays. Qed.
Lemma logging_dump_stays DEBUG : stays (W:=proxy_t) logging_t (logging_flight_recorder_dump DEBUG).
Proof. unfold logging_flight_recorder_dump, _log. stay logging_t; auto using log_at_stays, dump_stays. Qed.

(** A step within a part, at the start of a computation. *)
Lemma within T `{!Lens proxy_t T} (J : sys proxy_t -> Prop) `{!Framed T J} {A B} (m : M proxy_t A) (k : A -> M proxy_t B) s Φ :
  stays T m -> J s -> (forall s' a, J s' -> wp (k a) s' Φ (fun _ _ => True)) -> wp (m ≫= k) s Φ (fun _ _ => True).
Proof.
  intros Hm HJ Hk. apply wp_bind. eapply (wp_framed T J); [exact Hm|exact HJ|apply Hm| |done].
  intros s' a HJ' _. by apply Hk.
Qed.

(** A computation whose first part does not matter. *)
Lemma afterwards {A B} (m : M proxy_t A) (k : A -> M proxy_t B) s Φ :
  (forall s' a, wp (k a) s' Φ (fun _ _ => True)) -> wp (m ≫= k) s Φ (fun _ _ => True).
Proof. intros Hk. apply wp_bind. unfold wp at 1. destruct (m s); [apply Hk|done]. Qed.

End Within.

(** ** Start-up *)

Section Start.
Context `{Env} `{!AresDns} `{!AresNtop} `{!OrderlyCurl} (debug DEBUG HAS_LIBSYSTEMD : bool).
Implicit Types (s : sys proxy_t).

(** What valid options say of the statistics and of the TCP server. *)
Definition stats_on (o : Options) : bool := negb (Options.stats_interval o =? 0).
Definition tcp_on (o : Options) : bool := 0 <? tcp_client_limit o.
Definition usable (o : Options) : Prop := resolver_url o <> None /\ tcp_client_limit o <= UINT16_MAX.

(** The memory before [main] has started anything. *)
Definition blank s : Prop := no_transfers (p_https (world s)) /\ transfer_events (trace s) = [].

#[export] Instance blank_stat : Framed stat_t blank.
Proof. intros s s' [Hw Ht] [Hn He]. split; [by rewrite Hw|congruence]. Qed.
#[export] Instance blank_loop : Framed loop_t blank.
Proof. intros s s' [Hw Ht] [Hn He]. split; [by rewrite Hw|congruence]. Qed.
#[export] Instance blank_logging : Framed logging_t blank.
Proof. intros s s' [Hw Ht] [Hn He]. split; [by rewrite Hw|congruence]. Qed.

#[export] Instance healthy_stat J `{!Ignores J stat_t} G : Framed stat_t (healthy (D := option request_t) J debug G).
Proof.
  intros s s' [Hw Ht] Hh. apply (healthy_with J J debug G s s'); [by unfold part; rewrite Hw|done| |done].
  rewrite Hw. apply ignores. by eapply healthy_J.
Qed.

Lemma start_poller_run o stats on s :
  running debug stats on s ->
  wp (start_poller HAS_LIBSYSTEMD o) s (fun s' _ => running debug stats on s') (fun _ _ => True).
Proof.
  intros Hs. unfold start_poller. destruct (negb _); [|by apply wp_ret].
  apply (within stat_t (running debug stats on)); [apply hostname_from_url_stays|done|].
  intros s1 [host|] Hs1.
  - apply wp_bind, wp_modify. set (s2 := Sys _ _ _).
    assert (serving debug stats on s2) as Hs2.
    { destruct Hs1 as [[[] Ht] _]. split; [|done]. by split. }
    apply wp_bind. eapply (wp_framed dns_poller_t (serving debug stats on)); [apply init_stays|exact Hs2
      |apply dns_poller_init_run| |done].
    intros s3 u Hs3 [Hw Ht]. apply wp_log. eapply (framed loop_t s3); [by apply own_emit|]. by split; [|intros _].
  - apply (within stat_t (running debug stats on)); [apply stays_log|done|]. intros s2 u Hs2.
    eapply wp_mono; [apply systemd_notify_run| |done]. intros s3 u' Hn.
    destruct Hs2 as [[Hu Ht] Hp]. destruct (notified_upstream _ _ _ _ _ Hn Hu) as (Hu3 & Har & Hpo & Hh & Hr).
    injection Har as Hlo Hud Htc Hlp Happ. split; [split; [done|]|].
    + unfold tcp_ok. rewrite Htc. exact Ht.
    + unfold poller_ok. rewrite Hpo. unfold with_called_once, with_resolv in *. cbn in *. intros Hu'. apply Hp. congruence.
Qed.

(** The TCP server is created, if the options ask for one. *)
Lemma start_tcp_run o ai s :
  usable o -> upstream debug (stats_on o) (tcp_on o) s -> using_dns_poller (p_app (world s)) = false ->
  wp (if 0 <? tcp_client_limit o then dns_server_tcp_create ai (u16 (tcp_client_limit o)) else mret tt) s
    (fun s' _ => running debug (stats_on o) (tcp_on o) s') (fun _ _ => True).
Proof.
  intros [_ Hl] Hu Hd. destruct (0 <? tcp_client_limit o) eqn:E.
  2:{ apply wp_ret. split; [split; [done|]|]; [unfold tcp_on; by rewrite E|]. intros Hp. congruence. }
  assert (0 < u16 (tcp_client_limit o) <= UINT16_MAX) as Hr.
  { bool_facts. unfold UINT16_MAX in *. rewrite wrap_small by lia. lia. }
  eapply wp_mono; [apply (wp_and _ _ _ _ _ _ (create_stays ai (u16 (tcp_client_limit o)) s) (create_run ai _ s Hr))| |done].
  intros s1 u [Hown [Hs _]]. pose proof Hown as [Hw _].
  assert (upstream_in debug (stats_on o) (tcp_on o) (rest (world s)) s1) as [Hu1 Hr1] by (by eapply (framed dns_server_tcp_s s)).
  split; [split; [done|]|].
  - intros _. by exists [].
  - intros Hp. unfold rest in Hr1. injection Hr1 as _ _ _ Happ _. congruence.
Qed.

(** When [main_start] returns, the proxy is running. *)
Lemma main_start_run o s :
  usable o -> blank s ->
  wp (main_start DEBUG HAS_LIBSYSTEMD o) s (fun s' _ => running debug (stats_on o) (tcp_on o) s') (fun _ _ => True).
Proof.
  intros Ho Hb. unfold main_start. fold (stats_on o).
  apply (within stat_t blank); [apply stat_init_stays|done|]. intros s1 _ [Hn1 He1].
  apply wp_bind. eapply wp_mono.
  { apply (client_init_run (fun _ => True) debug (request_ok (stats_on o) (tcp_on o)) (fun _ => False) o (stats_on o) s1);
      [apply Ho|exact Hn1|by rewrite He1|done]. }
  2:{ done. }
  intros s2 u2 Hh2. apply (within stat_t (healthy (fun _ => True) debug (request_ok (stats_on o) (tcp_on o))));
    [apply get_listen_address_stays|done|].
  intros s3 ai Hh3. destruct (resolver_url o) as [url|] eqn:Eu; [|by destruct Ho].
  apply wp_bind, wp_put. set (s4 := Sys _ _ _).
  assert (upstream debug (stats_on o) (tcp_on o) s4) as Hu4.
  { by split. }
  apply wp_bind. eapply wp_mono; [apply udp_init_stays| |done]. intros s5 _ [Hw5 Ht5].
  apply wp_bind. eapply wp_mono; [apply start_tcp_run| |done]; [done| |by rewrite Hw5|].
  { apply (upstream_frame _ _ _ s4); [by rewrite Hw5..|done|done]. }
  intros s6 u6 Hs6.
  apply (within loop_t (running debug (stats_on o) (tcp_on o))); [apply drop_privileges_stays|done|]. intros s7 _ Hs7.
  apply (within loop_t (running debug (stats_on o) (tcp_on o))); [stay loop_t|done|]. intros s8 _ Hs8.
  apply (within loop_t (running debug (stats_on o) (tcp_on o))); [stay loop_t|done|]. intros s9 _ Hs9.
  apply (within logging_t (running debug (stats_on o) (tcp_on o))); [apply logging_events_init_stays|done|]. intros s10 _ Hs10.
  by apply start_poller_run.
Qed.

(** Options that were parsed are usable; the other results end the process. *)
Lemma main_options_run args s :
  blank s -> wp (main_options args) s (fun s' o => blank s' /\ usable o) (fun _ _ => True).
Proof.
  intros Hb. unfold main_options. apply wp_bind.
  eapply (wp_framed loop_t blank); [apply parse_args_stays|exact Hb|apply parse_args_run| |done].
  intros s1 [res o] Hb1 Hok. cbn [fst snd] in Hok. destruct res.
  - apply wp_ret. split; [done|]. destruct (Hok eq_refl) as [Hv _]. destruct (valid_url _ Hv) as [path Hu].
    pose proof (valid_tcp _ Hv) as Ht. split; [congruence|]. unfold MAX_TCP_CLIENTS, UINT16_MAX in *. lia.
  - apply afterwards. done.
  - apply afterwards. intros s2 _. apply afterwards. intros s3 [f|]; repeat (apply afterwards; intros ? _); done.
  - repeat (apply afterwards; intros ? _). done.
  - repeat (apply afterwards; intros ? _). done.
Qed.

Lemma logging_init_stays fd level n : stays (W:=proxy_t) logging_t (logging_init fd level n).
Proof. unfold logging_init, ring_buffer_init. stay logging_t. Qed.
Lemma init_curl_stays : stays (W:=proxy_t) loop_t init_curl.
Proof. unfold init_curl. stay loop_t. Qed.

(** When the start-up part of [main] is over, the proxy is running. *)
Lemma main_init_run args s :
  blank s ->
  wp (main_init DEBUG HAS_LIBSYSTEMD args) s (fun s' o => running debug (stats_on o) (tcp_on o) s') (fun _ _ => True).
Proof.
  intros Hb. unfold main_init. apply wp_bind. eapply wp_mono; [by apply main_options_run| |done].
  intros s1 o [Hb1 Ho]. apply (within logging_t blank); [apply logging_init_stays|done|]. intros s2 _ Hb2.
  do 5 (apply (within loop_t blank); [apply stays_log|done|]; clear dependent s2; intros s2 _ Hb2).
  apply (within loop_t blank); [apply init_curl_stays|done|]. intros s3 _ Hb3.
  apply wp_bind. eapply wp_mono; [by apply main_start_run| |done]. intros s4 u Hs4. by apply wp_ret.
Qed.

End Start.

(** ** The event loop *)

(** The watchers of the proxy. *)
Inductive proxy_event :=
| Udp_readable
| Tcp (ev : tcp_event)
| Https (ev : https_event (D := option request_t))
| Poll_timer
| Poll_socket (fd revents : Z)
| Stats_timer
| Sigpipe
| Shutdown
| Log_flush
| Log_signal
| Log_dump.

(** The loop runs the callbacks of active watchers; responses and fetches are
    calls of the proxy itself. *)
Definition proxy_enabled stats on (w : proxy_t) (ev : proxy_event) : Prop :=
  match ev with
  | Udp_readable => watcher_active (p_udp w) = true
  | Tcp (On_response _ _) => False
  | Tcp ev => on = true /\ TcpClients.enabled (p_tcp w) ev
  | Https (On_fetch _ _ _ _ _ _) | Https On_reset => False
  | Https ev => HttpsTransfers.enabled (request_ok stats on) (p_https w) ev
  | Poll_timer => using_dns_poller (p_app w) = true /\ is_Some (timer (p_poller w))
  | Poll_socket fd _ => using_dns_poller (p_app w) = true /\
      exists ws, io_events (p_poller w) = Some ws /\ is_Some (watched ws !! fd)
  | Stats_timer => stats_timer_active (p_stat w) = true
  | Sigpipe => sigpipe (p_loop w) = true
  | Shutdown => sigint (p_loop w) = true \/ sigterm (p_loop w) = true
  | Log_flush => logging_timer_active (p_logging w) = true
  | Log_signal => sigusr2_active (p_logging w) = true
  | Log_dump => flight_recorder_async_active (p_logging w) = true /\ flight_recorder_async_pending (p_logging w) = true
  end.

Section Loop.
Context `{Env} `{!AresDns} `{!AresNtop} (debug DEBUG HAS_LIBSYSTEMD : bool).
Implicit Types (s : sys proxy_t) (stats on : bool).

Definition proxy_handle (ev : proxy_event) : M proxy_t unit :=
  match ev with
  | Udp_readable => watcher_cb (dns_server_cb debug)
  | Tcp ev => TcpClients.handle (dns_server_cb debug) ev
  | Https ev => HttpsTransfers.handle debug https_resp_cb ev
  | Poll_timer => timer_fires (dns_poll_cb debug HAS_LIBSYSTEMD)
  | Poll_socket fd revents => DnsPoller.sock_cb (dns_poll_cb debug HAS_LIBSYSTEMD) fd revents
  | Stats_timer => stat_timer_cb
  | Sigpipe => sigpipe_cb
  | Shutdown => signal_shutdown_cb
  | Log_flush => logging_timer_cb
  | Log_signal => logging_flight_recorder_dump_cb
  | Log_dump => logging_flight_recorder_dump_async_cb DEBUG
  end.

Context `{!OrderlyCurl} `{!AresLaws} `{!SaneSend} `{!SaneRecvfrom} `{!OrderlyAres}.
Context presentation `{!NtopLaws presentation}.

(** A datagram: the servers and the client go on. *)
Definition asking stats on r d s : Prop := upstream_in debug stats on r s /\ p_tcp (world s) = d.

#[local] Instance asking_stat stats on r d : Framed stat_t (asking stats on r d).
Proof. intros s s' Ho [Hu Hd]. split; [by eapply (framed stat_t s)|]. destruct Ho as [-> _]. done. Qed.

Lemma watcher_cb_run stats on r d s :
  asking stats on r d s -> wp (watcher_cb (dns_server_cb debug)) s (fun s' _ => asking stats on r d s') (fun _ r => may_stop debug r).
Proof.
  intros Hs. unfold watcher_cb. apply wp_bind, wp_get, wp_bind, wp_perform. intros a e Ha. set (s1 := Sys _ e _).
  assert (asking stats on r d s1) as Hs1 by (by eapply (framed stat_t s); [apply own_world|]).
  assert (forall fmt level, wp (LOG level fmt) s1 (fun s' _ => asking stats on r d s') (fun _ r => may_stop debug r)) as Hlog
    by (intros; apply wp_log; by eapply (framed stat_t s1); [apply own_emit|]).
  destruct a as [len bs addr|]; [|apply Hlog].
  destruct (DNS_REQUEST_BUFFER_SIZE <? len) eqn:E1; [apply Hlog|]. destruct (len <? DNS_HEADER_LENGTH) eqn:E2; [apply Hlog|].
  bool_facts. assert (zlen bs = len) as Hlen.
  { unfold DNS_REQUEST_BUFFER_SIZE, DNS_HEADER_LENGTH in *.
    pose proof (recvfrom_within _ 4096 (environment s) len bs addr ltac:(lia) (f_equal fst Ha)). lia. }
  apply (perform_framed stat_t (asking stats on r d)); [done|]. intros s2 [] Hs2 _; cbn [negb]; cbn iota; [|apply wp_flog; by left].
  replace (zlen bs <? len) with false by lia.
  apply (emit_framed stat_t (asking stats on r d)); [done|done|]. intros s3 [Hu3 Hd3] _. rewrite ztake_all by lia.
  eapply wp_mono; [apply (query_run debug stats on false addr bs r s3 Hu3); [lia|done]| |done].
  intros s4 u [Hd4 Hu4]. split; [done|congruence].
Qed.

(** The ways a callback may end the process: a fatal log line, the reading of
    debug text past its end, the counting of a negative latency, a TCP message
    that is too large, and in a dump of the log an [abort] or what its flight
    recorder does; [w] is the memory before the callback. *)
Definition proxy_stops stats (ev : proxy_event) (w : proxy_t) s (r : stop) : Prop :=
  r = Exited 1 \/ (debug = true /\ r = Fault OutOfBounds) \/ (stats = true /\ r = Fault BadConversion) \/
  (exists p c, ev = Tcp (On_read p) /\ client_heap (p_tcp (world s)) !! p = Some c /\ oversized c) \/
  (ev = Log_dump /\ (r = Aborted \/ flight_recorder (p_logging w) <> None)).

Lemma may_stop_proxy stats ev w s r : may_stop debug r -> proxy_stops stats ev w s r.
Proof. intros [?|?]; [by left|by right; left]. Qed.

(** The proxy after its own state and the poller have been left alone. *)
Lemma running_again stats on s s' :
  running debug stats on s -> upstream debug stats on s' -> (on = true -> tcp_ok (world s')) ->
  p_app (world s') = p_app (world s) -> p_poller (world s') = p_poller (world s) -> running debug stats on s'.
Proof. intros [_ Hp] Hu Ht Ha Hpo. split; [done|]. unfold poller_ok. by rewrite Ha, Hpo. Qed.

Lemma tcp_running stats ev s :
  running debug stats true s -> TcpClients.enabled (p_tcp (world s)) ev ->
  wp (TcpClients.handle (dns_server_cb debug) ev) s (fun s' _ => running debug stats true s')
    (fun s' r => proxy_stops stats (Tcp ev) (world s) s' r).
Proof.
  intros Hs Hen. pose proof Hs as [[Hu Ht] _]. destruct (Ht eq_refl) as [ls Hls].
  eapply wp_mono; [by apply (TcpClients.handle_run (upstream_in debug stats true (rest (world s))) (dns_server_cb debug)
    (may_stop debug) ev ls s)| |].
  - intros s' u [Hls' [Hu' Hr]]. injection Hr as _ _ Hpo Ha _. by apply (running_again stats true s).
  - intros s' r [->|[Hm|(p & c & -> & Hc & Ho)]]; [by left|by apply may_stop_proxy|].
    right; right; right; left. by exists p, c.
Qed.

Lemma https_running stats on ev s :
  running debug stats on s -> HttpsTransfers.enabled (request_ok stats on) (p_https (world s)) ev ->
  wp (HttpsTransfers.handle debug https_resp_cb ev) s (fun s' _ => running debug stats on s')
    (fun s' r => proxy_stops stats (Https ev) (world s) s' r).
Proof.
  intros Hs Hen. pose proof Hs as [[Hu Ht] _].
  eapply wp_mono; [apply (https_handle_run (steady_tcp (rest (world s)) on) debug (request_ok stats on) (clock_stops stats)
    false https_resp_cb ev s eq_refl)| |].
  - by apply (healthy_with (fun _ => True) _ debug _ s s); [| | |apply Hu].
  - exact Hen.
  - intros s' u Hst. destruct (healthy_J _ _ _ _ (proj1 Hst)) as [Hr Ht']. injection Hr as _ _ Hpo Ha _.
    apply (running_again stats on s); [done| |done|done|done].
    by apply (upstream_client _ _ _ _ s s' Hst).
  - intros s' r [Hm|Hc]; [by apply may_stop_proxy|]. right; right; left. exact Hc.
Qed.

(** The poller's callbacks. *)
Lemma poll_running stats on s s' :
  running debug stats on s -> addressing debug stats on (around (world s)) s' ->
  watching (p_poller (world s')) -> is_Some (timer (p_poller (world s'))) -> running debug stats on s'.
Proof.
  intros [[_ Ht] _] [Hu' Har] Hw Htm. injection Har as _ _ Htc _ _. split; [split; [done|]|by intros _].
  intros Hon. unfold tcp_ok. rewrite Htc. by apply Ht.
Qed.

Lemma poll_stops stats ev w s r : poller_stops (may_stop debug) r -> proxy_stops stats ev w s r.
Proof. intros [->|Hm]; [by left|by apply may_stop_proxy]. Qed.

(** A callback of the part [T]. *)
Lemma part_running T `{!Lens proxy_t T} stats on `{!Framed T (running debug stats on)} ev (m : M proxy_t unit) s :
  running debug stats on s -> stays T m ->
  wp m s (fun _ _ => True) (fun s' r => proxy_stops stats ev (world s) s' r) ->
  wp m s (fun s' _ => running debug stats on s') (fun s' r => proxy_stops stats ev (world s) s' r).
Proof. intros Hs Hm Hr. by eapply (wp_framed T (running debug stats on)); [exact Hm|exact Hs|exact Hr|..]. Qed.

(** Without a flight recorder the dump is one log line. *)
Lemma dump_running s :
  wp (logging_flight_recorder_dump DEBUG) s (fun _ _ => True)
    (fun _ r => r = Aborted \/ flight_recorder (p_logging (world s)) <> None).
Proof.
  unfold logging_flight_recorder_dump. apply wp_bind, wp_get. change (part logging_t s) with (p_logging (world s)).
  destruct (flight_recorder (p_logging (world s))) as [rb|] eqn:E.
  { set (m := _ ≫= _). unfold wp. destruct (m s); [done|by right]. }
  unfold _log. cbn [log_at]. apply wp_bind, wp_get. change (part logging_t s) with (p_logging (world s)).
  destruct (_ && _); [by apply wp_ret|]. apply wp_bind, wp_ret, wp_bind.
  apply wp_mono with (Φ := fun s1 _ => flight_recorder (part logging_t s1) = None) (Ψ := fun _ r => r = Aborted);
    [| |by left].
  { destruct (Logging.logfile (p_logging (world s))); [by apply wp_ret|]. apply wp_bind, wp_perform.
    intros [] e _; [by apply wp_modify|by apply wp_halt]. }
  intros s1 _ E1. apply wp_bind, wp_perform. intros tv e _.
  destruct (SeverityStr !! Z.to_nat (severity_code LOG_INFO)) as [str|] eqn:Es; [|by vm_compute in Es].
  destruct (log_line _ _) as [[buff pos]|]; [|by apply wp_halt; left].
  unfold log_deliver. apply wp_bind, wp_get. change (part logging_t (Sys (world s1) e (trace s1))) with (part logging_t s1).
  rewrite E1. apply wp_bind, wp_ret. destruct (_ <? _); [by apply wp_ret|].
  apply wp_bind, wp_emit, wp_bind. destruct (LOG_FLUSH_LEVEL <=? _); [apply wp_emit|apply wp_ret]; by apply wp_ret.
Qed.

(** One callback. *)
Lemma proxy_handle_run stats on ev s :
  running debug stats on s -> proxy_enabled stats on (world s) ev ->
  wp (proxy_handle ev) s (fun s' _ => running debug stats on s') (fun s' r => proxy_stops stats ev (world s) s' r).
Proof.
  intros Hs Hen. pose proof Hs as [[Hu Ht] Hp].
  assert (addressing debug stats on (around (world s)) s) as Had by done.
  destruct ev as [|ev|ev| |fd revents| | | | | |]; cbn [proxy_handle proxy_enabled] in *.
  - eapply wp_mono; [apply (watcher_cb_run stats on (rest (world s)) (p_tcp (world s))); by split; [split|]| |].
    + intros s' u [[Hu' Hr] Hd]. injection Hr as _ _ Hpo Ha _. apply (running_again stats on s); try done.
      unfold tcp_ok. by rewrite Hd.
    + intros s' r. apply may_stop_proxy.
  - destruct ev as [|p|p|]; [destruct Hen as [-> Hen]; by apply tcp_running..|done].
  - destruct ev; [done|by apply https_running..|done].
  - destruct Hen as [Hd _]. destruct (Hp Hd) as [Hw _].
    eapply wp_mono; [apply (timer_fires_run presentation (may_stop debug) (addressing debug stats on (around (world s)))
      (dns_poll_cb debug HAS_LIBSYSTEMD) s Had); exact Hw
      | |intros s' r; apply poll_stops].
    intros s' u (Hw' & Ht' & Ha). by eapply poll_running.
  - destruct Hen as [Hd _]. destruct (Hp Hd) as [Hw Htm].
    eapply wp_mono; [apply (DnsPoller.sock_cb_run presentation (may_stop debug) (addressing debug stats on (around (world s)))
      (dns_poll_cb debug HAS_LIBSYSTEMD) fd revents s Had); [exact Hw|exact Htm]
      | |intros s' r; apply poll_stops].
    intros s' u (Hw' & Ht' & Ha). by eapply poll_running.
  - apply (part_running stat_t stats on); [exact Hs|apply stat_timer_stays|done].
  - apply (part_running loop_t stats on); [exact Hs|apply stays_log|done].
  - apply (part_running loop_t stats on); [exact Hs|unfold signal_shutdown_cb; stay loop_t|done].
  - apply (part_running logging_t stats on); [exact Hs|unfold logging_timer_cb; stay logging_t|].
    unfold logging_timer_cb. apply wp_bind, wp_get. by destruct (Logging.logfile _).
  - apply (part_running logging_t stats on); [exact Hs|apply stays_modify|done].
  - apply (part_running logging_t stats on); [exact Hs|apply logging_dump_stays|].
    eapply wp_mono; [apply dump_running|done|]. intros s' r Hr. by do 4 right.
Qed.

(** The states of the proxy: [main] has started it with some command line, which
    decides what the parameters are, callbacks of active watchers ran, and lines
    were written to the log. *)
Inductive proxy_reachable (stats on : bool) : sys proxy_t -> Prop :=
| proxy_start args o s s' :
    blank s -> main_init DEBUG HAS_LIBSYSTEMD args s = Ok s' o ->
    stats_on o = stats -> tcp_on o = on -> logging_debug_enabled (p_logging (world s')) = debug ->
    proxy_reachable stats on s'
| proxy_callback s ev s' :
    proxy_reachable stats on s -> proxy_enabled stats on (world s) ev -> proxy_handle ev s = Ok s' tt ->
    proxy_reachable stats on s'
| proxy_logs s s' file line severity msg :
    proxy_reachable stats on s -> _log DEBUG file line severity msg s = Ok s' tt -> proxy_reachable stats on s'.

Lemma reachable_running stats on s : proxy_reachable stats on s -> running debug stats on s.
Proof.
  induction 1 as [args o s s' Hb Hm <- <- _|s ev s' _ IH Hen Hh|s s' file line severity msg _ IH Hl].
  - pose proof (main_init_run debug DEBUG HAS_LIBSYSTEMD args s Hb) as Hw. unfold wp in Hw. by rewrite Hm in Hw.
  - pose proof (proxy_handle_run stats on ev s IH Hen) as Hw. unfold wp in Hw. by rewrite Hh in Hw.
  - pose proof (log_at_stays DEBUG 2 file line severity msg s) as Hw. unfold wp, _log in *. rewrite Hl in Hw.
    by eapply (framed logging_t s).
Qed.

End Loop.

(** ** A run

    A network in which everything works: the URL names a host, the bootstrap
    resolver lists two addresses, a client asks over UDP and the resolver
    answers. *)

Definition network : Env :=
  {| env_state := unit;
     answer A c e :=
       match c in call A return A * unit with
       | Inet_pton _ _ => (false, e)
       | Recvfrom _ n => (Recvfrom_data 12 (ztake n query) (x02 :: replicate 15 x07), e)
       | Ares (Ares_getaddrinfo _ _) => ([Sock_state 9 true false], e)
       | Ares (Ares_process_fd _ _) => ([Sock_state 9 false false; Resolved ARES_SUCCESS (Some example_nodes)], e)
       | c => @answer resolver _ c e
       end |}.

Definition before_main : @sys network proxy_t := @Sys network proxy_t (lab_memory false) tt [].
Definition proxy_state {A} (o : @outcome network proxy_t A) : @sys network proxy_t :=
  match o with Ok s _ => s | Stop s _ => s end.

Abbreviation lab_handle := (@proxy_handle network toy_ares toy_ntop false false true).
Definition up : @sys network proxy_t := proxy_state (@main_init network false true [] before_main).
Definition looking : @sys network proxy_t := proxy_state (lab_handle Poll_timer up).
Definition located : @sys network proxy_t := proxy_state (lab_handle (Poll_socket 9 1) looking).
Definition asked : @sys network proxy_t := proxy_state (lab_handle Udp_readable located).
Definition replied : @sys network proxy_t := proxy_state (lab_handle (Https (On_socket 3 1)) asked).

#[export] Instance network_curl : @OrderlyCurl network.
Proof.
  split.
  - intros [] e; cbn; repeat constructor; vm_compute; done.
  - intros o e. by vm_compute.
Defined.
Lemma network_send : @SaneSend network.
Proof. intros fd data e n [= <-]. split; [apply zlen_nonneg|done]. Defined.
Lemma network_recvfrom : @SaneRecvfrom network.
Proof. intros fd n e len bs a Hn [= <- <- <-]. rewrite zlen_ztake by done. by rewrite Z.min_comm. Defined.
Lemma network_ares : @OrderlyAres network.
Proof.
  split.
  - intros op e fd r w. destruct op; cbn; rewrite ?elem_of_cons, ?elem_of_nil; intros Hin;
      repeat destruct Hin as [Hin|Hin]; try done; by injection Hin as -> _ _.
  - intros op e result Hne. destruct op; cbn; rewrite ?not_elem_of_cons; try done;
      repeat split; try discriminate; apply not_elem_of_nil.
  - intros op e status result. destruct op; cbn; rewrite ?elem_of_cons, ?elem_of_nil; intros Hin;
      repeat destruct Hin as [Hin|Hin]; try done. injection Hin as -> ->. apply Exists_cons_hd. by left.
Defined.

Abbreviation lab_reachable := (@proxy_reachable network toy_ares toy_ntop false false true false true).

Lemma up_reachable : lab_reachable up.
Proof.
  apply (@proxy_start network toy_ares toy_ntop false false true false true [] options_init before_main);
    [by split|vm_compute; reflexivity..].
Qed.
Lemma looking_reachable : lab_reachable looking.
Proof.
  apply (@proxy_callback network toy_ares toy_ntop false false true false true up Poll_timer);
    [exact up_reachable|by split; [|vm_compute; eexists]|vm_compute; reflexivity].
Qed.
Lemma located_reachable : lab_reachable located.
Proof.
  apply (@proxy_callback network toy_ares toy_ntop false false true false true looking (Poll_socket 9 1));
    [exact looking_reachable| |vm_compute; reflexivity].
  split; [vm_compute; reflexivity|]. eexists. split; [vm_compute; reflexivity|]. vm_compute. by eexists.
Qed.
Lemma asked_reachable : lab_reachable asked.
Proof.
  by apply (@proxy_callback network toy_ares toy_ntop false false true false true located Udp_readable);
    [exact located_reachable|vm_compute; reflexivity..].
Qed.

(** A signal arrives while the request is open. *)
Definition stopped : @sys network proxy_t := proxy_state (@main_stop network toy_ares toy_ntop false true asked).

(** The client has its answer. *)
Example lab_answered : datagrams (@trace network proxy_t replied) = [(3, lab_reply, x02 :: replicate 15 x07)].
Proof. vm_compute. reflexivity. Qed.

(** ** Theorems *)

Section Claims.
Context `{Env} `{!AresDns} `{!AresNtop} (debug DEBUG HAS_LIBSYSTEMD : bool) (stats on : bool).
Context `{!OrderlyCurl} `{!AresLaws} `{!SaneSend} `{!SaneRecvfrom} `{!OrderlyAres}.
Context presentation `{!NtopLaws presentation}.
Implicit Types (s : sys proxy_t).

(** C1: the running proxy is safe.  From start-up on, whatever datagrams and
    connections arrive, whatever libcurl and c-ares report and in whatever order
    the event loop runs the callbacks of its watchers, each callback returns to a
    state of the running proxy: no freed or missing object is used and no loop
    is endless.  The exceptions are listed: the process ends with a fatal log
    line, or the callback hits one of the known defects (debug text read past
    its end, a latency below zero, a TCP length prefix above 65533), or a dump of
    the log ends in [abort] or meets a flight recorder, for which see
    [Logging]. *)
Theorem proxy_safe s ev :
  proxy_reachable debug DEBUG HAS_LIBSYSTEMD stats on s -> proxy_enabled stats on (world s) ev ->
  wp (proxy_handle debug DEBUG HAS_LIBSYSTEMD ev) s
    (fun s' _ => proxy_reachable debug DEBUG HAS_LIBSYSTEMD stats on s')
    (fun s' r => proxy_stops debug stats ev (world s) s' r).
Proof.
  intros Hs Hen.
  pose proof (proxy_handle_run debug DEBUG HAS_LIBSYSTEMD presentation stats on ev s
    (reachable_running debug DEBUG HAS_LIBSYSTEMD presentation stats on s Hs) Hen) as Hw.
  unfold wp in *. destruct (proxy_handle _ _ _ ev s) as [s' []|s' r] eqn:E; [|done]. by eapply proxy_callback.
Qed.

(** C2: the parts of the running proxy stay consistent together.  Every DNS request
    taken from a client has been closed exactly once or has its own live
    transfer, which carries the message, its identifier and its length; the
    string lists the transfers refer to exist, and so does the list of
    bootstrap addresses; the TCP server's list holds exactly its live clients,
    within the limit; a poller in use watches its sockets and has its timer
    armed. *)
Theorem proxy_consistent s :
  proxy_reachable debug DEBUG HAS_LIBSYSTEMD stats on s ->
  (exists ls, transfers debug (request_ok stats on) (p_https (world s)) ls /\
     started (transfer_events (trace s)) ≡ₚ answered (transfer_events (trace s)) ++ ids_of (p_https (world s)) ls) /\
  lists_live (p_https (world s)) /\ list_ok (p_https (world s)) (resolv (p_app (world s))) /\
  (on = true -> exists ls, serves (p_tcp (world s)) ls) /\
  (using_dns_poller (p_app (world s)) = true -> watching (p_poller (world s)) /\ is_Some (timer (p_poller (world s)))).
Proof.
  intros Hs. destruct (reachable_running debug DEBUG HAS_LIBSYSTEMD presentation stats on s Hs) as [[Hu Ht] Hp].
  destruct (up_client _ _ _ _ Hu) as (ls & (Htr & Hb & _) & Hl & _).
  split; [by exists ls|]. split; [done|]. split; [apply Hu|]. by split.
Qed.

End Claims.

Lemma proxy_safe_witness :
  @wp network proxy_t unit (lab_handle (Https (On_socket 3 1))) asked
    (fun s' _ => lab_reachable s') (fun s' r => @proxy_stops network false false (Https (On_socket 3 1)) (@world network proxy_t asked) s' r).
Proof.
  apply (@proxy_safe network toy_ares toy_ntop false false true false true _ toy_laws network_send network_recvfrom
    network_ares fifteen toy_ntop_laws asked (Https (On_socket 3 1)) asked_reachable).
  exists (EvIo 3 1 true). split; [|done].
  replace (c_io_events (p_https (@world network proxy_t asked))) with (EvIo 3 1 true :: replicate 11 unused_io)
    by (vm_compute; reflexivity).
  apply elem_of_cons. by left.
Defined.

Lemma proxy_consistent_witness :
  (exists ls, transfers false (request_ok false true) (p_https (@world network proxy_t asked)) ls /\
     [7] ≡ₚ [] ++ ids_of (p_https (@world network proxy_t asked)) ls) /\
  (exists ls, serves (p_tcp (@world network proxy_t asked)) ls) /\
  is_Some (timer (p_poller (@world network proxy_t asked))).
Proof.
  destruct (@proxy_consistent network toy_ares toy_ntop false false true false true _ toy_laws network_send network_recvfrom
    network_ares fifteen toy_ntop_laws asked asked_reachable) as (Hls & _ & _ & Ht & Hp).
  split; [exact Hls|]. split; [exact (Ht eq_refl)|]. apply Hp. vm_compute. reflexivity.
Defined.

(** C37: shutting down frees the list of bootstrap addresses too early.  After
    [main] has left the first [ev_run] it frees [app.resolv], although the
    transfers that are still open have it as their [CURLOPT_RESOLVE], and then
    enters the loop again with the watcher of their socket active; libcurl wants
    the list kept as long as the transfer uses it. *)
Theorem shutdown_frees_list_in_use :
  exists s' p h x os l, @main_stop network toy_ares toy_ntop false true asked = Ok s' tt /\
    fetch_heap (p_https (@world network proxy_t s')) !! p = Some x /\ curl x = Some h /\
    easy (p_https (@world network proxy_t s')) !! h = Some os /\ CURLOPT_RESOLVE (Some l) ∈ os /\
    slists (p_https (@world network proxy_t s')) !! l = None /\
    proxy_enabled false true (@world network proxy_t s') (Https (On_socket 3 1)).
Proof.
  exists stopped. eexists 1%positive, 1%positive, _, _, _.
  split; [vm_compute; reflexivity|]. split; [vm_compute; reflexivity|]. split; [vm_compute; reflexivity|].
  split; [vm_compute; reflexivity|]. split; [apply elem_of_cons; left; reflexivity|]. split; [vm_compute; reflexivity|].
  exists (EvIo 3 1 true). split; [|done].
  replace (c_io_events (p_https (@world network proxy_t stopped))) with (EvIo 3 1 true :: replicate 11 unused_io)
    by (vm_compute; reflexivity).
  apply elem_of_cons. by left.
Qed.
